(** * PIO support functions ([src/clib/pioc_support.c]): a shallow embedding

    The C functions of [pioc_support.c] are translated into Rocq functions
    over an interaction monad [prog]: every call into MPI, into the netCDF
    libraries, into the C library or into another PIO source file is an
    [event] whose answer is supplied by the environment.  A single process
    is run against a [world] (an oracle answering the n-th call); a group
    of processes is run by a scheduler that matches sends with receives and
    fires collectives. *)

From Stdlib Require Import ZArith Lia Ascii String DecimalString DecimalPos DecimalZ.
From stdpp Require Import base option list gmap sets strings.

Local Open Scope Z_scope.

(** ** Constants of [pio.h], [pio_internal.h], [netcdf.h] and [mpi.h] *)

(** Modelled from the spec: the headers [pio.h] and [netcdf.h] are not part
    of the sources at hand.  Zero denotes success, backend-native codes live
    in a reserved negative band, and PIO's own codes are negative too; the
    numeric values are those of the netCDF-C header, which [pio.h] aliases. *)
Definition PIO_NOERR : Z := 0.
Definition NC_NOERR : Z := 0.
Definition MPI_SUCCESS : Z := 0.
Definition NC_EBADID : Z := -33.
Definition NC_EINVAL : Z := -36.
Definition NC_ENOTNC : Z := -51.
Definition NC_ENOMEM : Z := -61.
Definition NC_EIO : Z := -68.
Definition PIO_EBADID : Z := NC_EBADID.
Definition PIO_EINVAL : Z := NC_EINVAL.
Definition PIO_ENOMEM : Z := NC_ENOMEM.
Definition PIO_EIO : Z := NC_EIO.
Definition PIO_EBADIOTYPE : Z := -500.

(** Modelled from the spec: the backend-type tags of [enum PIO_IOTYPE]
    ([pio.h]); the range test of [PIOc_openfile_retry] has
    [PIO_IOTYPE_PNETCDF] as the least and [PIO_IOTYPE_NETCDF4P] as the
    greatest tag, and [PIO_IOTYPE_NETCDF] is the simplest serial format. *)
Definition PIO_IOTYPE_PNETCDF : Z := 1.
Definition PIO_IOTYPE_NETCDF : Z := 2.
Definition PIO_IOTYPE_NETCDF4C : Z := 3.
Definition PIO_IOTYPE_NETCDF4P : Z := 4.

(** Modelled from the spec: the three error-handling modes of an I/O system
    (abort-on-error, broadcast-error-code, return-error-to-caller). *)
Definition PIO_INTERNAL_ERROR : Z := -51.
Definition PIO_BCAST_ERROR : Z := -52.
Definition PIO_RETURN_ERROR : Z := -53.

(** Modelled from the spec: open-mode bits of [netcdf.h], the rearranger
    tags of [pio.h], the operation code of [pio_internal.h] and the size of
    the per-file variable table. *)
Definition NC_WRITE : Z := 1.
Definition PIO_WRITE : Z := NC_WRITE.
Definition NC_NETCDF4 : Z := 4096.
Definition NC_MPIIO : Z := 8192.
Definition PIO_REARR_BOX : Z := 1.
Definition PIO_REARR_SUBSET : Z := 2.
Definition PIO_MSG_OPEN_FILE : Z := 0.
Definition PIO_MAX_VARS : Z := 8192.
Definition MPI_COMM_WORLD : Z := 0.

(** [#define versno 2001] *)
Definition versno : Z := 2001.

(** The C type [int]: 32 bits, two's complement.  [int_wrap] is the value an
    [int] holds after an arithmetic result [z] is stored into it. *)
Definition INT_MIN : Z := - 2 ^ 31.
Definition INT_MAX : Z := 2 ^ 31 - 1.
Definition int_wrap (z : Z) : Z := (z + 2 ^ 31) mod 2 ^ 32 - 2 ^ 31.
Definition in_int (z : Z) : Prop := INT_MIN <= z <= INT_MAX.
Definition in_offset (z : Z) : Prop := - 2 ^ 63 <= z <= 2 ^ 63 - 1.

(** The C types [long] and [long long], and with them [PIO_Offset] and
    [bufsize]: 64 bits, two's complement.  [long_wrap] is the value such an
    object holds after [z] is stored into it; [long_clamp] is the value
    [strtol] and [strtoll] return for a numeral that denotes [z], which is
    [LONG_MIN] or [LONG_MAX] when the numeral is out of range. *)
Definition LONG_MIN : Z := - 2 ^ 63.
Definition LONG_MAX : Z := 2 ^ 63 - 1.
Definition long_wrap (z : Z) : Z := (z + 2 ^ 63) mod 2 ^ 64 - 2 ^ 63.
Definition long_clamp (z : Z) : Z := Z.max LONG_MIN (Z.min LONG_MAX z).

(** A C truth value. *)
Definition nonzero (z : Z) : bool := negb (z =? 0).

(** The conditional-compilation switches of [config.h] that select code in
    this file. *)
Record build_config : Type := Build {
  has_NETCDF : bool;       (* [_NETCDF] *)
  has_NETCDF4 : bool;      (* [_NETCDF4] *)
  has_PNETCDF : bool;      (* [_PNETCDF] *)
  has_MPISERIAL : bool;    (* [_MPISERIAL], tested by the open call *)
  has_MPI_SERIAL : bool    (* [MPI_SERIAL], tested by [piodie] *)
}.

(** ** Calls into the environment *)

(** One constructor per external call made by the file; the arguments are
    the values the C code passes (buffers by content). *)
Inductive ctype : Type := T_int | T_PIO_Offset | T_file_desc_t.

(** A C stream: one of the standard streams, or a file opened by path. *)
Inductive FILE : Type := stdout | stderr | file_stream (path : string).

Inductive event : Type :=
  (* C library; [malloc n ty] is [malloc(n * sizeof(ty))] *)
  | malloc (n : Z) (ty : ctype)
  | calloc (nmemb : Z) (ty : ctype)
  | free_block (what : string)
  | fputs (fp : FILE) (text : string)     (* [printf]/[fprintf], formatted *)
  | backtrace_symbols (size : Z)
  | fopen_r (path : string)
  | fopen_w (path : string)
  | fclose (fp : FILE)
  (* MPI *)
  | MPI_Comm_size (comm : Z)
  | MPI_Comm_rank (comm : Z)
  | MPI_Send_int (v : Z) (dest tag comm : Z)
  | MPI_Send_offsets (buf : list Z) (count : Z) (dest tag comm : Z)
  | MPI_Recv_int (source tag comm : Z)
  | MPI_Recv_offsets (count : Z) (source tag comm : Z)
  | MPI_Bcast_int (v : Z) (root comm : Z)
  | MPI_Bcast_chars (s : string) (count : Z) (root comm : Z)
  | MPI_Bcast_ints (buf : list Z) (count : Z) (root comm : Z)
  | MPI_Gather_offset (v : Z) (root comm : Z)
  | MPI_Error_string (errorcode : Z)
  (* netCDF and PnetCDF *)
  | nc_open (path : string) (mode : Z)
  | nc_open_par (path : string) (mode comm info : Z)
  | ncmpi_open (comm : Z) (path : string) (mode info : Z)
  | ncmpi_buffer_attach (fh : Z) (bufsize : Z)
  | nc_strerror (status : Z)
  | ncmpi_strerror (status : Z)
  (* other PIO source files *)
  | cn_buffer_report (iosysid : Z) (collective : bool).

(** What the environment hands back: a return code, and the content of every
    buffer the call writes. *)
Definition resp (e : event) : Type :=
  match e with
  | malloc _ _ | calloc _ _ => bool                 (* true: a non-null block *)
  | fopen_r _ => option string                      (* the file's content *)
  | backtrace_symbols _ => list string              (* one line per frame *)
  | fopen_w _ => bool
  | MPI_Comm_size _ | MPI_Comm_rank _ => Z
  | MPI_Send_int _ _ _ _ | MPI_Send_offsets _ _ _ _ _ => Z
  | MPI_Recv_int _ _ _ => Z * Z
  | MPI_Recv_offsets _ _ _ _ => Z * list Z
  | MPI_Bcast_int _ _ _ => Z * Z
  | MPI_Bcast_chars _ _ _ _ => Z * string
  | MPI_Bcast_ints _ _ _ _ => Z * list Z
  | MPI_Gather_offset _ _ _ => Z * list Z
  | MPI_Error_string _ => Z * string
  | nc_open _ _ | nc_open_par _ _ _ _ | ncmpi_open _ _ _ _ => Z * Z  (* status, handle *)
  | ncmpi_buffer_attach _ _ => Z
  | nc_strerror _ | ncmpi_strerror _ => string
  | free_block _ | fputs _ _ | fclose _ | cn_buffer_report _ _ => unit
  end.

(** ** The interaction monad *)

(** A computation returns, makes a call and continues with its answer, or
    terminates the process ([abort()] / [MPI_Abort]). *)
Inductive termination : Type :=
  | C_abort                                (* [abort()] *)
  | MPI_Abort (comm : Z) (errorcode : Z)   (* [MPI_Abort(comm, errorcode)] *)
  | C_undefined (what : string).           (* a null block is written to *)

Inductive prog (A : Type) : Type :=
  | Ret (a : A)
  | Vis (e : event) (k : resp e -> prog A)
  | Abort (how : termination).
Arguments Ret {A} a.
Arguments Vis {A} e k.
Arguments Abort {A} how.

Fixpoint bind {A B : Type} (p : prog A) (f : A -> prog B) : prog B :=
  match p with
  | Ret a => f a
  | Vis e k => Vis e (fun r => bind (k r) f)
  | Abort c => Abort c
  end.

#[global] Instance prog_ret : MRet prog := @Ret.
#[global] Instance prog_bind : MBind prog := fun A B f p => bind p f.

Definition call (e : event) : prog (resp e) := Vis e Ret.

(** One entry of an execution trace: a call and its answer. *)
Definition entry : Type := { e : event & resp e }.
Definition Entry (e : event) (r : resp e) : entry := existT e r.
Definition entry_event (x : entry) : event := projT1 x.

Inductive outcome (A : Type) : Type :=
  | Returned (a : A)
  | Terminated (how : termination).
Arguments Returned {A} a.
Arguments Terminated {A} how.

(** The environment of one process: the answer to its n-th call. *)
Definition world : Type := nat -> forall e : event, resp e.

Fixpoint run_from {A : Type} (w : world) (n : nat) (p : prog A)
  : list entry * outcome A :=
  match p with
  | Ret a => ([], Returned a)
  | Abort c => ([], Terminated c)
  | Vis e k =>
      let r := w n e in
      let '(t, o) := run_from w (S n) (k r) in
      (Entry e r :: t, o)
  end.

Definition run {A : Type} (w : world) (p : prog A) : list entry * outcome A :=
  run_from w 0%nat p.

Definition events_of (t : list entry) : list event := map entry_event t.

(** ** Process-wide data ([pio.h]) *)

(** Modelled from the spec: [iosystem_desc_t] is declared in [pio.h]; these
    are the members [pioc_support.c] reads.  [compmaster] is both tested as
    a flag and passed as the root of the inter-group broadcasts. *)
Record iosystem_desc_t : Type := IOSystem {
  iosysid : Z;
  union_comm : Z;
  io_comm : Z;
  intercomm : Z;
  my_comm : Z;
  io_rank : Z;
  iomaster : bool;
  compmaster : Z;
  ioroot : Z;
  comproot : Z;
  error_handler : Z;
  async_interface : bool;
  ioproc : bool;
  info : Z
}.

(** Pointers that are only ever set to [NULL] or compared with it. *)
Definition NULL : Z := 0.

Record var_desc_t : Type := VarDesc {
  v_record : Z;
  v_ndims : Z;
  v_request : Z;     (* with [_PNETCDF] only *)
  v_nreqs : Z;       (* with [_PNETCDF] only *)
  v_fillbuf : Z;
  v_iobuf : Z
}.

Record wmulti_buffer : Type := WMulti {
  validvars : Z;
  vid : Z;
  data : Z;
  wb_next : Z;
  frame : Z;
  fillvalue : Z
}.

(** [file_desc_t]; [pio_ncid] is [None] until the public identifier is
    assigned (the member of a freshly allocated record holds no value). *)
Record file_desc_t : Type := FileDesc {
  iosystem : iosystem_desc_t;
  buffer : wmulti_buffer;
  fh : Z;
  pio_ncid : option Z;
  iotype : Z;
  varlist : list var_desc_t;
  mode : Z;
  do_io : Z
}.

Definition set_fh (f : file_desc_t) (v : Z) : file_desc_t :=
  FileDesc (iosystem f) (buffer f) v (pio_ncid f) (iotype f) (varlist f) (mode f) (do_io f).
Definition set_iotype (f : file_desc_t) (v : Z) : file_desc_t :=
  FileDesc (iosystem f) (buffer f) (fh f) (pio_ncid f) v (varlist f) (mode f) (do_io f).
Definition set_mode (f : file_desc_t) (v : Z) : file_desc_t :=
  FileDesc (iosystem f) (buffer f) (fh f) (pio_ncid f) (iotype f) (varlist f) v (do_io f).
Definition set_pio_ncid (f : file_desc_t) (v : Z) : file_desc_t :=
  FileDesc (iosystem f) (buffer f) (fh f) (Some v) (iotype f) (varlist f) (mode f) (do_io f).

(** ** Formatted output and input *)

(** The newline character, written [\n] in C. *)
Definition nl : string := String (ascii_of_nat 10) EmptyString.

(** [%d] / [%ld] of [fprintf]: the decimal numeral, with a minus sign for
    negative numbers. *)
Definition print_int (z : Z) : string := NilZero.string_of_int (Z.to_int z).

(** [isspace] and [isdigit] in the C locale. *)
Definition is_space (c : ascii) : bool :=
  let n := nat_of_ascii c in
  ((9 <=? n) && (n <=? 13) || (n =? 32))%nat.
Definition digit_val (c : ascii) : option Z :=
  let n := nat_of_ascii c in
  if ((48 <=? n) && (n <=? 57))%nat then Some (Z.of_nat n - 48) else None.

Fixpoint skip_space (s : string) : string :=
  match s with
  | String c s' => if is_space c then skip_space s' else s
  | EmptyString => s
  end.

(** The longest run of digits at the front of [s], read as a decimal numeral
    on top of [acc]. *)
Fixpoint scan_digits (acc : Z) (s : string) : Z * string :=
  match s with
  | String c s' =>
      match digit_val c with
      | Some d => scan_digits (10 * acc + d) s'
      | None => (acc, s)
      end
  | EmptyString => (acc, s)
  end.

Definition starts_with_digit (s : string) : bool :=
  match s with
  | String c _ => bool_decide (is_Some (digit_val c))
  | EmptyString => false
  end.

(** The object a numeral is converted for: an [int] ([%d], [atoi]) or a
    [long] ([%ld], [atoll]).  C leaves the conversion of a numeral outside
    the range of the object undefined; the embedding does what the C library
    does: the digits go through [strtol], which stops at [LONG_MIN] and
    [LONG_MAX], and an [int] keeps the low 32 bits of that result. *)
Inductive int_size : Type := Size_int | Size_long.

Definition store (sz : int_size) (v : Z) : Z :=
  match sz with
  | Size_int => int_wrap (long_clamp v)
  | Size_long => long_clamp v
  end.

(** The conversions [%d] and [%ld] of [fscanf]: leading white space is
    skipped, then an optional sign and at least one digit are read.  The
    result is the value stored ([None]: a matching failure) and the rest of
    the stream: what has been skipped or read is gone, a sign that no digit
    follows included. *)
Definition scan_int (sz : int_size) (s : string) : option Z * string :=
  let s := skip_space s in
  match s with
  | String "-" s' =>
      if starts_with_digit s' then
        let '(v, r) := scan_digits 0 s' in (Some (store sz (- v)), r)
      else (None, s')
  | String "+" s' =>
      if starts_with_digit s' then
        let '(v, r) := scan_digits 0 s' in (Some (store sz v), r)
      else (None, s')
  | _ =>
      if starts_with_digit s then
        let '(v, r) := scan_digits 0 s in (Some (store sz v), r)
      else (None, s)
  end.

Inductive directive : Type :=
  | Lit (c : ascii)     (* an ordinary character: must match *)
  | Space               (* white space: matches any amount of white space *)
  | Conv (sz : int_size).   (* [%d] or [%ld] *)

Fixpoint parse_format (fmt : string) : list directive :=
  match fmt with
  | EmptyString => []
  | String "%" (String "d" r) => Conv Size_int :: parse_format r
  | String "%" (String "l" (String "d" r)) => Conv Size_long :: parse_format r
  | String c r => (if is_space c then Space else Lit c) :: parse_format r
  end.

(** [fscanf]: the values converted, in order, and the rest of the stream.
    Scanning stops at the first directive that fails; the variables of the
    conversions not reached keep their old values. *)
Fixpoint scan_directives (ds : list directive) (s : string) : list Z * string :=
  match ds with
  | [] => ([], s)
  | Space :: ds' => scan_directives ds' (skip_space s)
  | Lit c :: ds' =>
      match s with
      | String c' s' => if bool_decide (c = c') then scan_directives ds' s' else ([], s)
      | EmptyString => ([], s)
      end
  | Conv sz :: ds' =>
      match scan_int sz s with
      | (Some v, s') => let '(vs, r) := scan_directives ds' s' in (v :: vs, r)
      | (None, s') => ([], s')
      end
  end.

Definition fscanf (fmt : string) (s : string) : list Z * string :=
  scan_directives (parse_format fmt) s.

(** ** Fatal errors and error classification *)

Definition this_file : string := "pioc_support.c".

(** [print_trace] (lines 232-251); [fp] is [None] for a null stream. *)
Definition print_trace (fp : option FILE) : prog unit :=
  let fp := default stderr fp in
  strings ← call (backtrace_symbols 10);
  _ ← call (fputs fp ("Obtained " +:+ print_int (Z.of_nat (length strings))
                        +:+ " stack frames." +:+ nl));
  _ ← foldr (fun s k => _ ← call (fputs fp (s +:+ nl)); k) (mret tt) strings;
  call (free_block "strings").

(** [piodie] (lines 261-272): report, dump the stack, terminate. *)
Definition piodie {A : Type} (b : build_config) (msg : option string)
    (fname : option string) (line : Z) : prog A :=
  _ ← call (fputs stderr ("Abort with message " +:+ default "_" msg +:+ " in file "
                            +:+ default "_" fname +:+ " at line " +:+ print_int line
                            +:+ nl));
  _ ← print_trace (Some stderr);
  Abort (if has_MPI_SERIAL b then C_abort else MPI_Abort MPI_COMM_WORLD (-1)).

(** [piomemerror] (lines 253-258): the buffer-pool report, then [piodie].
    [req] is a [size_t]; the message formats it with [%ld], which reads its
    64 bits as a [long]. *)
Definition piomemerror {A : Type} (b : build_config) (ios : iosystem_desc_t)
    (req : Z) (fname : option string) (line : Z) : prog A :=
  _ ← call (cn_buffer_report (iosysid ios) false);
  piodie b (Some ("out of memory requesting: " +:+ print_int (long_wrap req))) fname line.

(** [iotype_error] (lines 375-380). *)
Definition iotype_error (iot : Z) (fname : option string) (line : Z) : prog Z :=
  _ ← call (fputs stderr ("ERROR: iotype " +:+ print_int iot +:+ " not defined in build "
                            +:+ default "_" fname +:+ " " +:+ print_int line +:+ nl));
  mret PIO_EBADIOTYPE.

(** [check_netcdf] (lines 325-373).  The value returned is [status], which
    the broadcast of the [PIO_BCAST_ERROR] mode may have overwritten. *)
Definition check_netcdf (b : build_config) (file : file_desc_t) (status : Z)
    (fname : option string) (line : Z) : prog Z :=
  let ios := iosystem file in
  let t := iotype file in
  if has_NETCDF b &&
     (bool_decide (t = PIO_IOTYPE_NETCDF) ||
      (has_NETCDF4 b &&
       (bool_decide (t = PIO_IOTYPE_NETCDF4P) || bool_decide (t = PIO_IOTYPE_NETCDF4C))))
  then
    _ ← (if iomaster ios && nonzero status
            && bool_decide (error_handler ios = PIO_INTERNAL_ERROR)
         then msg ← call (nc_strerror status); piodie b (Some msg) fname line
         else mret tt);
    if bool_decide (error_handler ios = PIO_INTERNAL_ERROR) then
      if nonzero status then Abort (MPI_Abort MPI_COMM_WORLD status) else mret status
    else if bool_decide (error_handler ios = PIO_BCAST_ERROR) then
      '(_, status') ← call (MPI_Bcast_int status (ioroot ios) (my_comm ios));
      mret status'
    else mret status
  else if has_PNETCDF b && bool_decide (t = PIO_IOTYPE_PNETCDF) then
    _ ← (if nonzero status && bool_decide (error_handler ios = PIO_INTERNAL_ERROR)
         then msg ← call (ncmpi_strerror status); piodie b (Some msg) fname line
         else mret tt);
    if bool_decide (error_handler ios = PIO_BCAST_ERROR) then
      '(_, status') ← call (MPI_Bcast_int status (ioroot ios) (my_comm ios));
      mret status'
    else mret status
  else
    _ ← iotype_error t (Some this_file) 370;
    mret status.

(** [check_mpi] (lines 295-314): every transport failure becomes [PIO_EIO]. *)
Definition check_mpi (b : build_config) (file : option file_desc_t) (mpierr : Z)
    (filename : option string) (line : Z) : prog Z :=
  if nonzero mpierr then
    '(rc, errstring) ← call (MPI_Error_string mpierr);
    _ ← (if nonzero rc then mret tt
         else call (fputs stderr ("MPI ERROR: " +:+ errstring +:+ " in file "
                                    +:+ default "_" filename +:+ " at line "
                                    +:+ print_int line +:+ nl)));
    _ ← match file with
        | Some f => _ ← check_netcdf b f PIO_EIO filename line; mret tt
        | None => mret tt
        end;
    mret PIO_EIO
  else mret PIO_NOERR.

(** ** Opening a file: [PIOc_openfile_retry] (lines 711-909) *)

(** The process-wide variables the open call reads and writes. *)
Record globals : Type := Globals {
  pio_next_ncid : Z;                         (* [extern int pio_next_ncid] *)
  pio_file_list : list file_desc_t;          (* the open-file registry *)
  pio_iosystem_list : list iosystem_desc_t;  (* the I/O system registry *)
  PIO_BUFFER_SIZE_LIMIT : Z
}.

(** Modelled from the spec: [pio_get_iosystem_from_id] lives in another
    source file; an I/O system is resolved by its id through the
    process-wide registry, and an unknown id yields no context. *)
Definition pio_get_iosystem_from_id (l : list iosystem_desc_t) (id : Z)
  : option iosystem_desc_t :=
  find (fun ios => bool_decide (iosysid ios = id)) l.

(** Modelled from the spec: [pio_add_to_file_list] lives in another source
    file; it links the file handle into the process-wide open-file
    registry. *)
Definition pio_add_to_file_list (l : list file_desc_t) (f : file_desc_t)
  : list file_desc_t := l ++ [f].

(** What a call leaves behind: the value returned, the value stored through
    [ncidp] (if any), the file record as the call left it (if one was
    allocated), and the process-wide variables. *)
Record open_result : Type := OpenResult {
  ret_code : Z;
  ncid_out : option Z;
  file_out : option file_desc_t;
  globals_out : globals
}.

Definition var_desc_init : var_desc_t := VarDesc (-1) (-1) NULL 0 NULL NULL.

(** Lines 746-756: every slot of the variable table is reset. *)
Definition init_varlist : list var_desc_t :=
  replicate (Z.to_nat PIO_MAX_VARS) var_desc_init.
Arguments init_varlist : simpl never.

(** Lines 740-771: the fresh file record. *)
Definition new_file (ios : iosystem_desc_t) (iot mode : Z) : file_desc_t :=
  {| iosystem := ios;
     buffer := WMulti 0 NULL NULL NULL NULL NULL;
     fh := -1;
     pio_ncid := None;
     iotype := iot;
     varlist := init_varlist;
     mode := mode;
     do_io := if bool_decide (iot = PIO_IOTYPE_NETCDF4P)
                 || bool_decide (iot = PIO_IOTYPE_PNETCDF)
                 || bool_decide (io_rank ios = 0) then 1 else 0 |}.

(** [strlen]. *)
Definition strlen (s : string) : Z := Z.of_nat (String.length s).

(** Lines 779-794: the compute side of the dispatch.  Each step is made only
    while [mpierr] is still zero; a broadcast overwrites its buffer with
    what the environment delivers.  Returns [mpierr], the file name and the
    file record. *)
Definition openfile_send_params (ios : iosystem_desc_t) (file : file_desc_t)
    (filename : string) : prog (Z * string * file_desc_t) :=
  let msg := PIO_MSG_OPEN_FILE in
  let len := strlen filename in
  mpierr ← (if nonzero (compmaster ios)
            then call (MPI_Send_int msg (ioroot ios) 1 (union_comm ios))
            else mret MPI_SUCCESS);
  '(mpierr, len) ←
     (if nonzero mpierr then mret (mpierr, len)
      else call (MPI_Bcast_int len (compmaster ios) (intercomm ios)));
  '(mpierr, filename) ←
     (if nonzero mpierr then mret (mpierr, filename)
      else call (MPI_Bcast_chars filename (len + 1) (compmaster ios) (intercomm ios)));
  '(mpierr, file) ←
     (if nonzero mpierr then mret (mpierr, file)
      else '(rc, v) ← call (MPI_Bcast_int (iotype file) (compmaster ios) (intercomm ios));
           mret (rc, set_iotype file v));
  '(mpierr, file) ←
     (if nonzero mpierr then mret (mpierr, file)
      else '(rc, v) ← call (MPI_Bcast_int (mode file) (compmaster ios) (intercomm ios));
           mret (rc, set_mode file v));
  mret (mpierr, filename, file).

(** Lines 773-801: the dispatch with its error handling.  [inl] is an early
    return of the whole call with that status. *)
Definition openfile_dispatch (b : build_config) (ios : iosystem_desc_t)
    (file : file_desc_t) (filename : string)
  : prog (Z * file_desc_t + string * file_desc_t) :=
  if async_interface ios then
    '(mpierr, filename, file) ←
       (if negb (ioproc ios) then openfile_send_params ios file filename
        else mret (MPI_SUCCESS, filename, file));
    '(mpierr2, mpierr) ← call (MPI_Bcast_int mpierr (comproot ios) (my_comm ios));
    if nonzero mpierr2 then
      r ← check_mpi b (Some file) mpierr2 (Some this_file) 798; mret (inl (r, file))
    else if nonzero mpierr then
      r ← check_mpi b (Some file) mpierr (Some this_file) 800; mret (inl (r, file))
    else mret (inr (filename, file))
  else mret (inr (filename, file)).

(** Lines 806-849: the backend-specific open, on an I/O task.  [ierr] enters
    as [PIO_NOERR] and is only assigned where a call is made. *)
Definition openfile_native (b : build_config) (g : globals) (ios : iosystem_desc_t)
    (file : file_desc_t) (filename : string) : prog (Z * file_desc_t) :=
  let t := iotype file in
  let serial (file : file_desc_t) : prog (Z * file_desc_t) :=
    (* case PIO_IOTYPE_NETCDF *)
    if bool_decide (io_rank ios = 0) then
      '(ierr, h) ← call (nc_open filename (mode file));
      mret (ierr, set_fh file h)
    else mret (PIO_NOERR, file) in
  if has_NETCDF b && has_NETCDF4 b && bool_decide (t = PIO_IOTYPE_NETCDF4P) then
    if has_MPISERIAL b then
      '(ierr, h) ← call (nc_open filename (mode file));
      mret (ierr, set_fh file h)
    else
      let file := set_mode file (Z.lor (mode file) NC_MPIIO) in
      '(ierr, h) ← call (nc_open_par filename (mode file) (io_comm ios) (info ios));
      mret (ierr, set_fh file h)
  else if has_NETCDF b && has_NETCDF4 b && bool_decide (t = PIO_IOTYPE_NETCDF4C) then
    (* falls through to the serial case *)
    serial (set_mode file (Z.lor (mode file) NC_NETCDF4))
  else if has_NETCDF b && bool_decide (t = PIO_IOTYPE_NETCDF) then
    serial file
  else if has_PNETCDF b && bool_decide (t = PIO_IOTYPE_PNETCDF) then
    '(ierr, h) ← call (ncmpi_open (io_comm ios) filename (mode file) (info ios));
    let file := set_fh file h in
    if bool_decide (ierr = PIO_NOERR) && nonzero (Z.land (mode file) PIO_WRITE) then
      ierr ← call (ncmpi_buffer_attach (fh file) (PIO_BUFFER_SIZE_LIMIT g));
      mret (ierr, file)
    else mret (ierr, file)
  else
    ierr ← iotype_error t (Some this_file) 847;
    mret (ierr, file).

(** Lines 851-875: the one-shot downgrade to serial netCDF. *)
Definition openfile_retry (b : build_config) (ios : iosystem_desc_t) (retry : Z)
    (ierr : Z) (file : file_desc_t) (filename : string) : prog (Z * file_desc_t) :=
  if nonzero retry && has_NETCDF b
     && (bool_decide (ierr = NC_ENOTNC) || bool_decide (ierr = NC_EINVAL))
     && negb (bool_decide (iotype file = PIO_IOTYPE_NETCDF))
  then
    _ ← (if iomaster ios then call (fputs stdout ("PIO2 pio_file.c retry NETCDF" +:+ nl))
         else mret tt);
    let ierr := PIO_NOERR in
    let file := set_iotype file PIO_IOTYPE_NETCDF in
    if bool_decide (io_rank ios = 0) then
      '(ierr, h) ← call (nc_open filename (mode file));
      mret (ierr, set_fh file h)
    else mret (ierr, file)
  else mret (ierr, file).

(** Lines 878-908: agree on the outcome, then publish the file. *)
Definition openfile_publish (b : build_config) (g : globals) (ios : iosystem_desc_t)
    (ierr : Z) (file : file_desc_t) : prog open_result :=
  '(mpierr, ierr) ← call (MPI_Bcast_int ierr (ioroot ios) (my_comm ios));
  if nonzero mpierr then
    r ← check_mpi b (Some file) mpierr (Some this_file) 882;
    mret (OpenResult r None (Some file) g)
  else if nonzero ierr then
    r ← check_netcdf b file ierr (Some this_file) 884;
    mret (OpenResult r None (Some file) g)
  else
    '(mpierr, m) ← call (MPI_Bcast_int (mode file) (ioroot ios) (my_comm ios));
    let file := set_mode file m in
    if nonzero mpierr then
      r ← check_mpi b (Some file) mpierr (Some this_file) 891;
      mret (OpenResult r None (Some file) g)
    else
      (* file->pio_ncid = pio_next_ncid++ *)
      let file := set_pio_ncid file (pio_next_ncid g) in
      let g := Globals (int_wrap (pio_next_ncid g + 1))
                       (pio_add_to_file_list (pio_file_list g) file)
                       (pio_iosystem_list g) (PIO_BUFFER_SIZE_LIMIT g) in
      mret (OpenResult ierr (pio_ncid file) (Some file) g).

(** The whole call.  [ncidp] tells whether the output pointer is non-null;
    [iotype] and [filename] are [None] for a null pointer. *)
Definition PIOc_openfile_retry (b : build_config) (g : globals) (iosysid : Z)
    (ncidp : bool) (iotype : option Z) (filename : option string) (mode : Z)
    (retry : Z) : prog open_result :=
  match ncidp, iotype, filename with
  | true, Some iot, Some filename =>
      if (iot <? PIO_IOTYPE_PNETCDF) || (PIO_IOTYPE_NETCDF4P <? iot) then
        mret (OpenResult PIO_ENOMEM None None g)
      else
        match pio_get_iosystem_from_id (pio_iosystem_list g) iosysid with
        | None => mret (OpenResult PIO_EBADID None None g)
        | Some ios =>
            ok ← call (malloc 1 T_file_desc_t);
            if negb ok then mret (OpenResult PIO_ENOMEM None None g)
            else
              let file := new_file ios iot mode in
              d ← openfile_dispatch b ios file filename;
              match d with
              | inl (r, file) => mret (OpenResult r None (Some file) g)
              | inr (filename, file) =>
                  '(ierr, file) ←
                     (if ioproc ios then
                        '(ierr, file) ← openfile_native b g ios file filename;
                        openfile_retry b ios retry ierr file filename
                      else mret (PIO_NOERR, file));
                  openfile_publish b g ios ierr file
              end
        end
  | _, _, _ => mret (OpenResult PIO_EINVAL None None g)
  end.

(** ** The decomposition map file: [PIOc_readmap] and [PIOc_writemap] *)

(** A C [for] loop running [count] times from [i] upwards. *)
Fixpoint for_loop (i : Z) (count : nat) (body : Z -> prog unit) : prog unit :=
  match count with
  | O => mret tt
  | S c => _ ← body i; for_loop (i + 1) c body
  end.

(** [a[i]]; an index outside the array is undefined in C, the embedding
    reads zero there. *)
Definition elem (a : list Z) (i : Z) : Z := nth (Z.to_nat i) a 0.

(** The locals of [PIOc_readmap] that are read before the code assigns them
    when a conversion of [fscanf] fails, and the content of a fresh
    [malloc] block: values the C code does not determine. *)
Record indeterminate : Type := Indeterminate {
  u_rversno : Z;
  u_rnpes : Z;
  u_j : Z;
  u_maplen : Z;
  u_elem : Z
}.

(** What [PIOc_readmap] leaves in its output arguments. *)
Record readmap_out : Type := ReadmapOut {
  rm_ret : Z;
  rm_ndims : Z;                 (* [*ndims] *)
  rm_gdims : option (list Z);   (* the array [*gdims] points to; [None]: null *)
  rm_fmaplen : option Z;        (* [*fmaplen]; [None]: not written *)
  rm_map : option (list Z)      (* the array [*map] points to; [None]: not written *)
}.

(** Lines 562-563: [for (i < *ndims) fscanf(fp, "%d ", tdims + i)], into a
    zeroed array. *)
Fixpoint read_dims (n : nat) (s : string) : list Z * string :=
  match n with
  | O => ([], s)
  | S n' =>
      let '(vs, s) := fscanf "%d " s in
      let '(rest, s) := read_dims n' s in
      (nth 0 vs 0 :: rest, s)
  end.

(** Lines 574-575: [for (j < maplen) fscanf(fp, "%ld ", tmap + j)], into a
    fresh block. *)
Fixpoint read_offsets (n : nat) (s : string) (junk : Z) : list Z * string :=
  match n with
  | O => ([], s)
  | S n' =>
      let '(vs, s) := fscanf "%ld " s in
      let '(rest, s) := read_offsets n' s junk in
      (nth 0 vs junk :: rest, s)
  end.

(** Lines 567-585: the representative reads one record per declared process
    and forwards it.  The state of the loop is the stream, the locals [j]
    and [maplen], and what has been stored through [map] and [fmaplen]. *)
Fixpoint readmap_records (b : build_config) (npes comm : Z) (count : nat) (i : Z)
    (s : string) (j maplen : Z) (out : option (list Z) * option Z) (junk : Z)
  : prog (option (list Z) * option Z) :=
  match count with
  | O => mret out
  | S count' =>
      let '(vs, s) := fscanf "%d %ld" s in
      let j := nth 0 vs j in
      let maplen := nth 1 vs maplen in
      if negb (j =? i) then
        piodie b (Some "Incomprehensable error reading map file ") (Some this_file) 570
      else
        ok ← call (malloc maplen T_PIO_Offset);
        if negb ok then piodie b (Some "Memory allocation error ") (Some this_file) 573
        else
          let '(tmap, s) := read_offsets (Z.to_nat maplen) s junk in
          let j := Z.max 0 maplen in
          if 0 <? i then
            _ ← call (MPI_Send_offsets [maplen] 1 i (i + npes) comm);
            _ ← call (MPI_Send_offsets tmap maplen i i comm);
            _ ← call (free_block "tmap");
            readmap_records b npes comm count' (i + 1) s j maplen out junk
          else
            readmap_records b npes comm count' (i + 1) s j maplen
              (Some tmap, Some maplen) junk
  end.

(** [PIOc_readmap] (lines 528-607).  The four booleans tell whether the
    output pointers are non-null; [ndims0] is what [*ndims] holds on
    entry. *)
Definition PIOc_readmap (b : build_config) (u : indeterminate) (file : string)
    (ndims gdims fmaplen map : bool) (ndims0 : Z) (comm : Z) : prog readmap_out :=
  if negb (ndims && gdims && fmaplen && map) then
    piodie b (Some "Invalid arg ") (Some this_file) 540
  else
    npes ← call (MPI_Comm_size comm);
    myrank ← call (MPI_Comm_rank comm);
    if myrank =? 0 then
      fp ← call (fopen_r file);
      match fp with
      | None => piodie b (Some "Failed to open dof file") (Some this_file) 548
      | Some s =>
          let '(vs, s) := fscanf ("version %d npes %d ndims %d" +:+ nl) s in
          let rversno := nth 0 vs (u_rversno u) in
          let rnpes := nth 1 vs (u_rnpes u) in
          let nd := nth 2 vs ndims0 in
          if negb (rversno =? versno) then
            piodie b (Some "Attempt to read incompatable map file version")
              (Some this_file) 553
          else if (rnpes <? 1) || (npes <? rnpes) then
            piodie b (Some "Incompatable pe count in map file ") (Some this_file) 556
          else
            '(_, rnpes) ← call (MPI_Bcast_int rnpes 0 comm);
            '(_, nd) ← call (MPI_Bcast_int nd 0 comm);
            ok ← call (calloc nd T_int);
            if negb ok then piodie b (Some "Memory allocation error ") (Some this_file) 561
            else
              let '(tdims, s) := read_dims (Z.to_nat nd) s in
              '(_, tdims) ← call (MPI_Bcast_ints tdims nd 0 comm);
              '(m, l) ← readmap_records b npes comm (Z.to_nat rnpes) 0 s
                           (u_j u) (u_maplen u) (None, None) (u_elem u);
              _ ← call (fclose (file_stream file));
              mret (ReadmapOut PIO_NOERR nd (Some tdims) l m)
      end
    else
      '(_, rnpes) ← call (MPI_Bcast_int (u_rnpes u) 0 comm);
      '(_, nd) ← call (MPI_Bcast_int ndims0 0 comm);
      ok ← call (calloc nd T_int);
      if negb ok && (0 <? nd) then Abort (C_undefined "MPI_Bcast into a null tdims")
      else
        '(_, tdims) ← call (MPI_Bcast_ints (replicate (Z.to_nat nd) 0) nd 0 comm);
        let gd := if ok then Some tdims else None in
        if myrank <? rnpes then
          '(_, ml) ← call (MPI_Recv_offsets 1 0 (myrank + npes) comm);
          let maplen := nth 0 ml (u_maplen u) in
          ok ← call (malloc maplen T_PIO_Offset);
          if negb ok then piodie b (Some "Memory allocation error ") (Some this_file) 596
          else
            '(_, tmap) ← call (MPI_Recv_offsets maplen 0 myrank comm);
            mret (ReadmapOut PIO_NOERR nd gd (Some maplen) (Some tmap))
        else
          mret (ReadmapOut PIO_NOERR nd gd (Some 0) None).

(** The loops of lines 647-649, 652-653 and 662-663: the first [n] elements
    of an array, each followed by a space. *)
Definition print_numbers (fp : FILE) (a : list Z) (n : Z) : prog unit :=
  for_loop 0 (Z.to_nat n) (fun i => call (fputs fp (print_int (elem a i) +:+ " "))).

(** Lines 656-666: the representative asks process [i] for its map, by
    sending it a token, and appends the record to the file.  The block
    [nmap] is allocated without a check. *)
Definition writemap_fetch (npes comm : Z) (fp : FILE) (nmaplen : list Z) (i : Z)
  : prog unit :=
  got ← call (malloc (elem nmaplen i) T_PIO_Offset);
  _ ← call (MPI_Send_int i i (npes + i) comm);
  if negb got && (0 <? elem nmaplen i)
  then Abort (C_undefined "MPI_Recv into a null nmap")
  else
    '(_, nmap) ← call (MPI_Recv_offsets (elem nmaplen i) i i comm);
    _ ← call (fputs fp (print_int i +:+ " " +:+ print_int (elem nmaplen i) +:+ nl));
    _ ← print_numbers fp nmap (elem nmaplen i);
    _ ← call (fputs fp nl);
    call (free_block "nmap").

(** [PIOc_writemap] (lines 619-679). *)
Definition PIOc_writemap (b : build_config) (file : string) (ndims : Z)
    (gdims : list Z) (maplen : Z) (map : list Z) (comm : Z) : prog Z :=
  npes ← call (MPI_Comm_size comm);
  myrank ← call (MPI_Comm_rank comm);
  ok ← (if myrank =? 0 then call (malloc npes T_PIO_Offset) else mret true);
  if negb ok then piodie b (Some "Memory allocation error ") (Some this_file) 633
  else
    '(_, nmaplen) ← call (MPI_Gather_offset maplen 0 comm);
    if myrank =? 0 then
      opened ← call (fopen_w file);
      if negb opened then
        _ ← call (fputs stderr ("Failed to open file " +:+ file +:+ " to write" +:+ nl));
        mret PIO_EIO
      else
        let fp := file_stream file in
        _ ← call (fputs fp ("version " +:+ print_int versno +:+ " npes " +:+ print_int npes
                             +:+ " ndims " +:+ print_int ndims +:+ " " +:+ nl));
        _ ← print_numbers fp gdims ndims;
        _ ← call (fputs fp nl);
        _ ← call (fputs fp ("0 " +:+ print_int (elem nmaplen 0) +:+ nl));
        _ ← print_numbers fp map (elem nmaplen 0);
        _ ← call (fputs fp nl);
        _ ← for_loop 1 (Z.to_nat (npes - 1)) (writemap_fetch npes comm fp nmaplen);
        _ ← call (fputs fp nl);
        _ ← print_trace (Some fp);
        _ ← call (fclose fp);
        mret PIO_NOERR
    else
      '(_, i) ← call (MPI_Recv_int 0 (npes + myrank) comm);
      _ ← call (MPI_Send_offsets map maplen 0 myrank comm);
      mret PIO_NOERR.

(** ** Region lists and decomposition descriptors *)

(** Modelled from the spec: [io_region] and [io_desc_t] are declared in
    [pio.h].  A region holds a start and a count array (one entry per
    dimension), a local-buffer offset and a forward link; a descriptor owns
    index arrays, count arrays, arrays of message-layout handles, a region
    list and, for the subset rearranger, a sub-communicator.  Pointers are
    addresses, [NULL] being address zero. *)
Record io_region : Type := IORegion {
  loffset : Z;
  start : Z;       (* [PIO_Offset *start] *)
  count : Z;       (* [PIO_Offset *count] *)
  next : Z         (* [struct io_region *next] *)
}.

Record io_desc_t : Type := IODesc {
  ioid : Z;
  nrecvs : Z;
  ndims : Z;
  rearranger : Z;
  maxregions : Z;
  basetype : Z;
  llen : Z;
  rfrom : Z;
  rcount : Z;
  scount : Z;
  sindex : Z;
  rindex : Z;
  rtype : Z;        (* [MPI_Datatype *rtype] *)
  stype : Z;        (* [MPI_Datatype *stype] *)
  num_stypes : Z;
  firstregion : Z;
  fillregion : Z;
  subset_comm : Z
}.

(** Modelled from the spec: the null ("no-op") message-layout handle of
    [mpi.h]. *)
Definition MPI_DATATYPE_NULL : Z := 0.

(** What a release touches, in the order it happens. *)
Inductive release : Type :=
  | Brel (p : Z)            (* [brel(p)]: a block goes back to the pool *)
  | Type_free (h : Z)       (* [MPI_Type_free] of the handle [h] *)
  | Comm_free (c : Z).      (* [MPI_Comm_free] of the communicator [c] *)

(** The part of the process memory the destructors walk: the region nodes
    and the handle arrays by address, the blocks currently handed out by
    the pool, and the log of releases. *)
Record memory : Type := Memory {
  regions : gmap Z io_region;
  dtype_arrays : gmap Z (list Z);
  live : gset Z;
  released : list release
}.

(** A destructor finishes, goes wrong (it reads a block that is gone, or
    releases a block the pool does not hold), or is cut off by the step
    bound. *)
Inductive result (A : Type) : Type :=
  | Done (a : A)
  | Fault (what : string)
  | Out_of_fuel.
Arguments Done {A} a.
Arguments Fault {A} what.
Arguments Out_of_fuel {A}.

Definition result_bind {A B : Type} (r : result A) (f : A -> result B) : result B :=
  match r with
  | Done a => f a
  | Fault w => Fault w
  | Out_of_fuel => Out_of_fuel
  end.

#[global] Instance result_ret : MRet result := @Done.
#[global] Instance result_mbind : MBind result := fun A B f r => result_bind r f.

(** Modelled from the spec: [brel] is the pool's release ([bget.c]).  The
    block leaves the pool; what was stored in it is gone. *)
Definition brel (m : memory) (p : Z) : result memory :=
  if bool_decide (p ∈ live m) then
    Done (Memory (delete p (regions m)) (delete p (dtype_arrays m))
            (live m ∖ {[p]}) (released m ++ [Brel p]))
  else Fault "brel of a block the pool does not hold".

(** [if (p != NULL) brel(p);] *)
Definition brel_if_set (m : memory) (p : Z) : result memory :=
  if bool_decide (p = NULL) then Done m else brel m p.

(** [free_region_list] (lines 456-471).  [fuel] bounds the number of loop
    tests. *)
Fixpoint free_region_list (fuel : nat) (m : memory) (ptr : Z) : result memory :=
  match fuel with
  | O => Out_of_fuel
  | S fuel' =>
      if bool_decide (ptr = NULL) then Done m
      else
        match regions m !! ptr with
        | None => Fault "read of a region that is not there"
        | Some r =>
            m ← brel_if_set m (start r);
            m ← brel_if_set m (count r);
            let tptr := ptr in
            let ptr := next r in
            m ← brel m tptr;
            free_region_list fuel' m ptr
        end
  end.

(** [MPI_Type_free(arr + i)]: the handle is freed and the array slot is set
    to the null handle. *)
Definition MPI_Type_free (m : memory) (arr : Z) (i : nat) (h : Z) : memory :=
  Memory (regions m) (alter (fun a => <[i := MPI_DATATYPE_NULL]> a) arr (dtype_arrays m))
    (live m) (released m ++ [Type_free h]).

(** Lines 490-494 and 498-502: free every non-null handle among the first
    [n] slots of the array at [arr], starting at slot [i]. *)
Fixpoint free_types (n : nat) (i : nat) (m : memory) (arr : Z) : result memory :=
  match n with
  | O => Done m
  | S n' =>
      match dtype_arrays m !! arr ≫= (fun a => a !! i) with
      | None => Fault "read outside a handle array"
      | Some h =>
          let m := if bool_decide (h = MPI_DATATYPE_NULL) then m
                   else MPI_Type_free m arr i h in
          free_types n' (S i) m arr
      end
  end.

(** The process-wide registries [PIOc_freedecomp] consults. *)
Record decomp_state : Type := DecompState {
  ds_mem : memory;
  ds_iosystems : list iosystem_desc_t;
  ds_iodescs : gmap Z io_desc_t
}.

(** Modelled from the spec: [pio_get_iodesc_from_id] and
    [pio_delete_iodesc_from_list] live in another source file.  lookup(id)
    gives the descriptor or "not found"; removal takes the id out of the
    registry and fails with the bad-id code when it is absent. *)
Definition pio_get_iodesc_from_id (reg : gmap Z io_desc_t) (id : Z) : option io_desc_t :=
  reg !! id.
Definition pio_delete_iodesc_from_list (reg : gmap Z io_desc_t) (id : Z)
  : Z * gmap Z io_desc_t :=
  match reg !! id with
  | Some _ => (PIO_NOERR, delete id reg)
  | None => (PIO_EBADID, reg)
  end.

(** [PIOc_freedecomp] (lines 473-526). *)
Definition PIOc_freedecomp (fuel : nat) (st : decomp_state) (iosysid ioid : Z)
  : result (Z * decomp_state) :=
  match pio_get_iosystem_from_id (ds_iosystems st) iosysid with
  | None => Done (PIO_EBADID, st)
  | Some ios =>
      match pio_get_iodesc_from_id (ds_iodescs st) ioid with
      | None => Done (PIO_EBADID, st)
      | Some iodesc =>
          let m := ds_mem st in
          m ← brel_if_set m (rfrom iodesc);
          m ← (if bool_decide (rtype iodesc = NULL) then Done m
               else m ← free_types (Z.to_nat (nrecvs iodesc)) 0 m (rtype iodesc);
                    brel m (rtype iodesc));
          m ← (if bool_decide (stype iodesc = NULL) then Done m
               else m ← free_types (Z.to_nat (num_stypes iodesc)) 0 m (stype iodesc);
                    brel m (stype iodesc));
          m ← brel_if_set m (scount iodesc);
          m ← brel_if_set m (rcount iodesc);
          m ← brel_if_set m (sindex iodesc);
          m ← brel_if_set m (rindex iodesc);
          m ← (if bool_decide (firstregion iodesc = NULL) then Done m
               else free_region_list fuel m (firstregion iodesc));
          let m := if bool_decide (rearranger iodesc = PIO_REARR_SUBSET)
                   then Memory (regions m) (dtype_arrays m) (live m)
                          (released m ++ [Comm_free (subset_comm iodesc)])
                   else m in
          let '(rc, reg) := pio_delete_iodesc_from_list (ds_iodescs st) ioid in
          Done (rc, DecompState m (ds_iosystems st) reg)
      end
  end.

(** ** A group of processes *)

(** The processes of one communicator, indexed by rank, run together: each
    process runs on its own until it needs a partner; a send completes
    together with the matching receive; a collective completes when every
    process of the group has entered it.  Files live in one file system
    shared by the group.  Everything else a process asks is answered by its
    own local environment. *)
Record proc (A : Type) : Type := Proc {
  calls : nat;       (* calls made so far *)
  code : prog A      (* what is left to run *)
}.
Arguments Proc {A} calls code.
Arguments calls {A} p.
Arguments code {A} p.

Abbreviation fsys := (gmap string string).

(** The answer to a call that needs no partner, with its effect on the file
    system; [None] for a point-to-point or collective call. *)
Definition local_answer (w : world) (size rank : nat) (n : nat) (fs : fsys)
    (e : event) : option (resp e * fsys) :=
  match e return option (resp e * fsys) with
  | MPI_Comm_size _ => Some (Z.of_nat size, fs)
  | MPI_Comm_rank _ => Some (Z.of_nat rank, fs)
  | fopen_r path => Some (fs !! path, fs)
  | fopen_w path =>
      let ok := w n (fopen_w path) in
      Some (ok, if ok then <[path := EmptyString]> fs else fs)
  | fputs fp text =>
      Some (tt, match fp with
                | file_stream path => alter (fun s => s +:+ text) path fs
                | _ => fs
                end)
  | MPI_Send_int _ _ _ _ | MPI_Send_offsets _ _ _ _ _
  | MPI_Recv_int _ _ _ | MPI_Recv_offsets _ _ _ _
  | MPI_Bcast_int _ _ _ | MPI_Bcast_chars _ _ _ _ | MPI_Bcast_ints _ _ _ _
  | MPI_Gather_offset _ _ _ => None
  | malloc a t => Some (w n (malloc a t), fs)
  | calloc a t => Some (w n (calloc a t), fs)
  | free_block s => Some (w n (free_block s), fs)
  | backtrace_symbols k => Some (w n (backtrace_symbols k), fs)
  | fclose fp => Some (w n (fclose fp), fs)
  | MPI_Error_string c => Some (w n (MPI_Error_string c), fs)
  | nc_open p m => Some (w n (nc_open p m), fs)
  | nc_open_par p m c i => Some (w n (nc_open_par p m c i), fs)
  | ncmpi_open c p m i => Some (w n (ncmpi_open c p m i), fs)
  | ncmpi_buffer_attach h s => Some (w n (ncmpi_buffer_attach h s), fs)
  | nc_strerror s => Some (w n (nc_strerror s), fs)
  | ncmpi_strerror s => Some (w n (ncmpi_strerror s), fs)
  | cn_buffer_report i c => Some (w n (cn_buffer_report i c), fs)
  end.

(** Run one process until it returns, terminates, or needs a partner. *)
Fixpoint settle {A : Type} (w : world) (size rank : nat) (n : nat) (fs : fsys)
    (p : prog A) : proc A * fsys :=
  match p with
  | Vis e k =>
      match local_answer w size rank n fs e with
      | Some (a, fs') => settle w size rank (S n) fs' (k a)
      | None => (Proc n p, fs)
      end
  | _ => (Proc n p, fs)
  end.

(** Every process in turn, by increasing rank. *)
Fixpoint settle_list {A : Type} (lw : nat -> world) (size rank : nat)
    (ps : list (proc A)) (fs : fsys) : list (proc A) * fsys :=
  match ps with
  | [] => ([], fs)
  | p :: rest =>
      let '(p', fs) := settle (lw rank) size rank (calls p) fs (code p) in
      let '(rest', fs) := settle_list lw size (S rank) rest fs in
      (p' :: rest', fs)
  end.

Inductive message : Type :=
  | Msg_int (v : Z)               (* one [MPI_INT] *)
  | Msg_offsets (l : list Z).     (* [PIO_OFFSET] elements *)

(** The send a process is blocked in: destination, tag, communicator, the
    message, and how the process goes on once it is delivered. *)
Definition outgoing {A : Type} (p : prog A) : option (Z * Z * Z * message * prog A) :=
  match p with
  | Vis e k =>
      match e return (resp e -> prog A) -> option (Z * Z * Z * message * prog A) with
      | MPI_Send_int v d t c => fun k => Some (d, t, c, Msg_int v, k MPI_SUCCESS)
      | MPI_Send_offsets buf cnt d t c => fun k =>
          Some (d, t, c, Msg_offsets (take (Z.to_nat cnt) buf), k MPI_SUCCESS)
      | _ => fun _ => None
      end k
  | _ => None
  end.

(** A process blocked in a receive that matches source, tag, communicator
    and element type (and has room for the message) takes it and goes on. *)
Definition accept {A : Type} (src tag comm : Z) (msg : message) (p : prog A)
  : option (prog A) :=
  match p with
  | Vis e k =>
      match e return (resp e -> prog A) -> option (prog A) with
      | MPI_Recv_int s t c => fun k =>
          match msg with
          | Msg_int v =>
              if bool_decide (s = src) && bool_decide (t = tag) && bool_decide (c = comm)
              then Some (k (MPI_SUCCESS, v)) else None
          | _ => None
          end
      | MPI_Recv_offsets cnt s t c => fun k =>
          match msg with
          | Msg_offsets l =>
              if bool_decide (s = src) && bool_decide (t = tag) && bool_decide (c = comm)
                 && bool_decide (Z.of_nat (length l) <= cnt)
              then Some (k (MPI_SUCCESS, l)) else None
          | _ => None
          end
      | _ => fun _ => None
      end k
  | _ => None
  end.

Inductive payload : Type :=
  | P_int (v : Z)
  | P_chars (s : string)
  | P_ints (l : list Z).

(** The broadcast a process is blocked in: its buffer, the root, the
    communicator. *)
Definition bcast_at {A : Type} (p : prog A) : option (payload * Z * Z) :=
  match p with
  | Vis (MPI_Bcast_int v r c) _ => Some (P_int v, r, c)
  | Vis (MPI_Bcast_chars s _ r c) _ => Some (P_chars s, r, c)
  | Vis (MPI_Bcast_ints l n r c) _ => Some (P_ints (take (Z.to_nat n) l), r, c)
  | _ => None
  end.

(** A process blocked in the same broadcast gets the root's buffer. *)
Definition bcast_deliver {A : Type} (pl : payload) (root comm : Z) (p : proc A)
  : option (proc A) :=
  match code p with
  | Vis e k =>
      match e return (resp e -> prog A) -> option (proc A) with
      | MPI_Bcast_int _ r c => fun k =>
          match pl with
          | P_int v => if bool_decide (r = root) && bool_decide (c = comm)
                       then Some (Proc (S (calls p)) (k (MPI_SUCCESS, v))) else None
          | _ => None
          end
      | MPI_Bcast_chars _ _ r c => fun k =>
          match pl with
          | P_chars s => if bool_decide (r = root) && bool_decide (c = comm)
                         then Some (Proc (S (calls p)) (k (MPI_SUCCESS, s))) else None
          | _ => None
          end
      | MPI_Bcast_ints _ _ r c => fun k =>
          match pl with
          | P_ints l => if bool_decide (r = root) && bool_decide (c = comm)
                        then Some (Proc (S (calls p)) (k (MPI_SUCCESS, l))) else None
          | _ => None
          end
      | _ => fun _ => None
      end k
  | _ => None
  end.

(** The gather a process is blocked in: its contribution, root,
    communicator. *)
Definition gather_at {A : Type} (p : prog A) : option (Z * Z * Z) :=
  match p with
  | Vis (MPI_Gather_offset v r c) _ => Some (v, r, c)
  | _ => None
  end.

Definition gather_value {A : Type} (root comm : Z) (p : proc A) : option Z :=
  match gather_at (code p) with
  | Some (v, r, c) =>
      if bool_decide (r = root) && bool_decide (c = comm) then Some v else None
  | None => None
  end.

(** The root gets every contribution in rank order; the receive buffer of
    the others is not significant. *)
Definition gather_deliver {A : Type} (root : Z) (vals : list Z) (i : nat) (p : proc A)
  : option (proc A) :=
  match code p with
  | Vis e k =>
      match e return (resp e -> prog A) -> option (proc A) with
      | MPI_Gather_offset _ _ _ => fun k =>
          Some (Proc (S (calls p))
                  (k (MPI_SUCCESS, if bool_decide (Z.of_nat i = root) then vals else [])))
      | _ => fun _ => None
      end k
  | _ => None
  end.

(** The communication that process [i] can complete now, if any: its send,
    when the destination is blocked in the matching receive, or the
    collective it is the root of, when the whole group has entered it. *)
Definition fire_at {A : Type} (ps : list (proc A)) (i : nat) : option (list (proc A)) :=
  match ps !! i with
  | None => None
  | Some p =>
      match outgoing (code p) with
      | Some (d, t, c, msg, p') =>
          if bool_decide (0 <= d) then
            match ps !! Z.to_nat d with
            | Some q =>
                match accept (Z.of_nat i) t c msg (code q) with
                | Some q' =>
                    Some (<[Z.to_nat d := Proc (S (calls q)) q']>
                            (<[i := Proc (S (calls p)) p']> ps))
                | None => None
                end
            | None => None
            end
          else None
      | None =>
          match bcast_at (code p) with
          | Some (pl, root, c) =>
              if bool_decide (root = Z.of_nat i)
              then mapM (bcast_deliver pl root c) ps else None
          | None =>
              match gather_at (code p) with
              | Some (_, root, c) =>
                  if bool_decide (root = Z.of_nat i) then
                    vals ← mapM (gather_value root c) ps;
                    mapM id (imap (gather_deliver root vals) ps)
                  else None
              | None => None
              end
          end
      end
  end.

(** The first of the candidate ranks that can complete a communication. *)
Fixpoint fire_first {A : Type} (ps : list (proc A)) (cands : list nat)
  : option (list (proc A)) :=
  match cands with
  | [] => None
  | i :: rest =>
      match fire_at ps i with
      | Some ps' => Some ps'
      | None => fire_first ps rest
      end
  end.

Fixpoint first_abort {A : Type} (rank : nat) (ps : list (proc A))
  : option (nat * termination) :=
  match ps with
  | [] => None
  | p :: rest =>
      match code p with
      | Abort how => Some (rank, how)
      | _ => first_abort (S rank) rest
      end
  end.

Definition returned {A : Type} (p : proc A) : option A :=
  match code p with
  | Ret a => Some a
  | _ => None
  end.

(** How a group run ends: every process has returned; a process has
    terminated the run; no process can move; the step bound was hit. *)
Inductive group_result (A : Type) : Type :=
  | G_done (results : list A) (fs : fsys)
  | G_aborted (rank : nat) (how : termination)
  | G_stuck
  | G_out_of_fuel.
Arguments G_done {A} results fs.
Arguments G_aborted {A} rank how.
Arguments G_stuck {A}.
Arguments G_out_of_fuel {A}.

Fixpoint group_run {A : Type} (fuel : nat) (lw : nat -> world) (ps : list (proc A))
    (fs : fsys) : group_result A :=
  match fuel with
  | O => G_out_of_fuel
  | S fuel' =>
      let '(ps, fs) := settle_list lw (length ps) 0 ps fs in
      match first_abort 0 ps with
      | Some (r, how) => G_aborted r how
      | None =>
          match mapM returned ps with
          | Some results => G_done results fs
          | None =>
              match fire_first ps (seq 0 (length ps)) with
              | Some ps' => group_run fuel' lw ps' fs
              | None => G_stuck
              end
          end
      end
  end.

(** A group starts with every process at the beginning of its code. *)
Definition start_group {A : Type} (codes : list (prog A)) : list (proc A) :=
  map (Proc 0) codes.

(** ** A caller opening and closing files *)

(** Modelled from the spec: closing a file ([PIOc_closefile], in another
    source file) removes its handle from the open-file registry. *)
Definition pio_delete_file_from_list (l : list file_desc_t) (ncid : Z)
  : list file_desc_t :=
  filter (fun f => pio_ncid f <> Some ncid) l.

Inductive file_op : Type :=
  | Open_file (b : build_config) (iosysid : Z) (ncidp : bool) (iotype : option Z)
      (filename : option string) (mode retry : Z) (w : world)
  | Close_file (ncid : Z).

(** A sequence of opens and closes made by one process.  [held] are the
    public identifiers the caller has been handed and has not closed; the
    result is [None] when an open terminates the process. *)
Fixpoint run_ops (g : globals) (held : list Z) (ops : list file_op)
  : option (globals * list Z) :=
  match ops with
  | [] => Some (g, held)
  | Open_file b iosysid ncidp iotype filename mode retry w :: rest =>
      match run w (PIOc_openfile_retry b g iosysid ncidp iotype filename mode retry) with
      | (_, Returned r) =>
          run_ops (globals_out r)
            (match ncid_out r with Some id => held ++ [id] | None => held end) rest
      | (_, Terminated _) => None
      end
  | Close_file id :: rest =>
      run_ops (Globals (pio_next_ncid g) (pio_delete_file_from_list (pio_file_list g) id)
                 (pio_iosystem_list g) (PIO_BUFFER_SIZE_LIMIT g))
        (filter (fun x => x <> id) held) rest
  end.

(** ** Assertions: [pioassert] (lines 275-283) *)

(** [ndebug] tells whether the file is compiled with [NDEBUG]. *)
Definition pioassert (ndebug : bool) (b : build_config) (expression : bool)
    (msg fname : option string) (line : Z) : prog unit :=
  if ndebug then mret tt
  else if negb expression then piodie b msg fname line else mret tt.

(** ** Error messages: [PIOc_strerror] (lines 37-74) *)

(** Modelled from the spec: the backend-native error codes of [netcdf.h]
    lie in a band that starts at [NC2_ERR]; its lower end,
    [NC4_LAST_ERROR], depends on the release of the library and is an
    argument below.  Names have at most [NC_MAX_NAME] characters, and
    [PIO_MAX_NAME] is [NC_MAX_NAME] ([pio.h]). *)
Definition NC2_ERR : Z := -1.
Definition NC_MAX_NAME : Z := 256.
Definition PIO_MAX_NAME : Z := NC_MAX_NAME.

(** A character buffer after a copy into it: the characters written, and
    whether a terminating null character was written behind them. *)
Record cbuf : Type := CBuf {
  cb_text : string;
  cb_terminated : bool
}.

(** [strcpy(dst, src)]. *)
Definition strcpy (src : string) : cbuf := CBuf src true.

(** [strncpy(dst, src, n)]: at most [n] characters are copied; the
    destination is padded with null characters only when the source is
    shorter than [n]. *)
Definition strncpy (src : string) (n : Z) : cbuf :=
  if strlen src <? n then CBuf src true
  else CBuf (String.substring 0 (Z.to_nat n) src) false.

(** [PIOc_strerror]; [strerror] is the C library's table of messages
    ([None]: a null pointer), and [errmsg] is assumed to point to a
    buffer.  The result is the value returned and the content of
    [errmsg]. *)
Definition PIOc_strerror (b : build_config) (NC4_LAST_ERROR : Z)
    (strerror : Z -> option string) (pioerr : Z) : prog (Z * cbuf) :=
  if 0 <? pioerr then
    match strerror pioerr with
    | Some cp => mret (PIO_NOERR, strncpy cp PIO_MAX_NAME)
    | None => mret (PIO_NOERR, strcpy "Unknown Error")
    end
  else if pioerr =? PIO_NOERR then mret (PIO_NOERR, strcpy "No error")
  else if (pioerr <=? NC2_ERR) && (NC4_LAST_ERROR <=? pioerr) then
    if has_PNETCDF b || has_NETCDF b then
      msg ← call (nc_strerror pioerr);
      mret (PIO_NOERR, strncpy msg NC_MAX_NAME)
    else mret (PIO_NOERR, strcpy "NetCDF error code, PIO not built with netCDF.")
  else if pioerr =? PIO_EBADIOTYPE then mret (PIO_NOERR, strcpy "Bad IO type")
  else mret (PIO_NOERR, strcpy "unknown PIO error").

(** ** Settings taken from the environment: [pio_get_env] (lines 182-227) *)

Record pio_swapm_defaults : Type := SwapmDefaults {
  nreqs : Z;
  handshake : bool;
  isend : bool
}.

(** The process-wide variables [pio_get_env] assigns. *)
Record env_settings : Type := EnvSettings {
  PIO_Save_Decomps : bool;
  swapm_defaults : pio_swapm_defaults;
  PIO_CNBUFFER_LIMIT : Z
}.

(** Whether the character [c] occurs in [s]. *)
Fixpoint occurs (c : ascii) (s : string) : bool :=
  match s with
  | EmptyString => false
  | String c' s' => bool_decide (c = c') || occurs c s'
  end.

(** [strchr(s, c) != NULL]: the terminating null character is part of the
    string. *)
Definition strchr (s : string) (c : ascii) : bool :=
  bool_decide (c = zero) || occurs c s.

(** [strtok]: leading delimiters are skipped; the token runs up to the next
    delimiter, which is overwritten with a null character, or to the end of
    the string.  The position the C library keeps between calls is passed
    on explicitly: the result is the token ([None]: a null pointer) and
    where the next call starts. *)
Fixpoint skip_delims (delim : string) (s : string) : string :=
  match s with
  | String c s' => if occurs c delim then skip_delims delim s' else s
  | EmptyString => s
  end.

Fixpoint take_token (delim : string) (s : string) : string * string :=
  match s with
  | EmptyString => (EmptyString, EmptyString)
  | String c s' =>
      if occurs c delim then (EmptyString, s')
      else let '(t, r) := take_token delim s' in (String c t, r)
  end.

Definition strtok (s : string) (delim : string) : option string * string :=
  match skip_delims delim s with
  | EmptyString => (None, EmptyString)
  | s' => let '(t, r) := take_token delim s' in (Some t, r)
  end.

(** The string [s] as it reads after the first [strtok] on it: it ends
    where the first token ends. *)
Fixpoint leading_delims (delim : string) (s : string) : string :=
  match s with
  | String c s' => if occurs c delim then String c (leading_delims delim s') else EmptyString
  | EmptyString => EmptyString
  end.

Definition cut_by_strtok (s : string) (delim : string) : string :=
  leading_delims delim s +:+ (take_token delim (skip_delims delim s)).1.

(** [atoi] and [atoll]: the decimal numeral at the front of the string,
    after white space; zero when there is none.  [atoi(s)] is
    [(int) strtol(s, NULL, 10)] and [atoll(s)] is [strtoll(s, NULL, 10)]:
    a numeral out of range gives [LONG_MIN] or [LONG_MAX], of which [atoi]
    keeps the low 32 bits. *)
Definition atoi (s : string) : Z := default 0 (scan_int Size_int s).1.

Definition atoll (s : string) : Z := default 0 (scan_int Size_long s).1.

(** [pio_get_env].  [getenv] is the environment of the process; [strtok]
    writes into the string that [getenv("PIO_SWAPM")] points to, so the
    environment is part of the result.  The second argument of the two
    [strchr] calls is a string literal, not a character: what is searched
    for is the character the address of the literal converts to, [lit_M]
    and [lit_K].  The limit is a [bufsize], which is a [long]: the product
    with [mult] is the 64-bit one.  [st] holds the variables on entry. *)
Definition pio_get_env (getenv : gmap string string) (lit_M lit_K : ascii)
    (st : env_settings) : result (env_settings * gmap string string) :=
  let save :=
    match getenv !! "PIO_Save_Decomps" with
    | Some envptr => if bool_decide (envptr = "true") then true else PIO_Save_Decomps st
    | None => PIO_Save_Decomps st
    end in
  '(swapm, getenv) ←
    match getenv !! "PIO_SWAPM" with
    | Some envptr =>
        let '(token, rest) := strtok envptr ":" in
        let getenv := <["PIO_SWAPM" := cut_by_strtok envptr ":"]> getenv in
        match token with
        | None => Fault "atoi of a null pointer"
        | Some t =>
            let n := atoi t in
            let '(token, rest) := strtok rest ":" in
            let h := bool_decide (token = Some "t") in
            let '(token, rest) := strtok rest ":" in
            let i := bool_decide (token = Some "t") in
            Done (SwapmDefaults n h i, getenv)
        end
    | None => Done (SwapmDefaults 0 false false, getenv)
    end;
  let limit :=
    match getenv !! "PIO_CNBUFFER_LIMIT" with
    | Some envptr =>
        let mult := if strchr envptr lit_M then 1000000
                    else if strchr envptr lit_K then 1000 else 1 in
        long_wrap (atoll envptr * mult)
    | None => PIO_CNBUFFER_LIMIT st
    end in
  Done (EnvSettings save swapm limit, getenv).

(** ** Allocating regions and descriptors *)

(** Modelled from the spec: [bget] is the pool's allocation ([bget.c]).  It
    hands out a block, or a null pointer when it cannot serve the request.
    Which block is the pool's choice: [answers] lists its choices to come
    (an exhausted list stands for a pool that is exhausted).  The result is
    the pointer, the memory and the choices left. *)
Definition bget (m : memory) (answers : list Z) : Z * memory * list Z :=
  match answers with
  | p :: rest =>
      if bool_decide (p = NULL) then (NULL, m, rest)
      else (p, Memory (regions m) (dtype_arrays m) ({[p]} ∪ live m) (released m), rest)
  | [] => (NULL, m, [])
  end.

(** A store into the region node at [p]. *)
Definition set_region (m : memory) (p : Z) (r : io_region) : memory :=
  Memory (<[p := r]> (regions m)) (dtype_arrays m) (live m) (released m).

(** [alloc_region] (lines 382-406).  [junk] is what the fresh node holds
    before its members are assigned.  The elements of the two coordinate
    arrays, which the loop of lines 401-404 sets to zero, are not part of
    [memory].  The result is the pointer returned. *)
Definition alloc_region (m : memory) (answers : list Z) (junk : io_region) (ndims : Z)
  : result (Z * memory * list Z) :=
  let '(region, m, answers) := bget m answers in
  if bool_decide (region = NULL) then Done (NULL, m, answers)
  else
    let m := set_region m region junk in
    let '(p, m, answers) := bget m answers in
    let node := IORegion (loffset junk) p (count junk) (next junk) in
    let m := set_region m region node in
    if bool_decide (p = NULL) then
      m ← brel m region;
      Done (NULL, m, answers)
    else
      let '(p, m, answers) := bget m answers in
      let node := IORegion (loffset node) (start node) p (next node) in
      let m := set_region m region node in
      if bool_decide (p = NULL) then
        m ← brel m region;
        (* brel(region->start): the node has just been released *)
        match regions m !! region with
        | None => Fault "read of a region that is not there"
        | Some r =>
            m ← brel m (start r);
            Done (NULL, m, answers)
        end
      else
        let m := set_region m region (IORegion 0 (start node) (count node) NULL) in
        Done (region, m, answers).

(** Modelled from the spec: the handles of the predefined message layouts
    are declared in [mpi.h]; their values belong to the MPI library. *)
Record mpi_datatypes : Type := MpiDatatypes {
  MPI_FLOAT : Z;
  MPI_DOUBLE : Z;
  MPI_CHAR : Z;
  MPI_INTEGER : Z
}.

(** Modelled from the spec: the element types of [pio.h] are the external
    types of netCDF. *)
Definition PIO_CHAR : Z := 2.
Definition PIO_INT : Z := 4.
Definition PIO_REAL : Z := 5.
Definition PIO_DOUBLE : Z := 6.

(** The members of [io_desc_t] that [malloc_iodesc] assigns and
    [PIOc_freedecomp] does not read. *)
Record io_desc_rest : Type := IODescRest {
  maxiobuflen : Z;
  holegridsize : Z;
  maxbytes : Z;
  io_handshake : bool;     (* [handshake] *)
  io_isend : bool;         (* [isend] *)
  max_requests : Z
}.

(** [malloc_iodesc] (lines 408-454).  [junk] is what the fresh descriptor
    holds before its members are assigned: [nrecvs] and [subset_comm] are
    not assigned.  The result is [None] for a null pointer, or the address
    and the content of the descriptor. *)
Definition malloc_iodesc (T : mpi_datatypes) (swapm : pio_swapm_defaults) (m : memory)
    (answers : list Z) (junk : io_desc_t) (junk_region : io_region) (piotype ndims : Z)
  : result (option (Z * io_desc_t * io_desc_rest) * memory * list Z) :=
  let '(iodesc, m, answers) := bget m answers in
  if bool_decide (iodesc = NULL) then Done (None, m, answers)
  else
    let basetype :=
      if bool_decide (piotype = PIO_REAL) then MPI_FLOAT T
      else if bool_decide (piotype = PIO_DOUBLE) then MPI_DOUBLE T
      else if bool_decide (piotype = PIO_CHAR) then MPI_CHAR T
      else MPI_INTEGER T in
    '(firstregion, m, answers) ← alloc_region m answers junk_region ndims;
    Done (Some (iodesc,
                {| ioid := -1; nrecvs := nrecvs junk; ndims := ndims; rearranger := 0;
                   maxregions := 1; basetype := basetype; llen := 0;
                   rfrom := NULL; rcount := NULL; scount := NULL;
                   sindex := NULL; rindex := NULL; rtype := NULL; stype := NULL;
                   num_stypes := 0; firstregion := firstregion; fillregion := NULL;
                   subset_comm := subset_comm junk |},
                IODescRest 0 0 0 (handshake swapm) (isend swapm) (nreqs swapm)),
          m, answers).

(** * The vocabulary of the statements *)

(** ** Running a computation *)

(** The outcome of a run, with its result mapped. *)
Definition lift_outcome {A B : Type} (f : A -> B) (o : outcome A) : outcome B :=
  match o with
  | Returned a => Returned (f a)
  | Terminated h => Terminated h
  end.

(** A computation that never returns. *)
Definition never_returns {A : Type} (p : prog A) : Prop :=
  forall w n, exists t h, run_from w n p = (t, Terminated h).

(** An environment in which every call succeeds: allocations give memory,
    a file opens for writing (none is there to read), communications return
    [MPI_SUCCESS] and leave the buffers as they are, a netCDF open gives the
    handle 7, and the stack dump is empty. *)
Definition answer_default (e : event) : resp e :=
  match e return resp e with
  | malloc _ _ | calloc _ _ => true
  | fopen_r _ => None
  | fopen_w _ => true
  | MPI_Comm_size _ => 1 | MPI_Comm_rank _ => 0
  | MPI_Send_int _ _ _ _ | MPI_Send_offsets _ _ _ _ _ => 0
  | MPI_Recv_int _ _ _ => (0, 0)
  | MPI_Recv_offsets _ _ _ _ => (0, [])
  | MPI_Bcast_int v _ _ => (0, v)
  | MPI_Bcast_chars s _ _ _ => (0, s)
  | MPI_Bcast_ints l _ _ _ => (0, l)
  | MPI_Gather_offset v _ _ => (0, [v])
  | MPI_Error_string _ => (0, "error"%string)
  | nc_open _ _ | nc_open_par _ _ _ _ | ncmpi_open _ _ _ _ => (0, 7)
  | ncmpi_buffer_attach _ _ => 0
  | nc_strerror _ | ncmpi_strerror _ => "error"%string
  | backtrace_symbols _ => []
  | free_block _ | fputs _ _ | fclose _ | cn_buffer_report _ _ => tt
  end.

(** The same environment, without memory. *)
Definition no_memory : world := fun _ e =>
  match e return resp e with
  | malloc _ _ => false
  | calloc _ _ => false
  | e => answer_default e
  end.

(** An I/O system in direct mode whose single task does I/O, the state of a
    process that knows it, and a build with every backend. *)
Definition ios_example : iosystem_desc_t :=
  IOSystem 1 10 11 12 13 0 true 0 0 0 PIO_INTERNAL_ERROR false true 99.

Definition g_example : globals := Globals 16 [] [ios_example] 1000.

Definition b_example : build_config := Build true true true false false.

(** ** Publishing an opened file *)

(** What a successful publication looks like. *)
Definition minted (g : globals) (ios : iosystem_desc_t) (tr : list entry)
    (r : open_result) : Prop :=
  exists file ierr md m pre,
    ret_code r = PIO_NOERR
    /\ ncid_out r = Some (pio_next_ncid g)
    /\ file_out r = Some file
    /\ pio_ncid file = Some (pio_next_ncid g)
    /\ globals_out r
       = Globals (int_wrap (pio_next_ncid g + 1)) (pio_file_list g ++ [file])
           (pio_iosystem_list g) (PIO_BUFFER_SIZE_LIMIT g)
    /\ tr = pre ++ [Entry (MPI_Bcast_int ierr (ioroot ios) (my_comm ios)) (MPI_SUCCESS, PIO_NOERR);
                    Entry (MPI_Bcast_int md (ioroot ios) (my_comm ios)) (MPI_SUCCESS, m)].

(** Nothing was published. *)
Definition not_minted (g : globals) (r : open_result) : Prop :=
  ncid_out r = None /\ globals_out r = g.

(** The registry holds exactly the files whose identifiers the caller
    holds, no identifier occurs twice, and all lie below the counter. *)
Definition registry_ok (g : globals) (held : list Z) : Prop :=
  pio_ncid <$> pio_file_list g = Some <$> held
  /\ NoDup held
  /\ Forall (fun id => id < pio_next_ncid g) held.

(** ** Which calls a computation can make *)

(** Every call the computation can make, whatever the answers, satisfies
    [Q]. *)
Inductive only_calls {A : Type} (Q : event -> Prop) : prog A -> Prop :=
  | only_Ret a : only_calls Q (Ret a)
  | only_Abort h : only_calls Q (Abort h)
  | only_Vis e k : Q e -> (forall r, only_calls Q (k r)) -> only_calls Q (Vis e k).

(** The calls that open a file. *)
Definition is_open_call (e : event) : bool :=
  match e with
  | nc_open _ _ | nc_open_par _ _ _ _ | ncmpi_open _ _ _ _ => true
  | _ => false
  end.

(** The status of an open call recorded in a trace. *)
Definition open_status (x : entry) : option Z :=
  match x with
  | existT (nc_open _ _) (s, _) => Some s
  | existT (nc_open_par _ _ _ _) (s, _) => Some s
  | existT (ncmpi_open _ _ _ _) (s, _) => Some s
  | _ => None
  end.

(** The open calls of a trace, and their statuses. *)
Definition open_calls (t : list entry) : list event :=
  filter (fun e => is_open_call e = true) (events_of t).

Definition open_statuses (t : list entry) : list Z := omap open_status t.

(** The answer of an open call recorded in a trace: its status and the
    handle it delivers. *)
Definition open_answer (x : entry) : option (Z * Z) :=
  match x with
  | existT (nc_open _ _) r => Some r
  | existT (nc_open_par _ _ _ _) r => Some r
  | existT (ncmpi_open _ _ _ _) r => Some r
  | _ => None
  end.

Definition open_answers (t : list entry) : list (Z * Z) := omap open_answer t.

Definition not_open (e : event) : Prop := is_open_call e = false.

(** ** The stages of the open call on an I/O task *)

(** This process is the root of the broadcasts over its own communicator
    rooted at the I/O root, and they succeed: its buffers are left as they
    are. *)
Definition root_faithful (w : world) (ios : iosystem_desc_t) : Prop :=
  forall n v, w n (MPI_Bcast_int v (ioroot ios) (my_comm ios)) = (MPI_SUCCESS, v).

(** ** A group opening a file that is not in the requested format *)

(** The parallel opens fail with [NC_ENOTNC]; a serial open succeeds. *)
Definition not_this_format : world := fun _ e =>
  match e return resp e with
  | nc_open_par _ _ _ _ => (NC_ENOTNC, -1)
  | ncmpi_open _ _ _ _ => (NC_ENOTNC, -1)
  | e => answer_default e
  end.

(** An I/O system of three tasks in direct mode: tasks 0 and 1 perform I/O,
    task 2 only computes. *)
Definition ios_of_task (rank : Z) : iosystem_desc_t :=
  {| iosysid := 1; union_comm := 10; io_comm := 11; intercomm := 12; my_comm := 13;
     io_rank := if rank <? 2 then rank else -1;
     iomaster := rank =? 0; compmaster := if rank =? 0 then 1 else 0;
     ioroot := 0; comproot := 0;
     error_handler := PIO_RETURN_ERROR;
     async_interface := false;
     ioproc := rank <? 2;
     info := 99 |}.

(** The open call on the task of rank [rank] of that group. *)
Definition open_on_task (iot retry : Z) (rank : Z) : prog open_result :=
  PIOc_openfile_retry b_example (Globals 16 [] [ios_of_task rank] 1000)
    1 true (Some iot) (Some "f.nc"%string) 0 retry.

(** Per process: the status returned and the backend type left in the file
    record. *)
Definition group_summary (res : group_result open_result)
  : option (list (Z * option Z)) :=
  match res with
  | G_done rs _ => Some ((fun r => (ret_code r, iotype <$> file_out r)) <$> rs)
  | _ => None
  end.

(** A serial open made as the first call after the allocation fails with
    [NC_ENOTNC]; a later one succeeds. *)
Definition not_netcdf4 : world := fun n e =>
  match e return resp e with
  | nc_open _ _ => if (n <=? 1)%nat then (NC_ENOTNC, -1) else (NC_NOERR, 7)
  | e => answer_default e
  end.

(** The run of the representative of that group, asked for parallel
    netCDF-4 with a retry. *)
Definition retry_example : list entry * outcome open_result :=
  run not_this_format (open_on_task PIO_IOTYPE_NETCDF4P 1 0).

(** The task of that group that only computes, asked for parallel netCDF. *)
Definition compute_example : list entry * outcome open_result :=
  run not_this_format (open_on_task PIO_IOTYPE_PNETCDF 1 2).

(** The I/O task of rank 1 of the example group, asked for serial
    netCDF-4 with a retry. *)
Definition other_io_task_example : list entry * outcome open_result :=
  run not_netcdf4 (open_on_task PIO_IOTYPE_NETCDF4C 1 1).

(** ** The compute side of the dispatch *)

(** The return code of a dispatch step recorded in a trace. *)
Definition step_rc (x : entry) : Z :=
  match x with
  | existT (MPI_Send_int _ _ _ _) rc => rc
  | existT (MPI_Bcast_int _ _ _) (rc, _) => rc
  | existT (MPI_Bcast_chars _ _ _ _) (rc, _) => rc
  | _ => 0
  end.

(** The steps of the dispatch in the order the protocol has them, with the
    answers [rc0], [a1] .. [a4] of the environment: the operation code goes
    from the compute representative to the I/O root over the union
    communicator; the length of the file name, its bytes, the backend type
    and the open mode are broadcast over the inter-group communicator,
    rooted at the compute representative. *)
Definition dispatch_protocol (ios : iosystem_desc_t) (fname : string) (iot mode : Z)
    (rc0 : Z) (a1 : Z * Z) (a2 : Z * string) (a3 a4 : Z * Z) : list entry :=
  (if nonzero (compmaster ios)
   then [Entry (MPI_Send_int PIO_MSG_OPEN_FILE (ioroot ios) 1 (union_comm ios)) rc0]
   else [])
  ++ [Entry (MPI_Bcast_int (strlen fname) (compmaster ios) (intercomm ios)) a1;
      Entry (MPI_Bcast_chars fname (a1.2 + 1) (compmaster ios) (intercomm ios)) a2;
      Entry (MPI_Bcast_int iot (compmaster ios) (intercomm ios)) a3;
      Entry (MPI_Bcast_int mode (compmaster ios) (intercomm ios)) a4].

(** The steps made are an initial segment of the protocol, cut at the first
    step that fails; [mpierr] is the code of that step, or zero. *)
Definition dispatch_steps (ios : iosystem_desc_t) (fname : string) (iot mode : Z)
    (steps : list entry) (mpierr : Z) : Prop :=
  exists rc0 a1 a2 a3 a4,
    steps `prefix_of` dispatch_protocol ios fname iot mode rc0 a1 a2 a3 a4
    /\ (mpierr = MPI_SUCCESS ->
        steps = dispatch_protocol ios fname iot mode rc0 a1 a2 a3 a4
        /\ Forall (fun x => step_rc x = MPI_SUCCESS) steps)
    /\ (mpierr <> MPI_SUCCESS ->
        exists init x, steps = init ++ [x] /\ step_rc x = mpierr
                       /\ Forall (fun x => step_rc x = MPI_SUCCESS) init).

(** The rest of a run is that of [check_mpi] on [code], and the call
    returns what [check_mpi] returns, without an identifier. *)
Definition returns_through_check_mpi (b : build_config) (w : world) (n : nat)
    (g : globals) (file : file_desc_t) (code line : Z) (rest : list entry)
    (out : outcome open_result) : Prop :=
  exists o,
    run_from w n (check_mpi b (Some file) code (Some this_file) line) = (rest, o)
    /\ out = lift_outcome (fun r => OpenResult r None (Some file) g) o
    /\ (forall r, o = Returned r -> r = PIO_EIO).

(** A compute task of an asynchronous I/O system. *)
Definition ios_compute (master : Z) : iosystem_desc_t :=
  {| iosysid := 1; union_comm := 10; io_comm := 11; intercomm := 12; my_comm := 13;
     io_rank := -1; iomaster := false; compmaster := master;
     ioroot := 0; comproot := 0;
     error_handler := PIO_RETURN_ERROR;
     async_interface := true;
     ioproc := false;
     info := 99 |}.

(** The broadcast of the name length fails on this task with code 5, while
    the broadcast of the step status delivers the root's zero. *)
Definition lost_failure : world := fun n e =>
  match e return resp e with
  | MPI_Bcast_int v root comm =>
      if comm =? 12 then (5, v) else if (n =? 2)%nat then (MPI_SUCCESS, 0) else (MPI_SUCCESS, v)
  | e => answer_default e
  end.

(** The open call of that task in that environment. *)
Definition lost_failure_run : list entry * outcome open_result :=
  run lost_failure
    (PIOc_openfile_retry b_example (Globals 16 [] [ios_compute 0] 1000)
       1 true (Some PIO_IOTYPE_NETCDF) (Some "f.nc"%string) 0 0).

(** Rank 3 in a group of 4, where the header broadcast delivers a count of 2
    processes and one dimension. *)
Definition beyond_count : world := fun n e =>
  match e return resp e with
  | MPI_Comm_size _ => 4
  | MPI_Comm_rank _ => 3
  | MPI_Bcast_int v _ _ => if (n =? 2)%nat then (MPI_SUCCESS, 2) else (MPI_SUCCESS, 1)
  | MPI_Bcast_ints _ _ _ _ => (MPI_SUCCESS, [10])
  | e => answer_default e
  end.

(** The calls [piodie] makes before it terminates the process: text on the
    standard error stream and the stack dump. *)
Definition is_diagnostic (e : event) : Prop :=
  match e with
  | fputs stderr _ | backtrace_symbols _ | free_block _ => True
  | _ => False
  end.

(** The header as [PIOc_readmap] scans it. *)
Definition header_format : string := "version %d npes %d ndims %d" +:+ nl.

(** ** Releasing a region list *)

(** The chain that starts at [ptr] passes through [nodes] (address and
    content of each node, in order) and ends in a null link: an acyclic
    list. *)
Fixpoint region_list (rs : gmap Z io_region) (ptr : Z) (nodes : list (Z * io_region))
  : Prop :=
  match nodes with
  | [] => ptr = NULL
  | (p, r) :: rest =>
      ptr = p /\ p <> NULL /\ rs !! p = Some r /\ region_list rs (next r) rest
  end.

(** The blocks a node owns: its coordinate arrays, where set, and itself. *)
Definition node_blocks (n : Z * io_region) : list Z :=
  (if bool_decide (start n.2 = NULL) then [] else [start n.2])
  ++ (if bool_decide (count n.2 = NULL) then [] else [count n.2])
  ++ [n.1].

(** The blocks of a region list, in the order of release. *)
Definition list_blocks (nodes : list (Z * io_region)) : list Z :=
  concat (node_blocks <$> nodes).

(** Releasing the blocks [ps], in order, from the state [m]. *)
Definition after_release (m : memory) (ps : list Z) : memory :=
  Memory (foldl (fun rs p => delete p rs) (regions m) ps)
         (foldl (fun ds p => delete p ds) (dtype_arrays m) ps)
         (live m ∖ list_to_set ps)
         (released m ++ (Brel <$> ps)).

(** ** Destroying a decomposition *)

(** The blocks a log of releases gives back to the pool. *)
Definition blocks_of (l : list release) : list Z :=
  omap (fun x => match x with Brel p => Some p | _ => None end) l.

(** The memory after the releases [l] have been made from [m]. *)
Definition after (m : memory) (l : list release) : memory :=
  Memory (foldl (fun rs p => delete p rs) (regions m) (blocks_of l))
         (foldl (fun ds p => delete p ds) (dtype_arrays m) (blocks_of l))
         (live m ∖ list_to_set (blocks_of l))
         (released m ++ l).

(** A pointer that may be null, as the list of blocks it stands for. *)
Definition opt (p : Z) : list Z := if bool_decide (p = NULL) then [] else [p].

(** The non-null handles among the first [n] slots of an array. *)
Definition live_handles (n : nat) (a : list Z) : list Z :=
  filter (fun h => h <> MPI_DATATYPE_NULL) (take n a).

(** The blocks a descriptor owns, in the order [PIOc_freedecomp] releases
    them; [nodes] is its region list. *)
Definition owned_blocks (d : io_desc_t) (nodes : list (Z * io_region)) : list Z :=
  opt (rfrom d) ++ opt (rtype d) ++ opt (stype d) ++ opt (scount d) ++ opt (rcount d)
  ++ opt (sindex d) ++ opt (rindex d) ++ list_blocks nodes.

(** What releasing an array of [n] handles logs: every non-null handle is
    freed, then the array itself. *)
Definition handle_releases (arr n : Z) (a : list Z) : list release :=
  if bool_decide (arr = NULL) then []
  else (Type_free <$> live_handles (Z.to_nat n) a) ++ [Brel arr].

(** The log of a whole destruction. *)
Definition expected_releases (d : io_desc_t) (ra sa : list Z)
    (nodes : list (Z * io_region)) : list release :=
  (Brel <$> opt (rfrom d))
  ++ handle_releases (rtype d) (nrecvs d) ra
  ++ handle_releases (stype d) (num_stypes d) sa
  ++ (Brel <$> opt (scount d))
  ++ (Brel <$> opt (rcount d))
  ++ (Brel <$> opt (sindex d))
  ++ (Brel <$> opt (rindex d))
  ++ (Brel <$> list_blocks nodes)
  ++ (if bool_decide (rearranger d = PIO_REARR_SUBSET)
      then [Comm_free (subset_comm d)] else []).

(** The descriptor [d] owns its resources in the memory [m]: the blocks are
    distinct and handed out, the handle arrays [ra] and [sa] are where the
    descriptor points and long enough, and the region list is the chain
    [nodes]. *)
Definition owns (m : memory) (d : io_desc_t) (ra sa : list Z)
    (nodes : list (Z * io_region)) : Prop :=
  NoDup (owned_blocks d nodes)
  /\ Forall (fun p => p ∈ live m) (owned_blocks d nodes)
  /\ (rtype d <> NULL ->
      dtype_arrays m !! rtype d = Some ra /\ (Z.to_nat (nrecvs d) <= length ra)%nat)
  /\ (stype d <> NULL ->
      dtype_arrays m !! stype d = Some sa /\ (Z.to_nat (num_stypes d) <= length sa)%nat)
  /\ region_list (regions m) (firstregion d) nodes.

(** A region list of two nodes: the first has no count array, the second no
    start array. *)
Definition node_a : io_region := IORegion 0 101 NULL 200.

Definition node_b : io_region := IORegion 0 NULL 202 NULL.

Definition two_regions : list (Z * io_region) := [(100, node_a); (200, node_b)].

(** A memory that holds them, an array of three handles, and five more
    blocks. *)
Definition memory_example : memory :=
  {| regions := {[ 100 := node_a; 200 := node_b ]};
     dtype_arrays := {[ 20 := [5; MPI_DATATYPE_NULL; 7] ]};
     live := {[ 10; 20; 30; 40; 50; 100; 101; 200; 202 ]};
     released := [] |}.

(** A descriptor of the subset rearranger with one array of receive
    handles, no send handles and no receive counts. *)
Definition iodesc_example : io_desc_t :=
  {| ioid := 7; nrecvs := 3; ndims := 2; rearranger := PIO_REARR_SUBSET;
     maxregions := 2; basetype := 0; llen := 0;
     rfrom := 10; rcount := NULL; scount := 30; sindex := 40; rindex := 50;
     rtype := 20; stype := NULL; num_stypes := 0;
     firstregion := 100; fillregion := NULL; subset_comm := 77 |}.

(** A process that holds this descriptor under the identifier 7. *)
Definition decomp_example : decomp_state :=
  DecompState memory_example [ios_example] {[ 7 := iodesc_example ]}.

(** Two opens, the close of the first file, and a third open. *)
Definition ops_example : list file_op :=
  let opn := Open_file b_example 1 true (Some PIO_IOTYPE_NETCDF) (Some "f.nc"%string) 0 0
               (fun _ => answer_default) in
  [opn; opn; Close_file 16; opn].

(** How [piodie] terminates the process in the build [b]. *)
Definition die (b : build_config) : termination :=
  if has_MPI_SERIAL b then C_abort else MPI_Abort MPI_COMM_WORLD (-1).

(** The readers of a map file: one process per rank. *)
Definition readers (b : build_config) (u : nat -> indeterminate) (file : string)
    (ndims0 : nat -> Z) (comm : Z) (size : nat) : list (proc readmap_out) :=
  start_group ((fun r => PIOc_readmap b (u r) file true true true true (ndims0 r) comm)
               <$> seq 0 size).

(** A map file of an older version, and a representative that finds it. *)
Definition old_map_file : string :=
  "version 2000 npes 2 ndims 1" +:+ nl +:+ "4 " +:+ nl +:+ "0 0" +:+ nl +:+ nl
  +:+ "1 0" +:+ nl +:+ nl.

Definition old_file_reader : world := fun _ e =>
  match e return resp e with
  | MPI_Comm_size _ => 2
  | fopen_r _ => Some old_map_file
  | e => answer_default e
  end.

(** A map file of one process whose version tag is [2 ^ 32 + 2001]. *)
Definition wide_tag_file : string :=
  "version 4294969297 npes 1 ndims 1 " +:+ nl +:+ "10 " +:+ nl
  +:+ "0 2" +:+ nl +:+ "5 6 " +:+ nl +:+ nl.

(** The value of a decimal numeral read from the left on top of [acc]. *)
Fixpoint uint_value (acc : Z) (d : Decimal.uint) : Z :=
  match d with
  | Decimal.Nil => acc
  | Decimal.D0 l => uint_value (10 * acc + 0) l
  | Decimal.D1 l => uint_value (10 * acc + 1) l
  | Decimal.D2 l => uint_value (10 * acc + 2) l
  | Decimal.D3 l => uint_value (10 * acc + 3) l
  | Decimal.D4 l => uint_value (10 * acc + 4) l
  | Decimal.D5 l => uint_value (10 * acc + 5) l
  | Decimal.D6 l => uint_value (10 * acc + 6) l
  | Decimal.D7 l => uint_value (10 * acc + 7) l
  | Decimal.D8 l => uint_value (10 * acc + 8) l
  | Decimal.D9 l => uint_value (10 * acc + 9) l
  end.

(** A string that does not go on with a digit: the end of a numeral. *)
Definition ends_numeral (s : string) : Prop := starts_with_digit s = false.

(** White space, and scanning across it. *)
Definition all_space (s : string) : Prop := skip_space s = EmptyString.

(** ** Processes that follow a communication trace *)

(** A process with code [p] runs on its own, from the file system [fs],
    until it is blocked or done, in a state and a file system that satisfy
    [Q]. *)
Definition settles_to {A : Type} (w : world) (size rank : nat) (p : prog A) (fs : fsys)
    (Q : prog A -> fsys -> Prop) : Prop :=
  forall n, exists n' q fs', settle w size rank n fs p = (Proc n' q, fs') /\ Q q fs'.

(** The process goes through the communications of [tr], in order, when
    each is answered as [tr] says, and returns [a], leaving a file system
    that satisfies [P]. *)
Fixpoint follows {A : Type} (w : world) (size rank : nat) (tr : list entry) (a : A)
    (P : fsys -> Prop) (p : prog A) (fs : fsys) : Prop :=
  match tr with
  | [] => settles_to w size rank p fs (fun q fs' => q = Ret a /\ P fs')
  | existT e r :: tr' =>
      settles_to w size rank p fs
        (fun q fs' => exists k, q = Vis e k /\ follows w size rank tr' a P (k r) fs')
  end.

(** The same, for a process that does not touch the file system. *)
Fixpoint talks {A : Type} (w : world) (size rank : nat) (tr : list entry) (a : A)
    (p : prog A) : Prop :=
  match tr with
  | [] => forall fs, settles_to w size rank p fs (fun q fs' => q = Ret a /\ fs' = fs)
  | existT e r :: tr' =>
      forall fs, settles_to w size rank p fs
        (fun q fs' => (exists k, q = Vis e k /\ talks w size rank tr' a (k r)) /\ fs' = fs)
  end.

(** Point-to-point and collective calls wait for a partner. *)
Definition needs_partner (e : event) : Prop :=
  forall w size rank n fs, local_answer w size rank n fs e = None.

(** ** Groups whose processes follow their traces *)

(** A call that only a message can complete. *)
Definition receives (e : event) : bool :=
  match e with
  | MPI_Recv_int _ _ _ | MPI_Recv_offsets _ _ _ _ => true
  | _ => false
  end.

(** A process that cannot start a communication: it has returned, or it
    waits for a message. *)
Definition silent (tr : list entry) : Prop :=
  match tr with
  | [] => True
  | existT e _ :: _ => receives e = true
  end.

(** What is asked of the code of process [j] when it has the trace [t]
    left: the first process may use the file system, the others not. *)
Definition on_trace {A : Type} (lw : nat -> world) (N : nat) (res : nat -> A)
    (P : fsys -> Prop) (fs : fsys) (j : nat) (t : list entry) (q : prog A) : Prop :=
  match j with
  | O => follows (lw 0%nat) N 0 t (res 0%nat) P q fs
  | S _ => talks (lw j) N j t (res j) q
  end.

(** Every process of the group still has its trace [trs j] to go through. *)
Definition group_at {A : Type} (lw : nat -> world) (N : nat) (res : nat -> A)
    (P : fsys -> Prop) (trs : nat -> list entry) (ps : list (proc A)) (fs : fsys) : Prop :=
  length ps = N /\ forall j p, ps !! j = Some p -> on_trace lw N res P fs j (trs j) (code p).

(** A process that has run as far as it can on its own. *)
Definition head_at {A : Type} (lw : nat -> world) (N : nat) (res : nat -> A)
    (P : fsys -> Prop) (fs : fsys) (j : nat) (tr : list entry) (q : prog A) : Prop :=
  match tr with
  | [] => q = Ret (res j) /\ (j = 0%nat -> P fs)
  | existT e r :: tr' =>
      exists k, q = Vis e k /\ needs_partner e /\ on_trace lw N res P fs j tr' (k r)
  end.

(** Every process of the group has run as far as it can on its own. *)
Definition group_settled {A : Type} (lw : nat -> world) (N : nat) (res : nat -> A)
    (P : fsys -> Prop) (trs : nat -> list entry) (ps : list (proc A)) (fs : fsys) : Prop :=
  length ps = N /\ forall j p, ps !! j = Some p -> head_at lw N res P fs j (trs j) (code p).

(** ** What [PIOc_writemap] writes *)

(** The length of a list, as a C integer. *)
Definition len {X : Type} (l : list X) : Z := Z.of_nat (length l).

(** Numbers, each followed by a space. *)
Fixpoint numbers_text (l : list Z) : string :=
  match l with
  | [] => EmptyString
  | z :: l' => print_int z +:+ " " +:+ numbers_text l'
  end.

(** The record of process [i]: its rank and the length of its map on one
    line, its map on the next. *)
Definition record_text (i : nat) (m : list Z) : string :=
  print_int (Z.of_nat i) +:+ " " +:+ print_int (len m) +:+ nl +:+ numbers_text m +:+ nl.

(** The records of the processes from rank [i] on. *)
Fixpoint records_text (i : nat) (ms : list (list Z)) : string :=
  match ms with
  | [] => EmptyString
  | m :: ms' => record_text i m +:+ records_text (S i) ms'
  end.

(** The whole file: header, dimensions, records, and an empty line. *)
Definition map_text (gdims : list Z) (maps : list (list Z)) : string :=
  "version " +:+ print_int versno +:+ " npes " +:+ print_int (len maps)
  +:+ " ndims " +:+ print_int (len gdims) +:+ " " +:+ nl
  +:+ numbers_text gdims +:+ nl +:+ records_text 0 maps +:+ nl.

(** The file [file] of [fs0] has been replaced by one that starts with
    [text]. *)
Definition holds (file : string) (fs0 : fsys) (text : string) (fs : fsys) : Prop :=
  exists junk, fs = <[file := text +:+ junk]> fs0.

(** The communications of the representative while it collects the maps
    [ms] of the processes from rank [i] on. *)
Fixpoint collect_trace (npes comm : Z) (i : nat) (ms : list (list Z)) : list entry :=
  match ms with
  | [] => []
  | m :: ms' =>
      Entry (MPI_Send_int (Z.of_nat i) (Z.of_nat i) (npes + Z.of_nat i) comm) MPI_SUCCESS
      :: Entry (MPI_Recv_offsets (len m) (Z.of_nat i) (Z.of_nat i) comm) (MPI_SUCCESS, m)
      :: collect_trace npes comm (S i) ms'
  end.

(** The communications of the representative of the writers: the gather
    of the map lengths, then the collection. *)
Definition writer_root_trace (comm : Z) (maps : list (list Z)) : list entry :=
  Entry (MPI_Gather_offset (len (nth 0 maps [])) 0 comm) (MPI_SUCCESS, len <$> maps)
  :: collect_trace (len maps) comm 1 (tail maps).

(** The communications of another writer: the gather, the token, and its
    map. *)
Definition writer_peer_trace (comm : Z) (npes : Z) (j : nat) (m : list Z) : list entry :=
  [ Entry (MPI_Gather_offset (len m) 0 comm) (MPI_SUCCESS, []);
    Entry (MPI_Recv_int 0 (npes + Z.of_nat j) comm) (MPI_SUCCESS, Z.of_nat j);
    Entry (MPI_Send_offsets m (len m) 0 (Z.of_nat j) comm) MPI_SUCCESS ].

(** ** The writers as a group *)

(** One writer per rank, each with its own map. *)
Definition writers (b : build_config) (file : string) (gdims : list Z)
    (maps : list (list Z)) (comm : Z) : list (proc Z) :=
  start_group ((fun m => PIOc_writemap b file (len gdims) gdims (len m) m comm) <$> maps).

(** The communications of the writer of rank [j]. *)
Definition writer_trace (comm : Z) (maps : list (list Z)) (j : nat) : list entry :=
  match j with
  | O => writer_root_trace comm maps
  | S _ => writer_peer_trace comm (len maps) j (nth j maps [])
  end.

(** The traces left while the representative collects the maps: the
    processes below [i] are done; [half] tells that process [i] has been
    sent its token. *)
Definition collecting (comm : Z) (maps : list (list Z)) (i : nat) (half : bool) (j : nat)
  : list entry :=
  match j with
  | O => drop (if half then 1 else 0) (collect_trace (len maps) comm i (drop i maps))
  | S _ =>
      if decide (j < i)%nat then []
      else drop (if half && bool_decide (j = i) then 2 else 1)
             (writer_peer_trace comm (len maps) j (nth j maps []))
  end.

(** The arguments of the map functions are values of their C types: the
    number of dimensions, the size of the group and the dimensions are
    [int]s; the map lengths and the offsets are [PIO_Offset]s. *)
Definition map_record_typed (m : list Z) : Prop :=
  in_offset (len m) /\ Forall in_offset m.

Definition map_arguments_typed (gdims : list Z) (maps : list (list Z)) : Prop :=
  in_int (len gdims) /\ in_int (len maps) /\ Forall in_int gdims
  /\ Forall map_record_typed maps.

(** ** The readers, one by one *)

(** The communications of the representative while it forwards the maps
    [ms] of the processes from rank [i] on. *)
Fixpoint forward_trace (npes comm : Z) (i : nat) (ms : list (list Z)) : list entry :=
  match ms with
  | [] => []
  | m :: ms' =>
      Entry (MPI_Send_offsets [len m] 1 (Z.of_nat i) (Z.of_nat i + npes) comm) MPI_SUCCESS
      :: Entry (MPI_Send_offsets m (len m) (Z.of_nat i) (Z.of_nat i) comm) MPI_SUCCESS
      :: forward_trace npes comm (S i) ms'
  end.

(** The communications of the representative of the readers: the
    broadcasts of the process count, of the number of dimensions and of the
    dimensions, then the forwarding. *)
Definition reader_root_trace (comm : Z) (gdims : list Z) (maps : list (list Z))
  : list entry :=
  Entry (MPI_Bcast_int (len maps) 0 comm) (MPI_SUCCESS, len maps)
  :: Entry (MPI_Bcast_int (len gdims) 0 comm) (MPI_SUCCESS, len gdims)
  :: Entry (MPI_Bcast_ints gdims (len gdims) 0 comm) (MPI_SUCCESS, gdims)
  :: forward_trace (len maps) comm 1 (tail maps).

(** The communications of another reader: the three broadcasts, then the
    length of its map and the map. *)
Definition reader_peer_trace (comm : Z) (u : indeterminate) (ndims0 : Z) (gdims : list Z)
    (npes : Z) (j : nat) (m : list Z) : list entry :=
  [ Entry (MPI_Bcast_int (u_rnpes u) 0 comm) (MPI_SUCCESS, npes);
    Entry (MPI_Bcast_int ndims0 0 comm) (MPI_SUCCESS, len gdims);
    Entry (MPI_Bcast_ints (replicate (Z.to_nat (len gdims)) 0) (len gdims) 0 comm)
      (MPI_SUCCESS, gdims);
    Entry (MPI_Recv_offsets 1 0 (Z.of_nat j + npes) comm) (MPI_SUCCESS, [len m]);
    Entry (MPI_Recv_offsets (len m) 0 (Z.of_nat j) comm) (MPI_SUCCESS, m) ].

(** What a reader hands back: dimensions and its own map. *)
Definition read_back (gdims m : list Z) : readmap_out :=
  ReadmapOut PIO_NOERR (len gdims) (Some gdims) (Some (len m)) (Some m).

(** ** The readers as a group *)

(** The communications of the reader of rank [j]. *)
Definition reader_trace (comm : Z) (u : nat -> indeterminate) (ndims0 : nat -> Z)
    (gdims : list Z) (maps : list (list Z)) (j : nat) : list entry :=
  match j with
  | O => reader_root_trace comm gdims maps
  | S _ => reader_peer_trace comm (u j) (ndims0 j) gdims (len maps) j (nth j maps [])
  end.

(** The traces left while the representative forwards the maps: the
    processes below [i] are done; [half] tells that process [i] has been
    sent the length of its map. *)
Definition forwarding (comm : Z) (u : nat -> indeterminate) (ndims0 : nat -> Z)
    (gdims : list Z) (maps : list (list Z)) (i : nat) (half : bool) (j : nat)
  : list entry :=
  match j with
  | O => drop (if half then 1 else 0) (forward_trace (len maps) comm i (drop i maps))
  | S _ =>
      if decide (j < i)%nat then []
      else drop (if half && bool_decide (j = i) then 4 else 3)
             (reader_peer_trace comm (u j) (ndims0 j) gdims (len maps) j (nth j maps []))
  end.

(** Three processes: the second one has an empty map. *)
Definition maps_example : list (list Z) := [[1; 2; 3]; []; [-5; 77]].

(** ** Error classification *)

(** The backend type [t] is compiled into the build [b]. *)
Definition in_build (b : build_config) (t : Z) : bool :=
  has_NETCDF b
  && (bool_decide (t = PIO_IOTYPE_NETCDF)
      || (has_NETCDF4 b
          && (bool_decide (t = PIO_IOTYPE_NETCDF4P) || bool_decide (t = PIO_IOTYPE_NETCDF4C))))
  || has_PNETCDF b && bool_decide (t = PIO_IOTYPE_PNETCDF).

(** What [print_trace] asks for and writes when the stack dump is
    [frames]. *)
Definition stack_dump (fp : FILE) (frames : list string) : list event :=
  backtrace_symbols 10
  :: fputs fp ("Obtained " +:+ print_int (Z.of_nat (length frames)) +:+ " stack frames." +:+ nl)
  :: ((fun s => fputs fp (s +:+ nl)) <$> frames) ++ [free_block "strings"].

(** The report of [piodie]. *)
Definition abort_message (msg fname : option string) (line : Z) : string :=
  "Abort with message " +:+ default "_" msg +:+ " in file " +:+ default "_" fname
  +:+ " at line " +:+ print_int line +:+ nl.

(** The report of [iotype_error] when it is called from line [line] of this
    file. *)
Definition iotype_message (iot : Z) (line : Z) : string :=
  "ERROR: iotype " +:+ print_int iot +:+ " not defined in build " +:+ this_file +:+ " "
  +:+ print_int line +:+ nl.

(** A build without any backend, and a file record of the example system
    for serial netCDF. *)
Definition b_bare : build_config := Build false false false false false.

Definition file_example : file_desc_t := new_file ios_example PIO_IOTYPE_NETCDF 0.

(** ** Running out of memory *)

(** An allocation that fails, recorded in a trace; [callocs] tells whether
    the calls of [calloc] count. *)
Definition failed_allocation (callocs : bool) (x : entry) : bool :=
  match x with
  | existT (malloc _ _) ok => negb ok
  | existT (calloc _ _) ok => callocs && negb ok
  | _ => false
  end.

(** The end of a process that has run out of memory: the report of
    [piodie] with the message of this file, the stack dump, and the
    termination. *)
Definition memory_report {A : Type} (b : build_config) (rest : list entry) (out : outcome A)
  : Prop :=
  out = Terminated (die b)
  /\ exists line frames,
       events_of rest
       = fputs stderr (abort_message (Some "Memory allocation error ") (Some this_file) line)
         :: stack_dump stderr frames.

(** A computation that is such an end, whatever the environment answers. *)
Definition reports_memory {A : Type} (b : build_config) (p : prog A) : Prop :=
  forall (w : world) n, memory_report b (run_from w n p).1 (run_from w n p).2.

(** Every allocation of the computation that counts is tested, and its
    failure leads to the report at once. *)
Inductive checks_memory {A : Type} (b : build_config) (callocs : bool) : prog A -> Prop :=
  | checks_Ret a : checks_memory b callocs (Ret a)
  | checks_Abort h : checks_memory b callocs (Abort h)
  | checks_Vis e k :
      (forall r, failed_allocation callocs (Entry e r) = true -> reports_memory b (k r)) ->
      (forall r, checks_memory b callocs (k r)) ->
      checks_memory b callocs (Vis e k).

(** ** Region lists that are not sound *)

(** A node whose link leads back to itself. *)
Definition memory_loop : memory :=
  {| regions := {[ 100 := IORegion 0 NULL NULL 100 ]};
     dtype_arrays := ∅;
     live := {[ 100 ]};
     released := [] |}.

(** ** Writers whose representative fails *)

(** An environment in which no file can be opened for writing. *)
Definition no_file : world := fun _ e =>
  match e return resp e with
  | fopen_w _ => false
  | e => answer_default e
  end.

(** What the writers return when the representative cannot open the
    file. *)
Definition open_failed (j : nat) : Z :=
  match j with
  | O => PIO_EIO
  | S _ => PIO_NOERR
  end.

(** The communications of the writers in that case: the representative
    leaves after the gather, the others go on waiting for their token. *)
Definition stranded_trace (comm : Z) (maps : list (list Z)) (j : nat) : list entry :=
  match j with
  | O => [Entry (MPI_Gather_offset (len (nth 0 maps [])) 0 comm) (MPI_SUCCESS, len <$> maps)]
  | S _ => writer_peer_trace comm (len maps) j (nth j maps [])
  end.

(** ** Settings taken from the environment *)

(** [k] colons. *)
Fixpoint colons (k : nat) : string :=
  match k with
  | O => EmptyString
  | S k' => String ":" (colons k')
  end.

(** A field of a setting: not empty, and free of the character [c]. *)
Definition field (c : ascii) (s : string) : Prop :=
  s <> EmptyString /\ occurs c s = false.

(** A character that is no part of a numeral. *)
Definition no_numeral_char (c : ascii) : Prop :=
  digit_val c = None /\ c <> "-"%char.

(** The variables of a process that has read its settings before. *)
Definition settings_example : env_settings :=
  EnvSettings false (SwapmDefaults 7 true true) 33.

(** ** Fresh regions and descriptors *)

(** The region node [alloc_region] builds when the pool hands out the
    coordinate arrays [s] and [c]. *)
Definition fresh_region (s c : Z) : io_region := IORegion 0 s c NULL.

(** ** More readers than writers *)

(** What a reader beyond the ranks of the writers hands back: the
    dimensions, a map length of zero, and no map. *)
Definition no_map (gdims : list Z) : readmap_out :=
  ReadmapOut PIO_NOERR (len gdims) (Some gdims) (Some 0) None.

(** The communications of the representative of [size] readers, when the
    file holds the maps of no more than [size] writers. *)
Definition wide_root_trace (comm : Z) (gdims : list Z) (maps : list (list Z)) (size : nat)
  : list entry :=
  Entry (MPI_Bcast_int (len maps) 0 comm) (MPI_SUCCESS, len maps)
  :: Entry (MPI_Bcast_int (len gdims) 0 comm) (MPI_SUCCESS, len gdims)
  :: Entry (MPI_Bcast_ints gdims (len gdims) 0 comm) (MPI_SUCCESS, gdims)
  :: forward_trace (Z.of_nat size) comm 1 (tail maps).

(** The communications of another reader: the three broadcasts, then, when
    the file has a record for its rank, the length of its map and the
    map. *)
Definition wide_peer_trace (comm : Z) (u : indeterminate) (ndims0 : Z) (gdims : list Z)
    (maps : list (list Z)) (size : nat) (j : nat) : list entry :=
  [ Entry (MPI_Bcast_int (u_rnpes u) 0 comm) (MPI_SUCCESS, len maps);
    Entry (MPI_Bcast_int ndims0 0 comm) (MPI_SUCCESS, len gdims);
    Entry (MPI_Bcast_ints (replicate (Z.to_nat (len gdims)) 0) (len gdims) 0 comm)
      (MPI_SUCCESS, gdims) ]
  ++ match maps !! j with
     | Some m =>
         [ Entry (MPI_Recv_offsets 1 0 (Z.of_nat j + Z.of_nat size) comm)
             (MPI_SUCCESS, [len m]);
           Entry (MPI_Recv_offsets (len m) 0 (Z.of_nat j) comm) (MPI_SUCCESS, m) ]
     | None => []
     end.

(** What the reader of rank [j] hands back. *)
Definition wide_read_back (gdims : list Z) (maps : list (list Z)) (j : nat) : readmap_out :=
  match maps !! j with
  | Some m => read_back gdims m
  | None => no_map gdims
  end.

(** The communications of the reader of rank [j]. *)
Definition wide_trace (comm : Z) (u : nat -> indeterminate) (ndims0 : nat -> Z)
    (gdims : list Z) (maps : list (list Z)) (size : nat) (j : nat) : list entry :=
  match j with
  | O => wide_root_trace comm gdims maps size
  | S _ => wide_peer_trace comm (u j) (ndims0 j) gdims maps size j
  end.

(** The traces left while the representative forwards the maps: the
    processes below [i] are done; [half] tells that process [i] has been
    sent the length of its map. *)
Definition wide_forwarding (comm : Z) (u : nat -> indeterminate) (ndims0 : nat -> Z)
    (gdims : list Z) (maps : list (list Z)) (size : nat) (i : nat) (half : bool) (j : nat)
  : list entry :=
  match j with
  | O => drop (if half then 1 else 0) (forward_trace (Z.of_nat size) comm i (drop i maps))
  | S _ =>
      if decide (j < i)%nat then []
      else drop (if half && bool_decide (j = i) then 4 else 3)
             (wide_peer_trace comm (u j) (ndims0 j) gdims maps size j)
  end.

(** The file the three writers of the example leave, without the stack
    dump. *)
Definition map_file_of_three : fsys :=
  {[ "map.txt"%string := map_text [10; 20] maps_example +:+ EmptyString ]}.

(** ** The stack dump in the map file *)

(** The lines [print_trace] writes for the frames of a stack dump. *)
Definition frames_text (frames : list string) : string :=
  foldr (fun s t => s +:+ nl +:+ t) EmptyString frames.

(** The text [print_trace] writes when the stack dump is [frames]. *)
Definition dump_text (frames : list string) : string :=
  "Obtained " +:+ print_int (Z.of_nat (length frames)) +:+ " stack frames." +:+ nl
  +:+ frames_text frames.

(** An environment whose stack dumps have two frames. *)
Definition two_frames : world := fun _ e =>
  match e return resp e with
  | backtrace_symbols _ => ["main"; "start"]%string
  | e => answer_default e
  end.

(** * Lemmas and theorems *)

(** ** Running a computation *)

Lemma run_from_bind {A B : Type} (w : world) (p : prog A) (f : A -> prog B) (n : nat) :
  run_from w n (p ≫= f) =
  match run_from w n p with
  | (t, Returned a) =>
      let '(t', o) := run_from w (n + length t) (f a) in (t ++ t', o)
  | (t, Terminated h) => (t, Terminated h)
  end.
Proof.
  unfold mbind, prog_bind.
  revert n. induction p as [a | e k IH | h]; intros n.
  - simpl. rewrite Nat.add_0_r. destruct (run_from w n (f a)). reflexivity.
  - simpl. rewrite IH.
    destruct (run_from w (S n) (k (w n e))) as [t [a | h]]; [|done].
    simpl. replace (n + S (length t))%nat with (S (n + length t)) by lia.
    by destruct (run_from w (S (n + length t)) (f a)).
  - done.
Qed.

Lemma run_from_call (w : world) (e : event) (n : nat) :
  run_from w n (call e) = ([Entry e (w n e)], Returned (w n e)).
Proof. done. Qed.

Lemma never_returns_bind {A B : Type} (p : prog A) (f : A -> prog B) :
  (forall a, never_returns (f a)) -> never_returns (p ≫= f).
Proof.
  intros Hf w n. rewrite run_from_bind.
  destruct (run_from w n p) as [t [a | h]]; [|eauto].
  destruct (Hf a w (n + length t)%nat) as (t' & h & ->). eauto.
Qed.

Lemma never_returns_Abort {A : Type} (h : termination) : never_returns (@Abort A h).
Proof. intros w n. by exists [], h. Qed.

Lemma piodie_never_returns {A : Type} b msg fname line :
  never_returns (@piodie A b msg fname line).
Proof.
  unfold piodie. apply never_returns_bind; intros _.
  apply never_returns_bind; intros _. apply never_returns_Abort.
Qed.

Lemma piomemerror_never_returns {A : Type} b ios req fname line :
  never_returns (@piomemerror A b ios req fname line).
Proof.
  unfold piomemerror. apply never_returns_bind; intros _. apply piodie_never_returns.
Qed.

(** ** The checks on entry *)

(** C4 (the code departs from the claim for a backend type out of range).
    Before any call to the environment, [PIOc_openfile_retry] returns
    [PIO_EINVAL] when the handle pointer, the type pointer or the file name
    is null.  For a backend type outside
    [PIO_IOTYPE_PNETCDF .. PIO_IOTYPE_NETCDF4P] it also returns before any
    call, but with [PIO_ENOMEM] (line 724), which is not the
    invalid-argument code. *)
Theorem openfile_argument_checks b g iosysid ncidp iotype filename mode retry w :
  (ncidp = false \/ iotype = None \/ filename = None ->
   run w (PIOc_openfile_retry b g iosysid ncidp iotype filename mode retry)
   = ([], Returned (OpenResult PIO_EINVAL None None g)))
  /\ (forall iot fname,
        ncidp = true -> iotype = Some iot -> filename = Some fname ->
        iot < PIO_IOTYPE_PNETCDF \/ PIO_IOTYPE_NETCDF4P < iot ->
        run w (PIOc_openfile_retry b g iosysid ncidp iotype filename mode retry)
        = ([], Returned (OpenResult PIO_ENOMEM None None g))
        /\ PIO_ENOMEM <> PIO_EINVAL).
Proof.
  split.
  - intros [-> | [-> | ->]]; [done | by destruct ncidp | by destruct ncidp, iotype].
  - intros iot fname -> -> -> Hr. split; [|done].
    unfold PIOc_openfile_retry.
    destruct (_ || _) eqn:E; [done|].
    apply orb_false_iff in E as [E1 E2]. apply Z.ltb_ge in E1, E2. lia.
Qed.

(** A null file name, and a backend type of zero. *)
Lemma openfile_argument_checks_witness :
  run (fun _ => answer_default)
    (PIOc_openfile_retry b_example g_example 1 true (Some 1) None 0 1)
  = ([], Returned (OpenResult PIO_EINVAL None None g_example))
  /\ run (fun _ => answer_default)
       (PIOc_openfile_retry b_example g_example 1 true (Some 0) (Some "f.nc"%string) 0 1)
     = ([], Returned (OpenResult PIO_ENOMEM None None g_example))
  /\ PIO_ENOMEM <> PIO_EINVAL.
Proof.
  split.
  - apply (proj1 (openfile_argument_checks b_example g_example 1 true (Some 1) None 0 1
                    (fun _ => answer_default))).
    right. right. reflexivity.
  - apply (proj2 (openfile_argument_checks b_example g_example 1 true (Some 0)
                    (Some "f.nc"%string) 0 1 (fun _ => answer_default)) 0 "f.nc"%string);
      [reflexivity | reflexivity | reflexivity |].
    left. reflexivity.
Defined.

(** ** Publishing an opened file *)

Lemma nonzero_false z : nonzero z = false -> z = 0.
Proof. unfold nonzero. rewrite negb_false_iff. apply Z.eqb_eq. Qed.

Lemma nonzero_true z : nonzero z = true -> z <> 0.
Proof. unfold nonzero. rewrite negb_true_iff. apply Z.eqb_neq. Qed.

(** Run the call at the head of a sequence. *)
Ltac run_call :=
  rewrite run_from_bind;
  match goal with
  | |- context [@run_from ?A ?w ?n (call ?e)] =>
      change (@run_from A w n (call e)) with ([Entry e (w n e)], @Returned A (w n e));
      cbn [length]
  end.

Lemma openfile_publish_run b g ios ierr file (w : world) n tr r :
  run_from w n (openfile_publish b g ios ierr file) = (tr, Returned r) ->
  not_minted g r \/ minted g ios tr r.
Proof.
  unfold openfile_publish. run_call.
  destruct (w n (MPI_Bcast_int ierr (ioroot ios) (my_comm ios))) as [mpierr ierr'] eqn:E1.
  destruct (nonzero mpierr) eqn:Hm.
  { rewrite run_from_bind.
    destruct (run_from w _ (check_mpi _ _ _ _ _)) as [t [a|h]]; [|done].
    cbn. intros [= <- <-]. by left. }
  destruct (nonzero ierr') eqn:Hi.
  { rewrite run_from_bind.
    destruct (run_from w _ (check_netcdf _ _ _ _ _)) as [t [a|h]]; [|done].
    cbn. intros [= <- <-]. by left. }
  run_call.
  destruct (w _ (MPI_Bcast_int (mode file) (ioroot ios) (my_comm ios))) as [mpierr2 m] eqn:E2.
  destruct (nonzero mpierr2) eqn:Hm2.
  { rewrite run_from_bind.
    destruct (run_from w _ (check_mpi _ _ _ _ _)) as [t [a|h]]; [|done].
    cbn. intros [= <- <-]. by left. }
  cbn. intros [= <- <-]. right.
  apply nonzero_false in Hm, Hi, Hm2. subst.
  eexists _, ierr, (mode file), m, []. cbn. by repeat split.
Qed.

Lemma minted_prefix g ios t tr r : minted g ios tr r -> minted g ios (t ++ tr) r.
Proof.
  intros (file & ierr & md & m & pre & ? & ? & ? & ? & ? & ->).
  exists file, ierr, md, m, (t ++ pre). rewrite <- app_assoc. by repeat split.
Qed.

Lemma openfile_mints_or_not b g iosysid ncidp iotype filename mode retry (w : world) tr r :
  run w (PIOc_openfile_retry b g iosysid ncidp iotype filename mode retry)
  = (tr, Returned r) ->
  not_minted g r
  \/ exists ios, pio_get_iosystem_from_id (pio_iosystem_list g) iosysid = Some ios
                 /\ minted g ios tr r.
Proof.
  unfold PIOc_openfile_retry, run.
  destruct ncidp; [|intros [= <- <-]; by left].
  destruct iotype as [iot|]; [|intros [= <- <-]; by left].
  destruct filename as [fname|]; [|intros [= <- <-]; by left].
  destruct (_ || _); [intros [= <- <-]; by left|].
  destruct (pio_get_iosystem_from_id _ _) as [ios|] eqn:Hios; [|intros [= <- <-]; by left].
  run_call.
  destruct (w 0%nat (malloc 1 T_file_desc_t)); cbn [negb]; [|intros [= <- <-]; by left].
  rewrite run_from_bind.
  destruct (run_from w _ (openfile_dispatch _ _ _ _)) as [t1 [d|h]]; [|done].
  destruct d as [[rc f] | [fname' f]].
  { cbn. intros [= <- <-]. by left. }
  rewrite run_from_bind.
  destruct (run_from w _ (if ioproc ios then _ else _)) as [t2 [[ierr f2]|h]]; [|done].
  destruct (run_from w _ (openfile_publish _ _ _ _ _)) as [t3 [r'|h]] eqn:E3; [|done].
  intros [= <- <-].
  apply openfile_publish_run in E3 as [?|?]; [by left|right].
  exists ios. split; [done|].
  apply (minted_prefix g ios [Entry (malloc 1 T_file_desc_t) true]).
  by do 2 apply minted_prefix.
Qed.

(** ** Opens and closes, one after the other *)

Lemma int_wrap_small z : INT_MIN <= z <= INT_MAX -> int_wrap z = z.
Proof.
  unfold INT_MIN, INT_MAX, int_wrap. intros H.
  rewrite Z.mod_small; lia.
Qed.

Lemma registry_ok_mint g held file :
  registry_ok g held ->
  INT_MIN <= pio_next_ncid g < INT_MAX ->
  pio_ncid file = Some (pio_next_ncid g) ->
  registry_ok
    (Globals (int_wrap (pio_next_ncid g + 1)) (pio_file_list g ++ [file])
       (pio_iosystem_list g) (PIO_BUFFER_SIZE_LIMIT g))
    (held ++ [pio_next_ncid g]).
Proof.
  intros (Hreg & Hnd & Hlt) Hb Hf. rewrite int_wrap_small by lia.
  split; [|split]; cbn.
  - rewrite !fmap_app, Hreg. cbn. by rewrite Hf.
  - apply NoDup_app. split; [done|]. split; [|apply NoDup_singleton].
    intros x Hx ->%list_elem_of_singleton.
    rewrite Forall_forall in Hlt. specialize (Hlt _ Hx). lia.
  - apply Forall_app. split.
    + eapply Forall_impl; [exact Hlt|]. cbn. lia.
    + apply Forall_singleton. lia.
Qed.

Lemma registry_ok_close g held id :
  registry_ok g held ->
  registry_ok
    (Globals (pio_next_ncid g) (pio_delete_file_from_list (pio_file_list g) id)
       (pio_iosystem_list g) (PIO_BUFFER_SIZE_LIMIT g))
    (filter (fun x => x <> id) held).
Proof.
  intros (Hreg & Hnd & Hlt). split; [|split]; cbn.
  - unfold pio_delete_file_from_list.
    revert held Hreg Hnd Hlt. induction (pio_file_list g) as [|f l IH];
      intros [|h held] Hreg Hnd Hlt; try done.
    cbn in Hreg. injection Hreg as Hf Hl.
    rewrite !filter_cons.
    apply NoDup_cons in Hnd as [_ Hnd]. apply Forall_cons in Hlt as [_ Hlt].
    specialize (IH held Hl Hnd Hlt).
    destruct (decide (pio_ncid f <> Some id)) as [Hne | He];
      destruct (decide (h <> id)) as [Hne' | He']; cbn.
    + by rewrite Hf, IH.
    + exfalso. apply dec_stable in He'. congruence.
    + exfalso. apply dec_stable in He. congruence.
    + done.
  - by apply NoDup_filter.
  - rewrite Forall_forall in Hlt |- *. intros x Hx.
    apply list_elem_of_filter in Hx as [_ Hx]. by apply Hlt.
Qed.

Lemma run_ops_keeps_registry ops : forall g held g' held',
  registry_ok g held ->
  INT_MIN <= pio_next_ncid g ->
  pio_next_ncid g + Z.of_nat (length ops) <= INT_MAX ->
  run_ops g held ops = Some (g', held') ->
  registry_ok g' held'.
Proof.
  induction ops as [|op ops IH]; intros g held g' held' Hok Hlo Hhi Hrun.
  - cbn in Hrun. by injection Hrun as <- <-.
  - cbn [length] in Hhi. destruct op as [b iosysid ncidp iot fname mode retry w | id].
    + cbn [run_ops] in Hrun.
      destruct (run w _) as [tr [r|h]] eqn:E; [|done].
      apply openfile_mints_or_not in E as [[Hn Hg] | (ios & _ & Hm)].
      * rewrite Hn, Hg in Hrun. eapply IH; [exact Hok | lia | lia | exact Hrun].
      * destruct Hm as (file & ierr & md & m & pre & _ & Hn & _ & Hf & Hg & _).
        rewrite Hn, Hg in Hrun.
        eapply IH; [| | | exact Hrun].
        -- apply registry_ok_mint; [done | lia | done].
        -- cbn. rewrite int_wrap_small by (unfold INT_MIN, INT_MAX in *; lia). lia.
        -- cbn. rewrite int_wrap_small by (unfold INT_MIN, INT_MAX in *; lia). lia.
    + cbn [run_ops] in Hrun.
      eapply IH; [| | | exact Hrun].
      * by apply registry_ok_close.
      * done.
      * cbn. lia.
Qed.

(** ** Which calls a computation can make *)

Lemma only_calls_bind {A B : Type} (Q : event -> Prop) (p : prog A) (f : A -> prog B) :
  only_calls Q p -> (forall a, only_calls Q (f a)) -> only_calls Q (p ≫= f).
Proof.
  unfold mbind, prog_bind. intros Hp Hf.
  induction Hp as [a | h | e k He Hk IH]; cbn; [apply Hf | constructor | by constructor].
Qed.

Lemma only_calls_call (Q : event -> Prop) (e : event) : Q e -> only_calls Q (call e).
Proof. intros. constructor; [done | constructor]. Qed.

Lemma only_calls_mret {A : Type} (Q : event -> Prop) (a : A) : only_calls Q (mret a).
Proof. constructor. Qed.

Lemma only_calls_run {A : Type} (Q : event -> Prop) (p : prog A) (w : world) n :
  only_calls Q p -> Forall (fun x => Q (entry_event x)) (run_from w n p).1.
Proof.
  intros Hp. revert n. induction Hp as [a | h | e k He Hk IH]; intros n; cbn; [done..|].
  specialize (IH (w n e) (S n)).
  destruct (run_from w (S n) (k (w n e))) as [t o]. cbn in *. by constructor.
Qed.

Lemma only_calls_foldr {A : Type} (Q : event -> Prop) (f : A -> event) (l : list A)
    (z : prog unit) :
  (forall a, Q (f a)) -> only_calls Q z ->
  only_calls Q (foldr (fun s k => _ ← call (f s); k) z l).
Proof.
  intros Hf Hz. induction l as [|a l IH]; [done|]. cbn [foldr].
  apply only_calls_bind; [by apply only_calls_call | done].
Qed.

Lemma open_status_not_open x : not_open (entry_event x) -> open_status x = None.
Proof. destruct x as [[] r]; cbn; try done; by destruct r. Qed.

Lemma open_statuses_none t :
  Forall (fun x => not_open (entry_event x)) t -> open_statuses t = [].
Proof.
  unfold open_statuses. induction 1 as [|x t Hx _ IH]; [done|].
  cbn. by rewrite open_status_not_open.
Qed.

Lemma open_calls_none t :
  Forall (fun x => not_open (entry_event x)) t -> open_calls t = [].
Proof.
  unfold open_calls, events_of. induction 1 as [|x t Hx _ IH]; [done|].
  cbn [map]. rewrite filter_cons. unfold not_open in Hx. rewrite Hx.
  by destruct (decide (false = true)).
Qed.

Lemma open_statuses_app t1 t2 :
  open_statuses (t1 ++ t2) = open_statuses t1 ++ open_statuses t2.
Proof. apply omap_app. Qed.

Lemma open_calls_app t1 t2 : open_calls (t1 ++ t2) = open_calls t1 ++ open_calls t2.
Proof. unfold open_calls, events_of. by rewrite map_app, filter_app. Qed.

Ltac only_calls_tac :=
  repeat first
    [ apply only_calls_mret
    | apply only_Ret
    | apply only_Abort
    | match goal with
      | |- only_calls ?Q (call ?e) => refine (only_calls_call Q e _); done
      end
    | apply only_calls_bind; [|intros]
    | apply only_calls_foldr; [done|]
    | match goal with
      | |- only_calls _ (if ?c then _ else _) => destruct c
      | |- only_calls _ (match ?c with _ => _ end) => destruct c
      | |- only_calls _ (let '(_, _) := ?c in _) => destruct c
      end ].

Lemma print_trace_no_open fp : only_calls not_open (print_trace fp).
Proof. unfold print_trace. only_calls_tac. Qed.

Lemma piodie_no_open {A : Type} b msg fname line :
  only_calls not_open (@piodie A b msg fname line).
Proof. unfold piodie. only_calls_tac. Qed.

Lemma check_netcdf_no_open b file status fname line :
  only_calls not_open (check_netcdf b file status fname line).
Proof.
  unfold check_netcdf, iotype_error. only_calls_tac; try apply piodie_no_open.
Qed.

Lemma check_mpi_no_open b file mpierr fname line :
  only_calls not_open (check_mpi b file mpierr fname line).
Proof. unfold check_mpi. only_calls_tac; try apply check_netcdf_no_open. Qed.

Lemma openfile_dispatch_no_open b ios file fname :
  only_calls not_open (openfile_dispatch b ios file fname).
Proof.
  unfold openfile_dispatch, openfile_send_params.
  only_calls_tac; try apply check_mpi_no_open.
Qed.

Lemma openfile_publish_no_open b g ios ierr file :
  only_calls not_open (openfile_publish b g ios ierr file).
Proof.
  unfold openfile_publish.
  only_calls_tac; try first [apply check_mpi_no_open | apply check_netcdf_no_open].
Qed.

(** ** The stages of the open call on an I/O task *)

Lemma openfile_dispatch_ioproc b ios file fname (w : world) n t fname' file' :
  ioproc ios = true ->
  run_from w n (openfile_dispatch b ios file fname) = (t, Returned (inr (fname', file'))) ->
  fname' = fname /\ file' = file.
Proof.
  intros Hio. unfold openfile_dispatch. rewrite Hio. cbn [negb].
  destruct (async_interface ios); [|by intros [= _ <- <-]].
  rewrite run_from_bind. cbn [run_from mret prog_ret length].
  run_call.
  destruct (w _ (MPI_Bcast_int _ _ _)) as [rc2 v].
  destruct (nonzero rc2).
  { rewrite run_from_bind.
    destruct (run_from w _ (check_mpi _ _ _ _ _)) as [t' [a|h]]; [|done]. cbn. done. }
  destruct (nonzero v).
  { rewrite run_from_bind.
    destruct (run_from w _ (check_mpi _ _ _ _ _)) as [t' [a|h]]; [|done]. cbn. done. }
  cbn. by intros [= _ <- <-].
Qed.

(** The native open: it always returns; the backend type is left as it is;
    at most one file is opened, and a failed open is the stage's status. *)
Lemma openfile_native_run b g ios file fname (w : world) n :
  exists t ierr file',
    run_from w n (openfile_native b g ios file fname) = (t, Returned (ierr, file'))
    /\ iotype file' = iotype file
    /\ iosystem file' = iosystem file
    /\ pio_ncid file' = pio_ncid file
    /\ ((open_statuses t = [] /\ open_calls t = []
         /\ (ierr = PIO_NOERR \/ ierr = PIO_EBADIOTYPE))
        \/ exists e ev, open_statuses t = [e] /\ open_calls t = [ev]
                        /\ (e <> PIO_NOERR -> ierr = e)).
Proof.
  unfold openfile_native.
  repeat match goal with
  | |- context [if ?c then _ else _] =>
      lazymatch c with
      | context [nonzero] => fail
      | _ => destruct c eqn:?
      end
  end;
  repeat (run_call || rewrite run_from_bind);
  repeat match goal with
  | |- context [w ?k ?e] => let rc := fresh "rc" in let h := fresh "h" in
                             destruct (w k e) as [rc h] eqn:?
  end; cbn.
  all: try match goal with
            | |- context [if ?c then _ else _] => destruct c eqn:Hc; cbn
            end.
  all: eexists _, _, _; split; [reflexivity|]; split_and!; try done.
  all: first
    [ left; split_and!; by auto
    | right; eexists _, _; split_and!; [reflexivity | reflexivity |];
      first [ by auto
            | intros He; exfalso; apply andb_true_iff in Hc as [Hc _];
              by apply bool_decide_eq_true in Hc ] ].
Qed.

Lemma openfile_retry_fires b ios retry ierr file fname (w : world) n :
  retry <> 0 -> has_NETCDF b = true ->
  ierr = NC_ENOTNC \/ ierr = NC_EINVAL ->
  iotype file <> PIO_IOTYPE_NETCDF ->
  exists t ierr2 file2,
    run_from w n (openfile_retry b ios retry ierr file fname)
    = (t, Returned (ierr2, file2))
    /\ iotype file2 = PIO_IOTYPE_NETCDF
    /\ iosystem file2 = iosystem file
    /\ if bool_decide (io_rank ios = 0)
       then open_statuses t = [ierr2] /\ open_calls t = [nc_open fname (mode file)]
       else open_statuses t = [] /\ open_calls t = [] /\ ierr2 = PIO_NOERR.
Proof.
  intros Hr Hb He Ht. unfold openfile_retry.
  assert (nonzero retry = true) as -> by (unfold nonzero; by apply negb_true_iff, Z.eqb_neq).
  rewrite Hb.
  assert (bool_decide (ierr = NC_ENOTNC) || bool_decide (ierr = NC_EINVAL) = true) as ->.
  { destruct He as [-> | ->]; done. }
  rewrite (bool_decide_eq_false_2 _ Ht). cbn [andb negb].
  rewrite run_from_bind.
  destruct (iomaster ios); cbn [run_from call mret prog_ret length];
    destruct (bool_decide (io_rank ios = 0)); cbn;
    repeat match goal with
    | |- context [w ?k ?e] => destruct (w k e) as [??] eqn:?
    end; cbn;
    eexists _, _, _; (split; [reflexivity|]); by split_and!.
Qed.

Lemma openfile_retry_skipped b ios ierr file fname (w : world) n :
  run_from w n (openfile_retry b ios 0 ierr file fname) = ([], Returned (ierr, file)).
Proof. done. Qed.

Lemma openfile_publish_file b g ios ierr file (w : world) n t r :
  run_from w n (openfile_publish b g ios ierr file) = (t, Returned r) ->
  exists f, file_out r = Some f /\ iotype f = iotype file.
Proof.
  unfold openfile_publish. run_call.
  destruct (w n (MPI_Bcast_int ierr (ioroot ios) (my_comm ios))) as [mpierr ierr'].
  destruct (nonzero mpierr).
  { rewrite run_from_bind.
    destruct (run_from w _ (check_mpi _ _ _ _ _)) as [t' [a|h]]; [|done].
    cbn. intros [= <- <-]. by eexists. }
  destruct (nonzero ierr').
  { rewrite run_from_bind.
    destruct (run_from w _ (check_netcdf _ _ _ _ _)) as [t' [a|h]]; [|done].
    cbn. intros [= <- <-]. by eexists. }
  run_call.
  destruct (w _ (MPI_Bcast_int (mode file) (ioroot ios) (my_comm ios))) as [mpierr2 m].
  destruct (nonzero mpierr2).
  { rewrite run_from_bind.
    destruct (run_from w _ (check_mpi _ _ _ _ _)) as [t' [a|h]]; [|done].
    cbn. intros [= <- <-]. by eexists. }
  cbn. intros [= <- <-]. by eexists.
Qed.

(** [check_netcdf] hands back the status it was given, when it returns. *)
Lemma check_netcdf_faithful b file status fname line (w : world) n t r :
  root_faithful w (iosystem file) ->
  run_from w n (check_netcdf b file status fname line) = (t, Returned r) ->
  r = status.
Proof.
  intros Hw. unfold check_netcdf, iotype_error.
  repeat match goal with
  | |- context [if ?c then _ else _] => destruct c eqn:?
  end;
  repeat first
    [ run_call
    | rewrite run_from_bind
    | progress cbn [run_from mret prog_ret length call]
    | rewrite Hw
    | match goal with
      | |- context [run_from w ?k (piodie ?b ?m ?f ?l)] =>
          destruct (piodie_never_returns (A:=unit) b m f l w k) as (? & ? & ->)
      end ];
  try done; try (by intros [= _ <-]).
Qed.

Lemma check_netcdf_returns b file status fname line (w : world) n :
  error_handler (iosystem file) <> PIO_INTERNAL_ERROR ->
  exists t r, run_from w n (check_netcdf b file status fname line) = (t, Returned r).
Proof.
  intros Hh. unfold check_netcdf, iotype_error.
  rewrite (bool_decide_eq_false_2 _ Hh), !andb_false_r.
  repeat match goal with
  | |- context [if ?c then _ else _] => destruct c eqn:?
  end;
  repeat first
    [ run_call
    | rewrite run_from_bind
    | progress cbn [run_from mret prog_ret length call] ];
  repeat match goal with
  | |- context [w ?k ?e] => destruct (w k e) as [??] eqn:?
  end; cbn; eauto.
Qed.

Lemma check_mpi_nonzero b file mpierr fname line (w : world) n t r :
  mpierr <> 0 ->
  run_from w n (check_mpi b file mpierr fname line) = (t, Returned r) -> r = PIO_EIO.
Proof.
  intros Hm. unfold check_mpi.
  assert (nonzero mpierr = true) as -> by (unfold nonzero; by apply negb_true_iff, Z.eqb_neq).
  run_call. destruct (w n (MPI_Error_string mpierr)) as [rc s].
  rewrite run_from_bind.
  destruct (run_from w _ (if nonzero rc then _ else _)) as [t1 [[]|h]]; [|done].
  rewrite run_from_bind.
  destruct (run_from w _ (match file with Some _ => _ | None => _ end)) as [t2 [[]|h]];
    [|done].
  cbn. by intros [= _ <-].
Qed.

Lemma openfile_publish_status b g ios ierr file (w : world) n t out :
  root_faithful w ios -> iosystem file = ios ->
  run_from w n (openfile_publish b g ios ierr file) = (t, out) ->
  ((exists r, out = Returned r /\ ret_code r = PIO_NOERR
              /\ ncid_out r = Some (pio_next_ncid g))
   <-> ierr = PIO_NOERR)
  /\ (ierr <> PIO_NOERR -> forall r, out = Returned r -> ret_code r = ierr)
  /\ (ierr <> PIO_NOERR -> error_handler ios <> PIO_INTERNAL_ERROR ->
      exists r, out = Returned r).
Proof.
  intros Hw Hios. unfold openfile_publish. run_call. rewrite Hw.
  cbn [nonzero Z.eqb negb MPI_SUCCESS].
  destruct (nonzero ierr) eqn:Hi.
  - apply nonzero_true in Hi.
    rewrite run_from_bind.
    destruct (run_from w _ (check_netcdf _ _ _ _ _)) as [t' [a|h]] eqn:E.
    + apply check_netcdf_faithful in E as ->; [|by rewrite Hios].
      cbn. intros [= <- <-]. split_and!.
      * split; [|done]. intros (r & [= <-] & Hr & _). done.
      * by intros _ r [= <-].
      * eauto.
    + intros [= <- <-]. split_and!.
      * split; [|done]. by intros (r & [=] & _).
      * done.
      * intros _ Hh.
        destruct (check_netcdf_returns b file ierr (Some this_file) 884 w (n + 1)%nat)
          as (? & ? & E'); [by rewrite Hios|]. rewrite E' in E. done.
  - apply nonzero_false in Hi. run_call. rewrite Hw. cbn.
    intros [= <- <-]. split_and!; [|done..].
    split; [done|]. intros _. by eexists.
Qed.

(** ** Identifiers are minted for open files *)

Lemma open_answer_not_open x : not_open (entry_event x) -> open_answer x = None.
Proof. by destruct x as [[] r]. Qed.

Lemma open_answers_none t :
  Forall (fun x => not_open (entry_event x)) t -> open_answers t = [].
Proof.
  unfold open_answers. induction 1 as [|x t Hx _ IH]; [done|].
  cbn. by rewrite open_answer_not_open.
Qed.

Lemma open_answers_app t1 t2 :
  open_answers (t1 ++ t2) = open_answers t1 ++ open_answers t2.
Proof. apply omap_app. Qed.

(** The native open on the representative: no call when the backend type
    is not compiled in, one open call otherwise, whose handle goes into the
    file record and whose failure is the status of the stage. *)
Lemma openfile_native_root b g ios file fname (w : world) n :
  io_rank ios = 0 ->
  exists t ierr file',
    run_from w n (openfile_native b g ios file fname) = (t, Returned (ierr, file'))
    /\ ((open_answers t = [] /\ ierr = PIO_EBADIOTYPE)
        \/ exists e h, open_answers t = [(e, h)] /\ fh file' = h
                       /\ (e <> PIO_NOERR -> ierr = e)).
Proof.
  intros Hr. unfold openfile_native. rewrite Hr.
  change (bool_decide (0 = 0)) with true. cbn iota.
  repeat match goal with
  | |- context [if ?c then _ else _] =>
      lazymatch c with
      | context [nonzero] => fail
      | _ => destruct c eqn:?
      end
  end;
  repeat (run_call || rewrite run_from_bind);
  repeat match goal with
  | |- context [w ?k ?e] => let rc := fresh "rc" in let h := fresh "h" in
                             destruct (w k e) as [rc h] eqn:?
  end; cbn.
  all: try match goal with
            | |- context [if ?c then _ else _] => destruct c eqn:Hc; cbn
            end.
  all: eexists _, _, _; split; [reflexivity|].
  all: first
    [ by left
    | right; eexists _, _; split_and!; [reflexivity | reflexivity |];
      first [ by auto
            | intros He; exfalso; apply andb_true_iff in Hc as [Hc _];
              by apply bool_decide_eq_true in Hc ] ].
Qed.

(** The retry on the representative: nothing, or one serial open whose
    answer is the status and the handle of the file. *)
Lemma openfile_retry_root b ios retry ierr file fname (w : world) n :
  io_rank ios = 0 ->
  exists t ierr2 file2,
    run_from w n (openfile_retry b ios retry ierr file fname) = (t, Returned (ierr2, file2))
    /\ ((open_answers t = [] /\ ierr2 = ierr /\ fh file2 = fh file)
        \/ exists h, open_answers t = [(ierr2, h)] /\ fh file2 = h).
Proof.
  intros Hr. unfold openfile_retry. rewrite Hr.
  change (bool_decide (0 = 0)) with true. cbn iota.
  destruct (_ && _); [|by eexists _, _, _; split; [reflexivity|]; left].
  rewrite run_from_bind.
  destruct (iomaster ios); cbn [run_from call mret prog_ret length]; cbn;
    match goal with
    | |- context [w ?k (nc_open ?f ?m)] => destruct (w k (nc_open f m)) as [e h] eqn:?
    end; cbn;
    eexists _, _, _; (split; [reflexivity|]); right; by eexists.
Qed.

(** A publication that mints an identifier, where the broadcasts leave the
    buffers as they are: the status that entered is zero, no file is opened
    any more, and the record handed back has the handle of the one that
    entered. *)
Lemma openfile_publish_minted b g ios ierr file (w : world) n t r :
  root_faithful w ios ->
  run_from w n (openfile_publish b g ios ierr file) = (t, Returned r) ->
  ncid_out r <> None ->
  ierr = PIO_NOERR /\ open_answers t = []
  /\ exists f, file_out r = Some f /\ fh f = fh file.
Proof.
  intros Hw E Hid.
  pose proof (only_calls_run not_open _ w n (openfile_publish_no_open b g ios ierr file)) as Hno.
  rewrite E in Hno. cbn [fst] in Hno.
  revert E. unfold openfile_publish. run_call. rewrite Hw.
  cbn [nonzero Z.eqb negb MPI_SUCCESS].
  destruct (nonzero ierr) eqn:Hi.
  { rewrite run_from_bind.
    destruct (run_from w _ (check_netcdf _ _ _ _ _)) as [t' [a|h]]; [|done].
    cbn. intros [= <- <-]. done. }
  apply nonzero_false in Hi. run_call. rewrite Hw. cbn.
  intros [= <- <-]. split; [done|]. split; [by apply open_answers_none|]. by eexists.
Qed.

(** On the representative, where the broadcasts leave the buffers as they
    are, an identifier is minted only for a file that is open: the last
    open call of the run succeeded, and its handle is in the record. *)
Lemma openfile_minted_is_open b g iosysid ncidp iotype filename mode retry (w : world)
    tr r ios :
  run w (PIOc_openfile_retry b g iosysid ncidp iotype filename mode retry)
  = (tr, Returned r) ->
  pio_get_iosystem_from_id (pio_iosystem_list g) iosysid = Some ios ->
  ioproc ios = true -> io_rank ios = 0 -> root_faithful w ios ->
  ncid_out r <> None ->
  exists pre h file,
    open_answers tr = pre ++ [(NC_NOERR, h)] /\ file_out r = Some file /\ fh file = h.
Proof.
  intros E Hios Hio Hr Hw Hid. revert E. unfold PIOc_openfile_retry, run.
  destruct ncidp; [|by intros [= <- <-]].
  destruct iotype as [iot|]; [|by intros [= <- <-]].
  destruct filename as [fname|]; [|by intros [= <- <-]].
  destruct (_ || _); [by intros [= <- <-]|].
  rewrite Hios. run_call.
  destruct (w 0%nat (malloc 1 T_file_desc_t)); cbn [negb]; [|by intros [= <- <-]].
  rewrite run_from_bind.
  pose proof (only_calls_run not_open _ w (0 + 1)
                (openfile_dispatch_no_open b ios (new_file ios iot mode) fname)) as H1.
  destruct (run_from w _ (openfile_dispatch _ _ _ _)) as [t1 [d|h]] eqn:E1; [|done].
  cbn [fst] in H1.
  destruct d as [[rc f] | [fname' f]].
  { cbn. by intros [= <- <-]. }
  apply openfile_dispatch_ioproc in E1 as [-> ->]; [|done].
  rewrite Hio. rewrite !run_from_bind.
  destruct (openfile_native_root b g ios (new_file ios iot mode) fname w (0 + 1 + length t1) Hr)
    as (t2 & ierr & file & -> & Hn).
  destruct (openfile_retry_root b ios retry ierr file fname w
              (0 + 1 + length t1 + length t2) Hr) as (t3 & ierr2 & file2 & -> & Hre).
  destruct (run_from w _ (openfile_publish _ _ _ _ _)) as [t4 [r'|h]] eqn:E4; [|done].
  intros [= <- <-].
  apply openfile_publish_minted in E4 as (Hz & H4 & f & Hf & Hfh); [|done..].
  subst ierr2.
  change (Entry (malloc 1 T_file_desc_t) true :: t1 ++ (t2 ++ t3) ++ t4)
    with ([Entry (malloc 1 T_file_desc_t) true] ++ t1 ++ (t2 ++ t3) ++ t4).
  rewrite !open_answers_app, H4, (open_answers_none t1 H1), app_nil_r.
  change (open_answers [Entry (malloc 1 T_file_desc_t) true]) with (@nil (Z * Z)).
  cbn [app].
  destruct Hre as [(H3 & <- & Hfh3) | (h3 & H3 & Hfh3)].
  - rewrite H3, app_nil_r.
    destruct Hn as [(_ & [=]) | (e & h & H2 & Hfh2 & He)].
    destruct (decide (e = PIO_NOERR)) as [-> | Hne]; [|by specialize (He Hne)].
    exists [], h, f. rewrite H2. split; [done|]. split; [done|]. congruence.
  - rewrite H3. exists (open_answers t2), h3, f. split; [done|]. split; [done|]. congruence.
Qed.

(** C2.  A run of [PIOc_openfile_retry] that returns has either minted
    nothing (no identifier, registry and counter as before) or has ended
    with the outcome broadcast delivering zero followed by the mode
    broadcast; it then hands back the value of the counter as the identifier
    of a file record that it has appended to the registry, the counter being
    advanced by one.  On the representative of the I/O tasks, where the
    status broadcasts leave its buffers as they are, an identifier is minted
    only for a file that is open: the run has made an open call, the last
    one has succeeded, and the record handed back holds the handle it
    delivered; after a failed open, or without an open, nothing is minted
    (the other tasks take the outcome from the broadcast, as the first part
    has it).
    Along any sequence of opens and closes made by one process, as long as
    the counter stays in the range of [int], the identifiers the caller
    holds are distinct and are exactly those of the registered files. *)
Theorem public_ids_minted_after_agreement_and_unique :
  (forall b g iosysid ncidp iotype filename mode retry (w : world) tr r,
     run w (PIOc_openfile_retry b g iosysid ncidp iotype filename mode retry)
     = (tr, Returned r) ->
     (ncid_out r = None /\ globals_out r = g)
     \/ exists ios file ierr md m pre,
          pio_get_iosystem_from_id (pio_iosystem_list g) iosysid = Some ios
          /\ tr = pre ++ [Entry (MPI_Bcast_int ierr (ioroot ios) (my_comm ios))
                            (MPI_SUCCESS, PIO_NOERR);
                          Entry (MPI_Bcast_int md (ioroot ios) (my_comm ios))
                            (MPI_SUCCESS, m)]
          /\ ret_code r = PIO_NOERR
          /\ ncid_out r = Some (pio_next_ncid g)
          /\ file_out r = Some file
          /\ pio_ncid file = Some (pio_next_ncid g)
          /\ globals_out r
             = Globals (int_wrap (pio_next_ncid g + 1)) (pio_file_list g ++ [file])
                 (pio_iosystem_list g) (PIO_BUFFER_SIZE_LIMIT g))
  /\ (forall b g iosysid ncidp iotype filename mode retry (w : world) tr r ios,
        run w (PIOc_openfile_retry b g iosysid ncidp iotype filename mode retry)
        = (tr, Returned r) ->
        pio_get_iosystem_from_id (pio_iosystem_list g) iosysid = Some ios ->
        ioproc ios = true ->
        io_rank ios = 0 ->
        root_faithful w ios ->
        ncid_out r <> None ->
        exists pre h file,
          open_answers tr = pre ++ [(NC_NOERR, h)]
          /\ file_out r = Some file
          /\ fh file = h)
  /\ (forall ops g held g' held',
        pio_ncid <$> pio_file_list g = Some <$> held ->
        NoDup held ->
        Forall (fun id => id < pio_next_ncid g) held ->
        INT_MIN <= pio_next_ncid g ->
        pio_next_ncid g + Z.of_nat (length ops) <= INT_MAX ->
        run_ops g held ops = Some (g', held') ->
        NoDup held'
        /\ NoDup (pio_ncid <$> pio_file_list g')
        /\ pio_ncid <$> pio_file_list g' = Some <$> held').
Proof.
  split_and!.
  - intros * E. apply openfile_mints_or_not in E as [? | (ios & Hios & Hm)]; [by left|].
    right. destruct Hm as (file & ierr & md & m & pre & ? & ? & ? & ? & ? & ?).
    by exists ios, file, ierr, md, m, pre.
  - intros. by eapply openfile_minted_is_open.
  - intros ops g held g' held' H1 H2 H3 Hlo Hhi Hrun.
    destruct (run_ops_keeps_registry ops g held g' held') as (Hreg & Hnd & _); try done.
    split; [done|]. split; [|done].
    rewrite Hreg. apply NoDup_fmap; [|done]. by intros x y [= ->].
Qed.

(** One open, which leaves the handle 7 of its open call in the record;
    then two opens, the close of the first file, and a third open. *)
Lemma public_ids_minted_after_agreement_and_unique_witness :
  (exists tr r,
     run (fun _ => answer_default)
       (PIOc_openfile_retry b_example g_example 1 true (Some PIO_IOTYPE_NETCDF)
          (Some "f.nc"%string) 0 0)
     = (tr, Returned r)
     /\ ncid_out r = Some 16
     /\ pio_next_ncid (globals_out r) = 17
     /\ exists pre file, open_answers tr = pre ++ [(NC_NOERR, 7)]
                         /\ file_out r = Some file /\ fh file = 7)
  /\ exists g',
       run_ops g_example [] ops_example = Some (g', [17; 18])
       /\ NoDup (pio_ncid <$> pio_file_list g').
Proof.
  split.
  - destruct (run (fun _ => answer_default)
                (PIOc_openfile_retry b_example g_example 1 true (Some PIO_IOTYPE_NETCDF)
                   (Some "f.nc"%string) 0 0)) as [tr [r | h]] eqn:E;
      [|vm_compute in E; discriminate E].
    exists tr, r. split; [reflexivity|].
    destruct (proj1 public_ids_minted_after_agreement_and_unique b_example g_example 1 true
                (Some PIO_IOTYPE_NETCDF) (Some "f.nc"%string) 0 0 (fun _ => answer_default)
                tr r E)
      as [[Hnone _] | (ios & file & ierr & md & m & pre & _ & _ & _ & Hid & _ & _ & Hg)].
    + vm_compute in E. injection E as _ <-. discriminate Hnone.
    + split; [exact Hid|]. split; [rewrite Hg; reflexivity|].
      destruct (proj1 (proj2 public_ids_minted_after_agreement_and_unique) b_example
                  g_example 1 true (Some PIO_IOTYPE_NETCDF) (Some "f.nc"%string) 0 0
                  (fun _ => answer_default) tr r ios_example E)
        as (pre' & h & file' & Hans & Hfile & Hfh).
      * reflexivity.
      * reflexivity.
      * reflexivity.
      * intros n v. reflexivity.
      * rewrite Hid. discriminate.
      * assert (h = 7) as ->.
        { vm_compute in E. injection E as <- <-. vm_compute in Hans.
          destruct pre' as [|? [|? ?]]; by injection Hans as <-. }
        by exists pre', file'.
  - destruct (run_ops g_example [] ops_example) as [[g' held]|] eqn:E; [|discriminate E].
    assert (held = [17; 18]) as ->.
    { vm_compute in E. by injection E as _ <-. }
    exists g'. split; [reflexivity|].
    destruct (proj2 (proj2 public_ids_minted_after_agreement_and_unique) ops_example
                g_example [] g' [17; 18]) as (_ & Hnd & _).
    + reflexivity.
    + constructor.
    + constructor.
    + unfold INT_MIN. cbn. lia.
    + unfold INT_MAX. cbn. lia.
    + exact E.
    + exact Hnd.
Defined.

(** ** The retry *)

Lemma open_statuses_malloc b t :
  open_statuses (Entry (malloc 1 T_file_desc_t) b :: t) = open_statuses t.
Proof. done. Qed.

Lemma open_calls_malloc b t :
  open_calls (Entry (malloc 1 T_file_desc_t) b :: t) = open_calls t.
Proof. done. Qed.

(** The open call on a process that reaches the backend: the trace splits
    into the stages of the call. *)
Lemma openfile_stages b g iosysid iot fname mode retry (w : world) tr out e1 more :
  run w (PIOc_openfile_retry b g iosysid true (Some iot) (Some fname) mode retry)
  = (tr, out) ->
  open_statuses tr = e1 :: more ->
  exists ios t1 t2 t3 t4 ierr file ierr2 file2,
    pio_get_iosystem_from_id (pio_iosystem_list g) iosysid = Some ios
    /\ ioproc ios = true
    /\ tr = Entry (malloc 1 T_file_desc_t) true :: t1 ++ t2 ++ t3 ++ t4
    /\ open_statuses t1 = [] /\ open_calls t1 = []
    /\ run_from w (1 + length t1)
         (openfile_native b g ios (new_file ios iot mode) fname)
       = (t2, Returned (ierr, file))
    /\ run_from w (1 + length t1 + length t2)
         (openfile_retry b ios retry ierr file fname)
       = (t3, Returned (ierr2, file2))
    /\ run_from w (1 + length t1 + length t2 + length t3)
         (openfile_publish b g ios ierr2 file2)
       = (t4, out)
    /\ open_statuses t4 = [] /\ open_calls t4 = [].
Proof.
  unfold PIOc_openfile_retry, run.
  assert (forall A (x : A) l, [] = x :: l -> False) as Hnil by done.
  destruct (_ || _); [intros [= <- <-] H; by destruct (Hnil _ _ _ H)|].
  destruct (pio_get_iosystem_from_id _ _) as [ios|] eqn:Hios;
    [|intros [= <- <-] H; by destruct (Hnil _ _ _ H)].
  run_call.
  destruct (w 0%nat (malloc 1 T_file_desc_t)); cbn [negb];
    [|intros [= <- <-] H; by destruct (Hnil _ _ _ H)].
  rewrite run_from_bind.
  pose proof (only_calls_run not_open _ w (0 + 1)
                (openfile_dispatch_no_open b ios (new_file ios iot mode) fname)) as H1.
  destruct (run_from w _ (openfile_dispatch _ _ _ _)) as [t1 [d|h]] eqn:E1; cbn [fst] in H1.
  2:{ intros [= <- <-]. rewrite open_statuses_malloc, (open_statuses_none t1 H1). done. }
  destruct d as [[rc f] | [fname' f]].
  { cbn [run_from mret prog_ret]. intros [= <- <-].
    rewrite open_statuses_malloc, app_nil_r, (open_statuses_none t1 H1). done. }
  destruct (ioproc ios) eqn:Hio.
  2:{ rewrite run_from_bind. cbn [run_from mret prog_ret length].
      pose proof (only_calls_run not_open _ w (0 + 1 + length t1 + 0)
                    (openfile_publish_no_open b g ios PIO_NOERR f)) as H4.
      destruct (run_from w _ (openfile_publish _ _ _ _ _)) as [t4 o4]. cbn [fst] in H4.
      intros [= <- <-].
      rewrite open_statuses_malloc, !open_statuses_app, (open_statuses_none t1 H1),
        (open_statuses_none t4 H4).
      done. }
  apply openfile_dispatch_ioproc in E1 as [-> ->]; [|done].
  rewrite !run_from_bind.
  destruct (openfile_native_run b g ios (new_file ios iot mode) fname w (0 + 1 + length t1))
    as (t2 & ierr & file & E2 & _).
  rewrite E2.
  destruct (run_from w _ (openfile_retry _ _ _ _ _ _)) as [t3 [[ierr2 file2]|h]] eqn:E3.
  2:{ exfalso. revert E3. unfold openfile_retry.
      destruct (_ && _); [|done]. rewrite run_from_bind.
      destruct (iomaster ios); cbn [run_from call mret prog_ret length];
        destruct (bool_decide (io_rank ios = 0)); cbn; try done;
        by destruct (w _ (nc_open _ _)). }
  pose proof (only_calls_run not_open _ w (0 + 1 + length t1 + length (t2 ++ t3))
                (openfile_publish_no_open b g ios ierr2 file2)) as H4.
  destruct (run_from w _ (openfile_publish _ _ _ _ _)) as [t4 o4] eqn:E4. cbn [fst] in H4.
  intros [= <- <-] _.
  exists ios, t1, t2, t3, t4, ierr, file, ierr2, file2.
  rewrite length_app, Nat.add_assoc in E4.
  split_and!; try done.
  - by rewrite <- app_assoc.
  - by apply open_statuses_none.
  - by apply open_calls_none.
  - by apply open_statuses_none.
  - by apply open_calls_none.
Qed.

Lemma openfile_retry_not_fired b ios retry ierr file fname (w : world) n :
  ierr <> NC_ENOTNC -> ierr <> NC_EINVAL ->
  run_from w n (openfile_retry b ios retry ierr file fname) = ([], Returned (ierr, file)).
Proof.
  intros H1 H2. unfold openfile_retry.
  rewrite (bool_decide_eq_false_2 _ H1), (bool_decide_eq_false_2 _ H2).
  by rewrite andb_false_r.
Qed.

(** A process whose first open call fails with [NC_ENOTNC] or [NC_EINVAL]
    on a type other than serial netCDF: with [retry] set, one more open call
    by the representative alone, and a file record of the serial type; with
    [retry] clear, nothing more. *)
Lemma retry_on_failing_io_task
    b g iosysid iot fname mode retry (w : world) tr out e1 more :
  run w (PIOc_openfile_retry b g iosysid true (Some iot) (Some fname) mode retry)
  = (tr, out) ->
  has_NETCDF b = true ->
  iot <> PIO_IOTYPE_NETCDF ->
  open_statuses tr = e1 :: more ->
  e1 = NC_ENOTNC \/ e1 = NC_EINVAL ->
  exists ios,
    pio_get_iosystem_from_id (pio_iosystem_list g) iosysid = Some ios
    /\ ioproc ios = true
    /\ (retry <> 0 ->
        (if bool_decide (io_rank ios = 0)
         then exists e2 native md,
                more = [e2] /\ open_calls tr = [native; nc_open fname md]
         else more = [] /\ length (open_calls tr) = 1%nat)
        /\ (forall r, out = Returned r ->
                      iotype <$> file_out r = Some PIO_IOTYPE_NETCDF)
        /\ (root_faithful w ios -> forall e2, more = [e2] ->
            ((exists r, out = Returned r /\ ret_code r = PIO_NOERR
                        /\ ncid_out r = Some (pio_next_ncid g))
             <-> e2 = NC_NOERR)))
    /\ (retry = 0 ->
        more = []
        /\ (forall r, out = Returned r -> iotype <$> file_out r = Some iot)
        /\ (root_faithful w ios ->
            (forall r, out = Returned r -> ret_code r = e1)
            /\ (error_handler ios <> PIO_INTERNAL_ERROR -> exists r, out = Returned r))).
Proof.
  intros Hrun Hb Hiot Hst He1.
  destruct (openfile_stages _ _ _ _ _ _ _ _ _ _ _ _ Hrun Hst)
    as (ios & t1 & t2 & t3 & t4 & ierr & file & ierr2 & file2
        & Hios & Hio & -> & Hs1 & Hc1 & E2 & E3 & E4 & Hs4 & Hc4).
  exists ios. split; [done|]. split; [done|].
  rewrite open_statuses_malloc, !open_statuses_app, Hs1, Hs4, app_nil_r in Hst.
  rewrite open_calls_malloc, !open_calls_app, Hc1, Hc4, app_nil_r. cbn [app] in Hst |- *.
  destruct (openfile_native_run b g ios (new_file ios iot mode) fname w (1 + length t1))
    as (t2' & ierr' & file' & E2' & Hty & Hsys & _ & Hn).
  rewrite E2 in E2'. injection E2' as <- <- <-.
  assert (e1 <> PIO_NOERR /\ e1 <> PIO_EBADIOTYPE) as [He0 Heb].
  { destruct He1 as [-> | ->]; done. }
  destruct Hn as [(Hs2 & Hc2 & Hi) | (e & ev & Hs2 & Hc2 & Hi)].
  { exfalso. rewrite openfile_retry_not_fired in E3.
    - injection E3 as <- <- <-. by rewrite Hs2 in Hst.
    - destruct Hi as [-> | ->]; done.
    - destruct Hi as [-> | ->]; done. }
  rewrite Hs2 in Hst. cbn [app] in Hst. injection Hst as <- Hst.
  specialize (Hi He0). subst ierr. rewrite Hc2. cbn [app].
  cbn [new_file iotype iosystem] in Hty, Hsys.
  split.
  - intros Hretry.
    destruct (openfile_retry_fires b ios retry e file fname w (1 + length t1 + length t2))
      as (t3' & ierr2' & file2' & E3' & Hty2 & Hsys2 & Hr); try done.
    { by rewrite Hty. }
    rewrite E3 in E3'. injection E3' as <- <- <-.
    split_and!.
    + destruct (bool_decide (io_rank ios = 0)).
      * destruct Hr as [Hs3 Hc3]. rewrite Hs3 in Hst. rewrite Hc3. by eexists _, _, _.
      * destruct Hr as (Hs3 & Hc3 & _). rewrite Hs3 in Hst. by rewrite Hc3.
    + intros r ->. apply openfile_publish_file in E4 as (f & -> & Hf). cbn.
      by rewrite Hf, Hty2.
    + intros Hw e2 ->.
      destruct (bool_decide (io_rank ios = 0)).
      * destruct Hr as [Hs3 _]. rewrite Hs3 in Hst. injection Hst as ->.
        eapply openfile_publish_status in E4 as (Hiff & _); [exact Hiff | done |].
        by rewrite Hsys2.
      * destruct Hr as (Hs3 & _). by rewrite Hs3 in Hst.
  - intros ->. rewrite openfile_retry_skipped in E3. injection E3 as <- <- <-.
    split_and!; [done | |].
    + intros r ->. apply openfile_publish_file in E4 as (f & -> & Hf). cbn.
      by rewrite Hf, Hty.
    + intros Hw. eapply openfile_publish_status in E4 as (_ & Hret & Hex); [|done..].
      split; [by apply Hret | by apply Hex].
Qed.

(** A task that does no I/O, in direct mode: it makes no open call, and the
    backend type of its file record is the one asked for. *)
Lemma no_open_off_io_tasks b g iosysid iot fname mode retry (w : world) tr r ios :
  pio_get_iosystem_from_id (pio_iosystem_list g) iosysid = Some ios ->
  ioproc ios = false ->
  async_interface ios = false ->
  run w (PIOc_openfile_retry b g iosysid true (Some iot) (Some fname) mode retry)
  = (tr, Returned r) ->
  open_calls tr = [] /\ (forall f, file_out r = Some f -> iotype f = iot).
Proof.
  intros Hios Hio Hasync. unfold PIOc_openfile_retry, run.
  destruct (_ || _); [by intros [= <- <-]|].
  rewrite Hios. run_call.
  destruct (w 0%nat (malloc 1 T_file_desc_t)); cbn [negb]; [|by intros [= <- <-]].
  unfold openfile_dispatch. rewrite Hasync, Hio.
  rewrite run_from_bind. cbn [run_from mret prog_ret length app].
  rewrite run_from_bind. cbn [run_from mret prog_ret length app].
  pose proof (only_calls_run not_open _ w (0 + 1 + 0 + 0)
                (openfile_publish_no_open b g ios PIO_NOERR (new_file ios iot mode))) as Hno.
  destruct (run_from w (0 + 1 + 0 + 0) (openfile_publish _ _ _ _ _)) as [t o] eqn:E.
  intros [= <- ->]. split.
  - rewrite open_calls_malloc. by apply open_calls_none.
  - intros f Hf. apply openfile_publish_file in E as (f' & Hf' & Hty).
    rewrite Hf' in Hf. by injection Hf as <-.
Qed.

(** C1, amended.  In a build with netCDF, take a run of
    [PIOc_openfile_retry] in which the first open call of the process fails
    with [NC_ENOTNC] or [NC_EINVAL] and the requested type is not
    [PIO_IOTYPE_NETCDF].  The process is an I/O task.  With [retry] set: the
    representative (I/O rank 0) makes exactly one more open call, the serial
    [nc_open], and the other tasks none; a file record handed back has the
    backend type [PIO_IOTYPE_NETCDF]; and, where the status broadcasts leave
    the buffer of this task as it is, the call succeeds with the next
    identifier exactly when the second open did.  With [retry] clear: no
    second open is made, the backend type is untouched, and where the status
    broadcasts leave the buffer as it is the status handed back is the
    failure of the open (the call returns whenever the error handler is not
    the aborting one).  A task that does no I/O, in direct mode, makes no
    open call at all and keeps the backend type that was asked for, whatever
    [retry] is: the downgrade is not made on every process. *)
Theorem retry_downgrades_once_on_io_task :
  (forall b g iosysid iot fname mode retry (w : world) tr out e1 more,
     run w (PIOc_openfile_retry b g iosysid true (Some iot) (Some fname) mode retry)
     = (tr, out) ->
     has_NETCDF b = true ->
     iot <> PIO_IOTYPE_NETCDF ->
     open_statuses tr = e1 :: more ->
     e1 = NC_ENOTNC \/ e1 = NC_EINVAL ->
     exists ios,
       pio_get_iosystem_from_id (pio_iosystem_list g) iosysid = Some ios
       /\ ioproc ios = true
       /\ (retry <> 0 ->
           (if bool_decide (io_rank ios = 0)
            then exists e2 native md,
                   more = [e2] /\ open_calls tr = [native; nc_open fname md]
            else more = [] /\ length (open_calls tr) = 1%nat)
           /\ (forall r, out = Returned r ->
                         iotype <$> file_out r = Some PIO_IOTYPE_NETCDF)
           /\ (root_faithful w ios -> forall e2, more = [e2] ->
               ((exists r, out = Returned r /\ ret_code r = PIO_NOERR
                           /\ ncid_out r = Some (pio_next_ncid g))
                <-> e2 = NC_NOERR)))
       /\ (retry = 0 ->
           more = []
           /\ (forall r, out = Returned r -> iotype <$> file_out r = Some iot)
           /\ (root_faithful w ios ->
               (forall r, out = Returned r -> ret_code r = e1)
               /\ (error_handler ios <> PIO_INTERNAL_ERROR -> exists r, out = Returned r))))
  /\ (forall b g iosysid iot fname mode retry (w : world) tr r ios,
        pio_get_iosystem_from_id (pio_iosystem_list g) iosysid = Some ios ->
        ioproc ios = false ->
        async_interface ios = false ->
        run w (PIOc_openfile_retry b g iosysid true (Some iot) (Some fname) mode retry)
        = (tr, Returned r) ->
        open_calls tr = [] /\ (forall f, file_out r = Some f -> iotype f = iot)).
Proof.
  split.
  - intros. by eapply retry_on_failing_io_task.
  - intros. by eapply no_open_off_io_tasks.
Qed.

(** The representative of a group that asks for parallel netCDF-4 on a
    file that is not in that format, and a task of the group that only
    computes. *)
Lemma retry_downgrades_once_on_io_task_witness :
  open_statuses retry_example.1 = [NC_ENOTNC; NC_NOERR]
  /\ (exists ios,
        pio_get_iosystem_from_id [ios_of_task 0] 1 = Some ios
        /\ forall r, retry_example.2 = Returned r ->
                     iotype <$> file_out r = Some PIO_IOTYPE_NETCDF)
  /\ open_calls compute_example.1 = []
  /\ (forall r f, compute_example.2 = Returned r -> file_out r = Some f ->
                  iotype f = PIO_IOTYPE_PNETCDF).
Proof.
  split; [reflexivity|]. split.
  - destruct (proj1 retry_downgrades_once_on_io_task b_example
                (Globals 16 [] [ios_of_task 0] 1000) 1 PIO_IOTYPE_NETCDF4P "f.nc"%string 0 1
                not_this_format retry_example.1 retry_example.2 NC_ENOTNC [NC_NOERR])
      as (ios & Hios & _ & Hretry & _).
    + apply surjective_pairing.
    + reflexivity.
    + discriminate.
    + reflexivity.
    + left. reflexivity.
    + exists ios. split; [exact Hios|].
      destruct Hretry as (_ & Hty & _); [discriminate | exact Hty].
  - split; [reflexivity|]. intros r f Hr Hf.
    refine (proj2 (proj2 retry_downgrades_once_on_io_task b_example
                     (Globals 16 [] [ios_of_task 2] 1000) 1 PIO_IOTYPE_PNETCDF
                     "f.nc"%string 0 1 not_this_format compute_example.1 r (ios_of_task 2)
                     _ _ _ _) f Hf).
    + reflexivity.
    + reflexivity.
    + reflexivity.
    + rewrite <- Hr. apply surjective_pairing.
Defined.

(** C1 does not hold as stated: in a group of three tasks of which two do
    I/O, a parallel-netCDF open that fails with [NC_ENOTNC] is retried and
    every task returns [PIO_NOERR], yet the task that only computes keeps the
    requested backend type: the downgrade is made on the I/O tasks only. *)
Lemma downgrade_not_on_every_process :
  group_summary
    (group_run 10 (fun _ => not_this_format)
       (start_group (open_on_task PIO_IOTYPE_PNETCDF 1 <$> [0; 1; 2])) ∅)
  = Some [(PIO_NOERR, Some PIO_IOTYPE_NETCDF);
          (PIO_NOERR, Some PIO_IOTYPE_NETCDF);
          (PIO_NOERR, Some PIO_IOTYPE_PNETCDF)].
Proof. vm_compute. reflexivity. Qed.

(** On an I/O task the dispatch leaves the file record and the file name
    as they are. *)
Lemma openfile_dispatch_keeps b ios file fname (w : world) n t d :
  ioproc ios = true ->
  run_from w n (openfile_dispatch b ios file fname) = (t, Returned d) ->
  match d with
  | inl (_, f) => f = file
  | inr (fname', f) => fname' = fname /\ f = file
  end.
Proof.
  intros Hio. unfold openfile_dispatch. rewrite Hio. cbn [negb].
  destruct (async_interface ios); [|by intros [= _ <-]].
  rewrite run_from_bind. cbn [run_from mret prog_ret length].
  run_call.
  destruct (w _ (MPI_Bcast_int _ _ _)) as [rc2 v].
  destruct (nonzero rc2).
  { rewrite run_from_bind.
    destruct (run_from w _ (check_mpi _ _ _ _ _)) as [t' [a|h]]; [|done].
    cbn. by intros [= _ <-]. }
  destruct (nonzero v).
  { rewrite run_from_bind.
    destruct (run_from w _ (check_mpi _ _ _ _ _)) as [t' [a|h]]; [|done].
    cbn. by intros [= _ <-]. }
  cbn. by intros [= _ <-].
Qed.

(** An I/O task other than the representative, asked for serial netCDF-4:
    no open call, and the requested type in every record it hands back. *)
Lemma serial_netcdf4_off_the_representative
    b g iosysid fname mode retry (w : world) tr out ios :
  pio_get_iosystem_from_id (pio_iosystem_list g) iosysid = Some ios ->
  ioproc ios = true ->
  io_rank ios <> 0 ->
  run w (PIOc_openfile_retry b g iosysid true (Some PIO_IOTYPE_NETCDF4C) (Some fname)
           mode retry)
  = (tr, out) ->
  open_calls tr = []
  /\ (forall r f, out = Returned r -> file_out r = Some f -> iotype f = PIO_IOTYPE_NETCDF4C).
Proof.
  intros Hios Hio Hrank.
  unfold PIOc_openfile_retry, run.
  change ((PIO_IOTYPE_NETCDF4C <? PIO_IOTYPE_PNETCDF)
          || (PIO_IOTYPE_NETCDF4P <? PIO_IOTYPE_NETCDF4C)) with false. cbn iota.
  rewrite Hios. run_call.
  destruct (w 0%nat (malloc 1 T_file_desc_t)); cbn [negb];
    [|intros [= <- <-]; split; [done | by intros r f [= <-]]].
  rewrite run_from_bind.
  pose proof (only_calls_run not_open _ w (0 + 1)
                (openfile_dispatch_no_open b ios (new_file ios PIO_IOTYPE_NETCDF4C mode) fname))
    as H1.
  destruct (run_from w _ (openfile_dispatch _ _ _ _)) as [t1 [d|h]] eqn:E1; cbn [fst] in H1.
  2:{ intros [= <- <-]. rewrite open_calls_malloc. split; [by apply open_calls_none | done]. }
  apply openfile_dispatch_keeps in E1; [|done].
  destruct d as [[rc f] | [fname' f]].
  { subst f. cbn [run_from mret prog_ret]. intros [= <- <-].
    rewrite open_calls_malloc, app_nil_r. split; [by apply open_calls_none|].
    by intros r f' [= <-] [= <-]. }
  destruct E1 as [-> ->]. rewrite Hio.
  assert (run_from w (0 + 1 + length t1)
            (openfile_native b g ios (new_file ios PIO_IOTYPE_NETCDF4C mode) fname)
          = ([], Returned (PIO_NOERR,
                           set_mode (new_file ios PIO_IOTYPE_NETCDF4C mode)
                             (Z.lor mode NC_NETCDF4)))
          \/ exists x, run_from w (0 + 1 + length t1)
                         (openfile_native b g ios (new_file ios PIO_IOTYPE_NETCDF4C mode) fname)
                       = ([Entry (fputs stderr (iotype_message PIO_IOTYPE_NETCDF4C 847)) x],
                          Returned (PIO_EBADIOTYPE, new_file ios PIO_IOTYPE_NETCDF4C mode)))
    as Hnative.
  { unfold openfile_native. cbn [iotype new_file].
    rewrite (bool_decide_eq_false_2 (PIO_IOTYPE_NETCDF4C = PIO_IOTYPE_NETCDF4P)) by done.
    rewrite (bool_decide_eq_true_2 (PIO_IOTYPE_NETCDF4C = PIO_IOTYPE_NETCDF4C)) by done.
    rewrite (bool_decide_eq_false_2 (PIO_IOTYPE_NETCDF4C = PIO_IOTYPE_NETCDF)) by done.
    rewrite (bool_decide_eq_false_2 (PIO_IOTYPE_NETCDF4C = PIO_IOTYPE_PNETCDF)) by done.
    rewrite (bool_decide_eq_false_2 _ Hrank). rewrite !andb_false_r, !andb_true_r.
    destruct (has_NETCDF b && has_NETCDF4 b); [by left|]. right.
    unfold iotype_error. rewrite run_from_bind. run_call. cbn. by eexists. }
  rewrite !run_from_bind.
  destruct Hnative as [-> | [x ->]]; rewrite openfile_retry_not_fired by done;
    cbn [length app];
    match goal with
    | |- context [run_from w ?k (openfile_publish ?b' ?g' ?i' ?e' ?f')] =>
        pose proof (only_calls_run not_open _ w k (openfile_publish_no_open b' g' i' e' f'))
          as H4;
        destruct (run_from w k (openfile_publish b' g' i' e' f')) as [t4 o4] eqn:E4
    end;
    cbn [fst] in H4; intros [= <- <-];
    (split;
       [apply open_calls_none; constructor; [done|]; apply Forall_app_2; [done|];
        try (constructor; [done|]); done|]);
    intros r f -> Hf; apply openfile_publish_file in E4 as (f' & Hf' & Hty);
    rewrite Hf' in Hf; by injection Hf as <-.
Qed.

(** X1.  The serial netCDF-4 type is opened by the representative alone.
    An I/O task other than the representative makes no open call for it, in
    any build and whatever [retry] is, and every file record it hands back
    has the requested type [PIO_IOTYPE_NETCDF4C].  A process whose open
    call for that type fails with [NC_ENOTNC] or [NC_EINVAL] is therefore
    the representative, and with [retry] set the record it hands back has
    the type [PIO_IOTYPE_NETCDF]: the downgrade is missed by the other I/O
    tasks. *)
Theorem downgrade_missed_by_other_io_tasks :
  (forall b g iosysid fname mode retry (w : world) tr out ios,
     pio_get_iosystem_from_id (pio_iosystem_list g) iosysid = Some ios ->
     ioproc ios = true ->
     io_rank ios <> 0 ->
     run w (PIOc_openfile_retry b g iosysid true (Some PIO_IOTYPE_NETCDF4C) (Some fname)
              mode retry)
     = (tr, out) ->
     open_calls tr = []
     /\ (forall r f, out = Returned r -> file_out r = Some f ->
                     iotype f = PIO_IOTYPE_NETCDF4C))
  /\ (forall b g iosysid fname mode retry (w : world) tr out e1 more,
        run w (PIOc_openfile_retry b g iosysid true (Some PIO_IOTYPE_NETCDF4C) (Some fname)
                 mode retry)
        = (tr, out) ->
        has_NETCDF b = true ->
        retry <> 0 ->
        open_statuses tr = e1 :: more ->
        e1 = NC_ENOTNC \/ e1 = NC_EINVAL ->
        exists ios,
          pio_get_iosystem_from_id (pio_iosystem_list g) iosysid = Some ios
          /\ ioproc ios = true
          /\ io_rank ios = 0
          /\ forall r, out = Returned r -> iotype <$> file_out r = Some PIO_IOTYPE_NETCDF).
Proof.
  split.
  - intros. by eapply serial_netcdf4_off_the_representative.
  - intros b g iosysid fname mode retry w tr out e1 more E Hb Hretry Hst He.
    destruct (retry_on_failing_io_task b g iosysid PIO_IOTYPE_NETCDF4C fname mode retry w
                tr out e1 more E Hb) as (ios & Hios & Hio & Hyes & _); [done..|].
    exists ios. split; [done|]. split; [done|].
    destruct (Hyes Hretry) as (_ & Hty & _). split; [|done].
    destruct (decide (io_rank ios = 0)) as [|Hrank]; [done|]. exfalso.
    destruct (serial_netcdf4_off_the_representative b g iosysid fname mode retry w tr out ios
                Hios Hio Hrank E) as [Hnone _].
    assert (length (open_statuses tr) = length (open_calls tr)) as Hlen.
    { clear. unfold open_statuses, open_calls, events_of.
      induction tr as [|[e r] tr IH]; [done|].
      cbn [omap map entry_event projT1]. rewrite filter_cons.
      destruct e; cbn; try exact IH; destruct r;
        (destruct (decide (true = true)); [|done]); cbn [length]; f_equal; exact IH. }
    rewrite Hst, Hnone in Hlen. done.
Qed.

(** The I/O task of rank 1 of the example group, whose representative sees
    the serial open fail. *)
Lemma downgrade_missed_by_other_io_tasks_witness :
  open_calls other_io_task_example.1 = []
  /\ exists r, other_io_task_example.2 = Returned r
               /\ ret_code r = PIO_NOERR
               /\ iotype <$> file_out r = Some PIO_IOTYPE_NETCDF4C.
Proof.
  destruct (proj1 downgrade_missed_by_other_io_tasks b_example
              (Globals 16 [] [ios_of_task 1] 1000) 1 "f.nc"%string 0 1 not_netcdf4
              other_io_task_example.1 other_io_task_example.2 (ios_of_task 1))
    as [Hcalls Hty].
  - reflexivity.
  - reflexivity.
  - discriminate.
  - apply surjective_pairing.
  - split; [exact Hcalls|].
    destruct other_io_task_example.2 as [r|h] eqn:E; [|vm_compute in E; discriminate E].
    exists r. split; [reflexivity|].
    split; [vm_compute in E; by injection E as <-|].
    destruct (file_out r) as [f|] eqn:Hf; [|vm_compute in E; injection E as <-; discriminate Hf].
    cbn. f_equal. by apply (Hty r f).
Defined.

(** The group of three tasks of the example: the representative downgrades
    its file record, the other I/O task and the task that only computes
    return [PIO_NOERR] with the requested type still in their records. *)
Lemma downgrade_missed_example :
  group_summary
    (group_run 10 (fun _ => not_netcdf4)
       (start_group (open_on_task PIO_IOTYPE_NETCDF4C 1 <$> [0; 1; 2])) ∅)
  = Some [(PIO_NOERR, Some PIO_IOTYPE_NETCDF);
          (PIO_NOERR, Some PIO_IOTYPE_NETCDF4C);
          (PIO_NOERR, Some PIO_IOTYPE_NETCDF4C)].
Proof. vm_compute. reflexivity. Qed.

(** ** The compute side of the dispatch *)

Ltac destruct_answer t :=
  let rc := fresh "rc" in
  let v := fresh "v" in
  first [ destruct t as [rc v] eqn:? | destruct t as rc eqn:? ].

Lemma openfile_send_params_run ios file fname (w : world) n :
  exists steps mpierr fname' file',
    run_from w n (openfile_send_params ios file fname)
    = (steps, Returned (mpierr, fname', file'))
    /\ dispatch_steps ios fname (iotype file) (mode file) steps mpierr
    /\ iosystem file' = iosystem file.
Proof.
  unfold openfile_send_params, dispatch_steps, dispatch_protocol.
  destruct (nonzero (compmaster ios)) eqn:Hcm.
  all: repeat first
    [ run_call
    | rewrite run_from_bind
    | progress cbn [run_from mret prog_ret length call]
    | match goal with
      | |- context [if nonzero ?c then _ else _] => destruct (nonzero c) eqn:?
      | |- context [?f ?k ?e] =>
          match type of f with world => destruct_answer (f k e) end
      end ].
  all: cbn.
  all: repeat match goal with
       | H : nonzero _ = true |- _ => apply nonzero_true in H
       | H : nonzero _ = false |- _ => apply nonzero_false in H
       end; subst.
  all: try done.
  all: eexists _, _, _, _; split; [reflexivity|]; split; [|done].
  all: match goal with
       | |- context [Entry (MPI_Send_int ?a ?b ?c ?d) ?r] => exists r
       | _ => exists 0
       end.
  all: match goal with
       | |- context [Entry (MPI_Bcast_int (strlen ?a) ?b ?c) ?r] => exists r
       | _ => exists (0, 0)
       end.
  all: match goal with
       | |- context [Entry (MPI_Bcast_chars ?a ?b ?c ?d) ?r] => exists r
       | _ => exists (0, EmptyString)
       end.
  all: match goal with
       | |- context [Entry (MPI_Bcast_int (iotype ?a) ?b ?c) ?r] => exists r
       | _ => exists (0, 0)
       end.
  all: match goal with
       | |- context [Entry (MPI_Bcast_int (mode ?a) ?b ?c) ?r] => exists r
       | _ => exists (0, 0)
       end.
  all: split; [eexists; cbn; reflexivity|].
  all: split;
    [ intros ?; first [ done | split; [reflexivity | by repeat constructor] ]
    | intros ?; first
        [ done
        | first [ eexists [], _; split; [reflexivity|]
                | eexists [_], _; split; [reflexivity|]
                | eexists [_; _], _; split; [reflexivity|]
                | eexists [_; _; _], _; split; [reflexivity|]
                | eexists [_; _; _; _], _; split; [reflexivity|] ];
          split; [reflexivity | by repeat constructor] ] ].
Qed.

Lemma through_check_mpi b (w : world) n g file code line (f : Z -> prog open_result) :
  code <> 0 ->
  (forall r, f r = mret (OpenResult r None (Some file) g)) ->
  exists rest out,
    run_from w n (check_mpi b (Some file) code (Some this_file) line ≫= f) = (rest, out)
    /\ returns_through_check_mpi b w n g file code line rest out.
Proof.
  intros Hc Hf. rewrite run_from_bind.
  destruct (run_from w n (check_mpi _ _ _ _ _)) as [t [r|h]] eqn:E.
  - rewrite Hf. cbn. rewrite app_nil_r. eexists _, _. split; [reflexivity|].
    exists (Returned r). split_and!; [done..|].
    intros ? [= <-]. by eapply check_mpi_nonzero.
  - eexists _, _. split; [reflexivity|]. by exists (Terminated h).
Qed.

Lemma openfile_dispatch_compute b ios file0 fname (w : world) n :
  async_interface ios = true ->
  ioproc ios = false ->
  exists steps mpierr rc2 v rest o file fname',
    run_from w n (openfile_dispatch b ios file0 fname)
    = (steps ++ Entry (MPI_Bcast_int mpierr (comproot ios) (my_comm ios)) (rc2, v) :: rest,
       o)
    /\ dispatch_steps ios fname (iotype file0) (mode file0) steps mpierr
    /\ (rc2 <> MPI_SUCCESS ->
        exists o',
          run_from w (n + length steps + 1)
            (check_mpi b (Some file) rc2 (Some this_file) 798) = (rest, o')
          /\ o = lift_outcome (fun r => inl (r, file)) o')
    /\ (rc2 = MPI_SUCCESS -> v <> MPI_SUCCESS ->
        exists o',
          run_from w (n + length steps + 1)
            (check_mpi b (Some file) v (Some this_file) 800) = (rest, o')
          /\ o = lift_outcome (fun r => inl (r, file)) o')
    /\ (rc2 = MPI_SUCCESS -> v = MPI_SUCCESS ->
        rest = [] /\ o = Returned (inr (fname', file))).
Proof.
  intros Hasync Hio. unfold openfile_dispatch. rewrite Hasync, Hio. cbn [negb].
  rewrite run_from_bind.
  destruct (openfile_send_params_run ios file0 fname w n)
    as (steps & mpierr & fname' & file & -> & Hsteps & Hsys).
  run_call.
  destruct (w _ (MPI_Bcast_int mpierr (comproot ios) (my_comm ios))) as [rc2 v] eqn:E2.
  exists steps, mpierr, rc2, v.
  destruct (nonzero rc2) eqn:H2; [|destruct (nonzero v) eqn:H3].
  - apply nonzero_true in H2. rewrite run_from_bind.
    destruct (run_from w _ (check_mpi _ _ _ _ _)) as [t [r|h]] eqn:E; cbn;
      rewrite ?app_nil_r; eexists _, _, file, fname'; (split; [reflexivity|]);
      (split_and!; [done | | done | done]); intros _; eexists; by split.
  - apply nonzero_false in H2. apply nonzero_true in H3. rewrite run_from_bind.
    destruct (run_from w _ (check_mpi _ _ _ _ _)) as [t [r|h]] eqn:E; cbn;
      rewrite ?app_nil_r; eexists _, _, file, fname'; (split; [reflexivity|]);
      (split_and!; [done | done | | done]); intros _ _; eexists; by split.
  - apply nonzero_false in H2, H3. cbn.
    eexists _, _, file, fname'. split; [reflexivity|]. by split_and!.
Qed.

(** C3, amended.  On a compute task of an asynchronous I/O system, after
    the allocation of the file record, the call makes the steps of the
    dispatch in protocol order (the operation code from the compute
    representative to the I/O root over the union communicator, then name
    length, name, backend type and mode broadcast over the inter-group
    communicator rooted at the compute representative) and stops at the
    first step that fails.  It does not return there: the status of the
    dispatch is next broadcast from the compute root over the task's own
    communicator, and what [check_mpi] classifies and the call returns is
    the return code of that broadcast or, when it succeeds, the status it
    delivers.  When both are zero the outcome broadcast follows, and its
    failure is classified and returned in the same way. *)
Theorem dispatch_on_compute_task b g iosysid iot fname mode retry (w : world) ios :
  PIO_IOTYPE_PNETCDF <= iot <= PIO_IOTYPE_NETCDF4P ->
  pio_get_iosystem_from_id (pio_iosystem_list g) iosysid = Some ios ->
  async_interface ios = true ->
  ioproc ios = false ->
  w 0%nat (malloc 1 T_file_desc_t) = true ->
  exists steps mpierr rc2 v rest out file,
    run w (PIOc_openfile_retry b g iosysid true (Some iot) (Some fname) mode retry)
    = (Entry (malloc 1 T_file_desc_t) true
         :: steps
         ++ Entry (MPI_Bcast_int mpierr (comproot ios) (my_comm ios)) (rc2, v)
         :: rest,
       out)
    /\ dispatch_steps ios fname iot mode steps mpierr
    /\ (rc2 <> MPI_SUCCESS ->
        returns_through_check_mpi b w (length steps + 2) g file rc2 798 rest out)
    /\ (rc2 = MPI_SUCCESS -> v <> MPI_SUCCESS ->
        returns_through_check_mpi b w (length steps + 2) g file v 800 rest out)
    /\ (rc2 = MPI_SUCCESS -> v = MPI_SUCCESS ->
        exists rc3 e rest',
          rest = Entry (MPI_Bcast_int PIO_NOERR (ioroot ios) (my_comm ios)) (rc3, e)
                   :: rest'
          /\ (rc3 <> MPI_SUCCESS ->
              returns_through_check_mpi b w (length steps + 3) g file rc3 882 rest' out)).
Proof.
  intros Hr Hios Hasync Hio Hm. unfold PIOc_openfile_retry, run.
  destruct (_ || _) eqn:E.
  { apply orb_true_iff in E as [E | E]; apply Z.ltb_lt in E; lia. }
  rewrite Hios. run_call. rewrite Hm. cbn [negb].
  rewrite run_from_bind.
  destruct (openfile_dispatch_compute b ios (new_file ios iot mode) fname w (0 + 1))
    as (steps & mpierr & rc2 & v & rest & o & file & fname' & -> & Hsteps & H1 & H2 & H3);
    [done..|].
  exists steps, mpierr, rc2, v.
  replace (0 + 1 + length steps + 1)%nat with (length steps + 2)%nat in * by lia.
  destruct (decide (rc2 = MPI_SUCCESS)) as [Hrc | Hrc];
    [destruct (decide (v = MPI_SUCCESS)) as [Hv | Hv]|].
  - destruct (H3 Hrc Hv) as [-> ->]. clear H1 H2 H3. rewrite Hio.
    rewrite run_from_bind. cbn [run_from mret prog_ret length].
    rewrite length_app. cbn [length].
    replace (0 + 1 + (length steps + 1) + 0)%nat with (length steps + 2)%nat by lia.
    unfold openfile_publish. run_call.
    destruct (w _ (MPI_Bcast_int PIO_NOERR (ioroot ios) (my_comm ios))) as [rc3 e] eqn:E3.
    replace (length steps + 2 + 1)%nat with (length steps + 3)%nat by lia.
    destruct (nonzero rc3) eqn:Hn3.
    + apply nonzero_true in Hn3.
      destruct (through_check_mpi b w (length steps + 3) g file rc3 882
                  (fun r => mret (OpenResult r None (Some file) g)))
        as (rest' & out & -> & Hc); [done..|].
      eexists _, out, file. split; [by rewrite <- app_assoc|].
      split_and!; [done..|]. intros _ _. by eexists _, _, _.
    + apply nonzero_false in Hn3.
      destruct (run_from w _ _) as [rest' out].
      eexists _, out, file. split; [by rewrite <- app_assoc|].
      split_and!; [done..|]. intros _ _. by eexists _, _, _.
  - destruct (H2 Hrc Hv) as (o' & E' & ->).
    exists rest, (lift_outcome (fun r => OpenResult r None (Some file) g) o'), file. split.
    { destruct o'; cbn; by rewrite ?app_nil_r. }
    split_and!; [done | done | | done].
    intros _ _. exists o'. split_and!; [done | done |].
    intros r ->. by eapply check_mpi_nonzero.
  - destruct (H1 Hrc) as (o' & E' & ->).
    exists rest, (lift_outcome (fun r => OpenResult r None (Some file) g) o'), file. split.
    { destruct o'; cbn; by rewrite ?app_nil_r. }
    split_and!; [done | | done | done].
    intros _. exists o'. split_and!; [done | done |].
    intros r ->. by eapply check_mpi_nonzero.
Qed.

(** The compute representative of an asynchronous system, in an
    environment where every step succeeds. *)
Lemma dispatch_on_compute_task_witness :
  exists steps mpierr rc2 v rest out,
    run (fun _ => answer_default)
      (PIOc_openfile_retry b_example (Globals 16 [] [ios_compute 1] 1000)
         1 true (Some PIO_IOTYPE_NETCDF) (Some "f.nc"%string) 0 0)
    = (Entry (malloc 1 T_file_desc_t) true
         :: steps ++ Entry (MPI_Bcast_int mpierr 0 13) (rc2, v) :: rest,
       out)
    /\ dispatch_steps (ios_compute 1) "f.nc" PIO_IOTYPE_NETCDF 0 steps mpierr.
Proof.
  destruct (dispatch_on_compute_task b_example (Globals 16 [] [ios_compute 1] 1000)
              1 PIO_IOTYPE_NETCDF "f.nc"%string 0 0 (fun _ => answer_default)
              (ios_compute 1))
    as (steps & mpierr & rc2 & v & rest & out & file & Hrun & Hsteps & _).
  - unfold PIO_IOTYPE_PNETCDF, PIO_IOTYPE_NETCDF, PIO_IOTYPE_NETCDF4P. lia.
  - reflexivity.
  - reflexivity.
  - reflexivity.
  - reflexivity.
  - exists steps, mpierr, rc2, v, rest, out. split; [exact Hrun | exact Hsteps].
Defined.

(** C3 does not hold as stated: the broadcast of the name length fails on
    this task with code 5, but the status broadcast that follows delivers
    the root's zero, which overwrites the failure; the call goes on and
    returns [PIO_NOERR] with an identifier. *)
Lemma transport_failure_not_returned :
  lost_failure_run.1 !! 1%nat = Some (Entry (MPI_Bcast_int 4 0 12) (5, 4))
  /\ lost_failure_run.1 !! 2%nat = Some (Entry (MPI_Bcast_int 5 0 13) (MPI_SUCCESS, 0))
  /\ exists r, lost_failure_run.2 = Returned r
               /\ ret_code r = PIO_NOERR /\ ncid_out r = Some 16.
Proof.
  split; [reflexivity|]. split; [reflexivity|].
  eexists. split; [reflexivity|]. split; reflexivity.
Qed.

(** ** Reading a map file *)

Ltac run_call_at := run_call; cbn [Nat.add].

(** C10.  On a process of non-zero rank at or beyond the process count that
    the header broadcast delivers, [PIOc_readmap] takes part in the two
    scalar broadcasts and in the broadcast of the dimensions, makes no other
    call, and returns [PIO_NOERR] with the map length set to zero and the
    map pointer not written (provided the dimension array could be
    allocated, or has no element). *)
Theorem readmap_rank_beyond_declared_count
    b u file ndims0 comm (w : world) npes myrank rc1 rnpes rc2 nd ok rc3 tdims :
  w 0%nat (MPI_Comm_size comm) = npes ->
  w 1%nat (MPI_Comm_rank comm) = myrank ->
  w 2%nat (MPI_Bcast_int (u_rnpes u) 0 comm) = (rc1, rnpes) ->
  w 3%nat (MPI_Bcast_int ndims0 0 comm) = (rc2, nd) ->
  w 4%nat (calloc nd T_int) = ok ->
  w 5%nat (MPI_Bcast_ints (replicate (Z.to_nat nd) 0) nd 0 comm) = (rc3, tdims) ->
  myrank <> 0 ->
  rnpes <= myrank ->
  ok = true \/ nd <= 0 ->
  run w (PIOc_readmap b u file true true true true ndims0 comm)
  = ([Entry (MPI_Comm_size comm) npes;
      Entry (MPI_Comm_rank comm) myrank;
      Entry (MPI_Bcast_int (u_rnpes u) 0 comm) (rc1, rnpes);
      Entry (MPI_Bcast_int ndims0 0 comm) (rc2, nd);
      Entry (calloc nd T_int) ok;
      Entry (MPI_Bcast_ints (replicate (Z.to_nat nd) 0) nd 0 comm) (rc3, tdims)],
     Returned {| rm_ret := PIO_NOERR;
                 rm_ndims := nd;
                 rm_gdims := if ok then Some tdims else None;
                 rm_fmaplen := Some 0;
                 rm_map := None |}).
Proof.
  intros H0 H1 H2 H3 H4 H5 Hrank Hle Hok.
  unfold PIOc_readmap, run. cbn [andb negb].
  run_call_at. rewrite H0. run_call_at. rewrite H1.
  rewrite (proj2 (Z.eqb_neq myrank 0) Hrank).
  run_call_at. rewrite H2. run_call_at. rewrite H3. run_call_at. rewrite H4.
  assert (negb ok && (0 <? nd) = false) as ->.
  { destruct Hok as [-> | Hnd]; [done|].
    rewrite (proj2 (Z.ltb_ge 0 nd) Hnd). apply andb_false_r. }
  run_call_at. rewrite H5.
  rewrite (proj2 (Z.ltb_ge myrank rnpes) Hle). done.
Qed.

(** Rank 3 of 4 reading a file that declares two processes. *)
Lemma readmap_rank_beyond_declared_count_witness :
  run beyond_count
    (PIOc_readmap b_example (Indeterminate 0 0 0 0 0) "map.txt" true true true true 0 5)
  = ([Entry (MPI_Comm_size 5) 4;
      Entry (MPI_Comm_rank 5) 3;
      Entry (MPI_Bcast_int 0 0 5) (MPI_SUCCESS, 2);
      Entry (MPI_Bcast_int 0 0 5) (MPI_SUCCESS, 1);
      Entry (calloc 1 T_int) true;
      Entry (MPI_Bcast_ints [0] 1 0 5) (MPI_SUCCESS, [10])],
     Returned (ReadmapOut PIO_NOERR 1 (Some [10]) (Some 0) None)).
Proof.
  apply (readmap_rank_beyond_declared_count b_example (Indeterminate 0 0 0 0 0)
           "map.txt" 0 5 beyond_count 4 3 MPI_SUCCESS 2 MPI_SUCCESS 1 true MPI_SUCCESS [10]);
    try reflexivity.
  - discriminate.
  - discriminate.
  - left. reflexivity.
Defined.

Lemma piodie_diagnostic {A : Type} b msg fname line :
  only_calls is_diagnostic (@piodie A b msg fname line).
Proof. unfold piodie, print_trace. only_calls_tac. Qed.

Lemma piodie_run {A : Type} b msg fname line (w : world) n :
  exists t how,
    run_from w n (@piodie A b msg fname line) = (t, Terminated how)
    /\ Forall (fun x => is_diagnostic (entry_event x)) t.
Proof.
  destruct (piodie_never_returns (A:=A) b msg fname line w n) as (t & h & E).
  exists t, h. split; [done|].
  pose proof (only_calls_run is_diagnostic _ w n (piodie_diagnostic (A:=A) b msg fname line)).
  by rewrite E in H.
Qed.

Lemma readmap_header_rejected b u file ndims gdims fmaplen map ndims0 comm (w : world)
    content :
  ndims && gdims && fmaplen && map = true ->
  w 1%nat (MPI_Comm_rank comm) = 0 ->
  w 2%nat (fopen_r file) = Some content ->
  nth 0 (fscanf header_format content).1 (u_rversno u) <> versno
  \/ nth 1 (fscanf header_format content).1 (u_rnpes u) < 1
  \/ w 0%nat (MPI_Comm_size comm) < nth 1 (fscanf header_format content).1 (u_rnpes u) ->
  exists tail how,
    run w (PIOc_readmap b u file ndims gdims fmaplen map ndims0 comm)
    = (Entry (MPI_Comm_size comm) (w 0%nat (MPI_Comm_size comm))
         :: Entry (MPI_Comm_rank comm) 0
         :: Entry (fopen_r file) (Some content)
         :: tail,
       Terminated how)
    /\ Forall (fun x => is_diagnostic (entry_event x)) tail.
Proof.
  intros Hargs H1 H2 Hbad. unfold PIOc_readmap, run. rewrite Hargs. cbn [negb].
  run_call_at. run_call_at. rewrite H1. cbn [Z.eqb].
  run_call_at. rewrite H2.
  fold header_format. destruct (fscanf header_format content) as [vs s]. cbn [fst] in Hbad.
  destruct (negb (_ =? versno)) eqn:Hv.
  { destruct (piodie_run (A:=readmap_out) b
                (Some "Attempt to read incompatable map file version"%string)
                (Some this_file) 553 w 3) as (t & h & -> & Ht).
    by eexists _, _. }
  destruct (_ || _) eqn:Hn.
  { destruct (piodie_run (A:=readmap_out) b
                (Some "Incompatable pe count in map file "%string)
                (Some this_file) 556 w 3) as (t & h & -> & Ht).
    by eexists _, _. }
  exfalso. apply negb_false_iff, Z.eqb_eq in Hv.
  apply orb_false_iff in Hn as [Hn1 Hn2]. apply Z.ltb_ge in Hn1, Hn2.
  destruct Hbad as [? | [? | ?]]; [done | lia | lia].
Qed.

(** ** Releasing a region list *)

Lemma after_release_nil m : after_release m [] = m.
Proof.
  destruct m as [rs ds lv rl]. unfold after_release. cbn.
  rewrite app_nil_r. f_equal. set_solver.
Qed.

Lemma after_release_app m ps qs :
  after_release (after_release m ps) qs = after_release m (ps ++ qs).
Proof.
  unfold after_release. cbn. rewrite !foldl_app, fmap_app, app_assoc. f_equal.
  rewrite list_to_set_app_L. set_solver.
Qed.

Lemma brel_live m p :
  p ∈ live m -> brel m p = Done (after_release m [p]).
Proof.
  intros Hp. unfold brel. rewrite (bool_decide_eq_true_2 _ Hp).
  unfold after_release. cbn. do 2 f_equal. set_solver.
Qed.

Lemma live_after_release m ps q :
  q ∈ live m -> q ∉ ps -> q ∈ live (after_release m ps).
Proof. intros. cbn. set_solver. Qed.

Lemma foldl_delete_lookup_ne {A : Type} (rs : gmap Z A) ps q :
  q ∉ ps -> foldl (fun rs p => delete p rs) rs ps !! q = rs !! q.
Proof.
  revert rs. induction ps as [|p ps IH]; intros rs Hq; [done|].
  cbn. apply not_elem_of_cons in Hq as [Hne Hq].
  rewrite (IH _ Hq). by apply lookup_delete_ne.
Qed.

Lemma foldl_delete_lookup_in {A : Type} (rs : gmap Z A) ps q :
  q ∈ ps -> foldl (fun rs p => delete p rs) rs ps !! q = None.
Proof.
  revert rs. induction ps as [|p ps IH]; intros rs Hq; [by apply elem_of_nil in Hq|].
  cbn. destruct (decide (q ∈ ps)) as [Hin | Hnin]; [by apply IH|].
  apply elem_of_cons in Hq as [-> | Hq]; [|done].
  rewrite foldl_delete_lookup_ne by done. apply lookup_delete_eq.
Qed.

Lemma regions_after_release m ps q :
  q ∉ ps -> regions (after_release m ps) !! q = regions m !! q.
Proof. apply foldl_delete_lookup_ne. Qed.

Lemma dtype_arrays_after_release m ps q :
  q ∉ ps -> dtype_arrays (after_release m ps) !! q = dtype_arrays m !! q.
Proof. apply foldl_delete_lookup_ne. Qed.

Lemma region_list_frame rs rs' ptr nodes :
  (forall q, q ∈ nodes.*1 -> rs' !! q = rs !! q) ->
  region_list rs ptr nodes -> region_list rs' ptr nodes.
Proof.
  revert ptr. induction nodes as [|[p r] rest IH]; intros ptr Hrs; [done|].
  cbn. intros (-> & Hp & Hr & Hl). split_and!; [done | done | |].
  - rewrite Hrs; [done | cbn; set_solver].
  - apply IH; [|done]. intros q Hq. apply Hrs. cbn. set_solver.
Qed.

Lemma node_in_blocks n nodes : n ∈ nodes -> n.1 ∈ list_blocks nodes.
Proof.
  unfold list_blocks. induction nodes as [|n' nodes IH]; intros Hn.
  - by apply elem_of_nil in Hn.
  - cbn [fmap list_fmap concat]. apply elem_of_app.
    apply elem_of_cons in Hn as [-> | Hn]; [left | right; by apply IH].
    unfold node_blocks. rewrite !elem_of_app. right. right. by apply list_elem_of_singleton.
Qed.

Lemma node_blocks_not_null n : n.1 <> NULL -> Forall (fun p => p <> NULL) (node_blocks n).
Proof.
  intros Hn. unfold node_blocks.
  repeat case_bool_decide; repeat constructor; done.
Qed.

Lemma region_list_blocks_not_null rs ptr nodes :
  region_list rs ptr nodes -> Forall (fun p => p <> NULL) (list_blocks nodes).
Proof.
  revert ptr. induction nodes as [|[p r] rest IH]; intros ptr; [by constructor|].
  cbn. intros (-> & Hp & Hr & Hl). unfold list_blocks. cbn [fmap list_fmap concat].
  apply Forall_app. split; [by apply node_blocks_not_null | by eapply IH].
Qed.

Lemma free_region_node m p r :
  regions m !! p = Some r -> p <> NULL ->
  NoDup (node_blocks (p, r)) ->
  Forall (fun q => q ∈ live m) (node_blocks (p, r)) ->
  (m ← brel_if_set m (start r); m ← brel_if_set m (count r); brel m p)
  = Done (after_release m (node_blocks (p, r))).
Proof.
  intros Hr Hp Hnd Hlive. unfold node_blocks, brel_if_set in *. cbn [fst snd] in *.
  destruct (bool_decide (start r = NULL)); destruct (bool_decide (count r = NULL));
    cbn [app] in *.
  all: repeat match goal with
       | H : NoDup (_ :: _) |- _ => apply NoDup_cons in H as [? ?]
       | H : Forall _ (_ :: _) |- _ => apply Forall_cons in H as [? ?]
       end.
  all: unfold mbind, result_mbind; cbn [result_bind].
  - by apply brel_live.
  - rewrite brel_live by done. cbn [result_bind].
    rewrite brel_live by (apply live_after_release; set_solver).
    by rewrite after_release_app.
  - rewrite brel_live by done. cbn [result_bind].
    rewrite brel_live by (apply live_after_release; set_solver).
    by rewrite after_release_app.
  - rewrite brel_live by done. cbn [result_bind].
    rewrite brel_live by (apply live_after_release; set_solver). cbn [result_bind].
    rewrite brel_live by (rewrite after_release_app; apply live_after_release; set_solver).
    by rewrite !after_release_app.
Qed.

Lemma free_region_list_run nodes : forall m top fuel,
  region_list (regions m) top nodes ->
  NoDup (list_blocks nodes) ->
  Forall (fun p => p ∈ live m) (list_blocks nodes) ->
  (length nodes < fuel)%nat ->
  free_region_list fuel m top = Done (after_release m (list_blocks nodes)).
Proof.
  induction nodes as [|[p r] rest IH]; intros m top fuel Hl Hnd Hlive Hfuel.
  - cbn in Hl. subst. destruct fuel; [cbn in Hfuel; lia|]. cbn.
    by rewrite after_release_nil.
  - destruct fuel as [|fuel]; [cbn in Hfuel; lia|]. cbn in Hl.
    destruct Hl as (-> & Hp & Hr & Hl).
    unfold list_blocks in *. cbn [fmap list_fmap concat] in *.
    apply NoDup_app in Hnd as (Hnd1 & Hdisj & Hnd2).
    apply Forall_app in Hlive as [Hlive1 Hlive2].
    cbn [free_region_list]. rewrite (bool_decide_eq_false_2 _ Hp), Hr.
    pose proof (free_region_node m p r Hr Hp Hnd1 Hlive1) as Hnode.
    unfold mbind, result_mbind in Hnode |- *.
    destruct (brel_if_set m (start r)) as [m1| |]; cbn [result_bind] in Hnode |- *; try done.
    destruct (brel_if_set m1 (count r)) as [m2| |]; cbn [result_bind] in Hnode |- *; try done.
    rewrite Hnode. cbn [result_bind].
    rewrite (IH (after_release m (node_blocks (p, r))) (next r) fuel).
    + by rewrite after_release_app.
    + eapply region_list_frame; [|exact Hl].
      intros q Hq. apply regions_after_release.
      intros Hin. apply (Hdisj q Hin).
      apply list_elem_of_fmap in Hq as ([q' r'] & -> & Hq).
      by apply (node_in_blocks (q', r')).
    + done.
    + rewrite Forall_forall in Hlive2 |- *. intros q Hq.
      apply live_after_release; [by apply Hlive2|].
      intros Hin. by apply (Hdisj q Hin).
    + cbn in Hfuel. lia.
Qed.

(** C9.  [free_region_list] on a null head releases nothing.  On an acyclic
    list it terminates (the loop makes one turn per node) and releases for
    every node, in list order, the start array and the count array where
    they are set, then the node itself; nothing else is released, and no
    null pointer is handed to [brel]. *)
Theorem free_region_list_releases_every_node :
  (forall m fuel, free_region_list (S fuel) m NULL = Done m)
  /\ (forall m top nodes fuel,
        region_list (regions m) top nodes ->
        NoDup (list_blocks nodes) ->
        Forall (fun p => p ∈ live m) (list_blocks nodes) ->
        (length nodes < fuel)%nat ->
        exists m',
          free_region_list fuel m top = Done m'
          /\ released m' = released m ++ (Brel <$> list_blocks nodes)
          /\ live m' = live m ∖ list_to_set (list_blocks nodes)
          /\ Forall (fun n => regions m' !! n.1 = None) nodes
          /\ Forall (fun p => p <> NULL) (list_blocks nodes)).
Proof.
  split; [done|].
  intros m top nodes fuel Hl Hnd Hlive Hfuel.
  exists (after_release m (list_blocks nodes)). split_and!.
  - by apply free_region_list_run.
  - done.
  - done.
  - rewrite Forall_forall. intros n Hn.
    apply foldl_delete_lookup_in. by apply node_in_blocks.
  - by eapply region_list_blocks_not_null.
Qed.

(** A list of two regions, each with one coordinate array only. *)
Lemma free_region_list_releases_every_node_witness :
  exists m',
    free_region_list 3 memory_example 100 = Done m'
    /\ released m' = [Brel 101; Brel 100; Brel 202; Brel 200].
Proof.
  destruct (proj2 free_region_list_releases_every_node memory_example 100 two_regions 3%nat)
    as (m' & Hrun & Hrel & _).
  - cbn. split_and!; try done.
  - refine (bool_decide_unpack _ _); vm_compute; exact I.
  - refine (bool_decide_unpack _ _); vm_compute; exact I.
  - cbn. lia.
  - exists m'. split; [exact Hrun | exact Hrel].
Defined.

(** ** Destroying a decomposition *)

Lemma blocks_of_app l1 l2 : blocks_of (l1 ++ l2) = blocks_of l1 ++ blocks_of l2.
Proof. apply omap_app. Qed.

Lemma blocks_of_Brel ps : blocks_of (Brel <$> ps) = ps.
Proof. unfold blocks_of. induction ps as [|p ps IH]; [done|]. cbn. by rewrite IH. Qed.

Lemma blocks_of_Type_free hs : blocks_of (Type_free <$> hs) = [].
Proof. unfold blocks_of. induction hs as [|h hs IH]; [done|]. cbn. by rewrite IH. Qed.

Lemma after_nil m : after m [] = m.
Proof.
  destruct m as [rs ds lv rl]. unfold after. cbn. rewrite app_nil_r. f_equal. set_solver.
Qed.

Lemma after_app m l1 l2 : after (after m l1) l2 = after m (l1 ++ l2).
Proof.
  unfold after. cbn. rewrite blocks_of_app, !foldl_app, app_assoc. f_equal.
  rewrite list_to_set_app_L. set_solver.
Qed.

Lemma after_release_after m ps : after_release m ps = after m (Brel <$> ps).
Proof. unfold after_release, after. by rewrite blocks_of_Brel. Qed.

Lemma live_after m l q : q ∈ live (after m l) <-> q ∈ live m /\ q ∉ blocks_of l.
Proof. cbn. set_solver. Qed.

Lemma brel_after m l p :
  p ∈ live m -> p ∉ blocks_of l ->
  brel (after m l) p = Done (after m (l ++ [Brel p])).
Proof.
  intros Hp Hl. rewrite brel_live by by apply live_after.
  by rewrite after_release_after, after_app.
Qed.

Lemma brel_if_set_after m l p :
  Forall (fun q => q ∈ live m /\ q ∉ blocks_of l) (opt p) ->
  brel_if_set (after m l) p = Done (after m (l ++ (Brel <$> opt p))).
Proof.
  unfold brel_if_set, opt. case_bool_decide; intros Hq.
  - cbn. by rewrite app_nil_r.
  - apply Forall_singleton in Hq as [? ?]. by apply brel_after.
Qed.

Lemma free_types_run n : forall i m arr a,
  dtype_arrays m !! arr = Some a ->
  (i + n <= length a)%nat ->
  exists ds,
    free_types n i m arr
    = Done (Memory (regions m) ds (live m)
              (released m ++ (Type_free <$> live_handles n (drop i a))))
    /\ forall q, q <> arr -> ds !! q = dtype_arrays m !! q.
Proof.
  unfold live_handles.
  induction n as [|n IH]; intros i m arr a Ha Hlen.
  - exists (dtype_arrays m). cbn. rewrite app_nil_r. by destruct m.
  - cbn [free_types]. rewrite Ha. cbn.
    destruct (lookup_lt_is_Some_2 a i) as [h Hh]; [lia|]. rewrite Hh.
    rewrite (drop_S a h i Hh). cbn [take]. rewrite filter_cons.
    case_bool_decide as Hnull.
    + destruct (IH (S i) m arr a Ha) as (ds & -> & Hds); [lia|].
      exists ds. split; [|done]. subst h. by destruct (decide _).
    + set (m1 := MPI_Type_free m arr i h).
      assert (dtype_arrays m1 !! arr = Some (<[i := MPI_DATATYPE_NULL]> a)) as Ha1.
      { cbn. by rewrite lookup_alter_eq, Ha. }
      destruct (IH (S i) m1 arr _ Ha1) as (ds & -> & Hds).
      { rewrite length_insert. lia. }
      exists ds. split.
      * cbn. rewrite drop_insert_lt by lia.
        destruct (decide _); [|done]. by rewrite <- app_assoc.
      * intros q Hq. rewrite Hds by done. cbn. by rewrite lookup_alter_ne.
Qed.

Lemma free_handles_after m l arr a n :
  arr ∈ live m -> arr ∉ blocks_of l ->
  dtype_arrays m !! arr = Some a ->
  (n <= length a)%nat ->
  (m' ← free_types n 0 (after m l) arr; brel m' arr)
  = Done (after m (l ++ (Type_free <$> live_handles n a) ++ [Brel arr])).
Proof.
  intros Hlive Hl Ha Hn.
  destruct (free_types_run n 0 (after m l) arr a) as (ds & -> & Hds); [|lia|].
  { cbn. by rewrite foldl_delete_lookup_ne. }
  unfold mbind, result_mbind. cbn [result_bind]. rewrite drop_0.
  unfold brel. cbn [live]. rewrite bool_decide_eq_true_2 by (cbn; set_solver).
  f_equal. unfold after. cbn.
  rewrite !blocks_of_app, blocks_of_Type_free. cbn. rewrite !foldl_app. cbn.
  f_equal.
  - apply map_eq. intros q. destruct (decide (q = arr)) as [-> | Hq].
    + by rewrite !lookup_delete_eq.
    + rewrite !lookup_delete_ne by done. by apply Hds.
  - rewrite list_to_set_app_L. set_solver.
  - by rewrite <- !app_assoc.
Qed.

Lemma free_region_list_after m l top nodes fuel :
  region_list (regions m) top nodes ->
  NoDup (list_blocks nodes) ->
  Forall (fun p => p ∈ live m /\ p ∉ blocks_of l) (list_blocks nodes) ->
  (length nodes < fuel)%nat ->
  free_region_list fuel (after m l) top
  = Done (after m (l ++ (Brel <$> list_blocks nodes))).
Proof.
  intros Hl Hnd Hlive Hfuel.
  rewrite (free_region_list_run nodes); try done.
  - by rewrite after_release_after, after_app.
  - eapply region_list_frame; [|exact Hl].
    intros q Hq. cbn. apply foldl_delete_lookup_ne.
    apply list_elem_of_fmap in Hq as ([q' r'] & -> & Hq).
    apply (node_in_blocks (q', r')) in Hq.
    rewrite Forall_forall in Hlive. by apply Hlive.
  - eapply Forall_impl; [exact Hlive|]. intros q Hq. by apply live_after.
Qed.

Lemma blocks_of_handle_releases arr n a : blocks_of (handle_releases arr n a) = opt arr.
Proof.
  unfold handle_releases, opt. case_bool_decide; [done|].
  by rewrite blocks_of_app, blocks_of_Type_free.
Qed.

Lemma owned_step (m : memory) (pre cur post : list Z) :
  NoDup (pre ++ cur ++ post) ->
  Forall (fun p => p ∈ live m) (pre ++ cur ++ post) ->
  Forall (fun q => q ∈ live m /\ q ∉ pre) cur.
Proof.
  intros Hnd Hlive. apply NoDup_app in Hnd as (_ & Hdisj & _).
  apply Forall_app in Hlive as [_ Hlive]. apply Forall_app in Hlive as [Hlive _].
  rewrite Forall_forall in Hlive |- *. intros q Hq. split; [by apply Hlive|].
  intros Hin. apply (Hdisj q Hin). apply elem_of_app. by left.
Qed.

Lemma handles_after m l arr a n :
  Forall (fun q => q ∈ live m /\ q ∉ blocks_of l) (opt arr) ->
  (arr <> NULL -> dtype_arrays m !! arr = Some a /\ (Z.to_nat n <= length a)%nat) ->
  (if bool_decide (arr = NULL) then Done (after m l)
   else result_bind (free_types (Z.to_nat n) 0 (after m l) arr) (fun m' => brel m' arr))
  = Done (after m (l ++ handle_releases arr n a)).
Proof.
  unfold opt, handle_releases. case_bool_decide as Hnull; intros Hq Ha.
  - by rewrite app_nil_r.
  - apply Forall_singleton in Hq as [? ?]. destruct (Ha Hnull) as [? ?].
    by apply (free_handles_after m l arr a (Z.to_nat n)).
Qed.

Lemma owned_last (m : memory) (pre cur : list Z) :
  NoDup (pre ++ cur) ->
  Forall (fun p => p ∈ live m) (pre ++ cur) ->
  Forall (fun q => q ∈ live m /\ q ∉ pre) cur.
Proof.
  intros Hnd Hlive. apply (owned_step m pre cur []); by rewrite app_nil_r.
Qed.

Lemma blocks_of_nil : blocks_of [] = [].
Proof. done. Qed.

Ltac owned Hnd Hlive :=
  rewrite ?blocks_of_app, ?blocks_of_Brel, ?blocks_of_handle_releases, ?blocks_of_nil;
  match goal with
  | |- Forall (fun q => q ∈ live ?m /\ q ∉ ?pre) ?cur =>
      first
        [ eapply (owned_step m pre cur _);
          [ rewrite <- ?app_assoc; exact Hnd | rewrite <- ?app_assoc; exact Hlive ]
        | eapply (owned_last m pre cur);
          [ rewrite <- ?app_assoc; exact Hnd | rewrite <- ?app_assoc; exact Hlive ] ]
  end.

Lemma PIOc_freedecomp_live fuel st iosysid ioid ios d ra sa nodes :
  pio_get_iosystem_from_id (ds_iosystems st) iosysid = Some ios ->
  ds_iodescs st !! ioid = Some d ->
  owns (ds_mem st) d ra sa nodes ->
  (length nodes < fuel)%nat ->
  PIOc_freedecomp fuel st iosysid ioid
  = Done (PIO_NOERR,
          DecompState (after (ds_mem st) (expected_releases d ra sa nodes))
            (ds_iosystems st) (delete ioid (ds_iodescs st))).
Proof.
  intros Hios Hd (Hnd & Hlive & Hra & Hsa & Hl) Hfuel.
  unfold PIOc_freedecomp, pio_get_iodesc_from_id, pio_delete_iodesc_from_list.
  rewrite Hios, Hd. unfold owned_blocks in Hnd, Hlive.
  set (m := ds_mem st) in *.
  unfold mbind, result_mbind.
  rewrite <- (after_nil m) at 1.
  rewrite (brel_if_set_after m [] (rfrom d)) by owned Hnd Hlive.
  cbn [result_bind app].
  rewrite (handles_after m (Brel <$> opt (rfrom d)) (rtype d) ra (nrecvs d));
    [|owned Hnd Hlive | done].
  cbn [result_bind].
  rewrite (handles_after m _ (stype d) sa (num_stypes d)); [|owned Hnd Hlive | done].
  cbn [result_bind].
  rewrite (brel_if_set_after m _ (scount d)) by owned Hnd Hlive. cbn [result_bind].
  rewrite (brel_if_set_after m _ (rcount d)) by owned Hnd Hlive. cbn [result_bind].
  rewrite (brel_if_set_after m _ (sindex d)) by owned Hnd Hlive. cbn [result_bind].
  rewrite (brel_if_set_after m _ (rindex d)) by owned Hnd Hlive. cbn [result_bind].
  assert ((if bool_decide (firstregion d = NULL) then Done (after m ?[l])
           else free_region_list fuel (after m ?l) (firstregion d))
          = Done (after m (?l ++ (Brel <$> list_blocks nodes)))) as ->.
  { case_bool_decide as Hnull.
    - destruct nodes as [|[p r] rest]; [by rewrite app_nil_r|].
      cbn in Hl. destruct Hl as (<- & Hp & _). done.
    - apply free_region_list_after; [done | | | done].
      + repeat (apply NoDup_app in Hnd as (_ & _ & Hnd)). done.
      + owned Hnd Hlive. }
  cbn [result_bind]. do 2 f_equal.
  unfold expected_releases. rewrite <- !app_assoc.
  case_bool_decide.
  - unfold after. cbn. rewrite !blocks_of_app. cbn. rewrite app_nil_r.
    by rewrite <- !app_assoc.
  - by rewrite app_nil_r.
Qed.

(** C5.  A call of [PIOc_freedecomp] with an unknown I/O system or with a
    decomposition identifier that is not registered returns [PIO_EBADID] and
    leaves the state as it is.  A call on a registered descriptor that owns
    its resources returns [PIO_NOERR] and logs, in this order, the release
    of the receive-from array, of every non-null receive and send layout
    handle with the two handle arrays, of the count arrays, of the index
    arrays, of every block of the region list and, for the subset
    rearranger only, of the sub-communicator; the identifier is removed from
    the registry, and a second call returns [PIO_EBADID] and changes
    nothing. *)
Theorem freedecomp_exactly_once :
  (forall fuel st iosysid ioid,
     pio_get_iosystem_from_id (ds_iosystems st) iosysid = None
     \/ ds_iodescs st !! ioid = None ->
     PIOc_freedecomp fuel st iosysid ioid = Done (PIO_EBADID, st))
  /\ (forall fuel st iosysid ioid ios d ra sa nodes,
        pio_get_iosystem_from_id (ds_iosystems st) iosysid = Some ios ->
        ds_iodescs st !! ioid = Some d ->
        owns (ds_mem st) d ra sa nodes ->
        (length nodes < fuel)%nat ->
        exists st',
          PIOc_freedecomp fuel st iosysid ioid = Done (PIO_NOERR, st')
          /\ ds_iodescs st' = delete ioid (ds_iodescs st)
          /\ released (ds_mem st')
             = released (ds_mem st) ++ expected_releases d ra sa nodes
          /\ live (ds_mem st')
             = live (ds_mem st) ∖ list_to_set (owned_blocks d nodes)
          /\ PIOc_freedecomp fuel st' iosysid ioid = Done (PIO_EBADID, st')).
Proof.
  split.
  - intros fuel st iosysid ioid H. unfold PIOc_freedecomp, pio_get_iodesc_from_id.
    destruct (pio_get_iosystem_from_id _ _); [|done].
    destruct H as [? | ->]; done.
  - intros fuel st iosysid ioid ios d ra sa nodes Hios Hd Hown Hfuel.
    eexists. split; [by eapply PIOc_freedecomp_live|].
    cbn [ds_mem ds_iodescs ds_iosystems].
    split_and!; [done | done | |].
    + cbn [live after]. f_equal. f_equal. unfold expected_releases, owned_blocks.
      rewrite !blocks_of_app, !blocks_of_Brel, !blocks_of_handle_releases.
      case_bool_decide; cbn; by rewrite ?app_nil_r.
    + unfold PIOc_freedecomp, pio_get_iodesc_from_id. cbn [ds_iodescs ds_iosystems].
      by rewrite Hios, lookup_delete_eq.
Qed.

(** An identifier that is not registered, and a descriptor of the subset
    rearranger with two regions. *)
Lemma freedecomp_exactly_once_witness :
  PIOc_freedecomp 3 decomp_example 1 8 = Done (PIO_EBADID, decomp_example)
  /\ exists st',
       PIOc_freedecomp 3 decomp_example 1 7 = Done (PIO_NOERR, st')
       /\ released (ds_mem st')
          = [Brel 10; Type_free 5; Type_free 7; Brel 20; Brel 30; Brel 40; Brel 50;
             Brel 101; Brel 100; Brel 202; Brel 200; Comm_free 77]
       /\ PIOc_freedecomp 3 st' 1 7 = Done (PIO_EBADID, st').
Proof.
  split.
  - apply (proj1 freedecomp_exactly_once 3%nat decomp_example 1 8). right. reflexivity.
  - destruct (proj2 freedecomp_exactly_once 3%nat decomp_example 1 7 ios_example
                iodesc_example [5; MPI_DATATYPE_NULL; 7] [] two_regions)
      as (st' & Hrun & _ & Hrel & _ & Hagain).
    + reflexivity.
    + reflexivity.
    + split_and!.
      * refine (bool_decide_unpack _ _); vm_compute; exact I.
      * refine (bool_decide_unpack _ _); vm_compute; exact I.
      * intros _. split; [reflexivity | cbn; lia].
      * intros H. by destruct H.
      * cbn. split_and!; try done.
    + cbn. lia.
    + exists st'. split; [exact Hrun|]. split; [exact Hrel | exact Hagain].
Defined.

(** ** Reasoning about a group run *)

Lemma settle_bind {A B : Type} (w : world) size rank (p : prog A) (f : A -> prog B) :
  forall n fs,
  settle w size rank n fs (p ≫= f) =
  match settle w size rank n fs p with
  | (Proc n' (Ret a), fs') => settle w size rank n' fs' (f a)
  | (Proc n' (Abort h), fs') => (Proc n' (Abort h), fs')
  | (Proc n' (Vis e k), fs') => (Proc n' (Vis e k ≫= f), fs')
  end.
Proof.
  unfold mbind, prog_bind.
  induction p as [a | e k IH | h]; intros n fs; cbn; [done | | done].
  destruct (local_answer w size rank n fs e) as [[a fs']|]; [apply IH | done].
Qed.

(** No process of the group has terminated the run. *)
Lemma first_abort_none {A : Type} (ps : list (proc A)) k :
  Forall (fun p => forall h, code p <> Abort h) ps -> first_abort k ps = None.
Proof.
  intros H. revert k. induction H as [|p ps Hp _ IH]; intros k; [done|].
  cbn. destruct (code p) eqn:E; [apply IH.. |]. by destruct (Hp how).
Qed.

Lemma mapM_returned_none {A : Type} (ps : list (proc A)) p j :
  ps !! j = Some p -> returned p = None -> mapM returned ps = None.
Proof.
  intros Hj Hp. destruct (mapM returned ps) as [rs|] eqn:E; [|done].
  apply mapM_Some in E. destruct (Forall2_lookup_l _ _ _ _ _ E Hj) as (a & _ & Ha).
  congruence.
Qed.

Lemma fire_first_at {A : Type} (ps ps' : list (proc A)) (i n : nat) :
  (i < n)%nat ->
  (forall j, (j < i)%nat -> fire_at ps j = None) ->
  fire_at ps i = Some ps' ->
  fire_first ps (seq 0 n) = Some ps'.
Proof.
  intros Hi Hbefore Hfire.
  assert (forall k m, (k <= i < k + m)%nat -> (forall j, (k <= j < i)%nat -> fire_at ps j = None) ->
                      fire_first ps (seq k m) = Some ps') as Hgen.
  { intros k m. revert k. induction m as [|m IH]; intros k Hk Hb; [lia|].
    cbn. destruct (decide (k = i)) as [-> | Hne]; [by rewrite Hfire|].
    rewrite Hb by lia. apply IH; [lia|]. intros j Hj. apply Hb. lia. }
  apply Hgen; [lia|]. intros j Hj. apply Hbefore. lia.
Qed.

(** One round of the scheduler. *)
Lemma group_run_round {A : Type} fuel (lw : nat -> world) (ps ps1 ps2 : list (proc A))
    fs fs1 p j :
  settle_list lw (length ps) 0 ps fs = (ps1, fs1) ->
  Forall (fun p => forall h, code p <> Abort h) ps1 ->
  ps1 !! j = Some p -> returned p = None ->
  fire_first ps1 (seq 0 (length ps1)) = Some ps2 ->
  group_run (S fuel) lw ps fs = group_run fuel lw ps2 fs1.
Proof.
  intros Hs Ha Hj Hp Hf. cbn [group_run]. rewrite Hs.
  rewrite first_abort_none by done.
  by rewrite (mapM_returned_none ps1 p j), Hf.
Qed.

Lemma group_run_done {A : Type} fuel (lw : nat -> world) (ps ps1 : list (proc A))
    fs fs1 rs :
  settle_list lw (length ps) 0 ps fs = (ps1, fs1) ->
  Forall2 (fun p a => code p = Ret a) ps1 rs ->
  group_run (S fuel) lw ps fs = G_done rs fs1.
Proof.
  intros Hs Hr. cbn [group_run]. rewrite Hs.
  rewrite first_abort_none.
  - assert (mapM returned ps1 = Some rs) as ->; [|done].
    apply mapM_Some. eapply Forall2_impl; [exact Hr|].
    intros p a Hp. unfold returned. by rewrite Hp.
  - clear Hs. induction Hr as [|p a ps' rs' Hp _ IH]; constructor; [|done].
    intros h. by rewrite Hp.
Qed.

(** ** A map file whose header is rejected *)

Lemma settle_piodie {A : Type} b msg fname line (w : world) size rank n fs :
  exists n', settle w size rank n fs (@piodie A b msg fname line)
             = (Proc n' (Abort (die b)), fs).
Proof.
  unfold piodie, print_trace.
  cbn [settle call mbind prog_bind bind local_answer default].
  generalize (S (S (S n))).
  induction (w (S n) (backtrace_symbols 10)) as [|s l IH]; intros m;
    cbn [foldr settle call mbind prog_bind bind local_answer mret prog_ret];
    [by eexists|].
  apply IH.
Qed.

Lemma readers_length b u file ndims0 comm size :
  length (readers b u file ndims0 comm size) = size.
Proof. unfold readers, start_group. by rewrite length_map, length_fmap, length_seq. Qed.

Lemma readmap_group_rejected b u file ndims0 comm (lw : nat -> world) size fs content fuel :
  fs !! file = Some content ->
  nth 0 (fscanf header_format content).1 (u_rversno (u 0%nat)) <> versno
  \/ nth 1 (fscanf header_format content).1 (u_rnpes (u 0%nat)) < 1
  \/ Z.of_nat (S size) < nth 1 (fscanf header_format content).1 (u_rnpes (u 0%nat)) ->
  group_run (S fuel) lw (readers b u file ndims0 comm (S size)) fs = G_aborted 0 (die b).
Proof.
  intros Hfile Hbad. cbn [group_run]. rewrite readers_length.
  unfold readers, start_group. cbn [seq fmap list_fmap map settle_list calls code].
  assert (exists n', settle (lw 0%nat) (S size) 0 0 fs
                       (PIOc_readmap b (u 0%nat) file true true true true (ndims0 0%nat) comm)
                     = (Proc n' (Abort (die b)), fs)) as (n' & ->).
  { unfold PIOc_readmap. cbn [andb negb].
    cbn [settle call mbind prog_bind bind local_answer Z.of_nat Z.eqb].
    change (Z.of_nat 0 =? 0) with true.
    cbn [settle call mbind prog_bind bind local_answer].
    rewrite Hfile. fold header_format. destruct (fscanf header_format content) as [vs s].
    cbn [fst] in Hbad.
    destruct (negb (_ =? versno)) eqn:Hv; [apply settle_piodie|].
    destruct (_ || _) eqn:Hn; [apply settle_piodie|].
    exfalso. apply negb_false_iff, Z.eqb_eq in Hv.
    apply orb_false_iff in Hn as [Hn1 Hn2]. apply Z.ltb_ge in Hn1, Hn2.
    destruct Hbad as [? | [? | ?]]; [done | lia | lia]. }
  by destruct (settle_list _ _ _ _ _).
Qed.

(** ** Printing a number and scanning it back *)

Lemma append_cons c (s t : string) : String c s +:+ t = String c (s +:+ t).
Proof. done. Qed.

Lemma append_nil_l (s : string) : EmptyString +:+ s = s.
Proof. done. Qed.

Lemma append_nil_r (s : string) : s +:+ EmptyString = s.
Proof.
  induction s as [|c s IH]; [done|].
  change (String c (s +:+ EmptyString) = String c s). by rewrite IH.
Qed.

Lemma append_assoc (s1 s2 s3 : string) : (s1 +:+ s2) +:+ s3 = s1 +:+ s2 +:+ s3.
Proof.
  induction s1 as [|c s1 IH]; [done|].
  change (String c ((s1 +:+ s2) +:+ s3) = String c (s1 +:+ s2 +:+ s3)).
  by rewrite IH.
Qed.

Lemma of_uint_acc_value d : forall acc,
  Z.pos (Pos.of_uint_acc d acc) = uint_value (Z.pos acc) d.
Proof.
  induction d as [|d IH|d IH|d IH|d IH|d IH|d IH|d IH|d IH|d IH|d IH]; intros acc;
    cbn [Pos.of_uint_acc uint_value]; [done|..]; rewrite IH; f_equal; lia.
Qed.

Lemma of_uint_value d : Z.of_N (Pos.of_uint d) = uint_value 0 d.
Proof.
  induction d as [|d IH|d IH|d IH|d IH|d IH|d IH|d IH|d IH|d IH|d IH];
    cbn [Pos.of_uint uint_value]; [done | exact IH |..];
    cbn [Z.of_N]; by rewrite of_uint_acc_value.
Qed.

Lemma to_uint_value p : uint_value 0 (Pos.to_uint p) = Z.pos p.
Proof. by rewrite <- of_uint_value, DecimalPos.Unsigned.of_to. Qed.

Lemma scan_digits_uint d : forall acc s,
  ends_numeral s ->
  scan_digits acc (NilEmpty.string_of_uint d +:+ s) = (uint_value acc d, s).
Proof.
  unfold ends_numeral.
  induction d as [|d IH|d IH|d IH|d IH|d IH|d IH|d IH|d IH|d IH|d IH]; intros acc s Hs;
    cbn [NilEmpty.string_of_uint uint_value]; rewrite ?append_cons, ?append_nil_l;
    try (by apply IH).
  destruct s as [|c s]; [done|]. cbn in Hs |- *.
  destruct (digit_val c); [|done]. by rewrite bool_decide_eq_true_2 in Hs.
Qed.

Lemma starts_with_digit_uint d s :
  d <> Decimal.Nil -> starts_with_digit (NilEmpty.string_of_uint d +:+ s) = true.
Proof. by destruct d. Qed.

Lemma skip_space_uint d s :
  d <> Decimal.Nil ->
  skip_space (NilEmpty.string_of_uint d +:+ s) = NilEmpty.string_of_uint d +:+ s.
Proof. by destruct d. Qed.

Lemma scan_int_uint sz d s :
  d <> Decimal.Nil -> ends_numeral s ->
  scan_int sz (NilEmpty.string_of_uint d +:+ s) = (Some (store sz (uint_value 0 d)), s).
Proof.
  intros Hd Hs. unfold scan_int. rewrite skip_space_uint by done.
  assert (forall t, starts_with_digit t = true ->
            match t with
            | String "-" s' =>
                if starts_with_digit s'
                then let '(v, r) := scan_digits 0 s' in (Some (store sz (- v)), r)
                else (None, s')
            | String "+" s' =>
                if starts_with_digit s'
                then let '(v, r) := scan_digits 0 s' in (Some (store sz v), r)
                else (None, s')
            | _ => if starts_with_digit t
                   then let '(v, r) := scan_digits 0 t in (Some (store sz v), r)
                   else (None, t)
            end = let '(v, r) := scan_digits 0 t in (Some (store sz v), r)) as Hgen.
  { intros [|c t] Ht; [done|]. rewrite Ht.
    destruct c as [[] [] [] [] [] [] [] []]; try done. }
  rewrite Hgen by by apply starts_with_digit_uint.
  by rewrite scan_digits_uint.
Qed.

Lemma string_of_uint_nonnil d :
  d <> Decimal.Nil -> NilZero.string_of_uint d = NilEmpty.string_of_uint d.
Proof. by destruct d. Qed.

(** A value that fits the object is stored as it is. *)
Lemma store_int z : in_int z -> store Size_int z = z.
Proof.
  unfold in_int, INT_MIN, INT_MAX. intros H. cbn [store].
  unfold long_clamp, LONG_MIN, LONG_MAX, int_wrap.
  rewrite Z.min_r, Z.max_r by lia. rewrite Z.mod_small; lia.
Qed.

Lemma store_long z : in_offset z -> store Size_long z = z.
Proof.
  unfold in_offset. intros H. cbn [store]. unfold long_clamp, LONG_MIN, LONG_MAX. lia.
Qed.

(** Scanning back what [print_int] printed. *)
Lemma scan_int_print sz (z : Z) (s : string) :
  ends_numeral s -> scan_int sz (print_int z +:+ s) = (Some (store sz z), s).
Proof.
  intros Hs. unfold print_int.
  destruct z as [|p|p]; cbn [Z.to_int NilZero.string_of_int].
  - by apply (scan_int_uint sz (Decimal.D0 Decimal.Nil)).
  - pose proof (Unsigned.to_uint_nonnil p) as Hn.
    rewrite string_of_uint_nonnil, scan_int_uint by done.
    by rewrite to_uint_value.
  - pose proof (Unsigned.to_uint_nonnil p) as Hn.
    rewrite string_of_uint_nonnil by done.
    rewrite append_cons. unfold scan_int. cbn [skip_space].
    change (is_space "-") with false. cbn iota.
    rewrite starts_with_digit_uint by done.
    by rewrite scan_digits_uint, to_uint_value.
Qed.

(** What [print_int] prints does not start with white space. *)
Lemma skip_space_print z s : skip_space (print_int z +:+ s) = print_int z +:+ s.
Proof.
  unfold print_int. destruct z as [|p|p]; [done | |done].
  cbn [Z.to_int NilZero.string_of_int].
  pose proof (Unsigned.to_uint_nonnil p).
  rewrite string_of_uint_nonnil by done.
  by apply skip_space_uint.
Qed.

Lemma skip_space_app ws s : all_space ws -> skip_space (ws +:+ s) = skip_space s.
Proof.
  unfold all_space. induction ws as [|c ws IH]; [done|].
  rewrite append_cons. cbn [skip_space].
  destruct (is_space c); [exact IH | done].
Qed.

Lemma skip_space_idemp s : skip_space (skip_space s) = skip_space s.
Proof.
  induction s as [|c s IH]; [done|]. cbn. destruct (is_space c) eqn:E; [done|].
  cbn. by rewrite E.
Qed.

Lemma scan_int_skip sz s : scan_int sz (skip_space s) = scan_int sz s.
Proof. unfold scan_int. by rewrite skip_space_idemp. Qed.

Lemma scan_int_space sz ws s : all_space ws -> scan_int sz (ws +:+ s) = scan_int sz s.
Proof. intros H. unfold scan_int. by rewrite skip_space_app. Qed.

Lemma all_space_nil : all_space EmptyString.
Proof. done. Qed.

Lemma all_space_nl : all_space nl.
Proof. done. Qed.

Lemma all_space_sp : all_space " ".
Proof. done. Qed.

Lemma all_space_app s1 s2 : all_space s1 -> all_space s2 -> all_space (s1 +:+ s2).
Proof. intros H1 H2. unfold all_space. by rewrite skip_space_app. Qed.

Lemma ends_numeral_space ws s : ws <> EmptyString -> all_space ws -> ends_numeral (ws +:+ s).
Proof.
  unfold all_space, ends_numeral. destruct ws as [|c ws]; [done|]. intros _.
  rewrite append_cons. cbn [skip_space starts_with_digit].
  destruct (is_space c) eqn:E; [|done]. intros _.
  apply bool_decide_eq_false_2. intros [v Hv]. revert Hv.
  unfold is_space in E. unfold digit_val.
  destruct ((48 <=? nat_of_ascii c)%nat && (nat_of_ascii c <=? 57)%nat) eqn:E'; [|done].
  exfalso. apply andb_true_iff in E' as [H1 H2].
  apply Nat.leb_le in H1, H2.
  apply orb_true_iff in E as [E | E].
  - apply andb_true_iff in E as [_ E]. apply Nat.leb_le in E. lia.
  - apply Nat.eqb_eq in E. lia.
Qed.

(** ** Processes that follow a communication trace *)

Section Sequential.
Context {A : Type} (w : world) (size rank : nat).

Lemma settles_to_call {B : Type} (e : event) (f : resp e -> prog B) fs x fs1 Q :
  (forall n, local_answer w size rank n fs e = Some (x, fs1)) ->
  settles_to w size rank (f x) fs1 Q ->
  settles_to w size rank (call e ≫= f) fs Q.
Proof.
  intros He Hf n. cbn [call mbind prog_bind bind settle]. rewrite He. apply Hf.
Qed.

Lemma settles_to_bind {B C : Type} (p : prog B) (f : B -> prog C) fs Q :
  settles_to w size rank p fs
    (fun q fs1 => exists b, q = Ret b /\ settles_to w size rank (f b) fs1 Q) ->
  settles_to w size rank (p ≫= f) fs Q.
Proof.
  intros Hp n. rewrite settle_bind.
  destruct (Hp n) as (n1 & q & fs1 & -> & b & -> & Hf). apply Hf.
Qed.

Lemma settles_to_ret {B : Type} (b : B) fs (Q : prog B -> fsys -> Prop) :
  Q (Ret b) fs -> settles_to w size rank (Ret b) fs Q.
Proof. intros HQ n. by exists n, (Ret b), fs. Qed.

Lemma settles_to_wait {B : Type} (e : event) (k : resp e -> prog B) fs
    (Q : prog B -> fsys -> Prop) :
  needs_partner e -> Q (Vis e k) fs -> settles_to w size rank (Vis e k) fs Q.
Proof. intros He HQ n. exists n, (Vis e k), fs. cbn [settle]. by rewrite He. Qed.

Lemma follows_settles (tr : list entry) (a : A) P p fs :
  follows w size rank tr a P p fs ->
  settles_to w size rank p fs
    (fun q fs' =>
       match tr with
       | [] => q = Ret a /\ P fs'
       | existT e r :: tr' =>
           exists k, q = Vis e k /\ follows w size rank tr' a P (k r) fs'
       end).
Proof. by destruct tr as [|[e r] tr']. Qed.

Lemma settles_follows (tr : list entry) (a : A) P p fs :
  settles_to w size rank p fs
    (fun q fs' =>
       match tr with
       | [] => q = Ret a /\ P fs'
       | existT e r :: tr' =>
           exists k, q = Vis e k /\ follows w size rank tr' a P (k r) fs'
       end) ->
  follows w size rank tr a P p fs.
Proof. by destruct tr as [|[e r] tr']. Qed.

Lemma follows_ret (a : A) (P : fsys -> Prop) fs :
  P fs -> follows w size rank [] a P (Ret a) fs.
Proof. intros HP. by apply settles_to_ret. Qed.

Lemma follows_call (e : event) (f : resp e -> prog A) tr a P fs x fs1 :
  (forall n, local_answer w size rank n fs e = Some (x, fs1)) ->
  follows w size rank tr a P (f x) fs1 ->
  follows w size rank tr a P (call e ≫= f) fs.
Proof.
  intros He Hf. apply settles_follows. eapply settles_to_call; [exact He|].
  by apply follows_settles.
Qed.

Lemma follows_wait (e : event) (r : resp e) (f : resp e -> prog A) tr a P fs :
  needs_partner e ->
  follows w size rank tr a P (f r) fs ->
  follows w size rank (Entry e r :: tr) a P (call e ≫= f) fs.
Proof.
  intros He Hf. cbn [follows Entry]. apply settles_to_wait; [done|].
  by exists (fun x => Ret x ≫= f).
Qed.

Lemma follows_impl (tr : list entry) (a : A) (P P' : fsys -> Prop) :
  (forall fs, P fs -> P' fs) ->
  forall p fs, follows w size rank tr a P p fs -> follows w size rank tr a P' p fs.
Proof.
  intros HP. induction tr as [|[e r] tr IH]; intros p fs H n;
    destruct (H n) as (n' & q & fs' & E & HQ);
    exists n', q, fs'; (split; [done|]).
  - destruct HQ. split; auto.
  - destruct HQ as (k & -> & Hk). exists k. split; [done|]. by apply IH.
Qed.

(** Sequential composition: the traces follow one another. *)
Lemma follows_bind {B : Type} (tr1 tr2 : list entry) (b : B) (a : A)
    (P1 P2 : fsys -> Prop) (f : B -> prog A) :
  (forall fs1, P1 fs1 -> follows w size rank tr2 a P2 (f b) fs1) ->
  forall (p : prog B) fs,
  follows w size rank tr1 b P1 p fs ->
  follows w size rank (tr1 ++ tr2) a P2 (p ≫= f) fs.
Proof.
  intros Hf. induction tr1 as [|[e r] tr1 IH]; intros p fs Hp.
  - cbn [app]. apply settles_follows. apply settles_to_bind.
    intros n. destruct (Hp n) as (n' & q & fs' & E & -> & HP).
    exists n', (Ret b), fs'. split; [done|]. exists b. split; [done|].
    by apply follows_settles, Hf.
  - cbn [app follows]. intros n. rewrite settle_bind.
    destruct (Hp n) as (n' & q & fs' & -> & k & -> & Hk).
    exists n', (Vis e k ≫= f), fs'. split; [done|].
    exists (fun x => k x ≫= f). split; [done|]. by apply IH.
Qed.

Lemma talks_ret (a : A) : talks w size rank [] a (Ret a).
Proof. intros fs. by apply settles_to_ret. Qed.

Lemma talks_settles (tr : list entry) (a : A) p fs :
  talks w size rank tr a p ->
  settles_to w size rank p fs
    (fun q fs' =>
       match tr with
       | [] => q = Ret a
       | existT e r :: tr' => exists k, q = Vis e k /\ talks w size rank tr' a (k r)
       end /\ fs' = fs).
Proof. destruct tr as [|[e r] tr']; intros H; apply H. Qed.

Lemma talks_call (e : event) (f : resp e -> prog A) tr a x :
  (forall n fs, local_answer w size rank n fs e = Some (x, fs)) ->
  talks w size rank tr a (f x) ->
  talks w size rank tr a (call e ≫= f).
Proof.
  intros He Hf. destruct tr as [|[e' r'] tr']; intros fs;
    (eapply settles_to_call; [intros n; apply He|]); apply Hf.
Qed.

Lemma talks_wait (e : event) (r : resp e) (f : resp e -> prog A) tr a :
  needs_partner e ->
  talks w size rank tr a (f r) ->
  talks w size rank (Entry e r :: tr) a (call e ≫= f).
Proof.
  intros He Hf fs. apply settles_to_wait; [done|]. split; [|done].
  by exists (fun x => Ret x ≫= f).
Qed.

End Sequential.

(** ** Groups whose processes follow their traces *)

Lemma local_answer_none (w : world) size rank n fs e :
  local_answer w size rank n fs e = None -> needs_partner e.
Proof. by destruct e. Qed.

Lemma settle_waits {A : Type} (w : world) size rank (p : prog A) :
  forall n fs n' e k fs',
  settle w size rank n fs p = (Proc n' (Vis e k), fs') -> needs_partner e.
Proof.
  induction p as [a | e0 k0 IH | h]; intros n fs n' e k fs' E; cbn in E; [done | | done].
  destruct (local_answer w size rank n fs e0) as [[x fs1]|] eqn:El.
  - by eapply IH.
  - assert (e0 = e) as <- by congruence. by eapply local_answer_none.
Qed.

Section Group.
Context {A : Type} (lw : nat -> world) (N : nat) (res : nat -> A) (P : fsys -> Prop).

Lemma on_trace_of_head fs j tr q :
  head_at lw N res P fs j tr q -> on_trace lw N res P fs j tr q.
Proof.
  destruct tr as [|[e r] tr']; cbn [head_at].
  - intros [-> HP]. destruct j; [by apply follows_ret, HP | apply talks_ret].
  - intros (k & -> & He & Hk). destruct j; cbn [on_trace follows talks].
    + apply settles_to_wait; [done|]. by exists k.
    + intros fs0. apply settles_to_wait; [done|]. split; [|done]. by exists k.
Qed.

Lemma settle_peers trs fs :
  forall (ps : list (proc A)) k,
  (forall j p, ps !! j = Some p -> on_trace lw N res P fs (S k + j) (trs (S k + j)%nat) (code p)) ->
  exists ps',
    settle_list lw N (S k) ps fs = (ps', fs)
    /\ length ps' = length ps
    /\ forall j p', ps' !! j = Some p' ->
                    head_at lw N res P fs (S k + j) (trs (S k + j)%nat) (code p').
Proof.
  induction ps as [|p ps IH]; intros k Hps.
  - exists []. by split_and!.
  - cbn [settle_list].
    pose proof (Hps 0%nat p eq_refl) as Hp. rewrite Nat.add_0_r in Hp.
    cbn [on_trace] in Hp.
    destruct (talks_settles _ _ _ _ _ _ fs Hp (calls p)) as (n' & q & fs' & E & Hq & ->).
    rewrite E.
    destruct (IH (S k)) as (ps' & -> & Hlen & Hps').
    { intros j p' Hj. replace (S (S k) + j)%nat with (S k + S j)%nat by lia. by apply Hps. }
    exists (Proc n' q :: ps'). split_and!; [done | by cbn; rewrite Hlen |].
    intros [|j] p' Hj.
    + injection Hj as <-. rewrite Nat.add_0_r. cbn [code].
      destruct (trs (S k)) as [|[e r] tr']; cbn [head_at]; [done|].
      destruct Hq as (k0 & -> & Hk0). exists k0. split_and!; [done | | done].
      by eapply settle_waits.
    + replace (S k + S j)%nat with (S (S k) + j)%nat by lia. by apply Hps'.
Qed.

Lemma group_settle trs ps fs :
  (0 < N)%nat -> group_at lw N res P trs ps fs ->
  exists ps' fs', settle_list lw N 0 ps fs = (ps', fs') /\ group_settled lw N res P trs ps' fs'.
Proof.
  intros HN [Hlen Hps]. destruct ps as [|p0 peers]; [cbn in Hlen; lia|].
  cbn [settle_list].
  pose proof (Hps 0%nat p0 eq_refl) as H0. cbn [on_trace] in H0.
  destruct (follows_settles _ _ _ _ _ _ _ _ H0 (calls p0)) as (n' & q & fs' & E & Hq).
  rewrite E.
  destruct (settle_peers trs fs' peers 0) as (ps' & -> & Hlen' & Hps').
  { intros j p Hj. by apply (Hps (S j)). }
  exists (Proc n' q :: ps'), fs'. split; [done|]. split; [by cbn in *; lia|].
  intros [|j] p' Hj.
  - injection Hj as <-. cbn [code].
    destruct (trs 0%nat) as [|[e r] tr']; cbn [head_at].
    + by destruct Hq.
    + destruct Hq as (k0 & -> & Hk0). exists k0. split_and!; [done | | done].
      by eapply settle_waits.
  - by apply (Hps' j).
Qed.

Lemma settled_no_abort trs ps fs :
  group_settled lw N res P trs ps fs -> Forall (fun p => forall h, code p <> Abort h) ps.
Proof.
  intros [_ Hps]. apply Forall_lookup. intros j p Hj h. specialize (Hps j p Hj).
  destruct (trs j) as [|[e r] tr']; cbn [head_at] in Hps.
  - destruct Hps as [-> _]. done.
  - destruct Hps as (k & -> & _). done.
Qed.

(** One round: the group runs until every process waits, then one
    communication completes. *)
Lemma group_round trs ps fs ps' fs' ps2 j0 fuel :
  settle_list lw N 0 ps fs = (ps', fs') ->
  group_settled lw N res P trs ps' fs' ->
  length ps = N -> (j0 < N)%nat -> trs j0 <> [] ->
  fire_first ps' (seq 0 N) = Some ps2 ->
  group_run (S fuel) lw ps fs = group_run fuel lw ps2 fs'.
Proof.
  intros Hs Hset Hlen Hj0 Htr Hfire.
  pose proof Hset as [Hlen' Hps'].
  destruct (lookup_lt_is_Some_2 ps' j0) as [p Hp]; [lia|].
  eapply (group_run_round _ _ _ ps'); [by rewrite Hlen | by eapply settled_no_abort
                                       | exact Hp | | by rewrite Hlen'].
  specialize (Hps' j0 p Hp). destruct (trs j0) as [|[e r] tr']; [done|].
  destruct Hps' as (k & Hk & _). unfold returned. by rewrite Hk.
Qed.

(** The last round: every process has returned. *)
Lemma group_finish trs ps fs fuel :
  (0 < N)%nat -> group_at lw N res P trs ps fs ->
  (forall j, (j < N)%nat -> trs j = []) ->
  exists fs', group_run (S fuel) lw ps fs = G_done (res <$> seq 0 N) fs' /\ P fs'.
Proof.
  intros HN Hat Htr. pose proof Hat as [Hlen _].
  destruct (group_settle trs ps fs HN Hat) as (ps' & fs' & Hs & Hlen' & Hps').
  exists fs'. split.
  - eapply group_run_done; [by rewrite Hlen|].
    apply Forall2_same_length_lookup_2; [by rewrite length_fmap, length_seq|].
    intros j p a Hp Ha. rewrite list_lookup_fmap in Ha.
    destruct (seq 0 N !! j) as [j'|] eqn:Ej; [|done].
    apply lookup_seq in Ej as [-> Hj]. injection Ha as <-.
    specialize (Hps' j p Hp). rewrite Htr in Hps' by done. by destruct Hps'.
  - destruct (lookup_lt_is_Some_2 ps' 0) as [p Hp]; [lia|].
    specialize (Hps' 0%nat p Hp). rewrite Htr in Hps' by done. destruct Hps' as [_ HP]. by apply HP.
Qed.

Lemma fire_at_silent trs ps fs j :
  group_settled lw N res P trs ps fs -> silent (trs j) -> fire_at ps j = None.
Proof.
  intros [_ Hps] Hsil. unfold fire_at. destruct (ps !! j) as [p|] eqn:Hp; [|done].
  specialize (Hps j p Hp). destruct (trs j) as [|[e r] tr']; cbn [head_at silent] in *.
  - destruct Hps as [-> _]. done.
  - destruct Hps as (k & -> & _). by destruct e.
Qed.

(** A send meets its receive. *)
Lemma fire_send trs trs2 ps fs (s d : nat) (es ed : event) (rs : resp es) (rd : resp ed)
    ts td t c msg :
  group_settled lw N res P trs ps fs ->
  (s < N)%nat -> (d < N)%nat -> s <> d ->
  trs s = Entry es rs :: ts -> trs d = Entry ed rd :: td ->
  (forall j, (j < s)%nat -> silent (trs j)) ->
  (forall k : resp es -> prog A, outgoing (Vis es k) = Some (Z.of_nat d, t, c, msg, k rs)) ->
  (forall k : resp ed -> prog A, accept (Z.of_nat s) t c msg (Vis ed k) = Some (k rd)) ->
  trs2 s = ts -> trs2 d = td -> (forall j, j <> s -> j <> d -> trs2 j = trs j) ->
  exists ps2, fire_first ps (seq 0 N) = Some ps2 /\ group_at lw N res P trs2 ps2 fs.
Proof.
  intros Hset Hs Hd Hsd Htrs Htrd Hsil Hout Hacc H2s H2d H2o.
  pose proof Hset as [Hlen Hps].
  destruct (lookup_lt_is_Some_2 ps s) as [p Hp]; [lia|].
  destruct (lookup_lt_is_Some_2 ps d) as [q Hq]; [lia|].
  pose proof (Hps s p Hp) as Hhs. rewrite Htrs in Hhs.
  destruct Hhs as (ks & Eks & _ & Hks).
  pose proof (Hps d q Hq) as Hhd. rewrite Htrd in Hhd.
  destruct Hhd as (kd & Ekd & _ & Hkd).
  exists (<[d := Proc (S (calls q)) (kd rd)]> (<[s := Proc (S (calls p)) (ks rs)]> ps)).
  split.
  - apply (fire_first_at _ _ s); [done | |].
    + intros j Hj. eapply fire_at_silent; [done | by apply Hsil].
    + unfold fire_at. rewrite Hp, Eks, Hout.
      rewrite bool_decide_eq_true_2 by lia. rewrite Nat2Z.id, Hq, Ekd, Hacc. done.
  - split; [by rewrite !length_insert|].
    intros j p2 Hj.
    destruct (decide (j = d)) as [-> | Hjd].
    + rewrite list_lookup_insert_eq in Hj by (rewrite length_insert; lia).
      injection Hj as <-. by rewrite H2d.
    + rewrite list_lookup_insert_ne in Hj by done.
      destruct (decide (j = s)) as [-> | Hjs].
      * rewrite list_lookup_insert_eq in Hj by lia. injection Hj as <-. by rewrite H2s.
      * rewrite list_lookup_insert_ne in Hj by done. rewrite H2o by done.
        by apply on_trace_of_head, Hps.
Qed.

(** A broadcast rooted at the first process, entered by the whole group. *)
Lemma fire_bcast trs trs2 ps fs (hd : nat -> entry) pl comm :
  group_settled lw N res P trs ps fs -> (0 < N)%nat ->
  (forall j, (j < N)%nat -> trs j = hd j :: trs2 j) ->
  (forall k : resp (projT1 (hd 0%nat)) -> prog A,
     outgoing (Vis (projT1 (hd 0%nat)) k) = None
     /\ bcast_at (Vis (projT1 (hd 0%nat)) k) = Some (pl, 0, comm)) ->
  (forall j n (k : resp (projT1 (hd j)) -> prog A), (j < N)%nat ->
     bcast_deliver pl 0 comm (Proc n (Vis (projT1 (hd j)) k))
     = Some (Proc (S n) (k (projT2 (hd j))))) ->
  exists ps2, fire_first ps (seq 0 N) = Some ps2 /\ group_at lw N res P trs2 ps2 fs.
Proof.
  intros Hset HN Htr Hroot Hdel. pose proof Hset as [Hlen Hps].
  assert (forall j p, ps !! j = Some p ->
            exists k, code p = Vis (projT1 (hd j)) k
                      /\ on_trace lw N res P fs j (trs2 j) (k (projT2 (hd j)))) as Hcode.
  { intros j p Hp. pose proof (Hps j p Hp) as Hh.
    rewrite Htr in Hh by (apply lookup_lt_Some in Hp; lia).
    destruct (hd j) as [e r]. destruct Hh as (k & Ek & _ & Hk). by exists k. }
  destruct (mapM (bcast_deliver pl 0 comm) ps) as [ps2|] eqn:Em.
  - exists ps2. apply mapM_Some in Em. split.
    + apply (fire_first_at _ _ 0); [done | intros; lia |].
      unfold fire_at. destruct (lookup_lt_is_Some_2 ps 0) as [p Hp]; [lia|].
      rewrite Hp. destruct (Hcode 0%nat p Hp) as (k & Ek & _). rewrite Ek.
      destruct (Hroot k) as [-> ->]. cbn [Z.of_nat]. rewrite bool_decide_eq_true_2 by done.
      by apply mapM_Some.
    + split; [by rewrite <- (Forall2_length _ _ _ Em)|].
      intros j p2 Hp2. destruct (Forall2_lookup_r _ _ _ _ _ Em Hp2) as (p & Hp & Hd).
      destruct (Hcode j p Hp) as (k & Ek & Hk).
      destruct p as [n cd]. cbn [code] in Ek. subst cd.
      rewrite Hdel in Hd by (apply lookup_lt_Some in Hp; lia). by injection Hd as <-.
  - exfalso. apply mapM_None in Em. apply Exists_exists in Em as (p & Hin & Hnone).
    apply list_elem_of_lookup in Hin as [j Hp].
    destruct (Hcode j p Hp) as (k & Ek & _). destruct p as [n cd]. cbn [code] in Ek. subst cd.
    rewrite Hdel in Hnone by (apply lookup_lt_Some in Hp; lia). done.
Qed.

(** A gather rooted at the first process, entered by the whole group. *)
Lemma fire_gather trs trs2 ps fs (hd : nat -> entry) (v : nat -> Z) v0 comm :
  group_settled lw N res P trs ps fs -> (0 < N)%nat ->
  (forall j, (j < N)%nat -> trs j = hd j :: trs2 j) ->
  (forall k : resp (projT1 (hd 0%nat)) -> prog A,
     outgoing (Vis (projT1 (hd 0%nat)) k) = None
     /\ bcast_at (Vis (projT1 (hd 0%nat)) k) = None
     /\ gather_at (Vis (projT1 (hd 0%nat)) k) = Some (v0, 0, comm)) ->
  (forall j n (k : resp (projT1 (hd j)) -> prog A), (j < N)%nat ->
     gather_value 0 comm (Proc n (Vis (projT1 (hd j)) k)) = Some (v j)
     /\ gather_deliver 0 (v <$> seq 0 N) j (Proc n (Vis (projT1 (hd j)) k))
        = Some (Proc (S n) (k (projT2 (hd j))))) ->
  exists ps2, fire_first ps (seq 0 N) = Some ps2 /\ group_at lw N res P trs2 ps2 fs.
Proof.
  intros Hset HN Htr Hroot Hdel. pose proof Hset as [Hlen Hps].
  assert (forall j p, ps !! j = Some p ->
            exists k, code p = Vis (projT1 (hd j)) k
                      /\ on_trace lw N res P fs j (trs2 j) (k (projT2 (hd j)))) as Hcode.
  { intros j p Hp. pose proof (Hps j p Hp) as Hh.
    rewrite Htr in Hh by (apply lookup_lt_Some in Hp; lia).
    destruct (hd j) as [e r]. destruct Hh as (k & Ek & _ & Hk). by exists k. }
  assert (mapM (gather_value 0 comm) ps = Some (v <$> seq 0 N)) as Hvals.
  { apply mapM_Some. apply Forall2_same_length_lookup_2; [by rewrite length_fmap, length_seq|].
    intros j p a Hp Ha. rewrite list_lookup_fmap in Ha.
    destruct (seq 0 N !! j) as [j'|] eqn:Ej; [|done].
    apply lookup_seq in Ej as [-> Hj]. injection Ha as <-.
    destruct (Hcode j p Hp) as (k & Ek & _). destruct p as [n cd]. cbn [code] in Ek. subst cd.
    by apply Hdel. }
  destruct (mapM id (imap (gather_deliver 0 (v <$> seq 0 N)) ps)) as [ps2|] eqn:Em.
  - exists ps2. split.
    + apply (fire_first_at _ _ 0); [done | intros; lia |].
      unfold fire_at. destruct (lookup_lt_is_Some_2 ps 0) as [p Hp]; [lia|].
      rewrite Hp. destruct (Hcode 0%nat p Hp) as (k & Ek & _). rewrite Ek.
      destruct (Hroot k) as (-> & -> & ->). cbn [Z.of_nat].
      rewrite bool_decide_eq_true_2 by done. rewrite Hvals. exact Em.
    + apply mapM_Some in Em.
      split; [by rewrite <- (Forall2_length _ _ _ Em), length_imap|].
      intros j p2 Hp2. destruct (Forall2_lookup_r _ _ _ _ _ Em Hp2) as (o & Ho & Hd).
      rewrite list_lookup_imap in Ho. destruct (ps !! j) as [p|] eqn:Hp; [|done].
      cbn in Ho. injection Ho as <-.
      destruct (Hcode j p Hp) as (k & Ek & Hk).
      destruct p as [n cd]. cbn [code] in Ek. subst cd. cbn [id] in Hd.
      destruct (Hdel j n k) as [_ Hd']; [apply lookup_lt_Some in Hp; lia|].
      rewrite Hd' in Hd. by injection Hd as <-.
  - exfalso. apply mapM_None in Em. apply Exists_exists in Em as (o & Hin & Hnone).
    apply list_elem_of_lookup in Hin as [j Ho].
    rewrite list_lookup_imap in Ho. destruct (ps !! j) as [p|] eqn:Hp; [|done].
    cbn in Ho. injection Ho as <-.
    destruct (Hcode j p Hp) as (k & Ek & _). destruct p as [n cd]. cbn [code] in Ek. subst cd.
    destruct (Hdel j n k) as [_ Hd']; [apply lookup_lt_Some in Hp; lia|].
    cbn [id] in Hnone. rewrite Hd' in Hnone. done.
Qed.

(** From one state of the group to the next. *)
Lemma group_step trs trs2 ps fs fuel j0 :
  (0 < N)%nat -> group_at lw N res P trs ps fs ->
  (j0 < N)%nat -> trs j0 <> [] ->
  (forall ps' fs', group_settled lw N res P trs ps' fs' ->
     exists ps2, fire_first ps' (seq 0 N) = Some ps2 /\ group_at lw N res P trs2 ps2 fs') ->
  exists ps2 fs', group_run (S fuel) lw ps fs = group_run fuel lw ps2 fs'
                  /\ group_at lw N res P trs2 ps2 fs'.
Proof.
  intros HN Hat Hj0 Htr Hfire. pose proof Hat as [Hlen _].
  destruct (group_settle trs ps fs HN Hat) as (ps' & fs' & Hs & Hset).
  destruct (Hfire ps' fs' Hset) as (ps2 & Hf & Hat2).
  exists ps2, fs'. split; [|done]. by eapply group_round.
Qed.

End Group.

(** ** What [PIOc_writemap] writes *)

Section WriterFile.
Context (b : build_config) (w : world) (size rank : nat) (file : string) (comm : Z).
Hypothesis malloc_ok : forall n a t, w n (malloc a t) = true.

Lemma elem_middle (pre : list Z) x post : elem (pre ++ x :: post) (len pre) = x.
Proof. unfold elem, len. rewrite Nat2Z.id. apply nth_middle. Qed.

Lemma follows_fputs {A : Type} text (f : unit -> prog A) tr a P fs0 content :
  follows w size rank tr a P (f tt) (<[file := content +:+ text]> fs0) ->
  follows w size rank tr a P (call (fputs (file_stream file) text) ≫= f)
    (<[file := content]> fs0).
Proof.
  intros Hf. eapply follows_call; [|exact Hf].
  intros n. cbn [local_answer]. by rewrite alter_insert_eq.
Qed.

Lemma print_numbers_follows fs0 :
  forall post pre content,
  follows w size rank [] tt (eq (<[file := content +:+ numbers_text post]> fs0))
    (for_loop (len pre) (length post)
       (fun i => call (fputs (file_stream file) (print_int (elem (pre ++ post) i) +:+ " "))))
    (<[file := content]> fs0).
Proof.
  induction post as [|x post IH]; intros pre content.
  - cbn [numbers_text length for_loop]. rewrite append_nil_r. by apply follows_ret.
  - cbn [length for_loop numbers_text].
    apply (follows_bind w size rank [] [] tt tt
             (eq (<[file := content +:+ print_int x +:+ " "]> fs0))).
    + intros fs1 <-.
      replace (len pre + 1) with (len (pre ++ [x])) by (unfold len; rewrite length_app; cbn; lia).
      replace (pre ++ x :: post) with ((pre ++ [x]) ++ post) by by rewrite <- app_assoc.
      eapply follows_impl; [|apply IH].
      intros fs <-. by rewrite !append_assoc.
    + rewrite elem_middle. intros n. cbn [call settle local_answer].
      rewrite alter_insert_eq. by eexists _, _, _.
Qed.

Lemma print_numbers_all {A : Type} (l : list Z) (f : unit -> prog A) tr a P fs0 content :
  follows w size rank tr a P (f tt) (<[file := content +:+ numbers_text l]> fs0) ->
  follows w size rank tr a P (print_numbers (file_stream file) l (len l) ≫= f)
    (<[file := content]> fs0).
Proof.
  intros Hf. unfold print_numbers, len at 1. rewrite Nat2Z.id.
  apply (follows_bind w size rank [] tr tt a
           (eq (<[file := content +:+ numbers_text l]> fs0))).
  - by intros fs1 <-.
  - apply (print_numbers_follows fs0 l [] content).
Qed.

Lemma print_trace_file fs0 content :
  follows w size rank [] tt (holds file fs0 content)
    (print_trace (Some (file_stream file))) (<[file := content]> fs0).
Proof.
  intros n. unfold print_trace.
  cbn [settle call mbind prog_bind bind local_answer default from_option id].
  rewrite alter_insert_eq. cbn beta.
  generalize (S (S n)).
  generalize ("Obtained " +:+ print_int (Z.of_nat (length (w n (backtrace_symbols 10))))
              +:+ " stack frames." +:+ nl).
  induction (w n (backtrace_symbols 10)) as [|s l IH]; intros text m;
    cbn [foldr settle call mbind prog_bind bind local_answer mret prog_ret id].
  - destruct (w m (free_block "strings")). eexists _, _, _. split; [done|]. split; [done|].
    by exists text.
  - rewrite alter_insert_eq. cbn beta. rewrite append_assoc. apply IH.
Qed.

End WriterFile.

(** ** The writers, one by one *)

Section WriterLoop.
Context (b : build_config) (w : world) (size rank : nat) (file : string) (comm : Z).
Hypothesis malloc_ok : forall n a t, w n (malloc a t) = true.

Lemma follows_free {A : Type} what (f : unit -> prog A) tr a P fs :
  follows w size rank tr a P (f tt) fs ->
  follows w size rank tr a P (call (free_block what) ≫= f) fs.
Proof.
  intros Hf. apply settles_follows. intros n.
  cbn [call mbind prog_bind bind settle local_answer].
  destruct (w n (free_block what)). by apply follows_settles.
Qed.

Lemma follows_fclose {A : Type} fp (f : unit -> prog A) tr a P fs :
  follows w size rank tr a P (f tt) fs ->
  follows w size rank tr a P (call (fclose fp) ≫= f) fs.
Proof.
  intros Hf. apply settles_follows. intros n.
  cbn [call mbind prog_bind bind settle local_answer].
  destruct (w n (fclose fp)). by apply follows_settles.
Qed.

Lemma follows_malloc {A : Type} a t (f : bool -> prog A) tr x P fs :
  follows w size rank tr x P (f true) fs ->
  follows w size rank tr x P (call (malloc a t) ≫= f) fs.
Proof.
  intros Hf. eapply follows_call; [|exact Hf].
  intros n. cbn [local_answer]. by rewrite malloc_ok.
Qed.

Lemma writemap_fetch_follows fs0 content lens npes (i : nat) (m : list Z) :
  elem lens (Z.of_nat i) = len m ->
  follows w size rank
    [ Entry (MPI_Send_int (Z.of_nat i) (Z.of_nat i) (npes + Z.of_nat i) comm) MPI_SUCCESS;
      Entry (MPI_Recv_offsets (len m) (Z.of_nat i) (Z.of_nat i) comm) (MPI_SUCCESS, m) ]
    tt (eq (<[file := content +:+ record_text i m]> fs0))
    (writemap_fetch npes comm (file_stream file) lens (Z.of_nat i))
    (<[file := content]> fs0).
Proof.
  intros Hlen. unfold writemap_fetch. rewrite Hlen.
  apply follows_malloc. apply follows_wait; [done|]. cbn [negb andb].
  apply follows_wait; [done|].
  apply follows_fputs, print_numbers_all, follows_fputs.
  intros n. cbn [call settle local_answer]. destruct (w n (free_block "nmap")).
  eexists _, _, _. split; [done|]. split; [done|].
  unfold record_text. by rewrite !append_assoc.
Qed.

Lemma collect_follows fs0 lens npes :
  forall (ms : list (list Z)) (i : nat) content,
  (forall k m, ms !! k = Some m -> elem lens (Z.of_nat (i + k)) = len m) ->
  follows w size rank (collect_trace npes comm i ms) tt
    (eq (<[file := content +:+ records_text i ms]> fs0))
    (for_loop (Z.of_nat i) (length ms) (writemap_fetch npes comm (file_stream file) lens))
    (<[file := content]> fs0).
Proof.
  induction ms as [|m ms IH]; intros i content Hlens.
  - cbn [collect_trace records_text length for_loop]. rewrite append_nil_r. by apply follows_ret.
  - cbn [collect_trace records_text length for_loop].
    refine (follows_bind w size rank [_; _] _ tt tt
              (eq (<[file := content +:+ record_text i m]> fs0)) _ _ _ _ _ _).
    + intros fs1 <-. replace (Z.of_nat i + 1) with (Z.of_nat (S i)) by lia.
      eapply follows_impl; [|apply IH].
      * intros fs <-. by rewrite append_assoc.
      * intros k m' Hk. replace (S i + k)%nat with (i + S k)%nat by lia. by apply Hlens.
    + apply writemap_fetch_follows. specialize (Hlens 0%nat m eq_refl).
      by rewrite Nat.add_0_r in Hlens.
Qed.

End WriterLoop.

Section WriterProcesses.
Context (b : build_config) (file : string) (comm : Z) (gdims : list Z).

(** The representative of the writers. *)
Lemma writer_root_follows (w : world) (m0 : list Z) (ms : list (list Z)) fs0 :
  (forall n a t, w n (malloc a t) = true) ->
  (forall n, w n (fopen_w file) = true) ->
  follows w (length (m0 :: ms)) 0 (writer_root_trace comm (m0 :: ms)) PIO_NOERR
    (holds file fs0 (map_text gdims (m0 :: ms)))
    (PIOc_writemap b file (len gdims) gdims (len m0) m0 comm) fs0.
Proof.
  intros malloc_ok fopen_ok. unfold PIOc_writemap, writer_root_trace.
  eapply follows_call; [done|]. eapply follows_call; [done|].
  change (Z.of_nat 0 =? 0) with true. cbn iota.
  apply follows_malloc; [done|]. cbn [negb].
  apply follows_wait; [done|]. cbn iota beta.
  eapply follows_call; [intros n; cbn [local_answer]; by rewrite fopen_ok|]. cbn [negb].
  apply (follows_fputs w _ 0 file), print_numbers_all, follows_fputs, follows_fputs.
  replace (elem (len <$> m0 :: ms) 0) with (len m0) by done.
  apply print_numbers_all, follows_fputs.
  replace (Z.to_nat (Z.of_nat (length (m0 :: ms)) - 1)) with (length ms) by (cbn [length]; lia).
  cbn [nth tail]. rewrite <- (app_nil_r (collect_trace _ _ _ _)).
  match goal with
  | |- context [<[file := ?c]> fs0] =>
      refine (follows_bind w _ 0 _ [] tt PIO_NOERR
                (eq (<[file := c +:+ records_text 1 ms]> fs0)) _ _ _ _ _
                (collect_follows w _ 0 file comm malloc_ok fs0 _ _ ms 1 c _))
  end.
  - intros fs1 <-. apply follows_fputs.
    refine (follows_bind w _ 0 [] [] tt PIO_NOERR _ _ _ _ _ _ (print_trace_file w _ 0 file fs0 _)).
    intros fs1 [junk ->].
    apply follows_fclose, follows_ret.
    exists junk. f_equal. unfold map_text. cbn [records_text]. unfold record_text at 1.
    rewrite !append_assoc. done.
  - intros k m Hk. unfold elem. rewrite Nat2Z.id. cbn [Nat.add fmap list_fmap nth].
    unfold len. erewrite nth_lookup_Some; [done|]. by rewrite list_lookup_fmap, Hk.
Qed.

(** The other writers. *)
Lemma writer_peer_talks (w : world) size (j : nat) (m : list Z) :
  talks w size (S j) (writer_peer_trace comm (Z.of_nat size) (S j) m) PIO_NOERR
    (PIOc_writemap b file (len gdims) gdims (len m) m comm).
Proof.
  unfold PIOc_writemap, writer_peer_trace.
  eapply talks_call; [done|]. eapply talks_call; [done|].
  replace (Z.of_nat (S j) =? 0) with false by (symmetry; apply Z.eqb_neq; lia).
  cbn [mret prog_ret mbind prog_bind bind negb].
  apply talks_wait; [done|]. cbn iota beta.
  apply talks_wait; [done|]. cbn iota beta.
  apply talks_wait; [done|].
  apply talks_ret.
Qed.

End WriterProcesses.

(** ** The writers as a group *)

Lemma lens_seq (maps : list (list Z)) :
  (fun j => len (nth j maps [])) <$> seq 0 (length maps) = len <$> maps.
Proof.
  apply list_eq. intros j. rewrite !list_lookup_fmap.
  destruct (maps !! j) as [m|] eqn:Hm.
  - rewrite (lookup_seq_lt _ _ _) by (by eapply lookup_lt_Some). cbn.
    by erewrite nth_lookup_Some.
  - rewrite lookup_seq_ge; [done|]. by apply lookup_ge_None.
Qed.

Section WriterGroup.
Context (b : build_config) (lw : nat -> world) (file : string) (comm : Z)
  (gdims : list Z) (maps : list (list Z)) (fs0 : fsys).
Hypothesis not_empty : maps <> [].
Hypothesis malloc_ok : forall n a t, lw 0%nat n (malloc a t) = true.
Hypothesis fopen_ok : forall n, lw 0%nat n (fopen_w file) = true.
Local Abbreviation group_size := (length maps).
Local Abbreviation written := (holds file fs0 (map_text gdims maps)).
Local Abbreviation no_error := (fun _ : nat => PIO_NOERR).

Lemma writers_start :
  group_at lw group_size no_error written (writer_trace comm maps)
    (writers b file gdims maps comm) fs0.
Proof.
  split; [by unfold writers, start_group; rewrite length_map, length_fmap|].
  intros j p Hj. unfold writers, start_group in Hj.
  change (map (Proc 0)) with (fmap (M := list) (@Proc Z 0)) in Hj.
  rewrite !list_lookup_fmap in Hj. destruct (maps !! j) as [m|] eqn:Hm; [|done].
  cbn in Hj. injection Hj as <-. cbn [code].
  destruct j as [|j]; cbn [on_trace writer_trace].
  - destruct maps as [|m0 ms]; [done|]. injection Hm as ->.
    by apply writer_root_follows.
  - erewrite nth_lookup_Some by done. apply writer_peer_talks.
Qed.

Lemma writers_gather ps' fs' :
  group_settled lw group_size no_error written (writer_trace comm maps) ps' fs' ->
  exists ps2, fire_first ps' (seq 0 group_size) = Some ps2
              /\ group_at lw group_size no_error written (collecting comm maps 1 false) ps2 fs'.
Proof.
  intros Hset.
  assert (0 < group_size)%nat as HN by (destruct maps; [done | cbn; lia]).
  apply (fire_gather lw group_size no_error written (writer_trace comm maps) _ ps' fs'
           (fun j => Entry (MPI_Gather_offset (len (nth j maps [])) 0 comm)
                       (MPI_SUCCESS, if bool_decide (Z.of_nat j = 0) then len <$> maps else []))
           (fun j => len (nth j maps [])) (len (nth 0 maps [])) comm); [done | done | | |].
  - intros [|j] Hj; cbn [writer_trace collecting].
    + unfold writer_root_trace. rewrite drop_0. f_equal.
    + rewrite decide_False by lia. unfold writer_peer_trace. cbn [andb drop]. f_equal.
  - done.
  - intros j n k Hj. cbn [projT1 projT2 Entry]. split.
    + unfold gather_value. cbn. by rewrite !bool_decide_eq_true_2.
    + unfold gather_deliver. cbn [code calls]. by rewrite lens_seq.
Qed.

Lemma writers_collect :
  forall c i ps fs,
  (i + c = group_size)%nat -> (1 <= i)%nat ->
  group_at lw group_size no_error written (collecting comm maps i false) ps fs ->
  exists fs', group_run (S (2 * c)) lw ps fs = G_done (no_error <$> seq 0 group_size) fs'
              /\ written fs'.
Proof.
  induction c as [|c IH]; intros i ps fs Hic Hi Hat.
  - eapply group_finish; [lia | exact Hat |].
    intros [|j] Hj; cbn [collecting].
    + rewrite drop_0, drop_ge by lia. done.
    + by rewrite decide_True by lia.
  - destruct (lookup_lt_is_Some_2 maps i) as [m Hm]; [lia|].
    assert (drop i maps = m :: drop (S i) maps) as Hdrop by by apply drop_S.
    replace (S (2 * S c)) with (S (S (S (2 * c)))) by lia.
    destruct (group_step lw group_size no_error written (collecting comm maps i false)
                (collecting comm maps i true) ps fs (S (S (2 * c))) 0)
      as (ps2 & fs2 & -> & Hat2); [lia | done | lia | | |].
    { cbn [collecting]. by rewrite Hdrop. }
    { intros ps' fs' Hset.
      eapply (fire_send lw group_size no_error written _ _ ps' fs' 0 i
                (MPI_Send_int (Z.of_nat i) (Z.of_nat i) (len maps + Z.of_nat i) comm)
                (MPI_Recv_int 0 (len maps + Z.of_nat i) comm)
                MPI_SUCCESS (MPI_SUCCESS, Z.of_nat i) _ _ (len maps + Z.of_nat i) comm
                (Msg_int (Z.of_nat i)));
        [done | lia | lia | lia | | | | | | | |].
      - cbn [collecting]. rewrite drop_0, Hdrop. cbn [collect_trace]. reflexivity.
      - destruct i as [|i]; [lia|]. cbn [collecting].
        rewrite decide_False by lia. cbn [andb drop writer_peer_trace].
        erewrite nth_lookup_Some by done. reflexivity.
      - intros; lia.
      - intros k. cbn [outgoing]. reflexivity.
      - intros k. cbn [accept]. cbn [Z.of_nat]. unfold len.
        by rewrite !bool_decide_eq_true_2.
      - cbn [collecting]. by rewrite Hdrop.
      - destruct i as [|i]; [lia|]. cbn [collecting].
        rewrite decide_False by lia. rewrite bool_decide_eq_true_2 by done.
        cbn [andb drop writer_peer_trace]. by erewrite nth_lookup_Some.
      - intros [|j] Hj0 Hji; [done|]. cbn [collecting andb].
        by rewrite bool_decide_eq_false_2. }
    destruct (group_step lw group_size no_error written (collecting comm maps i true)
                (collecting comm maps (S i) false) ps2 fs2 (S (2 * c)) 0)
      as (ps3 & fs3 & -> & Hat3); [lia | done | lia | | |].
    { cbn [collecting]. by rewrite Hdrop. }
    { intros ps' fs' Hset.
      eapply (fire_send lw group_size no_error written _ _ ps' fs' i 0
                (MPI_Send_offsets m (len m) 0 (Z.of_nat i) comm)
                (MPI_Recv_offsets (len m) (Z.of_nat i) (Z.of_nat i) comm)
                MPI_SUCCESS (MPI_SUCCESS, m) [] _ (Z.of_nat i) comm (Msg_offsets m));
        [done | lia | lia | lia | | | | | | | |].
      - destruct i as [|i]; [lia|]. cbn [collecting].
        rewrite decide_False by lia. rewrite bool_decide_eq_true_2 by done.
        cbn [andb drop writer_peer_trace]. by erewrite nth_lookup_Some.
      - cbn [collecting]. rewrite Hdrop. cbn [collect_trace drop]. reflexivity.
      - intros [|j] Hj; cbn [collecting].
        + by rewrite Hdrop.
        + by rewrite decide_True by lia.
      - intros k. cbn [outgoing]. unfold len. by rewrite Nat2Z.id, firstn_all.
      - intros k. cbn [accept]. unfold len.
        rewrite !bool_decide_eq_true_2 by lia. done.
      - destruct i as [|i]; [lia|]. cbn [collecting]. by rewrite decide_True by lia.
      - cbn [collecting]. by rewrite drop_0.
      - intros [|j] Hj0 Hji; [done|]. cbn [collecting andb].
        rewrite bool_decide_eq_false_2 by done. cbn [andb].
        destruct (decide (S j < i)%nat); [by rewrite decide_True by lia|].
        by rewrite decide_False by lia. }
    apply (IH (S i)); [lia | lia | done].
Qed.

(** Every writer returns without error, and the file holds the header, the
    dimensions and one record per process. *)
Lemma writers_run :
  exists fs', group_run (2 * group_size) lw (writers b file gdims maps comm) fs0
              = G_done (replicate group_size PIO_NOERR) fs'
              /\ holds file fs0 (map_text gdims maps) fs'.
Proof.
  assert (0 < group_size)%nat as HN by (destruct maps; [done | cbn; lia]).
  replace (2 * group_size)%nat with (S (S (2 * (group_size - 1)))) by lia.
  destruct (group_step lw group_size no_error written (writer_trace comm maps)
              (collecting comm maps 1 false)
              (writers b file gdims maps comm) fs0 (S (2 * (group_size - 1))) 0)
    as (ps2 & fs2 & -> & Hat2); [done | apply writers_start | done | done | apply writers_gather |].
  destruct (writers_collect (group_size - 1) 1 ps2 fs2) as (fs' & -> & HP); [lia | lia | done |].
  exists fs'. split; [|done]. f_equal.
  apply list_eq. intros j. rewrite list_lookup_fmap.
  destruct (decide (j < group_size)%nat).
  - rewrite lookup_seq_lt, lookup_replicate_2 by done. done.
  - rewrite lookup_seq_ge by lia. symmetry. apply lookup_replicate_None. lia.
Qed.

End WriterGroup.

(** ** Reading back what was written *)

Lemma scan_lit c ds s : scan_directives (Lit c :: ds) (String c s) = scan_directives ds s.
Proof. cbn [scan_directives]. by rewrite bool_decide_eq_true_2. Qed.

Lemma scan_conv sz ds z s :
  ends_numeral s ->
  scan_directives (Conv sz :: ds) (print_int z +:+ s)
  = let '(vs, r) := scan_directives ds s in (store sz z :: vs, r).
Proof. intros Hs. cbn [scan_directives]. by rewrite scan_int_print. Qed.

Lemma ends_numeral_sp s : ends_numeral (" " +:+ s).
Proof. by apply ends_numeral_space. Qed.

Lemma ends_numeral_nl s : ends_numeral (nl +:+ s).
Proof. by apply ends_numeral_space. Qed.

Lemma skip_space_sp s : skip_space (" " +:+ s) = skip_space s.
Proof. by apply skip_space_app. Qed.

Lemma skip_space_nl s : skip_space (nl +:+ s) = skip_space s.
Proof. by apply skip_space_app. Qed.

(** One number followed by white space, read from a stream that may start
    with white space. *)
Lemma scan_number sz (s : string) z rest :
  skip_space s = skip_space (print_int z +:+ " " +:+ rest) ->
  scan_directives [Conv sz; Space] s = ([store sz z], skip_space rest).
Proof.
  intros Hs. cbn [scan_directives]. rewrite <- scan_int_skip, Hs, scan_int_skip.
  rewrite scan_int_print by apply ends_numeral_sp. by rewrite skip_space_sp.
Qed.

Lemma header_format_parsed :
  parse_format header_format
  = [Lit "v"; Lit "e"; Lit "r"; Lit "s"; Lit "i"; Lit "o"; Lit "n"; Space; Conv Size_int;
     Space; Lit "n"; Lit "p"; Lit "e"; Lit "s"; Space; Conv Size_int; Space;
     Lit "n"; Lit "d"; Lit "i"; Lit "m"; Lit "s"; Space; Conv Size_int; Space].
Proof. reflexivity. Qed.

Lemma scan_space ds s : scan_directives (Space :: ds) s = scan_directives ds (skip_space s).
Proof. done. Qed.

Lemma skip_space_cons_sp s : skip_space (String " " s) = skip_space s.
Proof. done. Qed.

Lemma skip_space_lit c s : is_space c = false -> skip_space (String c s) = String c s.
Proof. intros H. cbn [skip_space]. by rewrite H. Qed.

Lemma ends_numeral_cons_sp s : ends_numeral (String " " s).
Proof. done. Qed.

(** The header: each of the three numerals is converted for an [int]. *)
Lemma scan_header (v n d : Z) (rest : string) :
  fscanf header_format
    ("version " +:+ print_int v +:+ " npes " +:+ print_int n +:+ " ndims " +:+ print_int d
     +:+ " " +:+ nl +:+ rest)
  = ([store Size_int v; store Size_int n; store Size_int d], skip_space rest).
Proof.
  unfold fscanf. rewrite header_format_parsed.
  rewrite !append_cons, !append_nil_l. rewrite !scan_lit.
  rewrite scan_space, skip_space_cons_sp, skip_space_print.
  rewrite scan_conv by apply ends_numeral_cons_sp.
  rewrite scan_space, skip_space_cons_sp, skip_space_lit by done. rewrite !scan_lit.
  rewrite scan_space, skip_space_cons_sp, skip_space_print.
  rewrite scan_conv by apply ends_numeral_cons_sp.
  rewrite scan_space, skip_space_cons_sp, skip_space_lit by done. rewrite !scan_lit.
  rewrite scan_space, skip_space_cons_sp, skip_space_print.
  rewrite scan_conv by apply ends_numeral_cons_sp.
  rewrite scan_space, skip_space_cons_sp. cbn [scan_directives].
  by rewrite skip_space_nl.
Qed.

(** The dimensions. *)
Lemma read_dims_numbers (l : list Z) :
  forall s rest,
  Forall in_int l ->
  skip_space s = skip_space (numbers_text l +:+ rest) ->
  exists s', read_dims (length l) s = (l, s') /\ skip_space s' = skip_space rest.
Proof.
  induction l as [|z l IH]; intros s rest Hl Hs.
  - exists s. by rewrite Hs.
  - apply Forall_cons in Hl as [Hz Hl].
    cbn [length read_dims numbers_text] in *. unfold fscanf.
    change (parse_format "%d ") with [Conv Size_int; Space].
    rewrite !append_assoc in Hs. rewrite (scan_number Size_int s z _ Hs).
    destruct (IH (skip_space (numbers_text l +:+ rest)) rest) as (s' & -> & Hs');
      [done | by rewrite skip_space_idemp|].
    exists s'. cbn [nth]. by rewrite store_int.
Qed.

(** The offsets of one record. *)
Lemma read_offsets_numbers (l : list Z) junk :
  forall s rest,
  Forall in_offset l ->
  skip_space s = skip_space (numbers_text l +:+ rest) ->
  exists s', read_offsets (length l) s junk = (l, s') /\ skip_space s' = skip_space rest.
Proof.
  induction l as [|z l IH]; intros s rest Hl Hs.
  - exists s. by rewrite Hs.
  - apply Forall_cons in Hl as [Hz Hl].
    cbn [length read_offsets numbers_text] in *. unfold fscanf.
    change (parse_format "%ld ") with [Conv Size_long; Space].
    rewrite !append_assoc in Hs. rewrite (scan_number Size_long s z _ Hs).
    destruct (IH (skip_space (numbers_text l +:+ rest)) rest) as (s' & -> & Hs');
      [done | by rewrite skip_space_idemp|].
    exists s'. cbn [nth]. by rewrite store_long.
Qed.

(** The first line of a record. *)
Lemma scan_record (s : string) (i n : Z) rest :
  skip_space s = skip_space (print_int i +:+ " " +:+ print_int n +:+ nl +:+ rest) ->
  fscanf "%d %ld" s = ([store Size_int i; store Size_long n], nl +:+ rest).
Proof.
  intros Hs. unfold fscanf.
  change (parse_format "%d %ld") with [Conv Size_int; Space; Conv Size_long].
  cbn [scan_directives]. rewrite <- scan_int_skip, Hs, scan_int_skip.
  rewrite scan_int_print by apply ends_numeral_sp.
  rewrite skip_space_sp, skip_space_print.
  by rewrite scan_int_print by apply ends_numeral_nl.
Qed.

(** ** A header that is rejected, and one that is not *)

(** C7 does not hold as stated: the version tag of this file is
    4294969297, which is not [versno]; the conversion [%d] stores its low
    32 bits, which are, and the file is read. *)
Lemma version_tag_beyond_int_is_accepted :
  group_run 4 (fun _ _ => answer_default)
    (readers b_example (fun _ => Indeterminate 0 0 0 0 0) "map.txt" (fun _ => 0) 5 1)
    {[ "map.txt"%string := wide_tag_file ]}
  = G_done [ReadmapOut PIO_NOERR 1 (Some [10]) (Some 2) (Some [5; 6])]
      {[ "map.txt"%string := wide_tag_file ]}.
Proof. vm_compute. reflexivity. Qed.

(** C7, amended.  The version and the process count that are tested are
    the [int]s that the conversion [%d] stores: for a header in the layout
    [PIOc_writemap] writes, the number a numeral denotes when that is an
    [int], and otherwise the low 32 bits of the [long] nearest to it.  When
    the version so read differs from [versno], or the process count so read
    is below one or above the size of the reading communicator, the
    representative terminates the process right after it has opened the
    file: its calls are [MPI_Comm_size], [MPI_Comm_rank] and [fopen], then
    only diagnostics; nothing is broadcast and no dimension or record is
    read.  Run as a group, the readers do not return: the run is terminated
    by rank 0. *)
Theorem readmap_rejects_bad_header :
  (forall b u file ndims gdims fmaplen map ndims0 comm (w : world) content,
     ndims && gdims && fmaplen && map = true ->
     w 1%nat (MPI_Comm_rank comm) = 0 ->
     w 2%nat (fopen_r file) = Some content ->
     nth 0 (fscanf header_format content).1 (u_rversno u) <> versno
     \/ nth 1 (fscanf header_format content).1 (u_rnpes u) < 1
     \/ w 0%nat (MPI_Comm_size comm) < nth 1 (fscanf header_format content).1 (u_rnpes u) ->
     exists tail how,
       run w (PIOc_readmap b u file ndims gdims fmaplen map ndims0 comm)
       = (Entry (MPI_Comm_size comm) (w 0%nat (MPI_Comm_size comm))
            :: Entry (MPI_Comm_rank comm) 0
            :: Entry (fopen_r file) (Some content)
            :: tail,
          Terminated how)
       /\ Forall (fun x => is_diagnostic (entry_event x)) tail)
  /\ (forall b u file ndims0 comm (lw : nat -> world) size fs content fuel,
        fs !! file = Some content ->
        nth 0 (fscanf header_format content).1 (u_rversno (u 0%nat)) <> versno
        \/ nth 1 (fscanf header_format content).1 (u_rnpes (u 0%nat)) < 1
        \/ Z.of_nat (S size)
           < nth 1 (fscanf header_format content).1 (u_rnpes (u 0%nat)) ->
        group_run (S fuel) lw (readers b u file ndims0 comm (S size)) fs
        = G_aborted 0 (die b))
  /\ (forall v n d rest,
        (fscanf header_format
           ("version " +:+ print_int v +:+ " npes " +:+ print_int n +:+ " ndims "
            +:+ print_int d +:+ " " +:+ nl +:+ rest)).1
        = [int_wrap (long_clamp v); int_wrap (long_clamp n); int_wrap (long_clamp d)]
        /\ (in_int v -> int_wrap (long_clamp v) = v)
        /\ (in_int n -> int_wrap (long_clamp n) = n)).
Proof.
  split_and!.
  - intros. by apply readmap_header_rejected.
  - intros. by eapply readmap_group_rejected.
  - intros v n d rest. rewrite scan_header. split; [done|]. split; apply store_int.
Qed.

(** A representative, and a group of two readers, with a file of an older
    version. *)
Lemma readmap_rejects_bad_header_witness :
  (exists tail how,
     run old_file_reader
       (PIOc_readmap b_example (Indeterminate 0 0 0 0 0) "map.txt" true true true true 0 5)
     = (Entry (MPI_Comm_size 5) 2
          :: Entry (MPI_Comm_rank 5) 0
          :: Entry (fopen_r "map.txt") (Some old_map_file)
          :: tail,
        Terminated how)
     /\ Forall (fun x => is_diagnostic (entry_event x)) tail)
  /\ group_run 1 (fun _ _ => answer_default)
       (readers b_example (fun _ => Indeterminate 0 0 0 0 0) "map.txt" (fun _ => 0) 5 2)
       {[ "map.txt"%string := old_map_file ]}
     = G_aborted 0 (MPI_Abort MPI_COMM_WORLD (-1)).
Proof.
  split.
  - apply (proj1 readmap_rejects_bad_header b_example (Indeterminate 0 0 0 0 0)
             "map.txt"%string true true true true 0 5 old_file_reader old_map_file).
    + reflexivity.
    + reflexivity.
    + reflexivity.
    + left. vm_compute. discriminate.
  - apply (proj1 (proj2 readmap_rejects_bad_header) b_example
             (fun _ => Indeterminate 0 0 0 0 0)
             "map.txt"%string (fun _ => 0) 5 (fun _ _ => answer_default) 1%nat
             {[ "map.txt"%string := old_map_file ]} old_map_file 0%nat).
    + reflexivity.
    + left. vm_compute. discriminate.
Defined.

(** ** The readers, one by one *)

Lemma in_int_index (i n : nat) : (i < n)%nat -> in_int (Z.of_nat n) -> in_int (Z.of_nat i).
Proof. unfold in_int, INT_MIN, INT_MAX. lia. Qed.

Lemma to_nat_len {X : Type} (l : list X) : Z.to_nat (len l) = length l.
Proof. unfold len. lia. Qed.

Section ReaderProcesses.
Context (b : build_config) (w : world) (size : nat) (comm : Z).
Hypothesis malloc_ok : forall n a t, w n (malloc a t) = true.
Hypothesis calloc_ok : forall n a t, w n (calloc a t) = true.

Lemma follows_calloc {A : Type} rank a t (f : bool -> prog A) tr x P fs :
  follows w size rank tr x P (f true) fs ->
  follows w size rank tr x P (call (calloc a t) ≫= f) fs.
Proof.
  intros Hf. eapply follows_call; [|exact Hf].
  intros n. cbn [local_answer]. by rewrite calloc_ok.
Qed.

Lemma talks_malloc {A : Type} rank a t (f : bool -> prog A) tr x :
  talks w size rank tr x (f true) ->
  talks w size rank tr x (call (malloc a t) ≫= f).
Proof.
  intros Hf. eapply talks_call; [|exact Hf].
  intros n fs. cbn [local_answer]. by rewrite malloc_ok.
Qed.

Lemma talks_calloc {A : Type} rank a t (f : bool -> prog A) tr x :
  talks w size rank tr x (f true) ->
  talks w size rank tr x (call (calloc a t) ≫= f).
Proof.
  intros Hf. eapply talks_call; [|exact Hf].
  intros n fs. cbn [local_answer]. by rewrite calloc_ok.
Qed.

Lemma forward_follows npes junk fs out rest :
  forall (ms : list (list Z)) (i : nat) s j maplen,
  (1 <= i)%nat ->
  in_int (Z.of_nat (i + length ms)) ->
  Forall map_record_typed ms ->
  skip_space s = skip_space (records_text i ms +:+ rest) ->
  follows w size 0 (forward_trace npes comm i ms) out (eq fs)
    (readmap_records b npes comm (length ms) (Z.of_nat i) s j maplen out junk) fs.
Proof.
  induction ms as [|m ms IH]; intros i s j maplen Hi Hlast Hms Hs.
  - by apply follows_ret.
  - apply Forall_cons in Hms as [[Hlen Hm] Hms].
    cbn [length readmap_records forward_trace records_text] in *.
    unfold record_text in Hs. rewrite !append_assoc in Hs.
    rewrite (scan_record s _ _ _ Hs). cbn [nth].
    rewrite store_int by (eapply in_int_index; [|exact Hlast]; lia).
    rewrite store_long by done.
    rewrite Z.eqb_refl. cbn [negb].
    apply (follows_malloc w size 0 malloc_ok). cbn [negb].
    destruct (read_offsets_numbers m junk
                (nl +:+ numbers_text m +:+ nl +:+ records_text (S i) ms +:+ rest)
                (nl +:+ records_text (S i) ms +:+ rest))
      as (s' & E & Hs'); [done | by rewrite skip_space_nl|].
    rewrite to_nat_len, E.
    replace (0 <? Z.of_nat i) with true by (symmetry; apply Z.ltb_lt; lia).
    apply follows_wait; [done|]. apply follows_wait; [done|]. apply follows_free.
    replace (Z.of_nat i + 1) with (Z.of_nat (S i)) by lia.
    apply IH; [lia | | done |].
    + by replace (S i + length ms)%nat with (i + S (length ms))%nat by lia.
    + by rewrite Hs', skip_space_nl.
Qed.

(** The representative of the readers. *)
Lemma reader_root_follows (u : indeterminate) file ndims0 gdims m0 ms fs junk :
  size = length (m0 :: ms) ->
  map_arguments_typed gdims (m0 :: ms) ->
  fs !! file = Some (map_text gdims (m0 :: ms) +:+ junk) ->
  follows w size 0 (reader_root_trace comm gdims (m0 :: ms)) (read_back gdims m0) (eq fs)
    (PIOc_readmap b u file true true true true ndims0 comm) fs.
Proof.
  intros Hsize (Hnd & Hnp & Hgd & Hmaps) Hfile.
  apply Forall_cons in Hmaps as [[Hlen0 Hm0] Hms].
  unfold PIOc_readmap, reader_root_trace. cbn [andb negb].
  eapply follows_call; [done|]. eapply follows_call; [done|].
  change (Z.of_nat 0 =? 0) with true. cbn iota.
  eapply follows_call; [intros n; cbn [local_answer]; by rewrite Hfile|]. cbn iota.
  fold header_format. unfold map_text. rewrite !append_assoc, scan_header. cbn [nth].
  rewrite (store_int versno) by done. rewrite !store_int by done.
  change (negb (versno =? versno)) with false. cbn iota.
  replace ((len (m0 :: ms) <? 1) || (Z.of_nat size <? len (m0 :: ms))) with false.
  2:{ symmetry. apply orb_false_iff. unfold len. rewrite Hsize. cbn [length].
      split; apply Z.ltb_ge; lia. }
  apply follows_wait; [done|]. cbn iota beta.
  apply follows_wait; [done|]. cbn iota beta.
  apply follows_calloc. cbn [negb].
  destruct (read_dims_numbers gdims
              (skip_space (numbers_text gdims +:+ nl +:+ records_text 0 (m0 :: ms) +:+ nl +:+ junk))
              (nl +:+ records_text 0 (m0 :: ms) +:+ nl +:+ junk))
    as (s1 & E1 & Hs1); [done | by rewrite skip_space_idemp|].
  rewrite to_nat_len, E1.
  apply follows_wait; [done|]. cbn iota beta.
  rewrite skip_space_nl in Hs1. cbn [records_text] in Hs1.
  unfold record_text in Hs1. rewrite !append_assoc in Hs1.
  rewrite to_nat_len. cbn [length readmap_records].
  rewrite (scan_record s1 _ _ _ Hs1). cbn [nth].
  rewrite (store_int (Z.of_nat 0)) by done. rewrite store_long by done.
  cbn [Z.of_nat Z.eqb negb].
  apply (follows_malloc w _ 0 malloc_ok). cbn [negb].
  destruct (read_offsets_numbers m0 (u_elem u)
              (nl +:+ numbers_text m0 +:+ nl +:+ records_text 1 ms +:+ nl +:+ junk)
              (nl +:+ records_text 1 ms +:+ nl +:+ junk))
    as (s2 & E2 & Hs2); [done | by rewrite skip_space_nl|].
  rewrite to_nat_len, E2. cbn [Z.ltb Z.compare].
  cbn [tail]. rewrite <- (app_nil_r (forward_trace _ _ _ _)).
  replace (len (m0 :: ms)) with (Z.of_nat size) by (unfold len; by rewrite Hsize).
  refine (follows_bind w _ 0 _ [] (Some m0, Some (len m0)) _ (eq fs) _ _ _ _ _
            (forward_follows _ _ fs _ (nl +:+ junk) ms 1 s2 _ _ _ _ _ _)).
  - intros fs1 <-. cbn iota beta. apply follows_fclose. by apply follows_ret.
  - lia.
  - exact Hnp.
  - done.
  - by rewrite Hs2, skip_space_nl.
Qed.

(** The other readers. *)
Lemma reader_peer_talks (u : indeterminate) file ndims0 gdims (j : nat) (m : list Z) :
  (S j < size)%nat ->
  talks w size (S j) (reader_peer_trace comm u ndims0 gdims (Z.of_nat size) (S j) m)
    (read_back gdims m)
    (PIOc_readmap b u file true true true true ndims0 comm).
Proof.
  intros Hj. unfold PIOc_readmap, reader_peer_trace. cbn [andb negb].
  eapply talks_call; [done|]. eapply talks_call; [done|].
  replace (Z.of_nat (S j) =? 0) with false by (symmetry; apply Z.eqb_neq; lia).
  apply talks_wait; [done|]. cbn iota beta.
  apply talks_wait; [done|]. cbn iota beta.
  apply talks_calloc. cbn [negb andb].
  apply talks_wait; [done|]. cbn iota beta.
  replace (Z.of_nat (S j) <? Z.of_nat size) with true by (symmetry; apply Z.ltb_lt; lia).
  apply talks_wait; [done|]. cbn iota beta. cbn [nth].
  apply talks_malloc. cbn [negb].
  apply talks_wait; [done|]. cbn iota beta.
  apply talks_ret.
Qed.

End ReaderProcesses.

(** ** The readers as a group *)

Section ReaderGroup.
Context (b : build_config) (lw : nat -> world) (file : string) (comm : Z)
  (u : nat -> indeterminate) (ndims0 : nat -> Z)
  (gdims : list Z) (maps : list (list Z)) (fs : fsys) (junk : string).
Hypothesis not_empty : maps <> [].
Hypothesis typed : map_arguments_typed gdims maps.
Hypothesis malloc_ok : forall j n a t, lw j n (malloc a t) = true.
Hypothesis calloc_ok : forall j n a t, lw j n (calloc a t) = true.
Hypothesis file_ok : fs !! file = Some (map_text gdims maps +:+ junk).
Local Abbreviation group_size := (length maps).
Local Abbreviation untouched := (eq fs).
Local Abbreviation handed := (fun j : nat => read_back gdims (nth j maps [])).
Local Abbreviation trace := (reader_trace comm u ndims0 gdims maps).
Local Abbreviation fw := (forwarding comm u ndims0 gdims maps).

Lemma readers_start :
  group_at lw group_size handed untouched trace (readers b u file ndims0 comm group_size) fs.
Proof.
  split; [by rewrite readers_length|].
  intros j p Hj. unfold readers, start_group in Hj.
  change (map (Proc 0)) with (fmap (M := list) (@Proc readmap_out 0)) in Hj.
  rewrite !list_lookup_fmap in Hj. destruct (seq 0 group_size !! j) as [j'|] eqn:Ej; [|done].
  apply lookup_seq in Ej as [-> Hlt]. cbn in Hj. injection Hj as <-. cbn [code].
  destruct j as [|j]; cbn [on_trace]; cbn [reader_trace].
  - destruct maps as [|m0 ms]; [done|]. cbn [nth].
    eapply reader_root_follows;
      [apply malloc_ok | apply calloc_ok | done | exact typed | exact file_ok].
  - apply reader_peer_talks; [apply malloc_ok | apply calloc_ok | done].
Qed.

Lemma positive_size : (0 < group_size)%nat.
Proof. destruct maps; [done | cbn; lia]. Qed.

Lemma readers_bcast_size ps' fs' :
  group_settled lw group_size handed untouched trace ps' fs' ->
  exists ps2, fire_first ps' (seq 0 group_size) = Some ps2
              /\ group_at lw group_size handed untouched (fun j => drop 1 (trace j)) ps2 fs'.
Proof.
  intros Hset.
  apply (fire_bcast lw group_size handed untouched trace _ ps' fs'
           (fun j => Entry (MPI_Bcast_int (match j with O => len maps | S _ => u_rnpes (u j) end)
                              0 comm) (MPI_SUCCESS, len maps))
           (P_int (len maps)) comm); [done | apply positive_size | | |].
  - by intros [|j] Hj.
  - done.
  - intros j n k Hj. unfold bcast_deliver. cbn. by rewrite !bool_decide_eq_true_2.
Qed.

Lemma readers_bcast_ndims ps' fs' :
  group_settled lw group_size handed untouched (fun j => drop 1 (trace j)) ps' fs' ->
  exists ps2, fire_first ps' (seq 0 group_size) = Some ps2
              /\ group_at lw group_size handed untouched (fun j => drop 2 (trace j)) ps2 fs'.
Proof.
  intros Hset.
  apply (fire_bcast lw group_size handed untouched (fun j => drop 1 (trace j)) _ ps' fs'
           (fun j => Entry (MPI_Bcast_int (match j with O => len gdims | S _ => ndims0 j end)
                              0 comm) (MPI_SUCCESS, len gdims))
           (P_int (len gdims)) comm); [done | apply positive_size | | |].
  - by intros [|j] Hj.
  - done.
  - intros j n k Hj. unfold bcast_deliver. cbn. by rewrite !bool_decide_eq_true_2.
Qed.

Lemma readers_bcast_dims ps' fs' :
  group_settled lw group_size handed untouched (fun j => drop 2 (trace j)) ps' fs' ->
  exists ps2, fire_first ps' (seq 0 group_size) = Some ps2
              /\ group_at lw group_size handed untouched (fw 1%nat false) ps2 fs'.
Proof.
  intros Hset.
  apply (fire_bcast lw group_size handed untouched (fun j => drop 2 (trace j)) _ ps' fs'
           (fun j => Entry (MPI_Bcast_ints
                              (match j with
                               | O => gdims
                               | S _ => replicate (Z.to_nat (len gdims)) 0
                               end) (len gdims) 0 comm) (MPI_SUCCESS, gdims))
           (P_ints gdims) comm); [done | apply positive_size | | |].
  - intros [|j] Hj; cbn [reader_trace forwarding].
    + unfold reader_root_trace. cbn [drop]. by destruct maps.
    + rewrite decide_False by lia. done.
  - intros k. cbn. by rewrite to_nat_len, firstn_all.
  - intros j n k Hj. unfold bcast_deliver. cbn. by rewrite !bool_decide_eq_true_2.
Qed.

Lemma readers_forward :
  forall c i ps fs1,
  (i + c = group_size)%nat -> (1 <= i)%nat ->
  group_at lw group_size handed untouched (fw i false) ps fs1 ->
  exists fs', group_run (S (2 * c)) lw ps fs1 = G_done (handed <$> seq 0 group_size) fs'
              /\ untouched fs'.
Proof.
  induction c as [|c IH]; intros i ps fs1 Hic Hi Hat.
  - eapply group_finish; [lia | exact Hat |].
    intros [|j] Hj; cbn [forwarding].
    + rewrite drop_0, drop_ge by lia. done.
    + by rewrite decide_True by lia.
  - destruct (lookup_lt_is_Some_2 maps i) as [m Hm]; [lia|].
    assert (drop i maps = m :: drop (S i) maps) as Hdrop by by apply drop_S.
    replace (S (2 * S c)) with (S (S (S (2 * c)))) by lia.
    destruct (group_step lw group_size handed untouched (fw i false) (fw i true) ps fs1
                (S (S (2 * c))) 0)
      as (ps2 & fs2 & -> & Hat2); [lia | done | lia | | |].
    { cbn [forwarding]. by rewrite Hdrop. }
    { intros ps' fs' Hset.
      eapply (fire_send lw group_size handed untouched _ _ ps' fs' 0 i
                (MPI_Send_offsets [len m] 1 (Z.of_nat i) (Z.of_nat i + len maps) comm)
                (MPI_Recv_offsets 1 0 (Z.of_nat i + len maps) comm)
                MPI_SUCCESS (MPI_SUCCESS, [len m]) _ _ (Z.of_nat i + len maps) comm
                (Msg_offsets [len m]));
        [done | lia | lia | lia | | | | | | | |].
      - cbn [forwarding]. rewrite drop_0, Hdrop. cbn [forward_trace]. reflexivity.
      - destruct i as [|i]; [lia|]. cbn [forwarding].
        rewrite decide_False by lia. cbn [andb drop reader_peer_trace].
        erewrite nth_lookup_Some by done. reflexivity.
      - intros; lia.
      - intros k. cbn [outgoing]. reflexivity.
      - intros k. cbn [accept]. cbn [Z.of_nat length].
        by rewrite !bool_decide_eq_true_2.
      - cbn [forwarding]. by rewrite Hdrop.
      - destruct i as [|i]; [lia|]. cbn [forwarding].
        rewrite decide_False by lia. rewrite bool_decide_eq_true_2 by done.
        cbn [andb drop reader_peer_trace]. by erewrite nth_lookup_Some.
      - intros [|j] Hj0 Hji; [done|]. cbn [forwarding andb].
        by rewrite bool_decide_eq_false_2. }
    destruct (group_step lw group_size handed untouched (fw i true) (fw (S i) false) ps2 fs2
                (S (2 * c)) 0)
      as (ps3 & fs3 & -> & Hat3); [lia | done | lia | | |].
    { cbn [forwarding]. by rewrite Hdrop. }
    { intros ps' fs' Hset.
      eapply (fire_send lw group_size handed untouched _ _ ps' fs' 0 i
                (MPI_Send_offsets m (len m) (Z.of_nat i) (Z.of_nat i) comm)
                (MPI_Recv_offsets (len m) 0 (Z.of_nat i) comm)
                MPI_SUCCESS (MPI_SUCCESS, m) _ _ (Z.of_nat i) comm (Msg_offsets m));
        [done | lia | lia | lia | | | | | | | |].
      - cbn [forwarding]. rewrite Hdrop. cbn [forward_trace drop]. reflexivity.
      - destruct i as [|i]; [lia|]. cbn [forwarding].
        rewrite decide_False by lia. rewrite bool_decide_eq_true_2 by done.
        cbn [andb drop reader_peer_trace]. erewrite nth_lookup_Some by done. reflexivity.
      - intros; lia.
      - intros k. cbn [outgoing]. by rewrite to_nat_len, firstn_all.
      - intros k. cbn [accept]. cbn [Z.of_nat]. unfold len.
        rewrite !bool_decide_eq_true_2 by lia. done.
      - cbn [forwarding]. by rewrite drop_0.
      - destruct i as [|i]; [lia|]. cbn [forwarding]. by rewrite decide_True by lia.
      - intros [|j] Hj0 Hji; [done|]. cbn [forwarding andb].
        rewrite bool_decide_eq_false_2 by done. cbn [andb].
        destruct (decide (S j < i)%nat); [by rewrite decide_True by lia|].
        by rewrite decide_False by lia. }
    apply (IH (S i)); [lia | lia | done].
Qed.

(** Every reader returns the dimensions and its own map. *)
Lemma readers_run :
  group_run (2 * group_size + 2) lw (readers b u file ndims0 comm group_size) fs
  = G_done (read_back gdims <$> maps) fs.
Proof.
  pose proof positive_size as HN.
  replace (2 * group_size + 2)%nat with (S (S (S (S (2 * (group_size - 1)))))) by lia.
  destruct (group_step lw group_size handed untouched trace (fun j => drop 1 (trace j))
              (readers b u file ndims0 comm group_size) fs (S (S (S (2 * (group_size - 1))))) 0)
    as (ps1 & fs1 & -> & Hat1);
    [done | apply readers_start | done | done | apply readers_bcast_size |].
  destruct (group_step lw group_size handed untouched (fun j => drop 1 (trace j))
              (fun j => drop 2 (trace j))
              ps1 fs1 (S (S (2 * (group_size - 1)))) 0)
    as (ps2 & fs2 & -> & Hat2);
    [done | done | done | done | apply readers_bcast_ndims |].
  destruct (group_step lw group_size handed untouched (fun j => drop 2 (trace j)) (fw 1%nat false)
              ps2 fs2 (S (2 * (group_size - 1))) 0)
    as (ps3 & fs3 & -> & Hat3);
    [done | done | done | done | apply readers_bcast_dims |].
  destruct (readers_forward (group_size - 1) 1 ps3 fs3) as (fs' & -> & <-); [lia | lia | done |].
  f_equal. apply list_eq. intros j. rewrite !list_lookup_fmap.
  destruct (maps !! j) as [m|] eqn:Hm.
  - rewrite lookup_seq_lt by (by eapply lookup_lt_Some). cbn.
    by erewrite nth_lookup_Some.
  - rewrite lookup_seq_ge; [done|]. by apply lookup_ge_None.
Qed.

End ReaderGroup.


Lemma maps_example_typed : map_arguments_typed [10; 20] maps_example.
Proof.
  unfold map_arguments_typed, map_record_typed.
  repeat first [split | apply Forall_cons_2 | apply Forall_nil_2]; by vm_compute.
Qed.


(** The file the three processes of the example leave. *)
Lemma map_file_example :
  match group_run 6 (fun _ _ => answer_default)
          (writers b_example "map.txt" [10; 20] maps_example 5) ∅ with
  | G_done _ fs => fs !! "map.txt"%string
  | _ => None
  end
  = Some ("version 2001 npes 3 ndims 2 " +:+ nl +:+ "10 20 " +:+ nl
          +:+ "0 3" +:+ nl +:+ "1 2 3 " +:+ nl
          +:+ "1 0" +:+ nl +:+ nl
          +:+ "2 2" +:+ nl +:+ "-5 77 " +:+ nl +:+ nl
          +:+ "Obtained 0 stack frames." +:+ nl).
Proof. vm_compute. reflexivity. Qed.

(** ** Error classification *)

Lemma nonzero_of z : z <> 0 -> nonzero z = true.
Proof. intros H. unfold nonzero. by apply negb_true_iff, Z.eqb_neq. Qed.

Lemma frames_run (w : world) fp (frames : list string) (k : prog unit) : forall n,
  run_from w n (foldr (fun s k => _ ← call (fputs fp (s +:+ nl)); k) k frames)
  = let '(t, o) := run_from w (n + length frames) k in
    (imap (fun i s => Entry (fputs fp (s +:+ nl)) (w (n + i)%nat (fputs fp (s +:+ nl)))) frames
       ++ t, o).
Proof.
  induction frames as [|s l IH]; intros n.
  - cbn. rewrite Nat.add_0_r. by destruct (run_from w n k).
  - cbn [foldr]. run_call. rewrite IH. cbn [length imap].
    replace (n + 1 + length l)%nat with (n + S (length l))%nat by lia.
    destruct (run_from w _ k) as [t o]. cbn [app]. rewrite Nat.add_0_r. f_equal. f_equal.
    f_equal. apply imap_ext. intros i x _. cbn. do 2 f_equal. lia.
Qed.

Lemma print_trace_run (w : world) fp n :
  exists t,
    run_from w n (print_trace fp) = (t, Returned tt)
    /\ events_of t = stack_dump (default stderr fp) (w n (backtrace_symbols 10)).
Proof.
  unfold print_trace. run_call. run_call. rewrite run_from_bind, frames_run.
  cbn [run_from mret prog_ret]. rewrite length_app, length_imap. cbn [length app].
  cbn [run_from call]. rewrite !app_nil_r.
  destruct (w (n + 1 + 1 + _)%nat (free_block "strings")).
  eexists. split; [reflexivity|].
  unfold events_of, stack_dump. cbn [map app entry_event Entry projT1]. f_equal. f_equal.
  rewrite !map_app. cbn [map entry_event Entry projT1]. f_equal.
  generalize (n + 1 + 1)%nat. intros m.
  generalize (w n (backtrace_symbols 10)). intros l. revert m.
  induction l as [|s l IH]; intros m; [done|]. cbn [imap map fmap list_fmap]. f_equal.
  rewrite <- (IH (S m)). f_equal. apply imap_ext. intros i x _. cbn. do 2 f_equal. lia.
Qed.

Lemma piodie_dies {A : Type} b msg fname line (w : world) n :
  exists t,
    run_from w n (@piodie A b msg fname line) = (t, Terminated (die b))
    /\ events_of t
       = fputs stderr (abort_message msg fname line)
         :: stack_dump stderr (w (S n) (backtrace_symbols 10)).
Proof.
  unfold piodie. run_call. rewrite run_from_bind.
  destruct (print_trace_run w (Some stderr) (n + 1)) as (t & -> & Ht).
  cbn [run_from]. eexists. split; [reflexivity|].
  unfold events_of in *. cbn [map app entry_event Entry projT1]. rewrite app_nil_r, Ht.
  by replace (n + 1)%nat with (S n) by lia.
Qed.

Lemma check_netcdf_absent b file status fname line (w : world) n :
  in_build b (iotype file) = false ->
  run_from w n (check_netcdf b file status fname line)
  = ([Entry (fputs stderr (iotype_message (iotype file) 370)) tt], Returned status).
Proof.
  unfold in_build, check_netcdf, iotype_error, iotype_message.
  intros H. apply orb_false_iff in H as [-> ->].
  rewrite run_from_bind. run_call. cbn [run_from mret prog_ret from_option default].
  by destruct (w n (fputs stderr _)).
Qed.

Lemma check_netcdf_aborts b file status fname line (w : world) n :
  in_build b (iotype file) = true ->
  error_handler (iosystem file) = PIO_INTERNAL_ERROR ->
  status <> 0 ->
  exists t how,
    run_from w n (check_netcdf b file status fname line) = (t, Terminated how)
    /\ (how = die b \/ how = MPI_Abort MPI_COMM_WORLD status).
Proof.
  intros Hin Hh Hs. unfold in_build in Hin. unfold check_netcdf.
  rewrite Hh, (nonzero_of _ Hs).
  change (bool_decide (PIO_INTERNAL_ERROR = PIO_INTERNAL_ERROR)) with true.
  change (bool_decide (PIO_INTERNAL_ERROR = PIO_BCAST_ERROR)) with false.
  rewrite !andb_true_r.
  destruct (has_NETCDF b && _) eqn:E1; cbn [orb] in Hin; [|rewrite Hin]; cbn iota.
  - rewrite run_from_bind. destruct (iomaster (iosystem file)).
    + run_call. generalize (w n (nc_strerror status)). cbn [resp]. intros msg.
      destruct (piodie_dies (A:=unit) b (Some msg) fname line w (n + 1)%nat) as (t & -> & _).
      eexists _, _. split; [reflexivity | by left].
    + cbn. eexists _, _. split; [reflexivity | by right].
  - rewrite run_from_bind. run_call.
    generalize (w n (ncmpi_strerror status)). cbn [resp]. intros msg.
    destruct (piodie_dies (A:=unit) b (Some msg) fname line w (n + 1)%nat) as (t & -> & _).
    eexists _, _. split; [reflexivity | by left].
Qed.

Lemma check_netcdf_broadcasts b file status fname line (w : world) n :
  in_build b (iotype file) = true ->
  error_handler (iosystem file) = PIO_BCAST_ERROR ->
  run_from w n (check_netcdf b file status fname line)
  = ([Entry (MPI_Bcast_int status (ioroot (iosystem file)) (my_comm (iosystem file)))
        (w n (MPI_Bcast_int status (ioroot (iosystem file)) (my_comm (iosystem file))))],
     Returned (w n (MPI_Bcast_int status (ioroot (iosystem file)) (my_comm (iosystem file)))).2).
Proof.
  intros Hin Hh. unfold in_build in Hin. unfold check_netcdf. rewrite Hh.
  change (bool_decide (PIO_BCAST_ERROR = PIO_INTERNAL_ERROR)) with false.
  change (bool_decide (PIO_BCAST_ERROR = PIO_BCAST_ERROR)) with true.
  rewrite !andb_false_r.
  destruct (has_NETCDF b && _) eqn:E1; cbn [orb] in Hin; [|rewrite Hin]; cbn iota;
    rewrite run_from_bind; cbn [run_from mret prog_ret length]; run_call;
    rewrite Nat.add_0_r; by destruct (w _ (MPI_Bcast_int _ _ _)).
Qed.

Lemma check_netcdf_hands_back b file status fname line (w : world) n :
  in_build b (iotype file) = true ->
  error_handler (iosystem file) <> PIO_BCAST_ERROR ->
  error_handler (iosystem file) <> PIO_INTERNAL_ERROR \/ status = 0 ->
  run_from w n (check_netcdf b file status fname line) = ([], Returned status).
Proof.
  intros Hin Hb Hcase. unfold in_build in Hin. unfold check_netcdf.
  rewrite (bool_decide_eq_false_2 _ Hb).
  assert (nonzero status && bool_decide (error_handler (iosystem file) = PIO_INTERNAL_ERROR)
          = false) as Hq.
  { destruct Hcase as [Hh | ->]; [|done].
    by rewrite (bool_decide_eq_false_2 _ Hh), andb_false_r. }
  destruct (has_NETCDF b && _) eqn:E1; cbn [orb] in Hin; [|rewrite Hin]; cbn iota.
  - rewrite <- andb_assoc, Hq, andb_false_r. rewrite run_from_bind.
    cbn [run_from mret prog_ret length].
    destruct (bool_decide (_ = PIO_INTERNAL_ERROR)) eqn:Ei; [|done].
    rewrite andb_true_r in Hq. by rewrite Hq.
  - by rewrite Hq.
Qed.

(** X2.  [check_netcdf] on a file whose backend type is compiled in follows
    the error handler of the I/O system: with [PIO_INTERNAL_ERROR] it
    returns a zero status without a call and never returns on a non-zero
    one (the process ends in [piodie] or in [MPI_Abort] with the status);
    with [PIO_BCAST_ERROR] it makes one call, the broadcast of the status
    from the I/O root, and returns what the broadcast delivers; with any
    other handler it returns the status as it is, without a call.  When
    the backend type is not compiled in, it reports the type on the
    standard error stream and returns the status as it is, whatever the
    handler. *)
Theorem check_netcdf_follows_error_handler b file status fname line (w : world) n :
  (in_build b (iotype file) = true ->
   (error_handler (iosystem file) = PIO_INTERNAL_ERROR ->
    (status = 0 ->
     run_from w n (check_netcdf b file status fname line) = ([], Returned 0))
    /\ (status <> 0 ->
        exists t how,
          run_from w n (check_netcdf b file status fname line) = (t, Terminated how)
          /\ (how = die b \/ how = MPI_Abort MPI_COMM_WORLD status)))
   /\ (error_handler (iosystem file) = PIO_BCAST_ERROR ->
       run_from w n (check_netcdf b file status fname line)
       = ([Entry (MPI_Bcast_int status (ioroot (iosystem file)) (my_comm (iosystem file)))
             (w n (MPI_Bcast_int status (ioroot (iosystem file)) (my_comm (iosystem file))))],
          Returned
            (w n (MPI_Bcast_int status (ioroot (iosystem file)) (my_comm (iosystem file)))).2))
   /\ (error_handler (iosystem file) <> PIO_INTERNAL_ERROR ->
       error_handler (iosystem file) <> PIO_BCAST_ERROR ->
       run_from w n (check_netcdf b file status fname line) = ([], Returned status)))
  /\ (in_build b (iotype file) = false ->
      run_from w n (check_netcdf b file status fname line)
      = ([Entry (fputs stderr (iotype_message (iotype file) 370)) tt], Returned status)).
Proof.
  split; [|apply check_netcdf_absent].
  intros Hin. split_and!.
  - intros Hh. split.
    + intros ->. apply check_netcdf_hands_back; [done | by rewrite Hh | by right].
    + by apply check_netcdf_aborts.
  - by apply check_netcdf_broadcasts.
  - intros H1 H2. apply check_netcdf_hands_back; [done | done | by left].
Qed.

(** The aborting handler on a file of serial netCDF, and the same file in a
    build without backends. *)
Lemma check_netcdf_follows_error_handler_witness :
  run_from (fun _ => answer_default) 0 (check_netcdf b_example file_example 0 None 325)
  = ([], Returned 0)
  /\ (exists t how,
        run_from (fun _ => answer_default) 0 (check_netcdf b_example file_example 7 None 325)
        = (t, Terminated how)
        /\ (how = die b_example \/ how = MPI_Abort MPI_COMM_WORLD 7))
  /\ run_from (fun _ => answer_default) 0 (check_netcdf b_bare file_example 7 None 325)
     = ([Entry (fputs stderr (iotype_message PIO_IOTYPE_NETCDF 370)) tt], Returned 7).
Proof.
  pose proof (check_netcdf_follows_error_handler b_example file_example 0 None 325
                (fun _ => answer_default) 0) as [H0 _].
  pose proof (check_netcdf_follows_error_handler b_example file_example 7 None 325
                (fun _ => answer_default) 0) as [H7 _].
  pose proof (check_netcdf_follows_error_handler b_bare file_example 7 None 325
                (fun _ => answer_default) 0) as [_ Hb].
  split_and!.
  - destruct H0 as (Hint & _); [reflexivity|]. apply Hint; reflexivity.
  - destruct H7 as (Hint & _); [reflexivity|]. apply Hint; [reflexivity | discriminate].
  - apply Hb. reflexivity.
Defined.

Lemma check_mpi_run b file mpierr fname line (w : world) n :
  mpierr <> 0 ->
  exists t0,
    Forall (fun x => entry_event x = MPI_Error_string mpierr
                     \/ exists s, entry_event x = fputs stderr s) t0
    /\ run_from w n (check_mpi b file mpierr fname line)
       = match file with
         | None => (t0, Returned PIO_EIO)
         | Some f =>
             match run_from w (n + length t0) (check_netcdf b f PIO_EIO fname line) with
             | (t, Returned _) => (t0 ++ t, Returned PIO_EIO)
             | (t, Terminated h) => (t0 ++ t, Terminated h)
             end
         end.
Proof.
  intros Hm. unfold check_mpi. rewrite (nonzero_of _ Hm). run_call.
  destruct (w n (MPI_Error_string mpierr)) as [rc s] eqn:Ew.
  rewrite run_from_bind.
  destruct (nonzero rc).
  - cbn [run_from mret prog_ret length]. exists [Entry (MPI_Error_string mpierr) (rc, s)].
    split; [constructor; [by left | constructor]|].
    rewrite run_from_bind. destruct file as [f|].
    + rewrite run_from_bind. rewrite Nat.add_0_r. cbn [length].
      destruct (run_from w (n + 1) (check_netcdf _ _ _ _ _)) as [t [r|h]]; cbn; [|done].
      by rewrite !app_nil_r.
    + done.
  - cbn [run_from call length].
    eexists [Entry (MPI_Error_string mpierr) (rc, s); Entry (fputs stderr _) _].
    split; [constructor; [by left | constructor; [right; by eexists | constructor]]|].
    rewrite run_from_bind. destruct file as [f|].
    + rewrite run_from_bind. cbn [length].
      replace (n + 1 + 1)%nat with (n + 2)%nat by lia.
      destruct (run_from w (n + 2) (check_netcdf _ _ _ _ _)) as [t [r|h]]; cbn; [|done].
      by rewrite !app_nil_r.
    + done.
Qed.

(** X3.  [check_mpi] returns [PIO_NOERR] without a call for a zero code.
    For a non-zero code it never returns anything but [PIO_EIO]: without a
    file it returns it after at most the query of the error text and one
    line on the standard error stream; with a file whose backend type is
    compiled in, it does not return under [PIO_INTERNAL_ERROR], and under
    [PIO_BCAST_ERROR] its last call is the broadcast of [PIO_EIO] from the
    I/O root, whose answer is dropped; with a file and any handler but the
    aborting one, or a backend type that is not compiled in, it
    returns. *)
Theorem check_mpi_classifies_transport_failures b file mpierr fname line (w : world) n :
  (mpierr = 0 ->
   run_from w n (check_mpi b file mpierr fname line) = ([], Returned PIO_NOERR))
  /\ (mpierr <> 0 ->
      (forall t r, run_from w n (check_mpi b file mpierr fname line) = (t, Returned r) ->
                   r = PIO_EIO)
      /\ (file = None ->
          exists t, run_from w n (check_mpi b file mpierr fname line) = (t, Returned PIO_EIO)
                    /\ Forall (fun x => entry_event x = MPI_Error_string mpierr
                                        \/ exists s, entry_event x = fputs stderr s) t)
      /\ (forall f, file = Some f ->
            in_build b (iotype f) = true ->
            error_handler (iosystem f) = PIO_INTERNAL_ERROR ->
            exists t how,
              run_from w n (check_mpi b file mpierr fname line) = (t, Terminated how))
      /\ (forall f, file = Some f ->
            in_build b (iotype f) = true ->
            error_handler (iosystem f) = PIO_BCAST_ERROR ->
            exists pre a,
              run_from w n (check_mpi b file mpierr fname line)
              = (pre ++ [Entry (MPI_Bcast_int PIO_EIO (ioroot (iosystem f))
                                  (my_comm (iosystem f))) a],
                 Returned PIO_EIO))
      /\ (forall f, file = Some f ->
            in_build b (iotype f) = false
            \/ error_handler (iosystem f) <> PIO_INTERNAL_ERROR ->
            exists t, run_from w n (check_mpi b file mpierr fname line)
                      = (t, Returned PIO_EIO))).
Proof.
  split; [by intros ->|].
  intros Hm. destruct (check_mpi_run b file mpierr fname line w n Hm) as (t0 & Hd & ->).
  split_and!.
  - intros t r. destruct file as [f|]; [|by intros [= _ <-]].
    destruct (run_from w _ (check_netcdf _ _ _ _ _)) as [t1 [a|h]]; [|done].
    by intros [= _ <-].
  - intros ->. by eexists.
  - intros f -> Hin Hh.
    destruct (check_netcdf_aborts b f PIO_EIO fname line w (n + length t0)%nat)
      as (t & how & -> & _); [done..|].
    by eexists _, _.
  - intros f -> Hin Hh. rewrite check_netcdf_broadcasts by done. by eexists _, _.
  - intros f -> Hcase.
    destruct (decide (in_build b (iotype f) = true)) as [Hin | Hin].
    + destruct Hcase as [Hno | Hh]; [congruence|].
      destruct (check_netcdf_returns b f PIO_EIO fname line w (n + length t0) Hh)
        as (t & r & ->).
      by eexists.
    + apply not_true_is_false in Hin. rewrite check_netcdf_absent by done. by eexists.
Qed.

(** No error, a failure without a file, and a failure with a file under the
    aborting handler. *)
Lemma check_mpi_classifies_transport_failures_witness :
  run_from (fun _ => answer_default) 0 (check_mpi b_example None 0 None 295)
  = ([], Returned PIO_NOERR)
  /\ (exists t, run_from (fun _ => answer_default) 0 (check_mpi b_example None 5 None 295)
                = (t, Returned PIO_EIO))
  /\ (exists t how,
        run_from (fun _ => answer_default) 0
          (check_mpi b_example (Some file_example) 5 None 295)
        = (t, Terminated how)).
Proof.
  pose proof (check_mpi_classifies_transport_failures b_example None 0 None 295
                (fun _ => answer_default) 0) as [H0 _].
  pose proof (check_mpi_classifies_transport_failures b_example None 5 None 295
                (fun _ => answer_default) 0) as [_ H5].
  pose proof (check_mpi_classifies_transport_failures b_example (Some file_example) 5 None 295
                (fun _ => answer_default) 0) as [_ Hf].
  split; [apply H0; reflexivity|]. split.
  - destruct H5 as (_ & Hnone & _); [discriminate|].
    destruct (Hnone eq_refl) as (t & E & _). exists t. exact E.
  - destruct Hf as (_ & _ & Hint & _); [discriminate|].
    apply (Hint file_example); reflexivity.
Defined.

(** X4.  On an I/O task in direct mode, an open for a backend type in the
    valid range that is not compiled into the build makes no open call: the
    type is reported by the native stage (line 847), the status
    [PIO_EBADIOTYPE] is broadcast, and [check_netcdf] reports the type once
    more (line 370) and hands the status back.  The call returns
    [PIO_EBADIOTYPE] whatever the error handler and whatever [retry] is; no
    identifier is minted and the process-wide variables are as before. *)
Theorem backend_absent_from_build b g iosysid iot fname mode retry (w : world) ios :
  PIO_IOTYPE_PNETCDF <= iot <= PIO_IOTYPE_NETCDF4P ->
  pio_get_iosystem_from_id (pio_iosystem_list g) iosysid = Some ios ->
  async_interface ios = false ->
  ioproc ios = true ->
  in_build b iot = false ->
  w 0%nat (malloc 1 T_file_desc_t) = true ->
  w 2%nat (MPI_Bcast_int PIO_EBADIOTYPE (ioroot ios) (my_comm ios))
  = (MPI_SUCCESS, PIO_EBADIOTYPE) ->
  run w (PIOc_openfile_retry b g iosysid true (Some iot) (Some fname) mode retry)
  = ([Entry (malloc 1 T_file_desc_t) true;
      Entry (fputs stderr (iotype_message iot 847)) tt;
      Entry (MPI_Bcast_int PIO_EBADIOTYPE (ioroot ios) (my_comm ios))
        (MPI_SUCCESS, PIO_EBADIOTYPE);
      Entry (fputs stderr (iotype_message iot 370)) tt],
     Returned (OpenResult PIO_EBADIOTYPE None (Some (new_file ios iot mode)) g)).
Proof.
  intros Hrange Hios Hasync Hio Hin Hmalloc Hbcast.
  unfold PIOc_openfile_retry, run.
  replace ((iot <? PIO_IOTYPE_PNETCDF) || (PIO_IOTYPE_NETCDF4P <? iot)) with false.
  2:{ symmetry. apply orb_false_iff. split; apply Z.ltb_ge; lia. }
  rewrite Hios. run_call. rewrite Hmalloc. cbn [negb].
  unfold openfile_dispatch. rewrite Hasync. rewrite run_from_bind.
  cbn [run_from mret prog_ret length app]. rewrite Hio.
  rewrite !run_from_bind.
  assert (run_from w (0 + 1 + 0)
            (openfile_native b g ios (new_file ios iot mode) fname)
          = ([Entry (fputs stderr (iotype_message iot 847)) tt],
             Returned (PIO_EBADIOTYPE, new_file ios iot mode))) as ->.
  { unfold in_build in Hin. apply orb_false_iff in Hin as [H1 H2].
    unfold openfile_native. cbn [iotype new_file].
    destruct (has_NETCDF b); cbn [andb] in *.
    - apply orb_false_iff in H1 as [H1 H3]. rewrite H1.
      destruct (has_NETCDF4 b); cbn [andb] in *.
      + apply orb_false_iff in H3 as [-> ->]. rewrite H2.
        unfold iotype_error, iotype_message. rewrite run_from_bind. run_call.
        cbn. by destruct (w _ (fputs stderr _)).
      + rewrite H2. unfold iotype_error, iotype_message. rewrite run_from_bind. run_call.
        cbn. by destruct (w _ (fputs stderr _)).
    - rewrite H2. unfold iotype_error, iotype_message. rewrite run_from_bind. run_call.
      cbn. by destruct (w _ (fputs stderr _)). }
  cbn [length]. rewrite openfile_retry_not_fired by done.
  cbn [length app]. unfold openfile_publish. run_call.
  cbn [Nat.add]. rewrite Hbcast. cbn [nonzero MPI_SUCCESS Z.eqb negb].
  change (nonzero PIO_EBADIOTYPE) with true. cbn iota.
  rewrite run_from_bind. rewrite check_netcdf_absent by done. done.
Qed.

(** Serial netCDF asked from a build without backends. *)
Lemma backend_absent_from_build_witness :
  run (fun _ => answer_default)
    (PIOc_openfile_retry b_bare g_example 1 true (Some PIO_IOTYPE_NETCDF)
       (Some "f.nc"%string) 0 1)
  = ([Entry (malloc 1 T_file_desc_t) true;
      Entry (fputs stderr (iotype_message PIO_IOTYPE_NETCDF 847)) tt;
      Entry (MPI_Bcast_int PIO_EBADIOTYPE 0 13) (MPI_SUCCESS, PIO_EBADIOTYPE);
      Entry (fputs stderr (iotype_message PIO_IOTYPE_NETCDF 370)) tt],
     Returned (OpenResult PIO_EBADIOTYPE None
                 (Some (new_file ios_example PIO_IOTYPE_NETCDF 0)) g_example)).
Proof.
  apply (backend_absent_from_build b_bare g_example 1 PIO_IOTYPE_NETCDF "f.nc"%string 0 1
           (fun _ => answer_default) ios_example); try reflexivity.
  unfold PIO_IOTYPE_PNETCDF, PIO_IOTYPE_NETCDF, PIO_IOTYPE_NETCDF4P. lia.
Defined.

(** X5.  When the representative retries a failed open as serial netCDF,
    the mode word of the second open is the one the first open used: the
    flags that the native stage has or-ed in are not cleared.  For
    [PIO_IOTYPE_NETCDF4C] the second call repeats the first one, with
    [NC_NETCDF4] set; for [PIO_IOTYPE_NETCDF4P] the serial open is made
    with [NC_MPIIO] set (with the mode as passed in an MPI-serial build);
    for [PIO_IOTYPE_PNETCDF] it is made with the mode as passed. *)
Theorem retried_open_keeps_the_mode_flags
    b g iosysid iot fname flags retry (w : world) tr out e1 more ios :
  run w (PIOc_openfile_retry b g iosysid true (Some iot) (Some fname) flags retry)
  = (tr, out) ->
  pio_get_iosystem_from_id (pio_iosystem_list g) iosysid = Some ios ->
  io_rank ios = 0 ->
  has_NETCDF b = true ->
  retry <> 0 ->
  open_statuses tr = e1 :: more ->
  e1 = NC_ENOTNC \/ e1 = NC_EINVAL ->
  (iot = PIO_IOTYPE_NETCDF4C ->
   open_calls tr = [nc_open fname (Z.lor flags NC_NETCDF4);
                    nc_open fname (Z.lor flags NC_NETCDF4)])
  /\ (iot = PIO_IOTYPE_NETCDF4P -> has_MPISERIAL b = false ->
      open_calls tr = [nc_open_par fname (Z.lor flags NC_MPIIO) (io_comm ios) (info ios);
                       nc_open fname (Z.lor flags NC_MPIIO)])
  /\ (iot = PIO_IOTYPE_NETCDF4P -> has_MPISERIAL b = true ->
      open_calls tr = [nc_open fname flags; nc_open fname flags])
  /\ (iot = PIO_IOTYPE_PNETCDF ->
      open_calls tr = [ncmpi_open (io_comm ios) fname flags (info ios); nc_open fname flags]).
Proof.
  intros Hrun Hios Hrank Hb Hretry Hst He1.
  destruct (openfile_stages _ _ _ _ _ _ _ _ _ _ _ _ Hrun Hst)
    as (ios' & t1 & t2 & t3 & t4 & ierr & file & ierr2 & file2
        & Hios' & Hio & -> & Hs1 & Hc1 & E2 & E3 & E4 & Hs4 & Hc4).
  rewrite Hios in Hios'. injection Hios' as <-.
  rewrite open_statuses_malloc, !open_statuses_app, Hs1, Hs4, app_nil_r in Hst.
  rewrite open_calls_malloc, !open_calls_app, Hc1, Hc4, app_nil_r. cbn [app] in Hst |- *.
  assert (e1 <> PIO_NOERR /\ e1 <> PIO_EBADIOTYPE) as [He0 Heb].
  { destruct He1 as [-> | ->]; done. }
  assert (forall ev md,
            open_calls t2 = [ev] -> mode file = md -> iotype file = iot ->
            open_statuses t2 = [ierr] ->
            iot <> PIO_IOTYPE_NETCDF ->
            open_calls t2 ++ open_calls t3 = [ev; nc_open fname md]) as Hgen.
  { intros ev md Hc2 Hmd Hty Hs2 Hne.
    rewrite Hs2 in Hst. injection Hst as <- _.
    destruct (openfile_retry_fires b ios retry ierr file fname w (1 + length t1 + length t2))
      as (t3' & ierr2' & file2' & E3' & _ & _ & Hr); try done.
    { by rewrite Hty. }
    rewrite E3 in E3'. injection E3' as <- <- <-.
    rewrite bool_decide_eq_true_2 in Hr by done. destruct Hr as [_ ->].
    by rewrite Hc2, Hmd. }
  unfold openfile_native in E2. cbn [iotype new_file] in E2. rewrite Hb, Hrank in E2.
  cbn [andb] in E2.
  split_and!.
  - intros ->.
    rewrite (bool_decide_eq_false_2 (PIO_IOTYPE_NETCDF4C = PIO_IOTYPE_NETCDF4P)) in E2 by done.
    rewrite andb_false_r in E2.
    rewrite (bool_decide_eq_true_2 (PIO_IOTYPE_NETCDF4C = PIO_IOTYPE_NETCDF4C)) in E2 by done.
    rewrite (bool_decide_eq_false_2 (PIO_IOTYPE_NETCDF4C = PIO_IOTYPE_NETCDF)) in E2 by done.
    rewrite (bool_decide_eq_false_2 (PIO_IOTYPE_NETCDF4C = PIO_IOTYPE_PNETCDF)) in E2 by done.
    rewrite andb_false_r, andb_true_r in E2.
    destruct (has_NETCDF4 b).
    + rewrite bool_decide_eq_true_2 in E2 by done.
      revert E2. run_call. destruct (w _ (nc_open _ _)) as [rc h]. cbn.
      intros [= <- <- <-]. by apply Hgen.
    + unfold iotype_error in E2. revert E2. rewrite run_from_bind. run_call. cbn.
      intros [= <- <- <-]. rewrite openfile_retry_not_fired in E3 by done.
      injection E3 as <- <- <-. done.
  - intros -> Hserial. rewrite Hserial in E2.
    rewrite (bool_decide_eq_true_2 (PIO_IOTYPE_NETCDF4P = PIO_IOTYPE_NETCDF4P)) in E2 by done.
    rewrite (bool_decide_eq_false_2 (PIO_IOTYPE_NETCDF4P = PIO_IOTYPE_NETCDF4C)) in E2 by done.
    rewrite (bool_decide_eq_false_2 (PIO_IOTYPE_NETCDF4P = PIO_IOTYPE_NETCDF)) in E2 by done.
    rewrite (bool_decide_eq_false_2 (PIO_IOTYPE_NETCDF4P = PIO_IOTYPE_PNETCDF)) in E2 by done.
    rewrite !andb_false_r, andb_true_r in E2.
    destruct (has_NETCDF4 b).
    + revert E2. run_call. destruct (w _ (nc_open_par _ _ _ _)) as [rc h]. cbn.
      intros [= <- <- <-]. by apply Hgen.
    + unfold iotype_error in E2. revert E2. rewrite run_from_bind. run_call. cbn.
      intros [= <- <- <-]. rewrite openfile_retry_not_fired in E3 by done.
      injection E3 as <- <- <-. done.
  - intros -> Hserial. rewrite Hserial in E2.
    rewrite (bool_decide_eq_true_2 (PIO_IOTYPE_NETCDF4P = PIO_IOTYPE_NETCDF4P)) in E2 by done.
    rewrite (bool_decide_eq_false_2 (PIO_IOTYPE_NETCDF4P = PIO_IOTYPE_NETCDF4C)) in E2 by done.
    rewrite (bool_decide_eq_false_2 (PIO_IOTYPE_NETCDF4P = PIO_IOTYPE_NETCDF)) in E2 by done.
    rewrite (bool_decide_eq_false_2 (PIO_IOTYPE_NETCDF4P = PIO_IOTYPE_PNETCDF)) in E2 by done.
    rewrite !andb_false_r, andb_true_r in E2.
    destruct (has_NETCDF4 b).
    + revert E2. run_call. destruct (w _ (nc_open _ _)) as [rc h]. cbn.
      intros [= <- <- <-]. by apply Hgen.
    + unfold iotype_error in E2. revert E2. rewrite run_from_bind. run_call. cbn.
      intros [= <- <- <-]. rewrite openfile_retry_not_fired in E3 by done.
      injection E3 as <- <- <-. done.
  - intros ->.
    rewrite (bool_decide_eq_false_2 (PIO_IOTYPE_PNETCDF = PIO_IOTYPE_NETCDF4P)) in E2 by done.
    rewrite (bool_decide_eq_false_2 (PIO_IOTYPE_PNETCDF = PIO_IOTYPE_NETCDF4C)) in E2 by done.
    rewrite (bool_decide_eq_false_2 (PIO_IOTYPE_PNETCDF = PIO_IOTYPE_NETCDF)) in E2 by done.
    rewrite (bool_decide_eq_true_2 (PIO_IOTYPE_PNETCDF = PIO_IOTYPE_PNETCDF)) in E2 by done.
    rewrite !andb_false_r, andb_true_r in E2. cbn iota in E2.
    destruct (has_PNETCDF b).
    + revert E2. run_call. destruct (w _ (ncmpi_open _ _ _ _)) as [rc h] eqn:Ew.
      cbn [set_fh fh mode new_file].
      destruct (bool_decide (rc = PIO_NOERR)) eqn:Erc; cbn [andb].
      * apply bool_decide_eq_true in Erc. subst rc.
        destruct (nonzero (Z.land flags PIO_WRITE)).
        -- run_call. cbn. intros [= <- <- <-]. exfalso.
           cbn in Hst. by injection Hst as <-.
        -- cbn. intros [= <- <- <-]. exfalso.
           cbn in Hst. by injection Hst as <-.
      * cbn. intros [= <- <- <-]. by apply Hgen.
    + unfold iotype_error in E2. revert E2. rewrite run_from_bind. run_call. cbn.
      intros [= <- <- <-]. rewrite openfile_retry_not_fired in E3 by done.
      injection E3 as <- <- <-. done.
Qed.

(** The representative of the example group, asked for parallel
    netCDF-4. *)
Lemma retried_open_keeps_the_mode_flags_witness :
  open_calls retry_example.1
  = [nc_open_par "f.nc" (Z.lor 0 NC_MPIIO) 11 99; nc_open "f.nc" (Z.lor 0 NC_MPIIO)].
Proof.
  refine (proj1 (proj2 (retried_open_keeps_the_mode_flags b_example
                          (Globals 16 [] [ios_of_task 0] 1000) 1 PIO_IOTYPE_NETCDF4P
                          "f.nc"%string 0 1 not_this_format retry_example.1 retry_example.2
                          NC_ENOTNC [NC_NOERR] (ios_of_task 0) _ _ _ _ _ _ _)) _ _).
  - apply surjective_pairing.
  - reflexivity.
  - reflexivity.
  - reflexivity.
  - discriminate.
  - reflexivity.
  - left. reflexivity.
  - reflexivity.
  - reflexivity.
Defined.

(** ** Region lists that are not sound *)

Lemma brel_done m p m' :
  brel m p = Done m' ->
  p ∈ live m
  /\ regions m' = delete p (regions m)
  /\ dtype_arrays m' = delete p (dtype_arrays m)
  /\ live m' = live m ∖ {[p]}
  /\ released m' = released m ++ [Brel p].
Proof.
  unfold brel. case_bool_decide; [|done]. by intros [= <-].
Qed.

Lemma brel_if_set_done m p m' :
  brel_if_set m p = Done m' ->
  (p = NULL /\ m' = m)
  \/ (p <> NULL /\ brel m p = Done m').
Proof. unfold brel_if_set. case_bool_decide; [intros [= <-]; by left | by right]. Qed.

(** What a release leaves of the region table. *)
Lemma brel_if_set_keeps m p m' :
  brel_if_set m p = Done m' ->
  live m' ⊆ live m
  /\ (size (regions m') <= size (regions m))%nat
  /\ forall q r, q ∈ live m' -> regions m !! q = Some r -> regions m' !! q = Some r.
Proof.
  intros H. apply brel_if_set_done in H as [[_ ->] | [_ H]]; [done|].
  apply brel_done in H as (Hp & Hr & _ & Hl & _). rewrite Hr, Hl. split_and!.
  - set_solver.
  - rewrite map_size_delete. destruct (regions m !! p); cbn; lia.
  - intros q r Hq Hqr. rewrite lookup_delete_ne; [done|]. set_solver.
Qed.

Lemma free_region_list_ends fuel : forall m ptr,
  (size (regions m) < fuel)%nat ->
  (exists m', free_region_list fuel m ptr = Done m')
  \/ (exists what, free_region_list fuel m ptr = Fault what).
Proof.
  induction fuel as [|fuel IH]; intros m ptr Hfuel; [lia|].
  cbn [free_region_list]. case_bool_decide; [by left; eexists|].
  destruct (regions m !! ptr) as [r|] eqn:Hr; [|by right; eexists].
  destruct (brel_if_set m (start r)) as [m1|what|] eqn:E1; cbn;
    [|by right; eexists | by unfold brel_if_set, brel in E1; repeat case_bool_decide].
  destruct (brel_if_set m1 (count r)) as [m2|what|] eqn:E2; cbn;
    [|by right; eexists | by unfold brel_if_set, brel in E2; repeat case_bool_decide].
  destruct (brel m2 ptr) as [m3|what|] eqn:E3; cbn;
    [|by right; eexists | by unfold brel in E3; repeat case_bool_decide].
  apply IH.
  apply brel_if_set_keeps in E1 as (Hl1 & Hs1 & Hk1).
  apply brel_if_set_keeps in E2 as (Hl2 & Hs2 & Hk2).
  apply brel_done in E3 as (Hp & Hr3 & _).
  rewrite Hr3. rewrite map_size_delete_Some.
  - assert (0 < size (regions m2))%nat; [|lia].
    assert (regions m2 !! ptr = Some r) as Hin by (apply Hk2, Hk1; set_solver).
    destruct (decide (size (regions m2) = 0%nat)) as [Hz|]; [|lia].
    apply map_size_empty_inv in Hz. by rewrite Hz in Hin.
  - exists r. apply Hk2; [done|]. apply Hk1; [set_solver | done].
Qed.

Lemma brel_released m p m' : brel m p = Done m' -> p ∈ live m /\ m' = after_release m [p].
Proof.
  intros H. pose proof H as H'. apply brel_done in H' as (Hp & _).
  rewrite brel_live in H by done. by injection H as <-.
Qed.

Lemma brel_if_set_released m p m' :
  brel_if_set m p = Done m' ->
  Forall (fun q => q ∈ live m) (opt p) /\ m' = after_release m (opt p).
Proof.
  unfold brel_if_set, opt. case_bool_decide.
  - intros [= <-]. by rewrite after_release_nil.
  - intros E. apply brel_released in E as [Hp ->]. split; [by repeat constructor | done].
Qed.

Lemma region_list_weaken rs rs' ptr nodes :
  (forall q r, rs' !! q = Some r -> rs !! q = Some r) ->
  region_list rs' ptr nodes -> region_list rs ptr nodes.
Proof.
  intros Hsub. revert ptr. induction nodes as [|[p r] rest IH]; intros ptr; [done|].
  cbn. intros (-> & Hp & Hr & Hl). split_and!; [done | done | by apply Hsub | by apply IH].
Qed.

Lemma regions_after_release_sub m ps q r :
  regions (after_release m ps) !! q = Some r -> regions m !! q = Some r.
Proof.
  destruct (decide (q ∈ ps)) as [Hin | Hnin].
  - unfold after_release. cbn. by rewrite foldl_delete_lookup_in.
  - by rewrite regions_after_release.
Qed.

Lemma free_region_list_done_inv fuel : forall m top m',
  free_region_list fuel m top = Done m' ->
  exists nodes,
    region_list (regions m) top nodes
    /\ NoDup (list_blocks nodes)
    /\ Forall (fun p => p ∈ live m) (list_blocks nodes)
    /\ m' = after_release m (list_blocks nodes).
Proof.
  induction fuel as [|fuel IH]; intros m top m'; [done|].
  cbn [free_region_list]. case_bool_decide as Hnull.
  { intros [= <-]. exists []. split_and!; [done | constructor | constructor |].
    by rewrite after_release_nil. }
  destruct (regions m !! top) as [r|] eqn:Hr; [|done].
  unfold mbind, result_mbind.
  destruct (brel_if_set m (start r)) as [m1| |] eqn:E1; cbn [result_bind]; [|done..].
  destruct (brel_if_set m1 (count r)) as [m2| |] eqn:E2; cbn [result_bind]; [|done..].
  destruct (brel m2 top) as [m3| |] eqn:E3; cbn [result_bind]; [|done..].
  intros Hrec. apply IH in Hrec as (rest & Hl & Hnd & Hlive & ->).
  apply brel_if_set_released in E1 as [L1 ->].
  apply brel_if_set_released in E2 as [L2 ->].
  apply brel_released in E3 as [L3 ->].
  rewrite !after_release_app in *.
  exists ((top, r) :: rest).
  unfold list_blocks in *. cbn [fmap list_fmap concat].
  assert (NoDup (node_blocks (top, r))) as Hnode.
  { unfold node_blocks, opt in *. cbn [fst snd] in *.
    repeat case_bool_decide; cbn [app] in *;
      repeat match goal with
      | H : Forall _ (_ :: _) |- _ =>
          let H1 := fresh "Hhd" in let H2 := fresh "Htl" in
          apply Forall_cons in H as [H1 H2]
      end;
      repeat (apply NoDup_cons; split); try apply NoDup_nil_2; cbn in *; set_solver. }
  split_and!.
  - cbn. split_and!; [done | done | done |].
    eapply region_list_weaken; [|exact Hl]. intros q r'. apply regions_after_release_sub.
  - apply NoDup_app. split_and!; [done | | done].
    intros q Hq Hq'. rewrite Forall_forall in Hlive. specialize (Hlive q Hq').
    cbn in Hlive. set_solver.
  - apply Forall_app. split.
    + unfold node_blocks, opt in *. cbn [fst snd] in *.
      repeat case_bool_decide; cbn [app] in *;
        repeat match goal with
        | H : Forall _ (_ :: _) |- _ =>
          let H1 := fresh "Hhd" in let H2 := fresh "Htl" in
          apply Forall_cons in H as [H1 H2]
        end; repeat constructor; cbn in *; set_solver.
    + eapply Forall_impl; [exact Hlive|]. intros q Hq. cbn in Hq. set_solver.
  - unfold node_blocks, opt. cbn [fst snd]. by rewrite <- !app_assoc.
Qed.

(** X6.  [free_region_list] cannot go round for ever: with more loop tests
    than the region table has entries it finishes or goes wrong, whatever
    the links are.  And it finishes only on a sound list: if it finishes,
    the chain from [top] is acyclic and ends in a null link, its blocks are
    distinct and were all handed out, and exactly these blocks have been
    released, in list order. *)
Theorem free_region_list_ends_and_finishes_only_on_sound_lists m top fuel :
  ((size (regions m) < fuel)%nat ->
   (exists m', free_region_list fuel m top = Done m')
   \/ (exists what, free_region_list fuel m top = Fault what))
  /\ (forall m',
        free_region_list fuel m top = Done m' ->
        exists nodes,
          region_list (regions m) top nodes
          /\ NoDup (list_blocks nodes)
          /\ Forall (fun p => p ∈ live m) (list_blocks nodes)
          /\ released m' = released m ++ (Brel <$> list_blocks nodes)
          /\ live m' = live m ∖ list_to_set (list_blocks nodes)).
Proof.
  split; [apply free_region_list_ends|].
  intros m' H. apply free_region_list_done_inv in H as (nodes & Hl & Hnd & Hlive & ->).
  by exists nodes.
Qed.

(** A node linked to itself, and the list of two nodes of the example. *)
Lemma free_region_list_ends_and_finishes_only_on_sound_lists_witness :
  ((exists m', free_region_list 2 memory_loop 100 = Done m')
   \/ (exists what, free_region_list 2 memory_loop 100 = Fault what))
  /\ exists nodes,
       region_list (regions memory_example) 100 nodes
       /\ NoDup (list_blocks nodes)
       /\ released (after_release memory_example (list_blocks two_regions))
          = Brel <$> list_blocks nodes.
Proof.
  split.
  - apply (proj1 (free_region_list_ends_and_finishes_only_on_sound_lists memory_loop 100 2)).
    vm_compute. lia.
  - destruct (proj2 (free_region_list_ends_and_finishes_only_on_sound_lists
                       memory_example 100 3)
                (after_release memory_example (list_blocks two_regions)))
      as (nodes & Hl & Hnd & _ & Hrel & _).
    + vm_compute. reflexivity.
    + exists nodes. split; [exact Hl|]. split; [exact Hnd | exact Hrel].
Defined.

(** ** Failures of the representative *)

Lemma fire_first_none {A : Type} (ps : list (proc A)) cands :
  (forall j, j ∈ cands -> fire_at ps j = None) -> fire_first ps cands = None.
Proof.
  induction cands as [|i rest IH]; intros H; [done|].
  cbn. rewrite H by set_solver. apply IH. intros j Hj. apply H. set_solver.
Qed.

(** Every process waits for a message, or has returned while another one
    waits: nothing can move. *)
Lemma group_stuck {A : Type} (lw : nat -> world) N (res : nat -> A) P trs ps fs fuel j0 :
  (0 < N)%nat -> group_at lw N res P trs ps fs ->
  (forall j, (j < N)%nat -> silent (trs j)) ->
  (j0 < N)%nat -> trs j0 <> [] ->
  group_run (S fuel) lw ps fs = G_stuck.
Proof.
  intros HN Hat Hsil Hj0 Htr. pose proof Hat as [Hlen _].
  destruct (group_settle lw N res P trs ps fs HN Hat) as (ps' & fs' & Hs & Hset).
  pose proof Hset as [Hlen' Hps'].
  cbn [group_run]. rewrite Hlen, Hs.
  rewrite first_abort_none by (by eapply settled_no_abort).
  destruct (lookup_lt_is_Some_2 ps' j0) as [p Hp]; [lia|].
  rewrite (mapM_returned_none ps' p j0 Hp).
  2:{ specialize (Hps' j0 p Hp). destruct (trs j0) as [|[e r] tr']; [done|].
      destruct Hps' as (k & Hk & _). unfold returned. by rewrite Hk. }
  rewrite fire_first_none; [done|].
  intros j Hj. apply elem_of_seq in Hj.
  eapply fire_at_silent; [exact Hset|]. apply Hsil. lia.
Qed.

Section WriterFailures.
Context (b : build_config) (lw : nat -> world) (file : string) (comm : Z)
  (gdims : list Z) (maps : list (list Z)) (fs0 : fsys).
Hypothesis not_empty : maps <> [].

Lemma writers_length : length (writers b file gdims maps comm) = length maps.
Proof. unfold writers, start_group. by rewrite length_map, length_fmap. Qed.

Lemma writers_out_of_memory fuel :
  lw 0%nat 2%nat (malloc (len maps) T_PIO_Offset) = false ->
  group_run (S fuel) lw (writers b file gdims maps comm) fs0 = G_aborted 0 (die b).
Proof.
  intros Hm. cbn [group_run]. rewrite writers_length.
  destruct maps as [|m0 ms]; [done|].
  unfold writers, start_group. cbn [fmap list_fmap map settle_list calls code].
  assert (exists n', settle (lw 0%nat) (length (m0 :: ms)) 0 0 fs0
                       (PIOc_writemap b file (len gdims) gdims (len m0) m0 comm)
                     = (Proc n' (Abort (die b)), fs0)) as (n' & ->).
  { unfold PIOc_writemap.
    cbn [settle call mbind prog_bind bind local_answer].
    change (Z.of_nat 0 =? 0) with true.
    cbn [settle call mbind prog_bind bind local_answer].
    unfold len in Hm. rewrite Hm. cbn [negb]. apply settle_piodie. }
  by destruct (settle_list _ _ _ _ _).
Qed.

Hypothesis malloc_ok : forall n a t, lw 0%nat n (malloc a t) = true.
Hypothesis fopen_fails : forall n, lw 0%nat n (fopen_w file) = false.

Lemma writer_root_gives_up (m0 : list Z) (ms : list (list Z)) :
  follows (lw 0%nat) (length (m0 :: ms)) 0 (stranded_trace comm (m0 :: ms) 0) PIO_EIO
    (eq fs0) (PIOc_writemap b file (len gdims) gdims (len m0) m0 comm) fs0.
Proof.
  unfold PIOc_writemap, stranded_trace.
  eapply follows_call; [done|]. eapply follows_call; [done|].
  change (Z.of_nat 0 =? 0) with true. cbn iota.
  eapply follows_call; [intros n; cbn [local_answer]; by rewrite malloc_ok|]. cbn [negb].
  apply follows_wait; [done|]. cbn iota beta.
  eapply follows_call; [intros n; cbn [local_answer]; by rewrite fopen_fails|]. cbn [negb].
  eapply follows_call; [done|]. by apply follows_ret.
Qed.

Lemma stranded_start :
  group_at lw (length maps) open_failed (eq fs0) (stranded_trace comm maps)
    (writers b file gdims maps comm) fs0.
Proof.
  split; [apply writers_length|].
  intros j p Hj. unfold writers, start_group in Hj.
  change (map (Proc 0)) with (fmap (M := list) (@Proc Z 0)) in Hj.
  rewrite !list_lookup_fmap in Hj. destruct (maps !! j) as [m|] eqn:Hm; [|done].
  cbn in Hj. injection Hj as <-. cbn [code].
  destruct j as [|j]; cbn [on_trace stranded_trace open_failed].
  - destruct maps as [|m0 ms]; [done|]. injection Hm as ->. cbn [nth].
    apply writer_root_gives_up.
  - erewrite nth_lookup_Some by done. apply writer_peer_talks.
Qed.

Lemma stranded_gather ps' fs' :
  group_settled lw (length maps) open_failed (eq fs0) (stranded_trace comm maps) ps' fs' ->
  exists ps2, fire_first ps' (seq 0 (length maps)) = Some ps2
              /\ group_at lw (length maps) open_failed (eq fs0)
                   (fun j => drop 1 (stranded_trace comm maps j)) ps2 fs'.
Proof.
  intros Hset.
  assert (0 < length maps)%nat as HN by (destruct maps; [done | cbn; lia]).
  apply (fire_gather lw (length maps) open_failed (eq fs0) (stranded_trace comm maps) _ ps' fs'
           (fun j => Entry (MPI_Gather_offset (len (nth j maps [])) 0 comm)
                       (MPI_SUCCESS, if bool_decide (Z.of_nat j = 0) then len <$> maps else []))
           (fun j => len (nth j maps [])) (len (nth 0 maps [])) comm); [done | done | | |].
  - by intros [|j] Hj.
  - done.
  - intros j n k Hj. cbn [projT1 projT2 Entry]. split.
    + unfold gather_value. cbn. by rewrite !bool_decide_eq_true_2.
    + unfold gather_deliver. cbn [code calls]. by rewrite lens_seq.
Qed.

Lemma writers_cannot_open fuel :
  (length maps = 1%nat ->
   group_run (S (S fuel)) lw (writers b file gdims maps comm) fs0 = G_done [PIO_EIO] fs0)
  /\ ((2 <= length maps)%nat ->
      group_run (S (S fuel)) lw (writers b file gdims maps comm) fs0 = G_stuck).
Proof.
  assert (0 < length maps)%nat as HN by (destruct maps; [done | cbn; lia]).
  destruct (group_step lw (length maps) open_failed (eq fs0) (stranded_trace comm maps)
              (fun j => drop 1 (stranded_trace comm maps j))
              (writers b file gdims maps comm) fs0 (S fuel) 0)
    as (ps2 & fs2 & -> & Hat2);
    [done | apply stranded_start | done | done | apply stranded_gather |].
  split.
  - intros H1.
    destruct (group_finish lw (length maps) open_failed (eq fs0) _ ps2 fs2 fuel HN Hat2)
      as (fs' & -> & <-).
    + intros [|j] Hj; [done | lia].
    + by rewrite H1.
  - intros H2.
    eapply (group_stuck lw (length maps) open_failed (eq fs0) _ ps2 fs2 fuel 1); try done.
    intros [|j] Hj; done.
Qed.

End WriterFailures.

(** X7.  The failures of the representative of the writers.  When it cannot
    allocate the array of map lengths, the run is terminated by rank 0
    before any communication.  When it cannot open the file, it returns
    [PIO_EIO] after the gather without telling the others: alone, it leaves
    the file system as it was; in a group of two or more, the other writers
    wait for a token that is never sent, and the run cannot go on. *)
Theorem writemap_failures_of_the_representative
    b (lw : nat -> world) file comm gdims (maps : list (list Z)) fs0 fuel :
  maps <> [] ->
  (lw 0%nat 2%nat (malloc (len maps) T_PIO_Offset) = false ->
   group_run (S fuel) lw (writers b file gdims maps comm) fs0 = G_aborted 0 (die b))
  /\ ((forall n a t, lw 0%nat n (malloc a t) = true) ->
      (forall n, lw 0%nat n (fopen_w file) = false) ->
      (length maps = 1%nat ->
       group_run (S (S fuel)) lw (writers b file gdims maps comm) fs0
       = G_done [PIO_EIO] fs0)
      /\ ((2 <= length maps)%nat ->
          group_run (S (S fuel)) lw (writers b file gdims maps comm) fs0 = G_stuck)).
Proof.
  intros Hne. split.
  - by apply writers_out_of_memory.
  - intros Hm Hf. by apply writers_cannot_open.
Qed.

(** Three writers without memory, three writers and one writer that cannot
    open the file. *)
Lemma writemap_failures_of_the_representative_witness :
  group_run 1 (fun _ => no_memory) (writers b_example "map.txt" [10; 20] maps_example 5) ∅
  = G_aborted 0 (die b_example)
  /\ group_run 2 (fun _ => no_file) (writers b_example "map.txt" [10; 20] maps_example 5) ∅
     = G_stuck
  /\ group_run 2 (fun _ => no_file) (writers b_example "map.txt" [10; 20] [[1; 2; 3]] 5) ∅
     = G_done [PIO_EIO] ∅.
Proof.
  split_and!.
  - apply (proj1 (writemap_failures_of_the_representative b_example (fun _ => no_memory)
                    "map.txt"%string 5 [10; 20] maps_example ∅ 0 ltac:(discriminate))).
    reflexivity.
  - apply (proj2 (writemap_failures_of_the_representative b_example (fun _ => no_file)
                    "map.txt"%string 5 [10; 20] maps_example ∅ 0 ltac:(discriminate)));
      [reflexivity | reflexivity | cbn; lia].
  - apply (proj2 (writemap_failures_of_the_representative b_example (fun _ => no_file)
                    "map.txt"%string 5 [10; 20] [[1; 2; 3]] ∅ 0 ltac:(discriminate)));
      reflexivity.
Defined.

Lemma piodie_ends {A : Type} b msg fname line (w : world) n :
  exists t,
    run_from w n (@piodie A b msg fname line) = (t, Terminated (die b))
    /\ Forall (fun x => is_diagnostic (entry_event x)) t.
Proof.
  destruct (piodie_dies (A:=A) b msg fname line w n) as (t & E & _).
  exists t. split; [done|].
  pose proof (only_calls_run is_diagnostic _ w n (piodie_diagnostic (A:=A) b msg fname line)).
  by rewrite E in H.
Qed.

Lemma readmap_file_missing b u file ndims0 comm (lw : nat -> world) size fs fuel :
  fs !! file = None ->
  group_run (S fuel) lw (readers b u file ndims0 comm (S size)) fs = G_aborted 0 (die b).
Proof.
  intros Hfile. cbn [group_run]. rewrite readers_length.
  unfold readers, start_group. cbn [seq fmap list_fmap map settle_list calls code].
  assert (exists n', settle (lw 0%nat) (S size) 0 0 fs
                       (PIOc_readmap b (u 0%nat) file true true true true (ndims0 0%nat) comm)
                     = (Proc n' (Abort (die b)), fs)) as (n' & ->).
  { unfold PIOc_readmap. cbn [andb negb].
    cbn [settle call mbind prog_bind bind local_answer Z.of_nat Z.eqb].
    change (Z.of_nat 0 =? 0) with true.
    cbn [settle call mbind prog_bind bind local_answer].
    rewrite Hfile. apply settle_piodie. }
  by destruct (settle_list _ _ _ _ _).
Qed.

(** X8.  [PIOc_readmap] terminates the process, after diagnostics only,
    when one of its four output pointers is null (before any other call)
    and, on the representative, when the file cannot be opened (after
    [MPI_Comm_size], [MPI_Comm_rank] and [fopen]).  A group whose map file
    does not exist is terminated by rank 0. *)
Theorem readmap_dies_without_its_arguments_or_its_file :
  (forall b u file ndims gdims fmaplen map ndims0 comm (w : world),
     ndims && gdims && fmaplen && map = false ->
     exists t,
       run w (PIOc_readmap b u file ndims gdims fmaplen map ndims0 comm)
       = (t, Terminated (die b))
       /\ Forall (fun x => is_diagnostic (entry_event x)) t)
  /\ (forall b u file ndims gdims fmaplen map ndims0 comm (w : world),
        ndims && gdims && fmaplen && map = true ->
        w 1%nat (MPI_Comm_rank comm) = 0 ->
        w 2%nat (fopen_r file) = None ->
        exists tail,
          run w (PIOc_readmap b u file ndims gdims fmaplen map ndims0 comm)
          = (Entry (MPI_Comm_size comm) (w 0%nat (MPI_Comm_size comm))
               :: Entry (MPI_Comm_rank comm) 0
               :: Entry (fopen_r file) None
               :: tail,
             Terminated (die b))
          /\ Forall (fun x => is_diagnostic (entry_event x)) tail)
  /\ (forall b u file ndims0 comm (lw : nat -> world) size fs fuel,
        fs !! file = None ->
        group_run (S fuel) lw (readers b u file ndims0 comm (S size)) fs
        = G_aborted 0 (die b)).
Proof.
  split_and!.
  - intros b u file ndims gdims fmaplen map ndims0 comm w Hargs.
    unfold PIOc_readmap, run. rewrite Hargs. cbn [negb]. apply piodie_ends.
  - intros b u file ndims gdims fmaplen map ndims0 comm w Hargs H1 H2.
    unfold PIOc_readmap, run. rewrite Hargs. cbn [negb].
    run_call_at. run_call_at. rewrite H1. cbn [Z.eqb].
    run_call_at. rewrite H2.
    destruct (piodie_ends (A:=readmap_out) b (Some "Failed to open dof file"%string)
                (Some this_file) 548 w 3) as (t & -> & Ht).
    by eexists.
  - intros. by apply readmap_file_missing.
Qed.

(** A null length pointer, a missing file, and two readers without a
    file. *)
Lemma readmap_dies_without_its_arguments_or_its_file_witness :
  (exists t,
     run (fun _ => answer_default)
       (PIOc_readmap b_example (Indeterminate 0 0 0 0 0) "map.txt" true true false true 0 5)
     = (t, Terminated (die b_example)))
  /\ (exists tail,
        run (fun _ => answer_default)
          (PIOc_readmap b_example (Indeterminate 0 0 0 0 0) "map.txt" true true true true 0 5)
        = (Entry (MPI_Comm_size 5) 1 :: Entry (MPI_Comm_rank 5) 0
             :: Entry (fopen_r "map.txt") None :: tail,
           Terminated (die b_example)))
  /\ group_run 1 (fun _ _ => answer_default)
       (readers b_example (fun _ => Indeterminate 0 0 0 0 0) "map.txt" (fun _ => 0) 5 2) ∅
     = G_aborted 0 (die b_example).
Proof.
  destruct readmap_dies_without_its_arguments_or_its_file as (Hargs & Hfile & Hgroup).
  split_and!.
  - destruct (Hargs b_example (Indeterminate 0 0 0 0 0) "map.txt"%string true true false true
                0 5 (fun _ => answer_default)) as (t & E & _); [reflexivity|].
    exists t. exact E.
  - destruct (Hfile b_example (Indeterminate 0 0 0 0 0) "map.txt"%string true true true true
                0 5 (fun _ => answer_default)) as (t & E & _); [reflexivity..|].
    exists t. exact E.
  - apply Hgroup. reflexivity.
Defined.

(** ** The fatal path and the error messages *)

Lemma piomemerror_dies {A : Type} b ios req fname line (w : world) n :
  exists t,
    run_from w n (@piomemerror A b ios req fname line) = (t, Terminated (die b))
    /\ events_of t
       = cn_buffer_report (iosysid ios) false
         :: fputs stderr
              (abort_message (Some ("out of memory requesting: " +:+ print_int (long_wrap req)))
                 fname line)
         :: stack_dump stderr (w (S (S n)) (backtrace_symbols 10)).
Proof.
  unfold piomemerror. run_call.
  destruct (piodie_dies (A:=A) b
              (Some ("out of memory requesting: " +:+ print_int (long_wrap req)))
              fname line w (n + 1)) as (t & -> & Ht).
  eexists. split; [reflexivity|].
  unfold events_of in *. cbn [map app entry_event Entry projT1]. rewrite Ht.
  by replace (S (n + 1)) with (S (S n)) by lia.
Qed.

(** X9.  The fatal path.  [print_trace] asks for the stack dump, writes the
    number of frames and one line per frame to the stream it is given (to
    the standard error stream for a null stream), frees the dump and
    returns.  [piodie] writes its report to the standard error stream, then
    the stack dump, and terminates the process ([abort] in an MPI-serial
    build, [MPI_Abort] of the world with code -1 otherwise).  [piomemerror]
    asks for the buffer report first and dies with the size that was asked
    for, printed as the [long] its 64 bits denote (a size of [2 ^ 63] or
    more is printed as a negative number).  [pioassert] does nothing for a
    true expression or under [NDEBUG], and is [piodie] otherwise. *)
Theorem fatal_path_reports_then_terminates (A : Type) b (w : world) n :
  (forall fp,
     exists t,
       run_from w n (print_trace fp) = (t, Returned tt)
       /\ events_of t = stack_dump (default stderr fp) (w n (backtrace_symbols 10)))
  /\ (forall msg fname line,
        exists t,
          run_from w n (@piodie A b msg fname line) = (t, Terminated (die b))
          /\ events_of t
             = fputs stderr (abort_message msg fname line)
               :: stack_dump stderr (w (S n) (backtrace_symbols 10)))
  /\ (forall ios req fname line,
        exists t,
          run_from w n (@piomemerror A b ios req fname line) = (t, Terminated (die b))
          /\ events_of t
             = cn_buffer_report (iosysid ios) false
               :: fputs stderr
                    (abort_message
                       (Some ("out of memory requesting: " +:+ print_int (long_wrap req)))
                       fname line)
               :: stack_dump stderr (w (S (S n)) (backtrace_symbols 10)))
  /\ (forall ndebug expression msg fname line,
        run_from w n (pioassert ndebug b expression msg fname line)
        = if ndebug || expression then ([], Returned tt)
          else run_from w n (piodie b msg fname line)).
Proof.
  split_and!.
  - intros fp. apply print_trace_run.
  - intros msg fname line. apply piodie_dies.
  - intros ios req fname line. apply piomemerror_dies.
  - intros [] [] msg fname line; done.
Qed.

Lemma length_substring_0 n s :
  String.length (String.substring 0 n s) = Nat.min n (String.length s).
Proof.
  revert n. induction s as [|c s IH]; intros [|n]; cbn; try done. by rewrite IH.
Qed.

(** X10.  [PIOc_strerror] returns [PIO_NOERR] for every code, in every
    build and whatever the libraries answer.  The message it leaves has at
    most [PIO_MAX_NAME] characters; it lacks the terminating null character
    exactly when it fills all of them, which happens when the message of
    the C library or of netCDF is that long or longer.  The only call it
    can make is [nc_strerror]. *)
Theorem strerror_message_is_bounded b last strerror pioerr (w : world) n :
  exists t buf,
    run_from w n (PIOc_strerror b last strerror pioerr) = (t, Returned (PIO_NOERR, buf))
    /\ strlen (cb_text buf) <= PIO_MAX_NAME
    /\ (cb_terminated buf = false -> strlen (cb_text buf) = PIO_MAX_NAME)
    /\ (cb_terminated buf = true -> strlen (cb_text buf) < PIO_MAX_NAME)
    /\ (t = [] \/ t = [Entry (nc_strerror pioerr) (w n (nc_strerror pioerr))]).
Proof.
  assert (forall src, strlen (cb_text (strncpy src PIO_MAX_NAME)) <= PIO_MAX_NAME
                      /\ (cb_terminated (strncpy src PIO_MAX_NAME) = false ->
                          strlen (cb_text (strncpy src PIO_MAX_NAME)) = PIO_MAX_NAME)
                      /\ (cb_terminated (strncpy src PIO_MAX_NAME) = true ->
                          strlen (cb_text (strncpy src PIO_MAX_NAME)) < PIO_MAX_NAME)) as Hn.
  { intros src. unfold strncpy. destruct (strlen src <? PIO_MAX_NAME) eqn:E; cbn.
    - apply Z.ltb_lt in E. split_and!; [lia | done | done].
    - apply Z.ltb_ge in E. unfold strlen in *. rewrite length_substring_0.
      unfold PIO_MAX_NAME, NC_MAX_NAME in *. split_and!; [lia | lia | done]. }
  unfold PIOc_strerror.
  destruct (0 <? pioerr).
  { destruct (strerror pioerr) as [cp|].
    - eexists _, _. split; [reflexivity|]. destruct (Hn cp) as (? & ? & ?).
      split_and!; [done | done | done | by left].
    - eexists _, _. split; [reflexivity|]. cbn. split_and!; [done | done | done | by left]. }
  destruct (pioerr =? PIO_NOERR).
  { eexists _, _. split; [reflexivity|]. cbn. split_and!; [done | done | done | by left]. }
  destruct ((pioerr <=? NC2_ERR) && (last <=? pioerr)).
  { destruct (has_PNETCDF b || has_NETCDF b).
    - run_call. cbn [run_from mret prog_ret app].
      eexists _, _. split; [reflexivity|].
      destruct (Hn (w n (nc_strerror pioerr))) as (? & ? & ?).
      split_and!; [done | done | done | by right].
    - eexists _, _. split; [reflexivity|]. cbn. split_and!; [done | done | done | by left]. }
  destruct (pioerr =? PIO_EBADIOTYPE).
  all: eexists _, _; (split; [reflexivity|]); cbn; split_and!; [done | done | done | by left].
Qed.

(** ** Settings taken from the environment *)

Lemma occurs_app c s t : occurs c (s +:+ t) = occurs c s || occurs c t.
Proof.
  induction s as [|c' s IH]; [done|].
  rewrite append_cons. cbn [occurs]. by rewrite IH, orb_assoc.
Qed.

Lemma occurs_uint c d :
  no_numeral_char c -> occurs c (NilEmpty.string_of_uint d) = false.
Proof.
  intros [Hd Hm].
  induction d as [|d IH|d IH|d IH|d IH|d IH|d IH|d IH|d IH|d IH|d IH];
    cbn [NilEmpty.string_of_uint occurs]; [done|..]; rewrite IH, orb_false_r;
    apply bool_decide_eq_false_2; intros ->; done.
Qed.

Lemma occurs_print_int c z : no_numeral_char c -> occurs c (print_int z) = false.
Proof.
  intros Hc. unfold print_int.
  destruct (Z.to_int z) as [d | d]; cbn [NilZero.string_of_int].
  - destruct d; try (by apply (occurs_uint c)).
    cbn. rewrite orb_false_r. apply bool_decide_eq_false_2. intros ->.
    by destruct Hc.
  - cbn [occurs]. apply orb_false_iff. split.
    + apply bool_decide_eq_false_2. by destruct Hc.
    + destruct d; try (by apply (occurs_uint c)).
      cbn. rewrite orb_false_r. apply bool_decide_eq_false_2. intros ->.
      by destruct Hc.
Qed.

Lemma print_int_not_empty z : print_int z <> EmptyString.
Proof.
  unfold print_int. destruct (Z.to_int z) as [d | d]; cbn [NilZero.string_of_int]; [|done].
  by destruct d.
Qed.

Lemma atoi_print z s :
  ends_numeral s -> atoi (print_int z +:+ s) = int_wrap (long_clamp z).
Proof. intros Hs. unfold atoi. by rewrite scan_int_print. Qed.

Lemma atoi_print_only z : atoi (print_int z) = int_wrap (long_clamp z).
Proof. rewrite <- (append_nil_r (print_int z)). by apply atoi_print. Qed.

Lemma atoll_print z s : ends_numeral s -> atoll (print_int z +:+ s) = long_clamp z.
Proof. intros Hs. unfold atoll. by rewrite scan_int_print. Qed.

Lemma long_clamp_range z : LONG_MIN <= long_clamp z <= LONG_MAX.
Proof. unfold long_clamp, LONG_MIN, LONG_MAX. lia. Qed.

Lemma long_wrap_small z : LONG_MIN <= z <= LONG_MAX -> long_wrap z = z.
Proof.
  unfold LONG_MIN, LONG_MAX, long_wrap. intros H. rewrite Z.mod_small; lia.
Qed.

Lemma delim_colon c : occurs c ":" = bool_decide (c = ":"%char).
Proof. cbn. by rewrite orb_false_r. Qed.

Lemma skip_delims_colons k s :
  match s with String c _ => c <> ":"%char | EmptyString => True end ->
  skip_delims ":" (colons k +:+ s) = s.
Proof.
  intros Hs. induction k as [|k IH]; cbn [colons].
  - rewrite append_nil_l. destruct s as [|c s]; [done|]. cbn [skip_delims].
    by rewrite delim_colon, bool_decide_eq_false_2.
  - rewrite append_cons. cbn [skip_delims]. by rewrite delim_colon, bool_decide_eq_true_2.
Qed.

Lemma field_head s t :
  field ":" s -> match s +:+ t with String c _ => c <> ":"%char | EmptyString => True end.
Proof.
  intros [Hne Hno]. destruct s as [|c s]; [done|]. rewrite append_cons.
  cbn [occurs] in Hno. apply orb_false_iff in Hno as [Hc _].
  apply bool_decide_eq_false in Hc. congruence.
Qed.

Lemma take_token_field s k t :
  occurs ":" s = false ->
  take_token ":" (s +:+ colons (S k) +:+ t) = (s, colons k +:+ t).
Proof.
  intros Hno. induction s as [|c s IH].
  - rewrite append_nil_l. cbn [colons]. rewrite append_cons. cbn [take_token].
    by rewrite delim_colon, bool_decide_eq_true_2.
  - rewrite append_cons. cbn [take_token]. cbn [occurs] in Hno.
    apply orb_false_iff in Hno as [Hc Hno]. apply bool_decide_eq_false in Hc.
    rewrite delim_colon, bool_decide_eq_false_2 by congruence. by rewrite IH.
Qed.

Lemma take_token_last s :
  occurs ":" s = false -> take_token ":" s = (s, EmptyString).
Proof.
  intros Hno. induction s as [|c s IH]; [done|].
  cbn [take_token]. cbn [occurs] in Hno.
  apply orb_false_iff in Hno as [Hc Hno]. apply bool_decide_eq_false in Hc.
  rewrite delim_colon, bool_decide_eq_false_2 by congruence. by rewrite IH.
Qed.

Lemma strtok_field k0 s k t :
  field ":" s ->
  strtok (colons k0 +:+ s +:+ colons (S k) +:+ t) ":" = (Some s, colons k +:+ t).
Proof.
  intros Hs. unfold strtok. rewrite skip_delims_colons by by apply field_head.
  destruct Hs as [Hne Hno].
  pose proof (take_token_field s k t Hno) as Htok.
  destruct s as [|c s]; [done|]. rewrite append_cons in Htok |- *. by rewrite Htok.
Qed.

Lemma strtok_last k0 s :
  field ":" s -> strtok (colons k0 +:+ s) ":" = (Some s, EmptyString).
Proof.
  intros Hs. unfold strtok.
  rewrite skip_delims_colons.
  2:{ pose proof (field_head s EmptyString Hs) as H. by rewrite append_nil_r in H. }
  destruct Hs as [Hne Hno]. pose proof (take_token_last s Hno) as Htok.
  destruct s as [|c s]; [done|]. by rewrite Htok.
Qed.

Lemma strtok_colons k : strtok (colons k) ":" = (None, EmptyString).
Proof.
  unfold strtok. rewrite <- (append_nil_r (colons k)).
  by rewrite skip_delims_colons.
Qed.

Lemma print_int_field z : field ":" (print_int z).
Proof. split; [apply print_int_not_empty | by apply occurs_print_int]. Qed.

Lemma leading_delims_colons k s :
  match s with String c _ => c <> ":"%char | EmptyString => True end ->
  leading_delims ":" (colons k +:+ s) = colons k.
Proof.
  intros Hs. induction k as [|k IH]; cbn [colons].
  - rewrite append_nil_l. destruct s as [|c s]; [done|]. cbn [leading_delims].
    by rewrite delim_colon, bool_decide_eq_false_2.
  - rewrite append_cons. cbn [leading_delims].
    by rewrite delim_colon, bool_decide_eq_true_2, IH.
Qed.

Lemma cut_field k0 s k t :
  field ":" s ->
  cut_by_strtok (colons k0 +:+ s +:+ colons (S k) +:+ t) ":" = colons k0 +:+ s.
Proof.
  intros Hs. unfold cut_by_strtok.
  rewrite leading_delims_colons, skip_delims_colons by by apply field_head.
  destruct Hs as [_ Hno]. by rewrite take_token_field.
Qed.

Lemma cut_last k0 s :
  field ":" s -> cut_by_strtok (colons k0 +:+ s) ":" = colons k0 +:+ s.
Proof.
  intros Hs. unfold cut_by_strtok.
  pose proof (field_head s EmptyString Hs) as H. rewrite append_nil_r in H.
  rewrite leading_delims_colons, skip_delims_colons by done.
  destruct Hs as [_ Hno]. by rewrite take_token_last.
Qed.

(** X11.  [PIO_SWAPM] is read as the tokens between colons: a number, then
    two flags that are set exactly when their token is [t]; empty fields do
    not count, so doubled colons (also in front) separate like single
    ones.  The number is what [atoi] makes of the numeral: the number it
    denotes when that is an [int], and otherwise the low 32 bits of the
    [long] nearest to it.  The first token is cut out in place: after the
    call the setting reads as the numeral alone, and a second call of
    [pio_get_env] keeps the number and clears both flags. *)
Theorem swapm_setting_is_parsed_once
    getenv lit_M lit_K st (n : Z) (x y : string) (k0 k1 k2 : nat) :
  field ":" x -> field ":" y ->
  getenv !! "PIO_SWAPM"
  = Some (colons k0 +:+ print_int n +:+ colons (S k1) +:+ x +:+ colons (S k2) +:+ y) ->
  exists st1 st2,
    pio_get_env getenv lit_M lit_K st
    = Done (st1, <["PIO_SWAPM" := colons k0 +:+ print_int n]> getenv)
    /\ swapm_defaults st1
       = SwapmDefaults (int_wrap (long_clamp n)) (bool_decide (x = "t"))
           (bool_decide (y = "t"))
    /\ pio_get_env (<["PIO_SWAPM" := colons k0 +:+ print_int n]> getenv) lit_M lit_K st1
       = Done (st2, <["PIO_SWAPM" := colons k0 +:+ print_int n]> getenv)
    /\ swapm_defaults st2 = SwapmDefaults (int_wrap (long_clamp n)) false false
    /\ (in_int n -> int_wrap (long_clamp n) = n).
Proof.
  intros Hx Hy Henv. unfold pio_get_env. rewrite Henv.
  rewrite (strtok_field k0 (print_int n)) by apply print_int_field.
  rewrite (cut_field k0 (print_int n)) by apply print_int_field.
  rewrite atoi_print_only.
  rewrite (strtok_field k1 x) by done.
  rewrite (strtok_last k2 y) by done.
  cbn [mbind result_mbind result_bind].
  eexists _, _. split; [reflexivity|]. split.
  { cbn [swapm_defaults]. f_equal.
    - apply bool_decide_ext. split; [by intros [= ->] | by intros ->].
    - apply bool_decide_ext. split; [by intros [= ->] | by intros ->]. }
  rewrite !lookup_insert_eq.
  rewrite (strtok_last k0 (print_int n)) by apply print_int_field.
  rewrite (cut_last k0 (print_int n)) by apply print_int_field.
  rewrite atoi_print_only.
  change (strtok EmptyString ":") with (@None string, EmptyString).
  cbn [mbind result_mbind result_bind]. rewrite insert_insert_eq.
  split; [reflexivity|]. split; [done|]. apply store_int.
Qed.

(** The setting [64::t:f], read twice. *)
Lemma swapm_setting_is_parsed_once_witness :
  exists st1 st2,
    pio_get_env {[ "PIO_SWAPM"%string := "64::t:f"%string ]} "M" "K" settings_example
    = Done (st1, <["PIO_SWAPM"%string := "64"%string]>
                   {[ "PIO_SWAPM"%string := "64::t:f"%string ]})
    /\ swapm_defaults st1 = SwapmDefaults 64 true false
    /\ pio_get_env (<["PIO_SWAPM"%string := "64"%string]>
                      {[ "PIO_SWAPM"%string := "64::t:f"%string ]}) "M" "K" st1
       = Done (st2, <["PIO_SWAPM"%string := "64"%string]>
                      {[ "PIO_SWAPM"%string := "64::t:f"%string ]})
    /\ swapm_defaults st2 = SwapmDefaults 64 false false.
Proof.
  destruct (swapm_setting_is_parsed_once
              {[ "PIO_SWAPM"%string := "64::t:f"%string ]} "M" "K" settings_example
              64 "t" "f" 0 1 0) as (st1 & st2 & H1 & H2 & H3 & H4 & _).
  - split; [discriminate | reflexivity].
  - split; [discriminate | reflexivity].
  - reflexivity.
  - exists st1, st2. split; [exact H1|]. split; [exact H2|]. split; [exact H3 | exact H4].
Defined.

(** X12.  Settings that are not given.  Without [PIO_SWAPM] the defaults
    are reset to zero requests and no flags, whatever they were; with a
    value that holds a numeral only, the flags are clear and the number is
    what [atoi] makes of the numeral (the number it denotes when that is an
    [int]); with an empty value, or one made of colons only, a null token
    is handed to [atoi].
    [PIO_Save_Decomps] is never cleared, and is set by the value [true];
    without [PIO_CNBUFFER_LIMIT] the limit is kept. *)
Theorem settings_not_given_in_the_environment getenv lit_M lit_K st :
  (getenv !! "PIO_SWAPM" = None ->
   exists st',
     pio_get_env getenv lit_M lit_K st = Done (st', getenv)
     /\ swapm_defaults st' = SwapmDefaults 0 false false)
  /\ (forall k,
        getenv !! "PIO_SWAPM" = Some (colons k) ->
        exists what, pio_get_env getenv lit_M lit_K st = Fault what)
  /\ (forall n,
        getenv !! "PIO_SWAPM" = Some (print_int n) ->
        exists st',
          pio_get_env getenv lit_M lit_K st = Done (st', getenv)
          /\ swapm_defaults st' = SwapmDefaults (int_wrap (long_clamp n)) false false
          /\ (in_int n -> swapm_defaults st' = SwapmDefaults n false false))
  /\ (forall st' getenv',
        pio_get_env getenv lit_M lit_K st = Done (st', getenv') ->
        (PIO_Save_Decomps st = true -> PIO_Save_Decomps st' = true)
        /\ (getenv !! "PIO_Save_Decomps" = Some "true"%string -> PIO_Save_Decomps st' = true)
        /\ (getenv !! "PIO_CNBUFFER_LIMIT" = None ->
            PIO_CNBUFFER_LIMIT st' = PIO_CNBUFFER_LIMIT st)).
Proof.
  unfold pio_get_env. split_and!.
  - intros ->. by eexists.
  - intros k ->. rewrite strtok_colons. by eexists.
  - intros n Hn. rewrite Hn.
    pose proof (strtok_last 0 (print_int n) (print_int_field n)) as Htok.
    pose proof (cut_last 0 (print_int n) (print_int_field n)) as Hcut.
    cbn [colons] in Htok, Hcut. rewrite append_nil_l in Htok, Hcut. rewrite Htok, Hcut.
    rewrite atoi_print_only.
    change (strtok EmptyString ":") with (@None string, EmptyString).
    cbn [mbind result_mbind result_bind]. rewrite insert_id by done.
    eexists. split; [reflexivity|]. split; [done|].
    intros Hr. cbn [swapm_defaults]. f_equal. by apply store_int.
  - intros st' getenv'. unfold mbind, result_mbind.
    destruct (getenv !! "PIO_SWAPM") as [v|] eqn:Hv.
    + destruct (strtok v ":") as [[t|] rest]; [|done].
      destruct (strtok rest ":") as [t2 rest2]. destruct (strtok rest2 ":") as [t3 rest3].
      cbn [result_bind]. intros [= <- <-]. cbn [PIO_Save_Decomps PIO_CNBUFFER_LIMIT].
      split_and!.
      * intros ->. destruct (getenv !! "PIO_Save_Decomps"); [by case_bool_decide | done].
      * by intros ->.
      * intros Hl. by rewrite lookup_insert_ne, Hl by done.
    + cbn [result_bind]. intros [= <- <-]. cbn [PIO_Save_Decomps PIO_CNBUFFER_LIMIT].
      split_and!.
      * intros ->. destruct (getenv !! "PIO_Save_Decomps"); [by case_bool_decide | done].
      * by intros ->.
      * by intros ->.
Qed.

(** An empty environment, and a setting made of two colons. *)
Lemma settings_not_given_in_the_environment_witness :
  (exists st',
     pio_get_env ∅ "M" "K" settings_example = Done (st', ∅)
     /\ swapm_defaults st' = SwapmDefaults 0 false false)
  /\ (exists what,
        pio_get_env {[ "PIO_SWAPM"%string := "::"%string ]} "M" "K" settings_example
        = Fault what).
Proof.
  split.
  - apply (proj1 (settings_not_given_in_the_environment ∅ "M" "K" settings_example)).
    reflexivity.
  - apply (proj1 (proj2 (settings_not_given_in_the_environment
                           {[ "PIO_SWAPM"%string := "::"%string ]} "M" "K" settings_example))
             2%nat).
    reflexivity.
Defined.

(** X13.  [PIO_CNBUFFER_LIMIT] given as a numeral followed by one
    character.  The number is what [atoll] makes of the numeral: the number
    it denotes, or the nearest [long] when it is out of range.  If the two
    literals handed to [strchr] were the characters [M] and [K], the number
    would be scaled by a million for the suffix [M], by a thousand for [K],
    and not at all for another suffix (the product being the 64-bit one).
    As the code has it, the scale depends on the characters that the
    addresses of the literals convert to: where neither occurs in the
    value, nor is the null character, the limit is the number itself,
    whatever the suffix. *)
Theorem buffer_limit_scale_is_not_chosen_by_the_suffix
    getenv lit_M lit_K st st' getenv' (n : Z) (c : ascii) :
  digit_val c = None ->
  getenv !! "PIO_CNBUFFER_LIMIT" = Some (print_int n +:+ String c EmptyString) ->
  pio_get_env getenv lit_M lit_K st = Done (st', getenv') ->
  (lit_M = "M"%char -> lit_K = "K"%char ->
   PIO_CNBUFFER_LIMIT st'
   = long_wrap (long_clamp n * (if bool_decide (c = "M"%char) then 1000000
                                else if bool_decide (c = "K"%char) then 1000 else 1)))
  /\ (strchr (print_int n +:+ String c EmptyString) lit_M = false ->
      strchr (print_int n +:+ String c EmptyString) lit_K = false ->
      PIO_CNBUFFER_LIMIT st' = long_clamp n)
  /\ (in_offset n -> long_clamp n = n).
Proof.
  intros Hc Henv. unfold pio_get_env.
  assert (forall sw e,
            (match getenv !! "PIO_SWAPM" with
             | Some envptr =>
                 let '(token, rest) := strtok envptr ":" in
                 let getenv0 := <["PIO_SWAPM" := cut_by_strtok envptr ":"]> getenv in
                 match token with
                 | None => Fault "atoi of a null pointer"
                 | Some t =>
                     let n := atoi t in
                     let '(token, rest) := strtok rest ":" in
                     let h := bool_decide (token = Some "t") in
                     let '(token, rest) := strtok rest ":" in
                     let i := bool_decide (token = Some "t") in
                     Done (SwapmDefaults n h i, getenv0)
                 end
             | None => Done (SwapmDefaults 0 false false, getenv)
             end) = Done (sw, e) ->
            e !! "PIO_CNBUFFER_LIMIT" = Some (print_int n +:+ String c EmptyString)) as Hkeep.
  { intros sw e. destruct (getenv !! "PIO_SWAPM") as [v|].
    - destruct (strtok v ":") as [[t|] rest]; [|done].
      destruct (strtok rest ":") as [t2 rest2]. destruct (strtok rest2 ":") as [t3 rest3].
      intros [= _ <-]. by rewrite lookup_insert_ne.
    - by intros [= _ <-]. }
  unfold mbind, result_mbind.
  destruct (match getenv !! "PIO_SWAPM" with Some _ => _ | None => _ end) as [[sw e]| |];
    cbn [result_bind]; [|done..].
  rewrite (Hkeep sw e eq_refl).
  intros [= <- <-]. cbn [PIO_CNBUFFER_LIMIT].
  rewrite atoll_print.
  2:{ unfold ends_numeral. cbn. rewrite Hc. by apply bool_decide_eq_false_2, is_Some_None. }
  split_and!; [| |apply store_long].
  - intros -> ->. unfold strchr. rewrite !occurs_app.
    rewrite !occurs_print_int by done. cbn [occurs orb].
    rewrite !orb_false_r.
    rewrite (bool_decide_eq_false_2 ("M"%char = zero)) by done.
    rewrite (bool_decide_eq_false_2 ("K"%char = zero)) by done. cbn [orb].
    rewrite (bool_decide_ext ("M"%char = c) (c = "M"%char)) by done.
    rewrite (bool_decide_ext ("K"%char = c) (c = "K"%char)) by done.
    done.
  - intros -> ->. rewrite Z.mul_1_r. apply long_wrap_small, long_clamp_range.
Qed.

(** The value [64M], with literal addresses that convert to [a] and [b],
    and with the characters [M] and [K]. *)
Lemma buffer_limit_scale_is_not_chosen_by_the_suffix_witness :
  pio_get_env {[ "PIO_CNBUFFER_LIMIT"%string := "64M"%string ]} "a" "b" settings_example
  = Done (EnvSettings false (SwapmDefaults 0 false false) 64,
          {[ "PIO_CNBUFFER_LIMIT"%string := "64M"%string ]})
  /\ PIO_CNBUFFER_LIMIT (EnvSettings false (SwapmDefaults 0 false false) 64) = 64
  /\ pio_get_env {[ "PIO_CNBUFFER_LIMIT"%string := "64M"%string ]} "M" "K" settings_example
     = Done (EnvSettings false (SwapmDefaults 0 false false) 64000000,
             {[ "PIO_CNBUFFER_LIMIT"%string := "64M"%string ]}).
Proof.
  split; [reflexivity|]. split; [|reflexivity].
  refine (proj1 (proj2 (buffer_limit_scale_is_not_chosen_by_the_suffix
                          {[ "PIO_CNBUFFER_LIMIT"%string := "64M"%string ]} "a" "b"
                          settings_example
                          (EnvSettings false (SwapmDefaults 0 false false) 64)
                          {[ "PIO_CNBUFFER_LIMIT"%string := "64M"%string ]} 64 "M"
                          _ _ _)) _ _); reflexivity.
Defined.

(** ** Fresh regions and descriptors *)

Lemma bget_fresh m p rest :
  p <> NULL ->
  bget m (p :: rest)
  = (p, Memory (regions m) (dtype_arrays m) ({[p]} ∪ live m) (released m), rest).
Proof. intros Hp. unfold bget. by rewrite bool_decide_eq_false_2. Qed.

Lemma alloc_region_succeeds m r s c rest junk nd :
  r <> NULL -> s <> NULL -> c <> NULL ->
  alloc_region m (r :: s :: c :: rest) junk nd
  = Done (r,
          Memory (<[r := fresh_region s c]> (regions m)) (dtype_arrays m)
            ({[c]} ∪ ({[s]} ∪ ({[r]} ∪ live m))) (released m),
          rest).
Proof.
  intros Hr Hs Hc. unfold alloc_region.
  rewrite bget_fresh by done. rewrite (bool_decide_eq_false_2 _ Hr).
  unfold set_region. cbn [regions dtype_arrays live released].
  rewrite bget_fresh by done. rewrite (bool_decide_eq_false_2 _ Hs).
  cbn [regions dtype_arrays live released].
  rewrite bget_fresh by done. rewrite (bool_decide_eq_false_2 _ Hc).
  cbn [regions dtype_arrays live released start count loffset next].
  by rewrite !insert_insert_eq.
Qed.

(** X14.  The failure paths of [alloc_region], for a fresh node [r].  When
    the pool cannot serve the node, a null pointer is returned and nothing
    has changed.  When it cannot serve the start array, the node goes back
    to the pool and a null pointer is returned: nothing is left allocated.
    When it cannot serve the count array, the node is released first and
    its start member is read afterwards: the function reads a block that is
    gone. *)
Theorem alloc_region_failure_paths m r s rest junk nd :
  r <> NULL ->
  r ∉ live m ->
  regions m !! r = None ->
  dtype_arrays m !! r = None ->
  alloc_region m (NULL :: rest) junk nd = Done (NULL, m, rest)
  /\ alloc_region m (r :: NULL :: rest) junk nd
     = Done (NULL,
             Memory (regions m) (dtype_arrays m) (live m) (released m ++ [Brel r]), rest)
  /\ (s <> NULL ->
      exists what, alloc_region m (r :: s :: NULL :: rest) junk nd = Fault what).
Proof.
  intros Hr Hfresh Hreg Hdt. split_and!.
  - done.
  - unfold alloc_region. rewrite bget_fresh by done. rewrite (bool_decide_eq_false_2 _ Hr).
    unfold set_region. cbn [regions dtype_arrays live released bget].
    rewrite !bool_decide_eq_true_2 by done.
    unfold brel. cbn [regions dtype_arrays live released].
    rewrite bool_decide_eq_true_2 by set_solver.
    cbn [mbind result_mbind result_bind]. rewrite insert_insert_eq, delete_insert_eq.
    rewrite !delete_id by done.
    by assert (({[r]} ∪ live m) ∖ {[r]} = live m) as -> by set_solver.
  - intros Hs. unfold alloc_region. rewrite bget_fresh by done.
    rewrite (bool_decide_eq_false_2 _ Hr).
    unfold set_region. cbn [regions dtype_arrays live released].
    rewrite bget_fresh by done. rewrite (bool_decide_eq_false_2 _ Hs).
    cbn [regions dtype_arrays live released bget].
    rewrite !bool_decide_eq_true_2 by done.
    unfold brel. cbn [regions dtype_arrays live released].
    rewrite bool_decide_eq_true_2 by set_solver.
    cbn [mbind result_mbind result_bind regions]. rewrite lookup_delete_eq. by eexists.
Qed.

(** A pool that is exhausted at the first and at the third request. *)
Lemma alloc_region_failure_paths_witness :
  alloc_region memory_example [NULL] node_a 2 = Done (NULL, memory_example, [])
  /\ exists what, alloc_region memory_example [300; 301; NULL] node_a 2 = Fault what.
Proof.
  destruct (alloc_region_failure_paths memory_example 300 301 [] node_a 2)
    as (H1 & _ & H3).
  - discriminate.
  - refine (bool_decide_unpack _ _). vm_compute. exact I.
  - reflexivity.
  - reflexivity.
  - split; [exact H1|]. apply H3. discriminate.
Defined.

(** X15.  Allocation and destruction compose.  With four fresh blocks from
    the pool, [malloc_iodesc] returns a descriptor whose region list is one
    node with both coordinate arrays.  Once it is registered under an
    identifier, [PIOc_freedecomp] returns [PIO_NOERR], takes the identifier
    out of the registry and releases the two arrays and the node, in this
    order, and nothing else: the members [nrecvs] and [subset_comm], which
    [malloc_iodesc] leaves unassigned, are not used.  Of the four blocks
    only the descriptor itself is still handed out. *)
Theorem fresh_descriptor_is_destroyed_cleanly
    T swapm m d r s c rest junk junk_region piotype nd ioss reg iosysid ios id fuel :
  NoDup [d; r; s; c] ->
  Forall (fun p => p <> NULL /\ p ∉ live m) [d; r; s; c] ->
  pio_get_iosystem_from_id ioss iosysid = Some ios ->
  (2 <= fuel)%nat ->
  exists desc extra m1 m2,
    malloc_iodesc T swapm m (d :: r :: s :: c :: rest) junk junk_region piotype nd
    = Done (Some (d, desc, extra), m1, rest)
    /\ firstregion desc = r
    /\ regions m1 !! r = Some (fresh_region s c)
    /\ live m1 = {[d]} ∪ {[r]} ∪ {[s]} ∪ {[c]} ∪ live m
    /\ PIOc_freedecomp fuel (DecompState m1 ioss (<[id := desc]> reg)) iosysid id
       = Done (PIO_NOERR, DecompState m2 ioss (delete id reg))
    /\ released m2 = released m ++ [Brel s; Brel c; Brel r]
    /\ live m2 = {[d]} ∪ live m.
Proof.
  intros Hnd Hall Hios Hfuel.
  apply Forall_cons in Hall as [[Hd Hdl] Hall].
  apply Forall_cons in Hall as [[Hr Hrl] Hall].
  apply Forall_cons in Hall as [[Hs Hsl] Hall].
  apply Forall_cons in Hall as [[Hc Hcl] _].
  apply NoDup_cons in Hnd as [Hd' Hnd].
  apply NoDup_cons in Hnd as [Hr' Hnd].
  apply NoDup_cons in Hnd as [Hs' _].
  unfold malloc_iodesc. rewrite bget_fresh by done. rewrite (bool_decide_eq_false_2 _ Hd).
  rewrite alloc_region_succeeds by done.
  cbn [mbind result_mbind result_bind regions dtype_arrays live released].
  match goal with
  | |- exists desc extra m1 m2, Done (Some (_, ?D, ?E), ?M1, _) = _ /\ _ =>
      exists D, E, M1, (after M1 (Brel <$> [s; c; r]))
  end.
  split; [reflexivity|].
  cbn [firstregion regions live].
  split; [done|]. split; [by rewrite lookup_insert_eq|]. split; [set_solver|].
  split.
  - match goal with
    | |- PIOc_freedecomp _ (DecompState _ _ (<[_ := ?D]> _)) _ _ = _ =>
        rewrite (PIOc_freedecomp_live fuel _ iosysid id ios D [] [] [(r, fresh_region s c)])
    end.
    + cbn [ds_mem ds_iosystems ds_iodescs]. rewrite delete_insert_eq. do 3 f_equal.
      unfold expected_releases, handle_releases, opt, list_blocks, node_blocks.
      cbn [rfrom rtype stype scount rcount sindex rindex rearranger fresh_region start count
           fst snd fmap list_fmap concat].
      rewrite !(bool_decide_eq_true_2 (NULL = NULL)) by done.
      rewrite (bool_decide_eq_false_2 (s = NULL)), (bool_decide_eq_false_2 (c = NULL)) by done.
      rewrite (bool_decide_eq_false_2 (0 = PIO_REARR_SUBSET)) by done.
      done.
    + done.
    + cbn [ds_iodescs]. by rewrite lookup_insert_eq.
    + cbn [ds_mem]. unfold owns, owned_blocks, opt, list_blocks, node_blocks.
      cbn [rfrom rtype stype scount rcount sindex rindex firstregion fresh_region start count
           fst snd fmap list_fmap concat regions live].
      rewrite !(bool_decide_eq_true_2 (NULL = NULL)) by done.
      rewrite (bool_decide_eq_false_2 (s = NULL)), (bool_decide_eq_false_2 (c = NULL)) by done.
      cbn [app]. split_and!.
      * repeat (apply NoDup_cons; split); [set_solver | set_solver | set_solver | constructor].
      * repeat constructor; set_solver.
      * done.
      * done.
      * cbn. split_and!; try done. by rewrite lookup_insert_eq.
    + cbn [length]. lia.
  - cbn [after released live blocks_of omap fmap list_fmap]. split; [done|]. set_solver.
Qed.

(** A descriptor for doubles with two dimensions in the example memory. *)
Lemma fresh_descriptor_is_destroyed_cleanly_witness :
  exists desc extra m1 m2,
    malloc_iodesc (MpiDatatypes 1 2 3 4) (SwapmDefaults 0 false false) memory_example
      [300; 301; 302; 303] iodesc_example node_a PIO_DOUBLE 2
    = Done (Some (300, desc, extra), m1, [])
    /\ firstregion desc = 301
    /\ regions m1 !! 301 = Some (fresh_region 302 303)
    /\ live m1 = {[300]} ∪ {[301]} ∪ {[302]} ∪ {[303]} ∪ live memory_example
    /\ PIOc_freedecomp 2 (DecompState m1 [ios_example] (<[9 := desc]> ∅)) 1 9
       = Done (PIO_NOERR, DecompState m2 [ios_example] (delete 9 ∅))
    /\ released m2 = released memory_example ++ [Brel 302; Brel 303; Brel 301]
    /\ live m2 = {[300]} ∪ live memory_example.
Proof.
  apply (fresh_descriptor_is_destroyed_cleanly (MpiDatatypes 1 2 3 4)
           (SwapmDefaults 0 false false) memory_example 300 301 302 303 []
           iodesc_example node_a PIO_DOUBLE 2 [ios_example] ∅ 1 ios_example 9 2).
  - refine (bool_decide_unpack _ _). vm_compute. exact I.
  - refine (bool_decide_unpack _ _). vm_compute. exact I.
  - reflexivity.
  - lia.
Defined.

(** ** More readers than writers *)

Section WideReaderProcesses.
Context (b : build_config) (w : world) (size : nat) (comm : Z).
Hypothesis malloc_ok : forall n a t, w n (malloc a t) = true.
Hypothesis calloc_ok : forall n a t, w n (calloc a t) = true.

Lemma wide_root_follows (u : indeterminate) file ndims0 gdims m0 ms fs junk :
  (length (m0 :: ms) <= size)%nat ->
  map_arguments_typed gdims (m0 :: ms) ->
  fs !! file = Some (map_text gdims (m0 :: ms) +:+ junk) ->
  follows w size 0 (wide_root_trace comm gdims (m0 :: ms) size) (read_back gdims m0) (eq fs)
    (PIOc_readmap b u file true true true true ndims0 comm) fs.
Proof.
  intros Hsize (Hnd & Hnp & Hgd & Hmaps) Hfile.
  apply Forall_cons in Hmaps as [[Hlen0 Hm0] Hms].
  unfold PIOc_readmap, wide_root_trace. cbn [andb negb].
  eapply follows_call; [done|]. eapply follows_call; [done|].
  change (Z.of_nat 0 =? 0) with true. cbn iota.
  eapply follows_call; [intros n; cbn [local_answer]; by rewrite Hfile|]. cbn iota.
  fold header_format. unfold map_text. rewrite !append_assoc, scan_header. cbn [nth].
  rewrite (store_int versno) by done. rewrite !store_int by done.
  change (negb (versno =? versno)) with false. cbn iota.
  replace ((len (m0 :: ms) <? 1) || (Z.of_nat size <? len (m0 :: ms))) with false.
  2:{ symmetry. apply orb_false_iff. unfold len. cbn [length] in *.
      split; apply Z.ltb_ge; lia. }
  apply follows_wait; [done|]. cbn iota beta.
  apply follows_wait; [done|]. cbn iota beta.
  apply (follows_calloc w size calloc_ok). cbn [negb].
  destruct (read_dims_numbers gdims
              (skip_space (numbers_text gdims +:+ nl +:+ records_text 0 (m0 :: ms) +:+ nl +:+ junk))
              (nl +:+ records_text 0 (m0 :: ms) +:+ nl +:+ junk))
    as (s1 & E1 & Hs1); [done | by rewrite skip_space_idemp|].
  rewrite to_nat_len, E1.
  apply follows_wait; [done|]. cbn iota beta.
  rewrite skip_space_nl in Hs1. cbn [records_text] in Hs1.
  unfold record_text in Hs1. rewrite !append_assoc in Hs1.
  rewrite to_nat_len. cbn [length readmap_records].
  rewrite (scan_record s1 _ _ _ Hs1). cbn [nth].
  rewrite (store_int (Z.of_nat 0)) by done. rewrite store_long by done.
  cbn [Z.of_nat Z.eqb negb].
  apply (follows_malloc w _ 0 malloc_ok). cbn [negb].
  destruct (read_offsets_numbers m0 (u_elem u)
              (nl +:+ numbers_text m0 +:+ nl +:+ records_text 1 ms +:+ nl +:+ junk)
              (nl +:+ records_text 1 ms +:+ nl +:+ junk))
    as (s2 & E2 & Hs2); [done | by rewrite skip_space_nl|].
  rewrite to_nat_len, E2. cbn [Z.ltb Z.compare].
  cbn [tail]. rewrite <- (app_nil_r (forward_trace _ _ _ _)).
  refine (follows_bind w _ 0 _ [] (Some m0, Some (len m0)) _ (eq fs) _ _ _ _ _
            (forward_follows b w size comm malloc_ok _ _ fs _ (nl +:+ junk) ms 1 s2
               _ _ _ _ _ _)).
  - intros fs1 <-. cbn iota beta. apply follows_fclose. by apply follows_ret.
  - lia.
  - exact Hnp.
  - done.
  - by rewrite Hs2, skip_space_nl.
Qed.

Lemma wide_peer_talks (u : indeterminate) file ndims0 gdims maps (j : nat) :
  talks w size (S j) (wide_peer_trace comm u ndims0 gdims maps size (S j))
    (wide_read_back gdims maps (S j))
    (PIOc_readmap b u file true true true true ndims0 comm).
Proof.
  unfold PIOc_readmap, wide_peer_trace, wide_read_back. cbn [andb negb].
  eapply talks_call; [done|]. eapply talks_call; [done|].
  replace (Z.of_nat (S j) =? 0) with false by (symmetry; apply Z.eqb_neq; lia).
  cbn [app].
  apply talks_wait; [done|]. cbn iota beta.
  apply talks_wait; [done|]. cbn iota beta.
  apply (talks_calloc w size calloc_ok). cbn [negb andb].
  apply talks_wait; [done|]. cbn iota beta.
  destruct (maps !! S j) as [m|] eqn:Hm.
  - replace (Z.of_nat (S j) <? len maps) with true.
    2:{ symmetry. apply Z.ltb_lt. apply lookup_lt_Some in Hm. unfold len. lia. }
    apply talks_wait; [done|]. cbn iota beta. cbn [nth].
    apply (talks_malloc w size malloc_ok). cbn [negb].
    apply talks_wait; [done|]. cbn iota beta.
    apply talks_ret.
  - replace (Z.of_nat (S j) <? len maps) with false.
    2:{ symmetry. apply Z.ltb_ge. apply lookup_ge_None in Hm. unfold len. lia. }
    apply talks_ret.
Qed.

End WideReaderProcesses.

Section WideReaderGroup.
Context (b : build_config) (lw : nat -> world) (file : string) (comm : Z)
  (u : nat -> indeterminate) (ndims0 : nat -> Z)
  (gdims : list Z) (maps : list (list Z)) (extra : nat) (fs : fsys) (junk : string).
Hypothesis not_empty : maps <> [].
Hypothesis typed : map_arguments_typed gdims maps.
Hypothesis malloc_ok : forall j n a t, lw j n (malloc a t) = true.
Hypothesis calloc_ok : forall j n a t, lw j n (calloc a t) = true.
Hypothesis file_ok : fs !! file = Some (map_text gdims maps +:+ junk).
Local Abbreviation wsize := (length maps + extra)%nat.
Local Abbreviation wuntouched := (eq fs).
Local Abbreviation whanded := (wide_read_back gdims maps).
Local Abbreviation wtrace := (wide_trace comm u ndims0 gdims maps wsize).
Local Abbreviation wfw := (wide_forwarding comm u ndims0 gdims maps wsize).

Lemma wide_readers_start :
  group_at lw wsize whanded wuntouched wtrace (readers b u file ndims0 comm wsize) fs.
Proof.
  split; [by rewrite readers_length|].
  intros j p Hj. unfold readers, start_group in Hj.
  change (map (Proc 0)) with (fmap (M := list) (@Proc readmap_out 0)) in Hj.
  rewrite !list_lookup_fmap in Hj. destruct (seq 0 wsize !! j) as [j'|] eqn:Ej; [|done].
  apply lookup_seq in Ej as [-> Hlt]. cbn in Hj. injection Hj as <-. cbn [code].
  destruct j as [|j]; cbn [on_trace]; cbn [wide_trace].
  - destruct maps as [|m0 ms] eqn:Hmaps; [done|]. unfold wide_read_back. cbn [lookup list_lookup].
    eapply wide_root_follows;
      [apply malloc_ok | apply calloc_ok | lia | exact typed | exact file_ok].
  - apply wide_peer_talks; [apply malloc_ok | apply calloc_ok].
Qed.

Lemma wide_positive_size : (0 < wsize)%nat.
Proof. destruct maps; [done | cbn; lia]. Qed.

Lemma wide_bcast_size ps' fs' :
  group_settled lw wsize whanded wuntouched wtrace ps' fs' ->
  exists ps2, fire_first ps' (seq 0 wsize) = Some ps2
              /\ group_at lw wsize whanded wuntouched (fun j => drop 1 (wtrace j)) ps2 fs'.
Proof.
  intros Hset.
  apply (fire_bcast lw wsize whanded wuntouched wtrace _ ps' fs'
           (fun j => Entry (MPI_Bcast_int (match j with O => len maps | S _ => u_rnpes (u j) end)
                              0 comm) (MPI_SUCCESS, len maps))
           (P_int (len maps)) comm); [done | apply wide_positive_size | | |].
  - by intros [|j] Hj.
  - done.
  - intros j n k Hj. unfold bcast_deliver. cbn. by rewrite !bool_decide_eq_true_2.
Qed.

Lemma wide_bcast_ndims ps' fs' :
  group_settled lw wsize whanded wuntouched (fun j => drop 1 (wtrace j)) ps' fs' ->
  exists ps2, fire_first ps' (seq 0 wsize) = Some ps2
              /\ group_at lw wsize whanded wuntouched (fun j => drop 2 (wtrace j)) ps2 fs'.
Proof.
  intros Hset.
  apply (fire_bcast lw wsize whanded wuntouched (fun j => drop 1 (wtrace j)) _ ps' fs'
           (fun j => Entry (MPI_Bcast_int (match j with O => len gdims | S _ => ndims0 j end)
                              0 comm) (MPI_SUCCESS, len gdims))
           (P_int (len gdims)) comm); [done | apply wide_positive_size | | |].
  - by intros [|j] Hj.
  - done.
  - intros j n k Hj. unfold bcast_deliver. cbn. by rewrite !bool_decide_eq_true_2.
Qed.

Lemma wide_bcast_dims ps' fs' :
  group_settled lw wsize whanded wuntouched (fun j => drop 2 (wtrace j)) ps' fs' ->
  exists ps2, fire_first ps' (seq 0 wsize) = Some ps2
              /\ group_at lw wsize whanded wuntouched (wfw 1%nat false) ps2 fs'.
Proof.
  intros Hset.
  apply (fire_bcast lw wsize whanded wuntouched (fun j => drop 2 (wtrace j)) _ ps' fs'
           (fun j => Entry (MPI_Bcast_ints
                              (match j with
                               | O => gdims
                               | S _ => replicate (Z.to_nat (len gdims)) 0
                               end) (len gdims) 0 comm) (MPI_SUCCESS, gdims))
           (P_ints gdims) comm); [done | apply wide_positive_size | | |].
  - intros [|j] Hj; cbn [wide_trace wide_forwarding].
    + unfold wide_root_trace. cbn [drop]. by destruct maps.
    + rewrite decide_False by lia. done.
  - intros k. cbn. by rewrite to_nat_len, firstn_all.
  - intros j n k Hj. unfold bcast_deliver. cbn. by rewrite !bool_decide_eq_true_2.
Qed.

Lemma wide_forward :
  forall c i ps fs1,
  (i + c = length maps)%nat -> (1 <= i)%nat ->
  group_at lw wsize whanded wuntouched (wfw i false) ps fs1 ->
  exists fs', group_run (S (2 * c)) lw ps fs1 = G_done (whanded <$> seq 0 wsize) fs'
              /\ wuntouched fs'.
Proof.
  induction c as [|c IH]; intros i ps fs1 Hic Hi Hat.
  - eapply group_finish; [apply wide_positive_size | exact Hat |].
    intros [|j] Hj; cbn [wide_forwarding].
    + rewrite drop_0, drop_ge by lia. done.
    + destruct (decide (S j < i)%nat); [done|].
      unfold wide_peer_trace. rewrite (proj2 (lookup_ge_None maps (S j))) by lia.
      by rewrite app_nil_r.
  - destruct (lookup_lt_is_Some_2 maps i) as [m Hm]; [lia|].
    assert (drop i maps = m :: drop (S i) maps) as Hdrop by by apply drop_S.
    replace (S (2 * S c)) with (S (S (S (2 * c)))) by lia.
    destruct (group_step lw wsize whanded wuntouched (wfw i false) (wfw i true) ps fs1
                (S (S (2 * c))) 0)
      as (ps2 & fs2 & -> & Hat2); [lia | done | lia | | |].
    { cbn [wide_forwarding]. by rewrite Hdrop. }
    { intros ps' fs' Hset.
      eapply (fire_send lw wsize whanded wuntouched _ _ ps' fs' 0 i
                (MPI_Send_offsets [len m] 1 (Z.of_nat i) (Z.of_nat i + Z.of_nat wsize) comm)
                (MPI_Recv_offsets 1 0 (Z.of_nat i + Z.of_nat wsize) comm)
                MPI_SUCCESS (MPI_SUCCESS, [len m]) _ _ (Z.of_nat i + Z.of_nat wsize) comm
                (Msg_offsets [len m]));
        [done | lia | lia | lia | | | | | | | |].
      - cbn [wide_forwarding]. rewrite drop_0, Hdrop. cbn [forward_trace]. reflexivity.
      - destruct i as [|i]; [lia|]. cbn [wide_forwarding].
        rewrite decide_False by lia. unfold wide_peer_trace. rewrite Hm.
        cbn [andb drop app]. reflexivity.
      - intros; lia.
      - intros k. cbn [outgoing]. reflexivity.
      - intros k. cbn [accept]. cbn [Z.of_nat length].
        by rewrite !bool_decide_eq_true_2.
      - cbn [wide_forwarding]. by rewrite Hdrop.
      - destruct i as [|i]; [lia|]. cbn [wide_forwarding].
        rewrite decide_False by lia. rewrite bool_decide_eq_true_2 by done.
        unfold wide_peer_trace. rewrite Hm. cbn [andb drop app]. done.
      - intros [|j] Hj0 Hji; [done|]. cbn [wide_forwarding andb].
        by rewrite bool_decide_eq_false_2. }
    destruct (group_step lw wsize whanded wuntouched (wfw i true) (wfw (S i) false) ps2 fs2
                (S (2 * c)) 0)
      as (ps3 & fs3 & -> & Hat3); [lia | done | lia | | |].
    { cbn [wide_forwarding]. by rewrite Hdrop. }
    { intros ps' fs' Hset.
      eapply (fire_send lw wsize whanded wuntouched _ _ ps' fs' 0 i
                (MPI_Send_offsets m (len m) (Z.of_nat i) (Z.of_nat i) comm)
                (MPI_Recv_offsets (len m) 0 (Z.of_nat i) comm)
                MPI_SUCCESS (MPI_SUCCESS, m) _ _ (Z.of_nat i) comm (Msg_offsets m));
        [done | lia | lia | lia | | | | | | | |].
      - cbn [wide_forwarding]. rewrite Hdrop. cbn [forward_trace drop]. reflexivity.
      - destruct i as [|i]; [lia|]. cbn [wide_forwarding].
        rewrite decide_False by lia. rewrite bool_decide_eq_true_2 by done.
        unfold wide_peer_trace. rewrite Hm. cbn [andb drop app]. reflexivity.
      - intros; lia.
      - intros k. cbn [outgoing]. by rewrite to_nat_len, firstn_all.
      - intros k. cbn [accept]. cbn [Z.of_nat]. unfold len.
        rewrite !bool_decide_eq_true_2 by lia. done.
      - cbn [wide_forwarding]. by rewrite drop_0.
      - destruct i as [|i]; [lia|]. cbn [wide_forwarding]. by rewrite decide_True by lia.
      - intros [|j] Hj0 Hji; [done|]. cbn [wide_forwarding andb].
        rewrite bool_decide_eq_false_2 by done. cbn [andb].
        destruct (decide (S j < i)%nat); [by rewrite decide_True by lia|].
        by rewrite decide_False by lia. }
    apply (IH (S i)); [lia | lia | done].
Qed.

(** Every reader returns the dimensions; a reader whose rank is among those
    of the writers returns the map written at its rank, the others none. *)
Lemma wide_readers_run :
  group_run (2 * length maps + 2) lw (readers b u file ndims0 comm wsize) fs
  = G_done ((read_back gdims <$> maps) ++ replicate extra (no_map gdims)) fs.
Proof.
  pose proof wide_positive_size as HN.
  assert (0 < length maps)%nat as HM by (destruct maps; [done | cbn; lia]).
  replace (2 * length maps + 2)%nat with (S (S (S (S (2 * (length maps - 1)))))) by lia.
  destruct (group_step lw wsize whanded wuntouched wtrace (fun j => drop 1 (wtrace j))
              (readers b u file ndims0 comm wsize) fs (S (S (S (2 * (length maps - 1))))) 0)
    as (ps1 & fs1 & -> & Hat1);
    [done | apply wide_readers_start | done | done | apply wide_bcast_size |].
  destruct (group_step lw wsize whanded wuntouched (fun j => drop 1 (wtrace j))
              (fun j => drop 2 (wtrace j))
              ps1 fs1 (S (S (2 * (length maps - 1)))) 0)
    as (ps2 & fs2 & -> & Hat2);
    [done | done | done | done | apply wide_bcast_ndims |].
  destruct (group_step lw wsize whanded wuntouched (fun j => drop 2 (wtrace j)) (wfw 1%nat false)
              ps2 fs2 (S (2 * (length maps - 1))) 0)
    as (ps3 & fs3 & -> & Hat3);
    [done | done | done | done | apply wide_bcast_dims |].
  destruct (wide_forward (length maps - 1) 1 ps3 fs3) as (fs' & -> & <-); [lia | lia | done |].
  f_equal. apply list_eq. intros j. rewrite !list_lookup_fmap. unfold wide_read_back.
  destruct (maps !! j) as [m|] eqn:Hm.
  - rewrite lookup_seq_lt by (apply lookup_lt_Some in Hm; lia). cbn. rewrite Hm.
    rewrite lookup_app_l by (rewrite length_fmap; by eapply lookup_lt_Some).
    by rewrite list_lookup_fmap, Hm.
  - apply lookup_ge_None in Hm.
    rewrite lookup_app_r by (by rewrite length_fmap). rewrite length_fmap.
    destruct (decide (j < wsize)%nat).
    + rewrite lookup_seq_lt by done. cbn.
      rewrite (proj2 (lookup_ge_None maps j)) by done.
      by rewrite lookup_replicate_2 by lia.
    + rewrite lookup_seq_ge by lia. symmetry. apply lookup_replicate_None. lia.
Qed.

End WideReaderGroup.





(** ** The stack dump in the map file *)

Section WriterDump.
Context (b : build_config) (file : string) (comm : Z) (gdims : list Z).

Lemma print_trace_dump (w : world) size rank fs0 content frames :
  (forall n, w n (backtrace_symbols 10) = frames) ->
  follows w size rank [] tt (eq (<[file := content +:+ dump_text frames]> fs0))
    (print_trace (Some (file_stream file))) (<[file := content]> fs0).
Proof.
  intros Hdump n. unfold print_trace.
  cbn [settle call mbind prog_bind bind local_answer default from_option id].
  rewrite alter_insert_eq. cbn beta. rewrite Hdump. unfold dump_text.
  rewrite <- !append_assoc.
  generalize (S (S n)).
  generalize ((((content +:+ "Obtained ") +:+ print_int (Z.of_nat (length frames)))
              +:+ " stack frames.") +:+ nl).
  clear Hdump. induction frames as [|s l IH]; intros text m;
    cbn [frames_text foldr settle call mbind prog_bind bind local_answer mret prog_ret id].
  - destruct (w m (free_block "strings")). eexists _, _, _. split; [done|]. split; [done|].
    by rewrite append_nil_r.
  - rewrite alter_insert_eq. cbn beta.
    specialize (IH (text +:+ s +:+ nl) (S m)). fold (frames_text l).
    assert (text +:+ s +:+ nl +:+ frames_text l = (text +:+ s +:+ nl) +:+ frames_text l) as ->
      by by rewrite !append_assoc.
    apply IH.
Qed.

(** The representative of the writers, with the file it leaves. *)
Lemma writer_root_dumps (w : world) (m0 : list Z) (ms : list (list Z)) fs0 frames :
  (forall n a t, w n (malloc a t) = true) ->
  (forall n, w n (fopen_w file) = true) ->
  (forall n, w n (backtrace_symbols 10) = frames) ->
  follows w (length (m0 :: ms)) 0 (writer_root_trace comm (m0 :: ms)) PIO_NOERR
    (eq (<[file := map_text gdims (m0 :: ms) +:+ dump_text frames]> fs0))
    (PIOc_writemap b file (len gdims) gdims (len m0) m0 comm) fs0.
Proof.
  intros malloc_ok fopen_ok Hdump. unfold PIOc_writemap, writer_root_trace.
  eapply follows_call; [done|]. eapply follows_call; [done|].
  change (Z.of_nat 0 =? 0) with true. cbn iota.
  apply follows_malloc; [done|]. cbn [negb].
  apply follows_wait; [done|]. cbn iota beta.
  eapply follows_call; [intros n; cbn [local_answer]; by rewrite fopen_ok|]. cbn [negb].
  apply (follows_fputs w _ 0 file), print_numbers_all, follows_fputs, follows_fputs.
  replace (elem (len <$> m0 :: ms) 0) with (len m0) by done.
  apply print_numbers_all, follows_fputs.
  replace (Z.to_nat (Z.of_nat (length (m0 :: ms)) - 1)) with (length ms) by (cbn [length]; lia).
  cbn [nth tail]. rewrite <- (app_nil_r (collect_trace _ _ _ _)).
  match goal with
  | |- context [<[file := ?c]> fs0] =>
      refine (follows_bind w _ 0 _ [] tt PIO_NOERR
                (eq (<[file := c +:+ records_text 1 ms]> fs0)) _ _ _ _ _
                (collect_follows w _ 0 file comm malloc_ok fs0 _ _ ms 1 c _))
  end.
  - intros fs1 <-. apply follows_fputs.
    refine (follows_bind w _ 0 [] [] tt PIO_NOERR _ _ _ _ _ _
              (print_trace_dump w _ 0 fs0 _ frames Hdump)).
    intros fs1 <-.
    apply follows_fclose, follows_ret.
    f_equal. unfold map_text. cbn [records_text]. unfold record_text at 1.
    rewrite !append_assoc. done.
  - intros k m Hk. unfold elem. rewrite Nat2Z.id. cbn [Nat.add fmap list_fmap nth].
    unfold len. erewrite nth_lookup_Some; [done|]. by rewrite list_lookup_fmap, Hk.
Qed.

End WriterDump.

Section WriterGroupDump.
Context (b : build_config) (lw : nat -> world) (file : string) (comm : Z)
  (gdims : list Z) (maps : list (list Z)) (fs0 : fsys) (frames : list string).
Hypothesis not_empty : maps <> [].
Hypothesis malloc_ok : forall n a t, lw 0%nat n (malloc a t) = true.
Hypothesis fopen_ok : forall n, lw 0%nat n (fopen_w file) = true.
Hypothesis dump : forall n, lw 0%nat n (backtrace_symbols 10) = frames.
Local Abbreviation group_size := (length maps).
Local Abbreviation dumped := (eq (<[file := map_text gdims maps +:+ dump_text frames]> fs0)).
Local Abbreviation no_error := (fun _ : nat => PIO_NOERR).

Lemma dumping_start :
  group_at lw group_size no_error dumped (writer_trace comm maps)
    (writers b file gdims maps comm) fs0.
Proof.
  split; [by unfold writers, start_group; rewrite length_map, length_fmap|].
  intros j p Hj. unfold writers, start_group in Hj.
  change (map (Proc 0)) with (fmap (M := list) (@Proc Z 0)) in Hj.
  rewrite !list_lookup_fmap in Hj. destruct (maps !! j) as [m|] eqn:Hm; [|done].
  cbn in Hj. injection Hj as <-. cbn [code].
  destruct j as [|j]; cbn [on_trace writer_trace].
  - destruct maps as [|m0 ms]; [done|]. injection Hm as ->.
    by apply writer_root_dumps.
  - erewrite nth_lookup_Some by done. apply writer_peer_talks.
Qed.

Lemma dumping_gather ps' fs' :
  group_settled lw group_size no_error dumped (writer_trace comm maps) ps' fs' ->
  exists ps2, fire_first ps' (seq 0 group_size) = Some ps2
              /\ group_at lw group_size no_error dumped (collecting comm maps 1 false) ps2 fs'.
Proof.
  intros Hset.
  assert (0 < group_size)%nat as HN by (destruct maps; [done | cbn; lia]).
  apply (fire_gather lw group_size no_error dumped (writer_trace comm maps) _ ps' fs'
           (fun j => Entry (MPI_Gather_offset (len (nth j maps [])) 0 comm)
                       (MPI_SUCCESS, if bool_decide (Z.of_nat j = 0) then len <$> maps else []))
           (fun j => len (nth j maps [])) (len (nth 0 maps [])) comm); [done | done | | |].
  - intros [|j] Hj; cbn [writer_trace collecting].
    + unfold writer_root_trace. rewrite drop_0. f_equal.
    + rewrite decide_False by lia. unfold writer_peer_trace. cbn [andb drop]. f_equal.
  - done.
  - intros j n k Hj. cbn [projT1 projT2 Entry]. split.
    + unfold gather_value. cbn. by rewrite !bool_decide_eq_true_2.
    + unfold gather_deliver. cbn [code calls]. by rewrite lens_seq.
Qed.

Lemma dumping_collect :
  forall c i ps fs,
  (i + c = group_size)%nat -> (1 <= i)%nat ->
  group_at lw group_size no_error dumped (collecting comm maps i false) ps fs ->
  exists fs', group_run (S (2 * c)) lw ps fs = G_done (no_error <$> seq 0 group_size) fs'
              /\ dumped fs'.
Proof.
  induction c as [|c IH]; intros i ps fs Hic Hi Hat.
  - eapply group_finish; [lia | exact Hat |].
    intros [|j] Hj; cbn [collecting].
    + rewrite drop_0, drop_ge by lia. done.
    + by rewrite decide_True by lia.
  - destruct (lookup_lt_is_Some_2 maps i) as [m Hm]; [lia|].
    assert (drop i maps = m :: drop (S i) maps) as Hdrop by by apply drop_S.
    replace (S (2 * S c)) with (S (S (S (2 * c)))) by lia.
    destruct (group_step lw group_size no_error dumped (collecting comm maps i false)
                (collecting comm maps i true) ps fs (S (S (2 * c))) 0)
      as (ps2 & fs2 & -> & Hat2); [lia | done | lia | | |].
    { cbn [collecting]. by rewrite Hdrop. }
    { intros ps' fs' Hset.
      eapply (fire_send lw group_size no_error dumped _ _ ps' fs' 0 i
                (MPI_Send_int (Z.of_nat i) (Z.of_nat i) (len maps + Z.of_nat i) comm)
                (MPI_Recv_int 0 (len maps + Z.of_nat i) comm)
                MPI_SUCCESS (MPI_SUCCESS, Z.of_nat i) _ _ (len maps + Z.of_nat i) comm
                (Msg_int (Z.of_nat i)));
        [done | lia | lia | lia | | | | | | | |].
      - cbn [collecting]. rewrite drop_0, Hdrop. cbn [collect_trace]. reflexivity.
      - destruct i as [|i]; [lia|]. cbn [collecting].
        rewrite decide_False by lia. cbn [andb drop writer_peer_trace].
        erewrite nth_lookup_Some by done. reflexivity.
      - intros; lia.
      - intros k. cbn [outgoing]. reflexivity.
      - intros k. cbn [accept]. cbn [Z.of_nat]. unfold len.
        by rewrite !bool_decide_eq_true_2.
      - cbn [collecting]. by rewrite Hdrop.
      - destruct i as [|i]; [lia|]. cbn [collecting].
        rewrite decide_False by lia. rewrite bool_decide_eq_true_2 by done.
        cbn [andb drop writer_peer_trace]. by erewrite nth_lookup_Some.
      - intros [|j] Hj0 Hji; [done|]. cbn [collecting andb].
        by rewrite bool_decide_eq_false_2. }
    destruct (group_step lw group_size no_error dumped (collecting comm maps i true)
                (collecting comm maps (S i) false) ps2 fs2 (S (2 * c)) 0)
      as (ps3 & fs3 & -> & Hat3); [lia | done | lia | | |].
    { cbn [collecting]. by rewrite Hdrop. }
    { intros ps' fs' Hset.
      eapply (fire_send lw group_size no_error dumped _ _ ps' fs' i 0
                (MPI_Send_offsets m (len m) 0 (Z.of_nat i) comm)
                (MPI_Recv_offsets (len m) (Z.of_nat i) (Z.of_nat i) comm)
                MPI_SUCCESS (MPI_SUCCESS, m) [] _ (Z.of_nat i) comm (Msg_offsets m));
        [done | lia | lia | lia | | | | | | | |].
      - destruct i as [|i]; [lia|]. cbn [collecting].
        rewrite decide_False by lia. rewrite bool_decide_eq_true_2 by done.
        cbn [andb drop writer_peer_trace]. by erewrite nth_lookup_Some.
      - cbn [collecting]. rewrite Hdrop. cbn [collect_trace drop]. reflexivity.
      - intros [|j] Hj; cbn [collecting].
        + by rewrite Hdrop.
        + by rewrite decide_True by lia.
      - intros k. cbn [outgoing]. unfold len. by rewrite Nat2Z.id, firstn_all.
      - intros k. cbn [accept]. unfold len.
        rewrite !bool_decide_eq_true_2 by lia. done.
      - destruct i as [|i]; [lia|]. cbn [collecting]. by rewrite decide_True by lia.
      - cbn [collecting]. by rewrite drop_0.
      - intros [|j] Hj0 Hji; [done|]. cbn [collecting andb].
        rewrite bool_decide_eq_false_2 by done. cbn [andb].
        destruct (decide (S j < i)%nat); [by rewrite decide_True by lia|].
        by rewrite decide_False by lia. }
    apply (IH (S i)); [lia | lia | done].
Qed.

Lemma dumping_run :
  group_run (2 * group_size) lw (writers b file gdims maps comm) fs0
  = G_done (replicate group_size PIO_NOERR)
      (<[file := map_text gdims maps +:+ dump_text frames]> fs0).
Proof.
  assert (0 < group_size)%nat as HN by (destruct maps; [done | cbn; lia]).
  replace (2 * group_size)%nat with (S (S (2 * (group_size - 1)))) by lia.
  destruct (group_step lw group_size no_error dumped (writer_trace comm maps)
              (collecting comm maps 1 false)
              (writers b file gdims maps comm) fs0 (S (2 * (group_size - 1))) 0)
    as (ps2 & fs2 & -> & Hat2); [done | apply dumping_start | done | done | apply dumping_gather |].
  destruct (dumping_collect (group_size - 1) 1 ps2 fs2) as (fs' & -> & <-); [lia | lia | done |].
  f_equal.
  apply list_eq. intros j. rewrite list_lookup_fmap.
  destruct (decide (j < group_size)%nat).
  - rewrite lookup_seq_lt, lookup_replicate_2 by done. done.
  - rewrite lookup_seq_ge by lia. symmetry. apply lookup_replicate_None. lia.
Qed.

End WriterGroupDump.



(** ** Running out of memory *)

Section Checks.
Context (b : build_config) (callocs : bool).

Lemma reports_memory_bind {A B : Type} (p : prog A) (f : A -> prog B) :
  reports_memory b p -> reports_memory b (p ≫= f).
Proof.
  intros Hp w n. specialize (Hp w n). rewrite run_from_bind.
  destruct (run_from w n p) as [t [a|h]]; [by destruct Hp|].
  destruct Hp as ([= ->] & Ht). by split.
Qed.

Lemma reports_memory_piodie {A : Type} line :
  reports_memory b (@piodie A b (Some "Memory allocation error "%string) (Some this_file) line).
Proof.
  intros w n.
  destruct (piodie_dies (A:=A) b (Some "Memory allocation error "%string) (Some this_file)
              line w n) as (t & -> & Ht).
  split; [done|]. by eexists _, _.
Qed.

Lemma checks_memory_bind {A B : Type} (p : prog A) (f : A -> prog B) :
  checks_memory b callocs p -> (forall a, checks_memory b callocs (f a)) ->
  checks_memory b callocs (p ≫= f).
Proof.
  unfold mbind, prog_bind. intros Hp Hf.
  induction Hp as [a | h | e k Hq Hk IH]; cbn; [apply Hf | constructor |].
  constructor; [|done]. intros r Hr. by apply (reports_memory_bind (k r) f), Hq.
Qed.

Lemma checks_memory_call {A : Type} (e : event) (f : resp e -> prog A) :
  (forall r, failed_allocation callocs (Entry e r) = true -> reports_memory b (f r)) ->
  (forall r, checks_memory b callocs (f r)) ->
  checks_memory b callocs (call e ≫= f).
Proof. intros Hq Hf. unfold mbind, prog_bind, call. cbn. by constructor. Qed.

Lemma checks_memory_last (e : event) :
  (forall r, failed_allocation callocs (Entry e r) = false) ->
  checks_memory b callocs (call e).
Proof.
  intros He. constructor; [|constructor]. intros r Hr. by rewrite He in Hr.
Qed.

Lemma checks_memory_diagnostic {A : Type} (p : prog A) :
  only_calls is_diagnostic p -> checks_memory b callocs p.
Proof.
  induction 1 as [a | h | e k He Hk IH]; constructor; [|done].
  intros r Hr. by destruct e.
Qed.

Lemma checks_memory_piodie {A : Type} msg fname line :
  checks_memory b callocs (@piodie A b msg fname line).
Proof. apply checks_memory_diagnostic, piodie_diagnostic. Qed.

(** In a run of such a computation, an allocation that fails is followed
    by the report and by nothing else. *)
Lemma checks_memory_run {A : Type} (p : prog A) :
  checks_memory b callocs p ->
  forall (w : world) n tr out pre x post,
    run_from w n p = (tr, out) -> tr = pre ++ x :: post ->
    failed_allocation callocs x = true ->
    memory_report b post out.
Proof.
  induction 1 as [a | h | e k Hq Hk IH]; intros w n tr out pre x post E Htr Hx.
  - cbn in E. injection E as <- <-. by destruct pre.
  - cbn in E. injection E as <- <-. by destruct pre.
  - cbn [run_from] in E.
    destruct (run_from w (S n) (k (w n e))) as [t o] eqn:Ek. injection E as <- <-.
    destruct pre as [|y pre]; cbn [app] in Htr.
    + injection Htr as <- <-. specialize (Hq (w n e) Hx w (S n)). by rewrite Ek in Hq.
    + injection Htr as <- ->.
      by apply (IH (w n e) w (S n) _ _ pre x post Ek).
Qed.

End Checks.

Ltac checks_tac :=
  repeat first
    [ apply checks_Ret
    | apply checks_Abort
    | apply checks_memory_piodie
    | assumption
    | match goal with
      | |- checks_memory _ _ (mret _) => apply checks_Ret
      | |- checks_memory _ _ (call ?e ≫= _) =>
          apply checks_memory_call;
          [ let r := fresh "r" in
            let H := fresh "H" in
            intros r H; cbn in H;
            first [ discriminate H
                  | destruct r; [discriminate H|]; apply reports_memory_piodie ]
          | intros ]
      | |- checks_memory _ _ (call ?e) => apply checks_memory_last; done
      | |- checks_memory _ _ (if ?c then _ else _) => destruct c
      | |- checks_memory _ _ (match ?c with _ => _ end) => destruct c
      | |- checks_memory _ _ (let '(_, _) := ?c in _) => destruct c
      end ].

Lemma readmap_records_checks b callocs npes comm junk :
  forall cnt i s j maplen out,
  checks_memory b callocs (readmap_records b npes comm cnt i s j maplen out junk).
Proof.
  induction cnt as [|cnt IH]; intros i s j maplen out; cbn [readmap_records].
  - checks_tac.
  - checks_tac; apply IH.
Qed.

(** [PIOc_readmap] tests every [malloc]. *)
Lemma readmap_checks_malloc b u file ndims gdims fmaplen map ndims0 comm :
  checks_memory b false (PIOc_readmap b u file ndims gdims fmaplen map ndims0 comm).
Proof.
  unfold PIOc_readmap. checks_tac.
  all: try (apply checks_memory_bind; [apply readmap_records_checks | intros [??]]).
  all: checks_tac.
Qed.

Lemma readmap_memory b u file ndims gdims fmaplen map ndims0 comm (w : world)
    tr out pre x post :
  run w (PIOc_readmap b u file ndims gdims fmaplen map ndims0 comm) = (tr, out) ->
  tr = pre ++ x :: post ->
  failed_allocation false x = true
  \/ (w 1%nat (MPI_Comm_rank comm) = 0 /\ failed_allocation true x = true) ->
  memory_report b post out.
Proof.
  intros E Htr [Hx | [Hrank Hx]].
  { eapply checks_memory_run; [apply readmap_checks_malloc | exact E | exact Htr | exact Hx]. }
  revert E. unfold PIOc_readmap, run.
  destruct (negb _).
  { intros E. eapply checks_memory_run; [apply checks_memory_piodie | exact E | exact Htr | exact Hx]. }
  run_call_at. run_call_at. rewrite Hrank. change (0 =? 0) with true. cbn iota.
  match goal with
  | |- context [run_from w ?k ?p] =>
      assert (checks_memory b true p) as Hp;
      [|destruct (run_from w k p) as [t o] eqn:Ep]
  end.
  { checks_tac.
    all: try (apply checks_memory_bind; [apply readmap_records_checks | intros [??]]).
    all: checks_tac. }
  intros [= <- <-].
  destruct pre as [|y0 pre]; cbn [app] in Htr; [by injection Htr as <- _|].
  injection Htr as _ Htr.
  destruct pre as [|y1 pre]; cbn [app] in Htr; [by injection Htr as <- _|].
  injection Htr as _ Htr.
  by eapply checks_memory_run.
Qed.

(** The first allocation of [PIOc_writemap] (line 632). *)
Lemma writemap_no_memory b file ndims gdims maplen map comm (w : world) :
  w 1%nat (MPI_Comm_rank comm) = 0 ->
  w 2%nat (malloc (w 0%nat (MPI_Comm_size comm)) T_PIO_Offset) = false ->
  exists t,
    run w (PIOc_writemap b file ndims gdims maplen map comm)
    = (Entry (MPI_Comm_size comm) (w 0%nat (MPI_Comm_size comm))
         :: Entry (MPI_Comm_rank comm) 0
         :: Entry (malloc (w 0%nat (MPI_Comm_size comm)) T_PIO_Offset) false :: t,
       Terminated (die b))
    /\ events_of t
       = fputs stderr (abort_message (Some "Memory allocation error ") (Some this_file) 633)
         :: stack_dump stderr (w 4%nat (backtrace_symbols 10)).
Proof.
  intros Hrank Hm. unfold PIOc_writemap, run.
  run_call_at. run_call_at. rewrite Hrank. change (0 =? 0) with true. cbn iota.
  run_call_at. rewrite Hm. cbn [negb].
  destruct (piodie_dies (A:=Z) b (Some "Memory allocation error "%string) (Some this_file)
              633 w 3) as (t & -> & Ht).
  by exists t.
Qed.

(** The allocation of line 590 is not tested: a reader other than the
    representative hands the null pointer to [MPI_Bcast]. *)
Lemma readmap_untested_calloc b u file ndims0 comm (w : world) myrank rc1 rnpes rc2 nd :
  w 1%nat (MPI_Comm_rank comm) = myrank ->
  w 2%nat (MPI_Bcast_int (u_rnpes u) 0 comm) = (rc1, rnpes) ->
  w 3%nat (MPI_Bcast_int ndims0 0 comm) = (rc2, nd) ->
  w 4%nat (calloc nd T_int) = false ->
  myrank <> 0 -> 0 < nd ->
  run w (PIOc_readmap b u file true true true true ndims0 comm)
  = ([Entry (MPI_Comm_size comm) (w 0%nat (MPI_Comm_size comm));
      Entry (MPI_Comm_rank comm) myrank;
      Entry (MPI_Bcast_int (u_rnpes u) 0 comm) (rc1, rnpes);
      Entry (MPI_Bcast_int ndims0 0 comm) (rc2, nd);
      Entry (calloc nd T_int) false],
     Terminated (C_undefined "MPI_Bcast into a null tdims")).
Proof.
  intros H1 H2 H3 H4 Hrank Hnd.
  unfold PIOc_readmap, run. cbn [andb negb].
  run_call_at. run_call_at. rewrite H1.
  rewrite (proj2 (Z.eqb_neq myrank 0) Hrank).
  run_call_at. rewrite H2. run_call_at. rewrite H3. run_call_at. rewrite H4.
  rewrite (proj2 (Z.ltb_lt 0 nd) Hnd). done.
Qed.

(** The allocation of line 656 is not tested either: the representative of
    the writers asks for the map and receives it into the null pointer. *)
Lemma writemap_untested_malloc npes comm fp nmaplen i (w : world) n :
  w n (malloc (elem nmaplen i) T_PIO_Offset) = false ->
  0 < elem nmaplen i ->
  run_from w n (writemap_fetch npes comm fp nmaplen i)
  = ([Entry (malloc (elem nmaplen i) T_PIO_Offset) false;
      Entry (MPI_Send_int i i (npes + i) comm) (w (S n) (MPI_Send_int i i (npes + i) comm))],
     Terminated (C_undefined "MPI_Recv into a null nmap")).
Proof.
  intros Hm Hlen. unfold writemap_fetch. run_call. rewrite Hm. run_call.
  rewrite (proj2 (Z.ltb_lt 0 _) Hlen). cbn. by rewrite Nat.add_1_r.
Qed.

(** An exhausted pool: [alloc_region] and [malloc_iodesc] hand a null
    pointer to their caller, and [malloc_iodesc] hands back a descriptor
    without a region list when only its region cannot be served. *)
Lemma pool_exhausted T swapm m junk junk_region piotype nd p :
  alloc_region m [] junk_region nd = Done (NULL, m, [])
  /\ malloc_iodesc T swapm m [] junk junk_region piotype nd = Done (None, m, [])
  /\ (p <> NULL ->
      exists d extra m',
        malloc_iodesc T swapm m [p] junk junk_region piotype nd
        = Done (Some (p, d, extra), m', [])
        /\ firstregion d = NULL).
Proof.
  split; [done|]. split; [done|].
  intros Hp. unfold malloc_iodesc. cbn [bget].
  rewrite !(bool_decide_eq_false_2 _ Hp). cbn [alloc_region bget].
  change (bool_decide (NULL = NULL)) with true. cbn iota.
  cbn [mbind result_mbind result_bind].
  by eexists _, _, _.
Qed.

(** C8 does not hold as stated: when the allocation of the file record
    fails, [PIOc_openfile_retry] returns [PIO_ENOMEM] to its caller (line
    738), after that single call; the process is not terminated. *)
Lemma openfile_out_of_memory_is_returned :
  run no_memory
    (PIOc_openfile_retry b_example g_example 1 true (Some PIO_IOTYPE_NETCDF)
       (Some "f.nc"%string) 0 1)
  = ([Entry (malloc 1 T_file_desc_t) false],
     Returned (OpenResult PIO_ENOMEM None None g_example)).
Proof. reflexivity. Qed.

(** C8, amended.  Running out of memory is fatal where the code tests for
    it and calls [piodie] or [piomemerror].  [piomemerror] reports the state
    of the buffer pool, writes its report and the stack dump and terminates
    the process.  In every run of [PIOc_readmap] a [malloc] that fails, and
    on the representative also the [calloc] that fails, is the last call
    before the report [Memory allocation error], the stack dump and the
    termination; so is the first [malloc] of the representative of
    [PIOc_writemap] (line 632).  None of these is handed back to the
    caller.  It is not so for every allocation: [PIOc_openfile_retry]
    returns [PIO_ENOMEM] when the allocation of its file record fails, after
    that single call; with an exhausted pool [alloc_region] and
    [malloc_iodesc] return a null pointer, and [malloc_iodesc] hands back a
    descriptor without a region list when only the region cannot be served;
    and two allocations are not tested at all: on a reader other than the
    representative the null pointer of line 590 is handed to [MPI_Bcast],
    and the null pointer of line 656 to [MPI_Recv]. *)
Theorem out_of_memory_policy :
  (forall (A : Type) b ios req fname line (w : world) n,
     exists t,
       run_from w n (@piomemerror A b ios req fname line) = (t, Terminated (die b))
       /\ events_of t
          = cn_buffer_report (iosysid ios) false
            :: fputs stderr
                 (abort_message
                    (Some ("out of memory requesting: " +:+ print_int (long_wrap req)))
                    fname line)
            :: stack_dump stderr (w (S (S n)) (backtrace_symbols 10)))
  /\ (forall b u file ndims gdims fmaplen map ndims0 comm (w : world) tr out pre x post,
        run w (PIOc_readmap b u file ndims gdims fmaplen map ndims0 comm) = (tr, out) ->
        tr = pre ++ x :: post ->
        failed_allocation false x = true
        \/ (w 1%nat (MPI_Comm_rank comm) = 0 /\ failed_allocation true x = true) ->
        memory_report b post out)
  /\ (forall b file ndims gdims maplen map comm (w : world),
        w 1%nat (MPI_Comm_rank comm) = 0 ->
        w 2%nat (malloc (w 0%nat (MPI_Comm_size comm)) T_PIO_Offset) = false ->
        exists t,
          run w (PIOc_writemap b file ndims gdims maplen map comm)
          = (Entry (MPI_Comm_size comm) (w 0%nat (MPI_Comm_size comm))
               :: Entry (MPI_Comm_rank comm) 0
               :: Entry (malloc (w 0%nat (MPI_Comm_size comm)) T_PIO_Offset) false :: t,
             Terminated (die b))
          /\ events_of t
             = fputs stderr
                 (abort_message (Some "Memory allocation error ") (Some this_file) 633)
               :: stack_dump stderr (w 4%nat (backtrace_symbols 10)))
  /\ (forall b g iosysid iot fname mode retry (w : world) ios,
        PIO_IOTYPE_PNETCDF <= iot <= PIO_IOTYPE_NETCDF4P ->
        pio_get_iosystem_from_id (pio_iosystem_list g) iosysid = Some ios ->
        w 0%nat (malloc 1 T_file_desc_t) = false ->
        run w (PIOc_openfile_retry b g iosysid true (Some iot) (Some fname) mode retry)
        = ([Entry (malloc 1 T_file_desc_t) false],
           Returned (OpenResult PIO_ENOMEM None None g)))
  /\ (forall T swapm m junk junk_region piotype nd p,
        alloc_region m [] junk_region nd = Done (NULL, m, [])
        /\ malloc_iodesc T swapm m [] junk junk_region piotype nd = Done (None, m, [])
        /\ (p <> NULL ->
            exists d extra m',
              malloc_iodesc T swapm m [p] junk junk_region piotype nd
              = Done (Some (p, d, extra), m', [])
              /\ firstregion d = NULL))
  /\ (forall b u file ndims0 comm (w : world) myrank rc1 rnpes rc2 nd,
        w 1%nat (MPI_Comm_rank comm) = myrank ->
        w 2%nat (MPI_Bcast_int (u_rnpes u) 0 comm) = (rc1, rnpes) ->
        w 3%nat (MPI_Bcast_int ndims0 0 comm) = (rc2, nd) ->
        w 4%nat (calloc nd T_int) = false ->
        myrank <> 0 -> 0 < nd ->
        run w (PIOc_readmap b u file true true true true ndims0 comm)
        = ([Entry (MPI_Comm_size comm) (w 0%nat (MPI_Comm_size comm));
            Entry (MPI_Comm_rank comm) myrank;
            Entry (MPI_Bcast_int (u_rnpes u) 0 comm) (rc1, rnpes);
            Entry (MPI_Bcast_int ndims0 0 comm) (rc2, nd);
            Entry (calloc nd T_int) false],
           Terminated (C_undefined "MPI_Bcast into a null tdims")))
  /\ (forall npes comm fp nmaplen i (w : world) n,
        w n (malloc (elem nmaplen i) T_PIO_Offset) = false ->
        0 < elem nmaplen i ->
        run_from w n (writemap_fetch npes comm fp nmaplen i)
        = ([Entry (malloc (elem nmaplen i) T_PIO_Offset) false;
            Entry (MPI_Send_int i i (npes + i) comm)
              (w (S n) (MPI_Send_int i i (npes + i) comm))],
           Terminated (C_undefined "MPI_Recv into a null nmap"))).
Proof.
  split_and!.
  - intros. apply piomemerror_dies.
  - intros. by eapply readmap_memory.
  - intros. by apply writemap_no_memory.
  - intros b g iosysid iot fname mode retry w ios Hr Hios Hm.
    unfold PIOc_openfile_retry, run.
    destruct (_ || _) eqn:E.
    { apply orb_true_iff in E as [E | E]; apply Z.ltb_lt in E; lia. }
    rewrite Hios. unfold mbind, prog_bind. simpl. by rewrite Hm.
  - intros. by apply pool_exhausted.
  - intros. by apply readmap_untested_calloc.
  - intros. by apply writemap_untested_malloc.
Qed.

(** The open call, the representative of the readers and the
    representative of the writers in an environment that has no memory
    left. *)
Lemma out_of_memory_policy_witness :
  run no_memory
    (PIOc_openfile_retry b_example g_example 1 true (Some PIO_IOTYPE_NETCDF)
       (Some "f.nc"%string) 0 1)
  = ([Entry (malloc 1 T_file_desc_t) false],
     Returned (OpenResult PIO_ENOMEM None None g_example))
  /\ (exists t,
        run no_memory (PIOc_writemap b_example "map.txt" 1 [10] 2 [5; 6] 5)
        = (Entry (MPI_Comm_size 5) 1 :: Entry (MPI_Comm_rank 5) 0
             :: Entry (malloc 1 T_PIO_Offset) false :: t,
           Terminated (die b_example))
        /\ events_of t
           = fputs stderr
               (abort_message (Some "Memory allocation error ") (Some this_file) 633)
             :: stack_dump stderr []).
Proof.
  split.
  - apply (proj1 (proj2 (proj2 (proj2 out_of_memory_policy)))) with (ios := ios_example);
      [unfold PIO_IOTYPE_PNETCDF, PIO_IOTYPE_NETCDF, PIO_IOTYPE_NETCDF4P; lia
      | reflexivity | reflexivity].
  - apply (proj1 (proj2 (proj2 out_of_memory_policy)) b_example "map.txt"%string 1 [10] 2
             [5; 6] 5 no_memory); reflexivity.
Defined.
